(* ===== verification/_CoqProject ===== *)
-Q . S2P
Prelude.v
GoLang.v
GoText.v
GoFloat.v
FloatFacts.v
GoSort.v
GoTime.v
Effects.v
Model.v
Scheduler.v
Badger.v
Balancer.v
World.v
Store.v
StoreFacts.v
StoreTheorems.v
Events.v
Base64.v
Secrets.v
Rollout.v
Placement.v
Reconcile.v
ReconcileFacts.v
ReconcileTheorems.v
Convergence.v
RolloutTheorems.v
Deployments.v
Nodes.v
Services.v
Autoscaler.v
RBAC.v
Volumes.v
Lease.v
Jobs.v
Control.v
Metrics.v
Validation.v
Auth.v
Http.v
Handlers.v
Worker.v
Grpc.v
Dns.v
Managers.v
Config.v
Runtimes.v
Kms.v
Url.v
Agent.v
Commands.v
Invariant.v
Machine.v
JobTheorems.v
NodeTheorems.v
PlacementTheorems.v
DeploymentTheorems.v
EndpointTheorems.v
ServiceTheorems.v
HttpFacts.v
Panics.v
HttpTheorems.v
HttpMeaning.v
HttpAnswers.v
TrafficTheorems.v
AuthTheorems.v
WorkerTheorems.v
EndToEnd.v
Availability.v
Samples.v
Witnesses.v
ServerWitnesses.v
EndToEndWitnesses.v
Scenarios.v
