(* ===== verification/Prelude.v ===== *)
(** * A verification library for the container orchestrator

    The program is a control plane for containers in Go.  Its core keeps all
    state in a key-value database ([internal/store]) and changes it through
    one service object, the orchestrator ([internal/service]): API calls
    create, update and delete deployments, services, nodes, volumes, policies
    and jobs; a control loop reconciles the stored state, choosing nodes with
    the scheduler ([internal/scheduler]), balancing traffic with the balancer
    ([internal/loadbalancer]) and queueing assignments.  Around the core, an
    HTTP server ([internal/api]) with authentication ([internal/auth]), a gRPC
    server and a DNS server turn requests into its operations, a controller
    manager runs the control loop of the leader, and on every node a worker
    ([internal/worker]) polls assignments through the agent's client
    ([internal/agent]) and drives a container runtime ([internal/runtime]).
    This library is a shallow embedding of the program with proofs.

    ** Files and the code they model

    - Prelude, GoLang, GoText, GoFloat, FloatFacts, GoSort, GoTime: record
      updates; the fragment of Go the code relies on: 64-bit integers with
      wrap-around, strings ([TrimSpace], [Split], [Atoi], URL queries and
      paths, header names), times and durations, errors as values, maps with
      nil, binary64 floats, stable sorting, RFC 3339 text.
    - Effects: the monad [M] of operations, which take a state and return a
      result or an error and a new state (the writes made before an error
      stay), Hoare triples [hoare] and invariant or frame reasoning [steps].
    - Model: [internal/model/types.go], one record per struct, and for every
      stored type its JSON image [json].
    - Scheduler: [internal/scheduler/scheduler.go].
    - Balancer: [internal/loadbalancer/balancer.go].
    - Badger: the database as a class of operations with laws; finite maps are
      an instance.  World: the state [World] (database, balancer, health
      samples, subscribers) and the environment [Env]: clock, random numbers,
      database faults, external commands, AES-GCM, configuration.
    - Store, StoreFacts, StoreTheorems: [internal/store/store.go], all methods
      of the state store; the invariant [wf]; frames; the queue contract.
    - Events, Base64, Secrets, Kms: event emission and subscription; secret
      encryption and delivery, and where the key comes from.
    - Rollout, Placement, Reconcile: the deployment reconciler of
      [internal/service/orchestrator.go].  ReconcileFacts, ReconcileTheorems:
      what holds of a pass whatever fails; Convergence, RolloutTheorems: where
      passes lead when nothing fails.
    - Deployments, Nodes, Services, Autoscaler, RBAC, Volumes, Lease, Jobs,
      Control, Metrics: the remaining operations of [orchestrator.go] and of
      [internal/service/features.go], named as in the source.
    - Invariant, Machine: the invariant of stored deployments and policies,
      and the orchestrator as a state machine of commands.
    - JobTheorems: jobs as a state machine.  NodeTheorems, PlacementTheorems,
      DeploymentTheorems, EndpointTheorems, ServiceTheorems: contracts of
      single operations.  Panics: which operations cannot panic.
    - Validation, Auth, Http, Handlers: [internal/api/validation.go],
      [internal/auth/auth.go], [internal/api/httpserver.go] and [errors.go]:
      the routing table and [net/http]'s multiplexer, the five middlewares,
      every handler, the proxy and its circuit breakers, event streams; [serve]
      is one request from its arrival to the end of its handler.  HttpFacts,
      HttpTheorems, HttpMeaning, HttpAnswers, TrafficTheorems, AuthTheorems:
      their theorems.
    - Grpc, Dns: [internal/api/grpcserver.go], [internal/dnsserver/server.go].
    - Worker, WorkerTheorems, Url, Agent, Runtimes: [internal/worker/runner.go],
      [internal/agent] and [internal/runtime]; Url is the part of [net/url]
      between the text of a URL and the path a server sees.  The interfaces
      [AssignmentClient] and [Runtime] of the worker are classes; the agent's
      client and the remote runtime are instances of them.
    - Managers, Config, Commands: [internal/controller], [internal/plugin],
      [internal/config], [cmd/worker] and [cmd/apiserver].
    - EndToEnd, Availability: server and worker against each other.  The
      worker polls what the server's queue hands out and its reports are
      replayed on the server; an abstract fleet says what the reports are
      meant to maintain.
    - Samples, Witnesses, ServerWitnesses, EndToEndWitnesses: concrete inputs
      for all theorems.  Scenarios: runs that show defects of the program.

    ** How state and effects correspond

    An operation [f] of the service or the store is a definition of type
    [M (World DB) A].  [env_now], [env_rand] and [env_dberr] answer the n-th
    interaction; every database transaction asks [env_dberr] first, so that a
    theorem over all environments covers every pattern of database failures.
    A handler of the HTTP server runs in [M (HTTPServer DB)], whose state holds
    the orchestrator, the verifier's key cache, the breakers, the open streams
    and the response being written; an error of that monad is a Go panic
    (such as that of [WriteHeader] on a status below 100).  The worker runs in
    [M Worker], which records every call it makes, file operations included,
    with the number of the interaction, so that answers can be looked up.
    Mutexes do not appear: an operation runs to its end, and a handler too.
    The exceptions are the leader lease, shared by processes, whose read and
    write are separate operations [acquire_read] and [acquire_write] that may
    interleave, and the loops of event streams, the controller manager and the
    worker, whose turns are steps.

    ** What the theorems show

    - Reconciler: bounds on surge and unavailability under all failures, what
      a pass does at rest, scale-down order, deletion waits and completes; when
      nothing fails and a node has room, a rolling update completes and a pass
      reaches the replica count.
    - Jobs: a pass moves every job by at most one step of its life, and retries
      stay within the backoff limit.
    - Reachable states: revision histories, normalised specs, policy limits
      and key discipline hold after every sequence of commands.
    - The HTTP server refines that state machine, so the invariant holds after
      every interleaving of requests, stream turns and control passes.  More
      precisely, a request that is not refused does to the database exactly
      what the command does that a table gives for its method and path, or
      nothing if there is none ([HttpMeaning]); no request has an effect without an accepted token and a fitting role;
      viewers change nothing but the queue they poll; every request is
      answered without a panic (as long as role bindings are not cyclic, the
      number of assignments asked for can be allocated and upstreams answer
      with a valid final status); validation accepts
      exactly the well-formed specs; the proxy's retry loop agrees
      with its reference; a breaker is open exactly until the configured time
      after the failure that completed a streak of the threshold's length.
    - Authentication: an accepted token was vouched for by the configured
      secret or by a key that the configured provider published under the
      token's key identifier, not longer ago than the cache may keep it, under
      the algorithm it was meant for.
    - Worker and agent: for every assignment the starts made, at most the
      configured number, the answers of the runtime, and a report and a
      resource count that follow from these answers; the client's requests,
      printed as URLs and parsed, reach the operation they mean when the
      identifiers need no escaping; the containers of a node are compared exactly with the workloads
      wanted there.
    - End to end, when nothing fails: the assignments at the head of a node's
      queue are carried out, the stored workloads and node resources follow
      the reports, and a deployment whose replicas are placed and reported
      running is stored as stable and available by the next pass.
    - Store: listings and the assignment queue.
    - Scheduler and balancer: filters decide the declared policy, selection is
      optimal and fails only when it must; fairness, minimality, no panics.
    - Nodes and placement: draining evicts, utilization is a proper fraction,
      preemption takes one lesser workload and makes room.
    - Deployments: rollback restores a revision, quotas are exact.
    - Services: traffic reaches healthy nodes only, endpoints mirror
      the running and pending workloads a service selects; the autoscaler respects limits and
      cooldowns for all floats.
    - Volumes, roles, events, secrets, leases, shards: each decision procedure
      against its declarative meaning.
    - Two theorems show defects: cyclic role inheritance exhausts the stack,
      and interleaved lease acquisitions elect two leaders.

    ** Bounds and fuel

    Only [RBAC.visit] takes fuel, the depth [stack] of Go's call stack
    ([env_stack] in the server): it is enough when it exceeds the height of the
    inheritance hierarchy, and no depth is enough on a cycle; both are
    theorems.  The retry loops count down their number of attempts, so they
    need no fuel.  All other recursion is structural.  The theorem on rolling
    updates takes a bound [T] on the number of interactions: a horizon before
    which the identifiers drawn are distinct, since a clock of 64 bits cannot
    be injective for ever; it need only exceed the passes in question.  Sizes of lists are
    assumed to fit in 64 bits where stated.

    ** Not modelled

    Process start-up, sockets, signals and shutdown; generated protocol code
    beyond its message records; the text of JSON: a document stands for its
    text, and the decoders of requests are arbitrary functions.  Paths of HTTP
    requests are those that need no percent-encoding.  Log output is dropped,
    except the audit lines.  External scoring and admission commands, AES-GCM,
    SHA-256, the JWT package, the Docker client, upstream servers and BadgerDB
    are parameters with the laws the code relies on. *)

From stdpp Require Export base tactics option list list_numbers numbers gmap
  strings sorting pretty fin_maps.
From Stdlib Require Export ZArith Lia.

(** ** Record update

    [r <| p := v |>] is [r] with the field [p] replaced by [v].  A record type
    declares its field-by-field rebuilding function as an [Eta] instance; the
    setter of each projection is derived from it on demand. *)

Class Eta (R : Type) := eta : R -> R.

Class Setter {R T : Type} (p : R -> T) := set : (T -> T) -> R -> R.

Arguments set {R T} p {_} f r.

Ltac solve_setter :=
  lazymatch goal with
  | |- @Setter ?R ?T ?p =>
      let i := constr:(_ : Eta R) in
      let e := eval hnf in i in
      let e' := eval pattern p in e in
      lazymatch e' with
      | ?h _ =>
          let res := eval cbv beta in (fun f : T -> T => h (fun r : R => f (p r))) in
          exact res
      end
  end.

#[export] Hint Extern 0 (Setter _) => solve_setter : typeclass_instances.

Declare Scope go_scope.
Delimit Scope go_scope with go.

Notation "r <| p := v |>" := (set p (fun _ => v) r)
  (at level 12, left associativity, p at next level,
   format "r  <| p  :=  v |>") : go_scope.
Notation "r <| p ::= f |>" := (set p f r)
  (at level 12, left associativity, p at next level,
   format "r  <| p  ::=  f |>") : go_scope.

Open Scope string_scope.
Open Scope list_scope.
Open Scope Z_scope.
Open Scope go_scope.
