(* ===== verification/GoLang.v ===== *)
(** * The fragment of Go and its standard library the program relies on

    Machine integers ([int] and [int64], both 64 bits wide), [time.Time] and
    [time.Duration], the functions of package [strings] and of [fmt] that the
    code calls, and error values.  Strings are byte strings, as in Go; they
    are taken to be valid UTF-8, which [encoding/json] enforces at the API
    boundary.  Case mapping is modelled on ASCII letters; other bytes are left
    alone. *)

From Stdlib Require Import Ascii String.
From S2P Require Import Prelude.

(** ** 64-bit signed integers *)

Definition i64_min : Z := - 2 ^ 63.
Definition i64_max : Z := 2 ^ 63 - 1.

Definition wrap64 (z : Z) : Z := (z + 2 ^ 63) mod 2 ^ 64 - 2 ^ 63.

Definition in_i64 (z : Z) : Prop := i64_min <= z <= i64_max.

Notation "a +! b" := (wrap64 (a + b)) (at level 50, left associativity) : go_scope.
Notation "a -! b" := (wrap64 (a - b)) (at level 50, left associativity) : go_scope.
Notation "a *! b" := (wrap64 (a * b)) (at level 40, left associativity) : go_scope.

(** Go's [/] and [%] truncate towards zero. *)
Definition go_div (a b : Z) : Z := wrap64 (Z.quot a b).
Definition go_mod (a b : Z) : Z := Z.rem a b.

(** [make([]T, 0, n)] panics unless [n] elements of the size of [T] fit into the
    address space, 2^48 bytes on a 64-bit machine. *)
Definition make_ok (size n : Z) : bool := (0 <=? n) && (size * n <=? 2 ^ 48).

Definition lenZ {A} (l : list A) : Z := Z.of_nat (length l).

(** ** Strings *)

Definition rev_string (s : string) : string :=
  string_of_list_ascii (rev (list_ascii_of_string s)).

Definition byte_of (c : ascii) : N := N_of_ascii c.

Definition is_ascii_space (c : ascii) : bool :=
  let n := byte_of c in ((9 <=? n) && (n <=? 13) || (n =? 32))%N.

(** The two- and three-byte encodings of the other White_Space code points:
    U+0085, U+00A0, U+1680, U+2000-200A, U+2028, U+2029, U+202F, U+205F and
    U+3000. *)
Definition is_space2 (a b : ascii) : bool :=
  ((byte_of a =? 194) && ((byte_of b =? 133) || (byte_of b =? 160)))%N.

Definition is_space3 (a b c : ascii) : bool :=
  let '(x, y, z) := (byte_of a, byte_of b, byte_of c) in
  ((x =? 225) && (y =? 154) && (z =? 128)
   || (x =? 226) && (y =? 128)
      && (((128 <=? z) && (z <=? 138)) || (z =? 168) || (z =? 169) || (z =? 175))
   || (x =? 226) && (y =? 129) && (z =? 159)
   || (x =? 227) && (y =? 128) && (z =? 128))%N.

Fixpoint trim_left_bytes (s : list ascii) : list ascii :=
  match s with
  | [] => []
  | a :: s1 =>
      if is_ascii_space a then trim_left_bytes s1 else
      match s1 with
      | b :: s2 =>
          if is_space2 a b then trim_left_bytes s2 else
          match s2 with
          | c :: s3 => if is_space3 a b c then trim_left_bytes s3 else s
          | [] => s
          end
      | [] => s
      end
  end.

(** The same on a reversed byte list: encodings are read backwards. *)
Fixpoint trim_right_rev (s : list ascii) : list ascii :=
  match s with
  | [] => []
  | a :: s1 =>
      if is_ascii_space a then trim_right_rev s1 else
      match s1 with
      | b :: s2 =>
          if is_space2 b a then trim_right_rev s2 else
          match s2 with
          | c :: s3 => if is_space3 c b a then trim_right_rev s3 else s
          | [] => s
          end
      | [] => s
      end
  end.

(** [strings.TrimSpace] *)
Definition TrimSpace (s : string) : string :=
  string_of_list_ascii
    (rev (trim_right_rev (rev (trim_left_bytes (list_ascii_of_string s))))).

(** [strings.TrimSpace(s) == ""], the guard the code uses everywhere. *)
Definition blank (s : string) : bool := String.eqb (TrimSpace s) "".

(** [strings.HasPrefix], [strings.TrimPrefix], [strings.HasSuffix],
    [strings.TrimSuffix] *)
Definition HasPrefix (s p : string) : bool := String.prefix p s.

Definition TrimPrefix (s p : string) : string :=
  if HasPrefix s p then String.substring (String.length p) (String.length s - String.length p)%nat s
  else s.

Definition HasSuffix (s p : string) : bool := HasPrefix (rev_string s) (rev_string p).

Definition TrimSuffix (s p : string) : string :=
  if HasSuffix s p then String.substring 0 (String.length s - String.length p)%nat s else s.

Definition lower_byte (c : ascii) : ascii :=
  let n := byte_of c in
  if ((65 <=? n) && (n <=? 90))%N then ascii_of_N (n + 32) else c.

Definition map_string (f : ascii -> ascii) (s : string) : string :=
  string_of_list_ascii (List.map f (list_ascii_of_string s)).

(** [strings.ToLower], [strings.EqualFold] *)
Definition ToLower (s : string) : string := map_string lower_byte s.
Definition EqualFold (a b : string) : bool := String.eqb (ToLower a) (ToLower b).

(** [strings.TrimRight(s, "/")] for a single cut character *)
Fixpoint drop_while_char (c : ascii) (s : list ascii) : list ascii :=
  match s with
  | [] => []
  | a :: s' => if Ascii.eqb a c then drop_while_char c s' else s
  end.

Definition TrimRight (s : string) (c : ascii) : string :=
  string_of_list_ascii (rev (drop_while_char c (rev (list_ascii_of_string s)))).

(** Byte-wise [<] on strings: Go's string comparison and Badger's key order. *)
Definition string_ltb (a b : string) : bool := String.ltb a b.

(** ** Formatting *)

(** ["%d"] *)
Definition fmt_d (z : Z) : string := pretty z.

(** ["%04d"]: zero padded to four columns, the sign included. *)
Definition fmt_04d (z : Z) : string :=
  let s := pretty (Z.abs_N z) in
  let width := if z <? 0 then 3%nat else 4%nat in
  (if z <? 0 then "-" else "")
    +:+ String.concat "" (List.repeat "0" (width - String.length s)%nat) +:+ s.

(** ** Time

    A [time.Time] is the number of nanoseconds since the zero time,
    January 1 of year 1 (UTC); a [time.Duration] is an int64 count of
    nanoseconds. *)

Abbreviation Time := Z (only parsing).
Abbreviation Duration := Z (only parsing).

Definition Second : Duration := 10 ^ 9.
Definition unix_epoch : Time := 62135596800 * 10 ^ 9.

Definition IsZero (t : Time) : bool := t =? 0.
Definition UnixNano (t : Time) : Z := wrap64 (t - unix_epoch).
Definition Unix (t : Time) : Z := (t - unix_epoch) / 10 ^ 9.

(** [t.Add(d)], [t.After(u)], [t.Before(u)]; [t.Sub(u)] saturates. *)
Definition time_Add (t : Time) (d : Duration) : Time := t + d.
Definition After (t u : Time) : bool := u <? t.
Definition Before (t u : Time) : bool := t <? u.
Definition time_Sub (t u : Time) : Duration := Z.max i64_min (Z.min i64_max (t - u)).

(** [time.Duration(n) * time.Second] *)
Definition seconds (n : Z) : Duration := n *! Second.

(** ** Errors

    [Panic] stands for a run-time panic (an index out of range, for instance);
    [ErrNotFound] is the store's sentinel, [ErrNoSchedulableNode] the
    scheduler's; [Errorf] is a message built by [errors.New] or [fmt.Errorf];
    [Wrapf] is [fmt.Errorf] with [%w]; [ErrIO] is an error of the database or
    of another external party. *)

Inductive error : Type :=
| ErrNotFound
| ErrNoSchedulableNode
| ErrMarshal
| Panic (msg : string)
| ErrIO (msg : string)
| Errorf (msg : string)
| Wrapf (msg : string) (inner : error).

#[export] Instance error_eq_dec : EqDecision error.
Proof. solve_decision. Defined.

(** [errors.Is(err, store.ErrNotFound)] *)
Fixpoint is_not_found (e : error) : bool :=
  match e with
  | ErrNotFound => true
  | Wrapf _ e' => is_not_found e'
  | _ => false
  end.

(** [err.Error()] *)
Fixpoint Error (e : error) : string :=
  match e with
  | ErrNotFound => "not found"
  | ErrNoSchedulableNode => "no schedulable node"
  | ErrMarshal => "json: unsupported value"
  | Panic m | ErrIO m | Errorf m => m
  | Wrapf m e' => m +:+ Error e'
  end.

(** A Go result pair [(value, error)]: the value counts only when the error is
    nil. *)
Inductive Res (A : Type) : Type :=
| Ok (a : A)
| Err (e : error).

Arguments Ok {A} a.
Arguments Err {A} e.

Definition is_ok {A} (r : Res A) : bool := match r with Ok _ => true | Err _ => false end.

(** ** Maps

    [m[k]] on a missing key, or on a nil map, is the zero value. *)
Definition map_index (m : option (gmap string string)) (k : string) : string :=
  default "" (m ≫= fun m' => m' !! k).

(** A loop over a map that stops at the first pair refusing [f]: its outcome
    does not depend on the iteration order. *)
Definition map_forallb {V} (f : string -> V -> bool) (m : gmap string V) : bool :=
  forallb (fun kv => f kv.1 kv.2) (map_to_list m).

(** ** Lemmas *)

Lemma map_forallb_spec {V} (f : string -> V -> bool) m :
  map_forallb f m = true <-> forall k v, m !! k = Some v -> f k v = true.
Proof.
  unfold map_forallb. rewrite forallb_forall. split.
  - intros H k v Hk. apply (H (k, v)). by apply list_elem_of_In, elem_of_map_to_list.
  - intros H [k v] Hin. apply H. by apply elem_of_map_to_list, list_elem_of_In.
Qed.

Lemma wrap64_id z : in_i64 z -> wrap64 z = z.
Proof.
  unfold in_i64, wrap64, i64_min, i64_max. intros H.
  rewrite Z.mod_small; lia.
Qed.

Lemma wrap64_range z : in_i64 (wrap64 z).
Proof.
  unfold in_i64, wrap64, i64_min, i64_max.
  pose proof (Z.mod_pos_bound (z + 2 ^ 63) (2 ^ 64)). lia.
Qed.

Lemma wrap64_eqm z : exists k, wrap64 z = z + k * 2 ^ 64.
Proof.
  unfold wrap64. exists (- ((z + 2 ^ 63) / 2 ^ 64)).
  pose proof (Z.div_mod (z + 2 ^ 63) (2 ^ 64)). lia.
Qed.

Lemma lenZ_nonneg {A} (l : list A) : 0 <= lenZ l.
Proof. unfold lenZ. lia. Qed.

Lemma lenZ_cons {A} (x : A) l : lenZ (x :: l) = lenZ l + 1.
Proof. unfold lenZ. simpl. lia. Qed.

Lemma lenZ_app {A} (l k : list A) : lenZ (l ++ k) = lenZ l + lenZ k.
Proof. unfold lenZ. rewrite length_app. lia. Qed.

Lemma lenZ_perm {A} (l k : list A) : l ≡ₚ k -> lenZ l = lenZ k.
Proof. intros H. unfold lenZ. by rewrite H. Qed.

Lemma string_prefix_spec p s : String.prefix p s = true <-> exists t, s = p +:+ t.
Proof.
  revert s. induction p as [|a p IH]; intros s; simpl.
  - split; intros _; [by exists s | by destruct s].
  - destruct s as [|b s]; simpl.
    + split; [discriminate | intros [t Ht]; discriminate].
    + destruct (Ascii.ascii_dec a b) as [->|Hne].
      * rewrite IH. split; intros [t Ht]; exists t; [by rewrite Ht | by injection Ht].
      * split; [discriminate | intros [t Ht]; injection Ht as ? _; congruence].
Qed.

Lemma string_app_inj_l (p a b : string) : p +:+ a = p +:+ b -> a = b.
Proof. induction p; simpl; intros H; [done|]. injection H. auto. Qed.

Lemma string_app_cons c (a b : string) : String c a +:+ b = String c (a +:+ b).
Proof. reflexivity. Qed.

Lemma string_app_assoc (a b c : string) : (a +:+ b) +:+ c = a +:+ (b +:+ c).
Proof. induction a as [|x a IH]; [done|]. by rewrite !string_app_cons, IH. Qed.

Lemma HasPrefix_app p s : HasPrefix (p +:+ s) p = true.
Proof. apply string_prefix_spec. eauto. Qed.

Lemma substring_app_l (a b : string) : substring 0 (String.length a) (a +:+ b) = a.
Proof. induction a as [|c a IH]; [by destruct b|]. rewrite string_app_cons. simpl. by rewrite IH. Qed.

Lemma length_string_app (a b : string) :
  String.length (a +:+ b) = (String.length a + String.length b)%nat.
Proof. induction a as [|c a IH]; [done|]. rewrite string_app_cons. simpl. by rewrite IH. Qed.

Lemma substring_all (b : string) : substring 0 (String.length b) b = b.
Proof. induction b as [|c b IH]; [done|]. simpl. by rewrite IH. Qed.

Lemma substring_app_r (a b : string) : substring (String.length a) (String.length b) (a +:+ b) = b.
Proof.
  induction a as [|c a IH]; [apply substring_all|]. rewrite string_app_cons. simpl. apply IH.
Qed.

Lemma TrimPrefix_app p s : TrimPrefix (p +:+ s) p = s.
Proof.
  unfold TrimPrefix. rewrite HasPrefix_app, length_string_app.
  replace (String.length p + String.length s - String.length p)%nat with (String.length s) by lia.
  apply substring_app_r.
Qed.

Lemma HasPrefix_spec s p : HasPrefix s p = true <-> exists t, s = p +:+ t.
Proof. apply string_prefix_spec. Qed.
