(* ===== verification/GoText.v ===== *)
(** * Text processing of the Go standard library

    The functions of [strings], [strconv], [path], [net/url] and
    [net/textproto] that the request handlers and the configuration call,
    on byte strings. *)

From Stdlib Require Import Ascii String.
From S2P Require Import Prelude GoLang.

(** ** Package strings *)

Fixpoint split_bytes (c : ascii) (s : list ascii) : list (list ascii) :=
  match s with
  | [] => [[]]
  | a :: s' =>
      if Ascii.eqb a c then [] :: split_bytes c s'
      else match split_bytes c s' with
           | seg :: segs => (a :: seg) :: segs
           | [] => [[a]]
           end
  end.

(** [strings.Split(s, c)] for a separator of one byte: never empty. *)
Definition Split (s : string) (c : ascii) : list string :=
  string_of_list_ascii <$> split_bytes c (list_ascii_of_string s).

Fixpoint cut_bytes (c : ascii) (s : list ascii) : option (list ascii * list ascii) :=
  match s with
  | [] => None
  | a :: s' =>
      if Ascii.eqb a c then Some ([], s')
      else match cut_bytes c s' with
           | Some (x, y) => Some (a :: x, y)
           | None => None
           end
  end.

(** [strings.SplitN(s, c, 2)] has two elements when [c] occurs in [s]: what
    stands before and after its first occurrence.  Also [strings.Cut]. *)
Definition SplitN2 (s : string) (c : ascii) : option (string * string) :=
  match cut_bytes c (list_ascii_of_string s) with
  | Some (x, y) => Some (string_of_list_ascii x, string_of_list_ascii y)
  | None => None
  end.

(** [strings.Contains] *)
Fixpoint Contains (s sub : string) : bool :=
  HasPrefix s sub || match s with EmptyString => false | String _ s' => Contains s' sub end.

Definition upper_byte (c : ascii) : ascii :=
  let n := byte_of c in
  if ((97 <=? n) && (n <=? 122))%N then ascii_of_N (n - 32) else c.

(** [strings.ToUpper], on ASCII letters *)
Definition ToUpper (s : string) : string := map_string upper_byte s.

(** [strings.Join] *)
Definition Join (l : list string) (sep : string) : string := String.concat sep l.

(** ** Package strconv *)

Definition digit_value (c : ascii) : option Z :=
  let n := byte_of c in
  if ((48 <=? n) && (n <=? 57))%N then Some (Z.of_N n - 48) else None.

Fixpoint parse_digits (acc : Z) (s : string) : option Z :=
  match s with
  | EmptyString => Some acc
  | String c s' => d ← digit_value c; parse_digits (10 * acc + d) s'
  end.

(** [strconv.Atoi]: an optional sign, decimal digits, in the range of [int];
    anything else is an error. *)
Definition Atoi (s : string) : option Z :=
  let '(neg, ds) :=
    match s with
    | String "-" s' => (true, s')
    | String "+" s' => (false, s')
    | _ => (false, s)
    end in
  match ds with
  | EmptyString => None
  | _ =>
      v ← parse_digits 0 ds;
      let v := if neg : bool then - v else v in
      if (i64_min <=? v) && (v <=? i64_max) then Some v else None
  end.

(** ** Package path *)

(** The segments of a rooted path, [.] and empty ones dropped, [..] removing
    the one before; [stack] holds the segments kept so far, last first. *)
Fixpoint clean_segments (stack segs : list string) : list string :=
  match segs with
  | [] => rev stack
  | s :: segs' =>
      if String.eqb s "" || String.eqb s "." then clean_segments stack segs'
      else if String.eqb s ".." then clean_segments (tail stack) segs'
      else clean_segments (s :: stack) segs'
  end.

(** [path.Clean] on a path that starts with a slash. *)
Definition path_Clean (p : string) : string :=
  "/" +:+ Join (clean_segments [] (Split p "/")) "/".

(** [cleanPath] of [net/http]: the trailing slash is put back. *)
Definition cleanPath (p : string) : string :=
  if String.eqb p "" then "/"
  else
    let p := if HasPrefix p "/" then p else "/" +:+ p in
    let np := path_Clean p in
    if HasSuffix p "/" && negb (String.eqb np "/") then np +:+ "/" else np.

(** ** Package net/url *)

Definition hex_value (c : ascii) : option N :=
  let n := byte_of c in
  if ((48 <=? n) && (n <=? 57))%N then Some (n - 48)%N
  else if ((97 <=? n) && (n <=? 102))%N then Some (n - 87)%N
  else if ((65 <=? n) && (n <=? 70))%N then Some (n - 55)%N
  else None.

(** [url.QueryUnescape]: [%XX] and [+] decoded, an incomplete escape is an
    error. *)
Fixpoint unescape (s : list ascii) : option (list ascii) :=
  match s with
  | [] => Some []
  | "%"%char :: s1 =>
      match s1 with
      | a :: b :: s2 =>
          x ← hex_value a; y ← hex_value b; t ← unescape s2;
          Some (ascii_of_N (16 * x + y) :: t)
      | _ => None
      end
  | "+"%char :: s1 => t ← unescape s1; Some (" "%char :: t)
  | c :: s1 => t ← unescape s1; Some (c :: t)
  end.

Definition QueryUnescape (s : string) : option string :=
  string_of_list_ascii <$> unescape (list_ascii_of_string s).

(** [url.QueryEscape]: letters, digits and [-_.~] stand for themselves, a space
    becomes [+], every other byte [%XX]. *)
Definition unreserved (c : ascii) : bool :=
  let n := byte_of c in
  ((97 <=? n) && (n <=? 122) || (65 <=? n) && (n <=? 90) || (48 <=? n) && (n <=? 57)
   || (n =? 45) || (n =? 95) || (n =? 46) || (n =? 126))%N.

Definition hex_digit (n : N) : ascii := ascii_of_N (if (n <? 10)%N then n + 48 else n + 55).

Definition escape_byte (c : ascii) : list ascii :=
  if unreserved c then [c]
  else if Ascii.eqb c " " then ["+"%char]
  else ["%"%char; hex_digit (byte_of c / 16); hex_digit (byte_of c mod 16)].

Definition QueryEscape (s : string) : string :=
  string_of_list_ascii (mjoin (escape_byte <$> list_ascii_of_string s)).

(** One [key=value] of a query; one that has a semicolon or a bad escape is
    dropped. *)
Definition query_pair (seg : string) : option (string * string) :=
  if Contains seg ";" || String.eqb seg "" then None
  else
    let '(k, v) := default (seg, "") (SplitN2 seg "=") in
    k' ← QueryUnescape k; v' ← QueryUnescape v; Some (k', v').

(** [r.URL.Query()]: the pairs in their order. *)
Definition ParseQuery (raw : string) : list (string * string) :=
  omap query_pair (Split raw "&").

(** [url.Values.Get]: the first value of the key, [""] when there is none. *)
Definition query_Get (q : list (string * string)) (key : string) : string :=
  match List.find (fun kv => String.eqb kv.1 key) q with
  | Some kv => kv.2
  | None => ""
  end.

(** ** Headers

    [http.Header]: the values under each canonical name. *)

Abbreviation Header := (gmap string (list string)) (only parsing).

Fixpoint canonical_bytes (upper : bool) (s : list ascii) : list ascii :=
  match s with
  | [] => []
  | c :: s' =>
      (if upper then upper_byte c else lower_byte c) :: canonical_bytes (Ascii.eqb c "-") s'
  end.

(** [textproto.CanonicalMIMEHeaderKey], for names made of token characters *)
Definition CanonicalHeaderKey (s : string) : string :=
  string_of_list_ascii (canonical_bytes true (list_ascii_of_string s)).

Definition header_Get (h : Header) (key : string) : string :=
  match h !! CanonicalHeaderKey key with
  | Some (v :: _) => v
  | _ => ""
  end.

Definition header_Set (key value : string) (h : Header) : Header :=
  <[CanonicalHeaderKey key := [value]]> h.

Definition header_Add (key value : string) (h : Header) : Header :=
  <[CanonicalHeaderKey key := default [] (h !! CanonicalHeaderKey key) ++ [value]]> h.

(** ** Lemmas *)

Lemma split_bytes_not_nil c s : split_bytes c s <> [].
Proof. destruct s; simpl; [done|]. destruct (Ascii.eqb _ _); [done|]. by destruct (split_bytes _ _). Qed.

Lemma Split_not_nil s c : Split s c <> [].
Proof.
  unfold Split. pose proof (split_bytes_not_nil c (list_ascii_of_string s)).
  by destruct (split_bytes c (list_ascii_of_string s)).
Qed.

Lemma Contains_spec s sub : Contains s sub = true <-> exists a b, s = a +:+ sub +:+ b.
Proof.
  induction s as [|c s IH].
  - cbn [Contains]. rewrite orb_false_r, HasPrefix_spec. split.
    + intros [t Ht]. by exists "", t.
    + intros (a & b & H). destruct a; [by exists b|discriminate].
  - change (HasPrefix (String c s) sub || Contains s sub = true <->
      exists a b, String c s = a +:+ sub +:+ b).
    rewrite orb_true_iff, HasPrefix_spec, IH. split.
    + intros [[t Ht]|(a & b & ->)]; [by exists "", t|by exists (String c a), b].
    + intros (a & b & H). destruct a as [|c' a]; [left; by exists b|right].
      injection H as -> ->. eauto.
Qed.

Lemma list_ascii_app (a b : string) :
  list_ascii_of_string (a +:+ b) = list_ascii_of_string a ++ list_ascii_of_string b.
Proof. induction a as [|c a IH]; [done|]. rewrite string_app_cons. cbn. f_equal. exact IH. Qed.

Lemma string_of_list_app (a b : list ascii) :
  string_of_list_ascii (a ++ b) = string_of_list_ascii a +:+ string_of_list_ascii b.
Proof. induction a as [|c a IH]; [done|]. cbn. by rewrite string_app_cons, IH. Qed.

Lemma HasSuffix_app a b : HasSuffix (a +:+ b) b = true.
Proof.
  unfold HasSuffix, rev_string. apply HasPrefix_spec.
  exists (string_of_list_ascii (rev (list_ascii_of_string a))).
  by rewrite list_ascii_app, rev_app_distr, <- string_of_list_app.
Qed.

(** ** Splitting *)

Lemma split_bytes_app c (a b : list ascii) :
  split_bytes c (a ++ c :: b) = split_bytes c a ++ split_bytes c b.
Proof.
  induction a as [|x a IH]; cbn; [by rewrite Ascii.eqb_refl|].
  destruct (Ascii.eqb x c); [by rewrite IH|]. rewrite IH.
  pose proof (split_bytes_not_nil c a). by destruct (split_bytes c a).
Qed.

Lemma split_bytes_none c (a : list ascii) : c ∉ a -> split_bytes c a = [a].
Proof.
  induction a as [|x a IH]; intros H; [done|]. cbn. rewrite not_elem_of_cons in H. destruct H as [Hx Ha].
  destruct (Ascii.eqb_spec x c); [congruence|]. by rewrite IH.
Qed.

Lemma Split_app a b c : Split (a +:+ String c "" +:+ b) c = Split a c ++ Split b c.
Proof.
  unfold Split. rewrite !list_ascii_app. cbn. by rewrite split_bytes_app, fmap_app.
Qed.

(** [c] does not occur in [s]. *)
Definition lacks (s : string) (c : ascii) : Prop := c ∉ list_ascii_of_string s.

Lemma Split_lacks s c : lacks s c -> Split s c = [s].
Proof.
  intros H. unfold Split. rewrite split_bytes_none by done. cbn. by rewrite string_of_list_ascii_of_string.
Qed.

Lemma Join_Split s c : Join (Split s c) (String c "") = s.
Proof.
  unfold Join, Split. rewrite <- (string_of_list_ascii_of_string s) at 2.
  induction (list_ascii_of_string s) as [|x l IH]; [done|]. cbn.
  destruct (Ascii.eqb_spec x c) as [->|Hne].
  - cbn. pose proof (split_bytes_not_nil c l). destruct (split_bytes c l) as [|y ys]; [done|].
    cbn in *. by rewrite <- IH.
  - pose proof (split_bytes_not_nil c l). destruct (split_bytes c l) as [|y ys]; [done|].
    cbn in *. rewrite <- IH. by destruct ys.
Qed.

(** ** Numbers *)

Lemma digit_value_pretty x : (x < 10)%N -> digit_value (pretty_N_char x) = Some (Z.of_N x).
Proof.
  intros H. assert (x = 0 \/ x = 1 \/ x = 2 \/ x = 3 \/ x = 4 \/ x = 5 \/ x = 6 \/ x = 7 \/ x = 8
    \/ x = 9)%N as Hx by lia. by destruct_or! Hx; subst x.
Qed.

Lemma parse_digits_go x s : parse_digits 0 (pretty_N_go x s) = parse_digits (Z.of_N x) s.
Proof.
  revert s. induction (N.lt_wf_0 x) as [x _ IH]; intros s.
  assert (x = 0 \/ 0 < x)%N as [->|Hx] by lia; [by rewrite pretty_N_go_0|].
  rewrite pretty_N_go_step by done. rewrite IH by (by apply N.div_lt). cbn.
  rewrite digit_value_pretty by (apply N.mod_lt; done). cbn. f_equal.
  rewrite (N.div_mod x 10) at 3 by done. lia.
Qed.

Lemma parse_digits_pretty (x : N) : parse_digits 0 (pretty x) = Some (Z.of_N x).
Proof.
  unfold pretty, pretty_N. case_decide as Hx; [by subst|]. by rewrite parse_digits_go.
Qed.

Lemma pretty_N_head (x : N) : exists c s, pretty x = String c s /\ digit_value c <> None.
Proof.
  pose proof (parse_digits_pretty x) as H. destruct (pretty x) as [|c s] eqn:Hp.
  - exfalso. unfold pretty, pretty_N in Hp. case_decide; [done|].
    assert (Hl : forall y s, s <> "" -> pretty_N_go y s <> "").
    { intros y. induction (N.lt_wf_0 y) as [y _ IH]; intros s Hs.
      assert (y = 0 \/ 0 < y)%N as [->|Hy] by lia; [done|].
      rewrite pretty_N_go_step by done. apply IH; [by apply N.div_lt|done]. }
    rewrite pretty_N_go_step in Hp by lia. by eapply Hl in Hp.
  - exists c, s. split; [done|]. intros Hc. cbn in H. by rewrite Hc in H.
Qed.

(** Printing and parsing a 64-bit integer are inverse. *)
Lemma Atoi_fmt_d z : in_i64 z -> Atoi (fmt_d z) = Some z.
Proof.
  intros Hz. assert (Hr : (i64_min <=? z) && (z <=? i64_max) = true).
  { unfold in_i64 in Hz. apply andb_true_iff. lia. }
  destruct z as [|p|p]; [done| |].
  - change (fmt_d (Z.pos p)) with (pretty (N.pos p)).
    destruct (pretty_N_head (N.pos p)) as (c & s & Hs & Hc).
    pose proof (parse_digits_pretty (N.pos p)) as Hp. unfold Atoi. rewrite Hs in *.
    destruct (Ascii.eqb_spec c "-") as [->|H1]; [done|]. destruct (Ascii.eqb_spec c "+") as [->|H2]; [done|].
    replace (match String c s with
      | String "-" s' => (true, s') | String "+" s' => (false, s') | _ => (false, String c s)
      end) with (false, String c s).
    { cbv iota beta. rewrite Hp. cbn [mbind option_bind]. cbv zeta. change (Z.of_N (N.pos p)) with (Z.pos p).
      by rewrite Hr. }
    destruct c as [[] [] [] [] [] [] [] []]; done.
  - change (fmt_d (Z.neg p)) with ("-" +:+ pretty (N.pos p)).
    destruct (pretty_N_head (N.pos p)) as (c & s & Hs & Hc).
    pose proof (parse_digits_pretty (N.pos p)) as Hp. rewrite Hs in *.
    change (Atoi _) with (v ← parse_digits 0 (String c s);
      let v := - v in if (i64_min <=? v) && (v <=? i64_max) then Some v else None).
    rewrite Hp. cbn [mbind option_bind]. cbv zeta. change (- Z.of_N (N.pos p)) with (Z.neg p). by rewrite Hr.
Qed.

(** ** Queries *)

Lemma unescape_escape_byte c l : unescape (escape_byte c ++ l) = t ← unescape l; Some (c :: t).
Proof. destruct c as [[] [] [] [] [] [] [] []]; reflexivity. Qed.

(** Escaping and unescaping are inverse. *)
Lemma QueryUnescape_Escape s : QueryUnescape (QueryEscape s) = Some s.
Proof.
  unfold QueryUnescape, QueryEscape. rewrite list_ascii_of_string_of_list_ascii.
  rewrite <- (string_of_list_ascii_of_string s) at 2.
  assert (H : forall l, unescape (mjoin (escape_byte <$> l)) = Some l); [|by rewrite H].
  induction l as [|c l IH]; [done|].
  change (mjoin (escape_byte <$> c :: l)) with (escape_byte c ++ mjoin (escape_byte <$> l)).
  by rewrite unescape_escape_byte, IH.
Qed.

(** An escaped text has none of the separators of a query. *)
Lemma QueryEscape_lacks s c : c ∈ ["&"%char; ";"%char; "="%char] -> lacks (QueryEscape s) c.
Proof.
  intros Hc H. unfold QueryEscape in H. rewrite list_ascii_of_string_of_list_ascii in H.
  apply list_elem_of_join in H as (l & Hl & H). apply list_elem_of_fmap in H as (x & -> & _).
  assert (Hb : Forall (fun y => y ∉ escape_byte x) ["&"%char; ";"%char; "="%char]).
  { destruct x as [[] [] [] [] [] [] [] []]; apply (bool_decide_unpack _); reflexivity. }
  rewrite Forall_forall in Hb. by apply (Hb c).
Qed.

Lemma SplitN2_app a b (c : ascii) : lacks a c -> SplitN2 (a +:+ String c "" +:+ b) c = Some (a, b).
Proof.
  intros Ha. unfold SplitN2. rewrite !list_ascii_app. cbn.
  assert (H : forall l l', c ∉ l -> cut_bytes c (l ++ c :: l') = Some (l, l')).
  { intros l l'. induction l as [|x l IH]; intros Hl; cbn; [by rewrite Ascii.eqb_refl|].
    apply not_elem_of_cons in Hl as [Hx Hl]. destruct (Ascii.eqb_spec x c); [congruence|].
    by rewrite IH. }
  rewrite H by done. by rewrite !string_of_list_ascii_of_string.
Qed.

Lemma Contains_lacks s (c : ascii) : lacks s c -> Contains s (String c "") = false.
Proof.
  intros Hs. apply not_true_iff_false. rewrite Contains_spec. intros (a & b & ->).
  apply Hs. rewrite !list_ascii_app. cbn. set_solver.
Qed.

(** The only pair of a query, as [r.URL.Query().Get] reads it. *)
Lemma query_Get_single key esc v :
  (forall c, c ∈ ["&"%char; ";"%char; "="%char] -> lacks key c) -> QueryUnescape key = Some key ->
  (forall c, c ∈ ["&"%char; ";"%char] -> lacks esc c) -> QueryUnescape esc = Some v ->
  query_Get (ParseQuery (key +:+ "=" +:+ esc)) key = v.
Proof.
  intros Hkey Huk Hesc Hue. set (raw := key +:+ "=" +:+ esc).
  assert (Hl : forall c, c ∈ ["&"%char; ";"%char] -> lacks raw c).
  { intros c Hc. unfold lacks, raw. rewrite !list_ascii_app, !elem_of_app. intros [H|[H|H]].
    - eapply Hkey; [|exact H]. set_solver.
    - cbn in H. apply list_elem_of_singleton in H as ->. set_solver.
    - by eapply Hesc. }
  unfold ParseQuery. rewrite Split_lacks by (apply Hl; set_solver).
  assert (Hp : query_pair raw = Some (key, v)).
  { unfold query_pair. rewrite Contains_lacks by (apply Hl; set_solver).
    replace (String.eqb raw "") with false by (unfold raw; by destruct key). cbn [orb].
    unfold raw. rewrite (SplitN2_app key esc "=") by (apply Hkey; set_solver).
    change (default _ (Some ?x)) with x. cbv beta iota. by rewrite Huk, Hue. }
  cbn [omap list_omap]. rewrite Hp. unfold query_Get. cbn [List.find fst]. by rewrite String.eqb_refl.
Qed.
