(* ===== verification/GoFloat.v ===== *)
(** * Go's [float64]

    IEEE 754 binary64 numbers with the operations of the Rocq library's
    [SpecFloat] (53 bits of precision, round to nearest even), the [math]
    functions the code calls, and the conversions to and from integers.  The
    comparison [<] is shown to be a strict weak order away from NaN, which is
    what sorting by a score needs. *)

From Corelib Require Import SpecFloat.
From S2P Require Import Prelude GoLang.

Abbreviation float64 := spec_float (only parsing).

Definition f_add : float64 -> float64 -> float64 := SFadd 53 1024.
Definition f_sub : float64 -> float64 -> float64 := SFsub 53 1024.
Definition f_mul : float64 -> float64 -> float64 := SFmul 53 1024.
Definition f_div : float64 -> float64 -> float64 := SFdiv 53 1024.
Definition f_ltb : float64 -> float64 -> bool := SFltb.
Definition f_leb : float64 -> float64 -> bool := SFleb.
Definition f_zero : float64 := S754_zero false.

(** [float64(n)] *)
Definition f_of_Z (n : Z) : float64 := binary_normalize 53 1024 n 0 false.

(** The binary64 number nearest to [n / d]: the value of a decimal literal. *)
Definition f_lit (n d : Z) : float64 := f_div (f_of_Z n) (f_of_Z d).

Definition is_nan (x : float64) : bool :=
  match x with S754_nan => true | _ => false end.

Definition is_finite_f (x : float64) : bool :=
  match x with S754_zero _ | S754_finite _ _ _ => true | _ => false end.

(** [math.Abs], [math.Max] *)
Definition math_Abs : float64 -> float64 := SFabs.

Definition math_Max (x y : float64) : float64 :=
  match x, y with
  | S754_infinity false, _ | _, S754_infinity false => S754_infinity false
  | S754_nan, _ | _, S754_nan => S754_nan
  | S754_zero sx, S754_zero sy => if sx then y else x
  | _, _ => if f_ltb y x then x else y
  end.

(** The integer part of [m * 2^e] towards zero and whether it is exact. *)
Definition trunc_parts (m : positive) (e : Z) : Z * bool :=
  if 0 <=? e then (Z.shiftl (Zpos m) e, true)
  else (Z.shiftr (Zpos m) (- e), Z.land (Zpos m) (Z.ones (- e)) =? 0).

(** [math.Ceil] *)
Definition math_Ceil (x : float64) : float64 :=
  match x with
  | S754_finite s m e =>
      if 0 <=? e then x else
      let '(q, exact) := trunc_parts m e in
      if s then (if q =? 0 then S754_zero true else f_of_Z (- q))
      else f_of_Z (if exact then q else q + 1)
  | _ => x
  end.

(** [int(x)] on amd64: truncation, and the least integer when the value does
    not fit (a NaN or an infinity included). *)
Definition f_to_int (x : float64) : Z :=
  match x with
  | S754_zero _ => 0
  | S754_finite s m e =>
      let q := fst (trunc_parts m e) in
      let v := if s then - q else q in
      if (i64_min <=? v) && (v <=? i64_max) then v else i64_min
  | _ => i64_min
  end.

(** ["%.2f"]: the exact value rounded to two decimals, ties to even. *)
Definition hundredths (m : positive) (e : Z) : Z :=
  if 0 <=? e then Z.shiftl (100 * Zpos m) e else
  let num := 100 * Zpos m in
  let q := Z.shiftr num (- e) in
  let r := num - Z.shiftl q (- e) in
  let half := Z.shiftl 1 (- e - 1) in
  if (half <? r) || ((r =? half) && Z.odd q) then q + 1 else q.

Definition fmt_2f (x : float64) : string :=
  let digits (s : bool) (n : Z) :=
    (if s then "-" else "") +:+ fmt_d (n / 100) +:+ "."
      +:+ (if n mod 100 <? 10 then "0" else "") +:+ fmt_d (n mod 100) in
  match x with
  | S754_nan => "NaN"
  | S754_infinity s => if s then "-Inf" else "+Inf"
  | S754_zero s => digits s 0
  | S754_finite s m e => digits s (hundredths m e)
  end.

(** ** The order of non-NaN numbers *)

(** A triple of integers, ordered lexicographically, that ranks a number. *)
Definition rank (x : float64) : Z * Z * Z :=
  match x with
  | S754_infinity true => (-2, 0, 0)
  | S754_finite true m e => (-1, - e, Zneg m)
  | S754_zero _ | S754_nan => (0, 0, 0)
  | S754_finite false m e => (1, e, Zpos m)
  | S754_infinity false => (2, 0, 0)
  end.

Definition lex3_lt (a b : Z * Z * Z) : Prop :=
  let '(a1, a2, a3) := a in
  let '(b1, b2, b3) := b in
  a1 < b1 \/ a1 = b1 /\ (a2 < b2 \/ a2 = b2 /\ a3 < b3).

Lemma f_ltb_rank x y :
  is_nan x = false -> is_nan y = false ->
  f_ltb x y = true <-> lex3_lt (rank x) (rank y).
Proof.
  intros Hx Hy.
  destruct x as [?|[]| |[] m e], y as [?|[]| |[] m' e'];
    try discriminate; unfold f_ltb, SFltb, lex3_lt; simpl;
    try (split; [discriminate || lia | intros; first [done | lia]]).
  all: destruct (Z.compare_spec e e');
    [change (Pos.compare_cont Eq m m') with (Pos.compare m m');
     destruct (Pos.compare_spec m m')| |]; simpl;
    (split; [discriminate || lia | intros; first [done | lia]]).
Qed.

Lemma f_ltb_asym x y :
  is_nan x = false -> is_nan y = false -> f_ltb x y = true -> f_ltb y x = false.
Proof.
  intros Hx Hy H. apply not_true_is_false. intros H'.
  apply f_ltb_rank in H, H'; try done.
  destruct (rank x) as [[] ?], (rank y) as [[] ?]; unfold lex3_lt in *. lia.
Qed.

Lemma f_ltb_cotrans x y z :
  is_nan x = false -> is_nan y = false -> is_nan z = false ->
  f_ltb x z = true -> f_ltb x y = true \/ f_ltb y z = true.
Proof.
  intros Hx Hy Hz H. rewrite !f_ltb_rank by done. apply f_ltb_rank in H; try done.
  destruct (rank x) as [[] ?], (rank y) as [[] ?], (rank z) as [[] ?].
  unfold lex3_lt in *. lia.
Qed.
