(* ===== verification/FloatFacts.v ===== *)
(** * Facts about binary64 arithmetic

    Conversions from 64-bit integers are finite and, for non-zero integers, not
    zero; quotients of such numbers are not NaN; comparisons are total on
    numbers that are not NaN. *)

From Corelib Require Import SpecFloat.
From S2P Require Import Prelude GoLang GoFloat.

Implicit Types (m e : Z) (x y : float64).

(** ** Digits and shifts *)

Lemma digits2_pos_bound p :
  2 ^ (Zpos (digits2_pos p) - 1) <= Zpos p < 2 ^ Zpos (digits2_pos p).
Proof.
  assert (Hd : forall q, 2 ^ Zpos (Pos.succ (digits2_pos q)) = 2 * (2 * 2 ^ (Zpos (digits2_pos q) - 1))).
  { intros q. rewrite <- !Z.pow_succ_r by lia. f_equal. lia. }
  induction p as [p IH|p IH|]; cbn [digits2_pos]; [| |cbn; lia].
  all: rewrite Hd; replace (Zpos (Pos.succ (digits2_pos p)) - 1) with (Zpos (digits2_pos p)) by lia.
  all: assert (2 ^ Zpos (digits2_pos p) = 2 * 2 ^ (Zpos (digits2_pos p) - 1))
         by (rewrite <- Z.pow_succ_r by lia; f_equal; lia); lia.
Qed.

Lemma Zdigits2_bound m : 0 < m -> 2 ^ (Zdigits2 m - 1) <= m < 2 ^ Zdigits2 m.
Proof. destruct m as [|p|p]; try lia. intros _. apply digits2_pos_bound. Qed.

Lemma Zdigits2_le m n : 0 < m < 2 ^ n -> 0 <= n -> 1 <= Zdigits2 m <= n.
Proof.
  intros Hm Hn. pose proof (Zdigits2_bound m ltac:(lia)) as [Hlo _].
  assert (1 <= Zdigits2 m) by (destruct m; cbn; lia).
  split; [done|]. assert (Zdigits2 m - 1 < n); [|lia].
  apply (Z.pow_lt_mono_r_iff 2); lia.
Qed.

Lemma shr_1_half r : 0 <= shr_m r -> shr_m (shr_1 r) = shr_m r / 2.
Proof.
  destruct r as [[|[p|p|]|p] a b]; cbn -[Z.div]; intros H; try lia; try reflexivity.
  - rewrite Pos2Z.inj_xI. rewrite (Z.mul_comm 2), Z.div_add_l by lia. change (1 / 2) with 0. lia.
  - rewrite Pos2Z.inj_xO. rewrite (Z.mul_comm 2), Z.div_mul by lia. done.
Qed.

Lemma iter_shr p r : 0 <= shr_m r -> shr_m (SpecFloat.iter_pos shr_1 p r) = shr_m r / 2 ^ Zpos p.
Proof.
  revert r. induction p as [p IH|p IH|]; intros r Hr; cbn [SpecFloat.iter_pos];
    [| |by apply shr_1_half].
  - pose proof (shr_1_half r Hr) as H1. set (r1 := shr_1 r) in *.
    assert (Hr1 : 0 <= shr_m r1) by (rewrite H1; apply Z.div_pos; lia).
    assert (Hr2 : 0 <= shr_m (SpecFloat.iter_pos shr_1 p r1)) by (rewrite IH by done; apply Z.div_pos; lia).
    rewrite !IH, H1, !Z.div_div by lia. f_equal.
    rewrite Pos2Z.inj_xI, Z.pow_add_r, Z.mul_comm by lia.
    replace (2 * Zpos p) with (Zpos p + Zpos p) by lia. rewrite Z.pow_add_r by lia. lia.
  - assert (Hr2 : 0 <= shr_m (SpecFloat.iter_pos shr_1 p r)) by (rewrite IH by done; apply Z.div_pos; lia).
    rewrite !IH, Z.div_div by lia. f_equal. rewrite <- Z.pow_add_r by lia. f_equal. lia.
Qed.

(** ** Rounding *)

Lemma shr_record_of_loc_m m l : shr_m (shr_record_of_loc m l) = m.
Proof. by destruct l as [|[]]. Qed.

(** Rounding a mantissa to 53 digits leaves a positive one. *)
Lemma shr_fexp_pos m e l n :
  0 < m < 2 ^ n -> 0 <= n -> -1074 <= e ->
  let '(r, e') := shr_fexp 53 1024 m e l in
  0 < shr_m r <= m /\ e <= e' <= Z.max e (e + n - 53).
Proof.
  intros Hm Hn He. unfold shr_fexp, fexp, emin, shr.
  pose proof (Zdigits2_bound m ltac:(lia)) as Hd. pose proof (Zdigits2_le m n Hm Hn) as Hdn.
  set (d := Zdigits2 m) in *.
  destruct (Z.max (d + e - 53) (3 - 1024 - 53) - e) as [|p|p] eqn:Hp.
  1, 3: rewrite shr_record_of_loc_m; lia.
  assert (Hpd : Zpos p = d - 53) by lia. rewrite iter_shr; rewrite shr_record_of_loc_m; [|lia].
  split; [|lia]. split.
  - apply Z.div_str_pos. split; [lia|]. rewrite Hpd. etransitivity; [|apply Hd].
    apply Z.pow_le_mono_r; lia.
  - apply Z.div_le_upper_bound; [lia|]. assert (1 <= 2 ^ Zpos p) by (apply (Z.pow_le_mono_r 2 0); lia). nia.
Qed.

Lemma round_nearest_even_bound m l : m <= round_nearest_even m l <= m + 1.
Proof. destruct l as [|[]]; cbn; try destruct (Z.even m); lia. Qed.

Lemma binary_round_aux_finite s m e n :
  0 < m < 2 ^ n -> 0 <= n <= 64 -> -1074 <= e <= 64 ->
  exists (p : positive) e', binary_round_aux 53 1024 s m e loc_Exact = S754_finite s p e'.
Proof.
  intros Hm Hn He. unfold binary_round_aux.
  pose proof (shr_fexp_pos m e loc_Exact n Hm ltac:(lia) ltac:(lia)) as H1.
  destruct (shr_fexp 53 1024 m e loc_Exact) as [r1 e1]. destruct H1 as [H1 He1].
  set (m2 := round_nearest_even _ _).
  pose proof (round_nearest_even_bound (shr_m r1) (loc_of_shr_record r1)) as H2. fold m2 in H2.
  assert (Hm2 : 0 < m2 < 2 ^ (n + 1)) by (rewrite Z.pow_add_r by lia; lia).
  pose proof (shr_fexp_pos m2 e1 loc_Exact (n + 1) Hm2 ltac:(lia) ltac:(lia)) as H3.
  destruct (shr_fexp 53 1024 m2 e1 loc_Exact) as [r3 e3]. destruct H3 as [H3 He3].
  destruct (shr_m r3) as [|p|p]; [lia| |lia].
  exists p, e3. destruct (Z.leb_spec e3 (1024 - 53)); [done|lia].
Qed.

Lemma shift_left_pos p d : Zpos (Pos.iter xO p d) = Zpos p * 2 ^ Zpos d.
Proof.
  induction d as [|d IH] using Pos.peano_ind; [cbn [Pos.iter]; lia|].
  rewrite Pos.iter_succ. rewrite Pos2Z.inj_xO, IH, Pos2Z.inj_succ, Z.pow_succ_r by lia. lia.
Qed.

Lemma binary_round_finite s p :
  Zpos p < 2 ^ 64 -> exists (m : positive) e, binary_round 53 1024 s p 0 = S754_finite s m e.
Proof.
  intros Hp. unfold binary_round, shl_align, fexp, emin.
  pose proof (Zdigits2_bound (Zpos p) ltac:(lia)) as Hd. pose proof (Zdigits2_le (Zpos p) 64 ltac:(lia) ltac:(lia)) as Hdn.
  change (Zdigits2 (Zpos p)) with (Zpos (digits2_pos p)) in *. set (d := Zpos (digits2_pos p)) in *.
  destruct (Z.max (d + 0 - 53) (3 - 1024 - 53) - 0) as [|q|q] eqn:Hq.
  1, 2: by apply (binary_round_aux_finite s (Zpos p) 0 64).
  apply (binary_round_aux_finite s _ _ 53); [|lia..]. split; [lia|]. rewrite shift_left_pos.
  replace 53 with (d + Zpos q) at 1 by lia. rewrite Z.pow_add_r by lia.
  apply Z.mul_lt_mono_pos_r; lia.
Qed.

(** ** Conversions and quotients *)

Lemma f_of_Z_finite n :
  Z.abs n < 2 ^ 64 -> n <> 0 -> exists s (m : positive) e, f_of_Z n = S754_finite s m e /\ s = (n <? 0).
Proof.
  intros Hn H0. unfold f_of_Z, binary_normalize. destruct n as [|p|p]; [done| |].
  - destruct (binary_round_finite false p) as (m & e & H); [lia|]. by exists false, m, e.
  - destruct (binary_round_finite true p) as (m & e & H); [lia|]. by exists true, m, e.
Qed.

(** Rounding a non-negative mantissa, whatever its exponent, is not NaN. *)
Lemma shr_fexp_nonneg m e l : 0 <= m -> 0 <= shr_m (shr_fexp 53 1024 m e l).1.
Proof.
  intros Hm. unfold shr_fexp, shr. destruct (_ - e); cbn [fst]; rewrite ?iter_shr; rewrite shr_record_of_loc_m;
    try lia. apply Z.div_pos; lia.
Qed.

Lemma binary_round_aux_not_nan s m e l : 0 <= m -> is_nan (binary_round_aux 53 1024 s m e l) = false.
Proof.
  intros Hm. unfold binary_round_aux. pose proof (shr_fexp_nonneg m e l Hm) as H1.
  destruct (shr_fexp 53 1024 m e l) as [r1 e1]. cbn [fst] in H1.
  pose proof (round_nearest_even_bound (shr_m r1) (loc_of_shr_record r1)) as H2. set (m2 := round_nearest_even _ _) in *.
  pose proof (shr_fexp_nonneg m2 e1 loc_Exact ltac:(lia)) as H3.
  destruct (shr_fexp 53 1024 m2 e1 loc_Exact) as [r3 e3]. cbn [fst] in H3.
  destruct (shr_m r3); [done| |lia]. by destruct (_ <=? _).
Qed.

Lemma f_div_not_nan s1 p1 e1 s2 p2 e2 :
  is_nan (f_div (S754_finite s1 p1 e1) (S754_finite s2 p2 e2)) = false.
Proof.
  unfold f_div, SFdiv, SFdiv_core_binary.
  match goal with |- context [Z.div_eucl ?a _] => set (num := a) end.
  assert (Hnum : 0 <= num).
  { subst num. destruct (_ - _) eqn:Hs; [lia| |lia]. apply Z.shiftl_nonneg. lia. }
  pose proof (Z.div_pos num (Zpos p2) Hnum ltac:(lia)) as Hq. unfold Z.div in Hq.
  destruct (Z.div_eucl num (Zpos p2)) as [q r]. by apply binary_round_aux_not_nan.
Qed.

Lemma quotient_not_nan a b :
  in_i64 a -> 0 < b <= i64_max -> is_nan (f_div (f_of_Z a) (f_of_Z b)) = false.
Proof.
  unfold in_i64, i64_min, i64_max. intros Ha Hb.
  destruct (f_of_Z_finite b) as (s2 & m2 & e2 & -> & _); [lia..|].
  destruct (Z.eq_dec a 0) as [->|Ha0]; [done|].
  destruct (f_of_Z_finite a) as (s1 & m1 & e1 & -> & _); [lia..|]. apply f_div_not_nan.
Qed.

(** ** Order *)

Lemma f_not_ltb x y : is_nan x = false -> is_nan y = false -> f_ltb x y = false -> f_leb y x = true.
Proof.
  unfold f_ltb, f_leb, SFltb, SFleb.
  destruct x as [a|a| |a m1 e1], y as [b|b| |b m2 e2]; cbn; try discriminate; intros _ _;
    try by destruct a, b. all: try by destruct a. all: try by destruct b.
  rewrite (Z.compare_antisym e1 e2). fold (Pos.compare m2 m1) (Pos.compare m1 m2).
  rewrite (Pos.compare_antisym m1 m2).
  by destruct a, b; destruct (e1 ?= e2); destruct (m1 ?= m2)%positive.
Qed.

Lemma clamped_finite x :
  is_nan x = false -> f_ltb x f_zero = false -> f_ltb (f_of_Z 1) x = false -> is_finite_f x = true.
Proof. by destruct x as [|[]| |]. Qed.
