(* ===== verification/GoSort.v ===== *)
(** * Stable sorting

    [sort.SliceStable]: a stable sort by a [less] function.  For a strict weak
    order the outcome of a stable sort is unique, so the algorithm used to
    compute it does not matter; the class [StrictWeak] states that order on
    the elements that satisfy a predicate (for instance "the score is not
    NaN"). *)

From S2P Require Import Prelude GoLang.

Section SliceStable.
Context {A : Type} (less : A -> A -> bool).

Fixpoint insert_stable (x : A) (l : list A) : list A :=
  match l with
  | [] => [x]
  | y :: l' => if less y x then y :: insert_stable x l' else x :: y :: l'
  end.

Definition SliceStable (l : list A) : list A := foldr insert_stable [] l.

End SliceStable.

(** [less] is asymmetric and its complement is transitive, on [P]. *)
Class StrictWeak {A : Type} (P : A -> Prop) (less : A -> A -> bool) : Prop := {
  sw_asym : forall x y, P x -> P y -> less x y = true -> less y x = false;
  sw_cotrans : forall x y z, P x -> P y -> P z ->
    less x z = true -> less x y = true \/ less y z = true
}.

(** [x] may stand before [y] in a sorted slice. *)
Definition not_after {A} (less : A -> A -> bool) (x y : A) : Prop := less y x = false.

Section SliceStableFacts.
Context {A : Type} (P : A -> Prop) (less : A -> A -> bool) `{!StrictWeak P less}.

Lemma insert_stable_perm x l : insert_stable less x l ≡ₚ x :: l.
Proof.
  induction l as [|y l IH]; simpl; [done|].
  destruct (less y x); [|done]. rewrite IH. apply perm_swap.
Qed.

Lemma SliceStable_perm l : SliceStable less l ≡ₚ l.
Proof.
  induction l as [|x l IH]; simpl; [done|].
  by rewrite insert_stable_perm, IH.
Qed.

Lemma not_after_trans x y z :
  P x -> P y -> P z -> not_after less x y -> not_after less y z -> not_after less x z.
Proof.
  intros Hx Hy Hz Hxy Hyz. apply not_true_is_false. intros H.
  unfold not_after in *. destruct (sw_cotrans z y x Hz Hy Hx H); congruence.
Qed.

Lemma insert_stable_sorted x l :
  P x -> Forall P l -> StronglySorted (not_after less) l ->
  StronglySorted (not_after less) (insert_stable less x l).
Proof.
  intros Hx Hl Hs. induction Hs as [|y l Hs IH Hy]; simpl.
  { repeat constructor. }
  inversion Hl as [|? ? Py Pl]; subst.
  destruct (less y x) eqn:E.
  - constructor; [by apply IH|]. rewrite insert_stable_perm. constructor; [|done].
    by apply (sw_asym y x).
  - constructor; [by constructor|]. constructor; [done|].
    rewrite Forall_forall in Hy, Pl |- *. intros z Hz.
    eapply (not_after_trans x y z); eauto.
Qed.

Lemma SliceStable_sorted l :
  Forall P l -> StronglySorted (not_after less) (SliceStable less l).
Proof.
  induction 1 as [|x l Hx Hl IH]; simpl; [constructor|].
  apply insert_stable_sorted; [done| |done].
  by rewrite SliceStable_perm.
Qed.

(** The head of the result is minimal. *)
Lemma SliceStable_head_min l x l' y :
  Forall P l -> SliceStable less l = x :: l' -> y ∈ l -> less y x = false.
Proof.
  intros Hl E Hy. pose proof (SliceStable_sorted l Hl) as Hs.
  rewrite <- SliceStable_perm, E in Hy. rewrite E in Hs.
  inversion Hs as [|? ? _ Hall]; subst. rewrite Forall_forall in Hall.
  apply list_elem_of_In in Hy as [->|Hy].
  - destruct (less y y) eqn:E'; [|done].
    assert (P y) as Py.
    { assert (y ∈ l) as Hin by (rewrite <- SliceStable_perm, E; left).
      rewrite Forall_forall in Hl. auto. }
    by rewrite (sw_asym y y) in E'.
  - apply Hall. by apply list_elem_of_In.
Qed.

(** Elements that [less] does not tell apart keep their relative order. *)
Lemma insert_stable_filter (k : A -> bool) x l :
  P x -> Forall P l ->
  (forall y z, P y -> P z -> k y = true -> k z = true -> less y z = false) ->
  List.filter k (insert_stable less x l) = List.filter k (x :: l).
Proof.
  intros Hx Hl Hk. induction Hl as [|y l Hy Hl IH]; [done|]. simpl.
  destruct (less y x) eqn:E; [|done].
  simpl. rewrite IH. simpl.
  destruct (k y) eqn:Ey, (k x) eqn:Ex; try done.
  by rewrite Hk in E.
Qed.

Lemma SliceStable_stable (k : A -> bool) l :
  Forall P l ->
  (forall y z, P y -> P z -> k y = true -> k z = true -> less y z = false) ->
  List.filter k (SliceStable less l) = List.filter k l.
Proof.
  intros Hl Hk. induction Hl as [|x l Hx Hl IH]; [done|].
  cbn [SliceStable foldr].
  rewrite insert_stable_filter; [|done| |done].
  - cbn [List.filter]. unfold SliceStable in IH. by rewrite IH.
  - change (Forall P (SliceStable less l)). by rewrite SliceStable_perm.
Qed.

End SliceStableFacts.

Lemma SliceStable_nil {A} (less : A -> A -> bool) l : SliceStable less l = [] <-> l = [].
Proof.
  split; [|intros ->; done]. intros H. apply Permutation_nil_r.
  by rewrite <- (SliceStable_perm less l), H.
Qed.

(** The head of a stable sort is the first of the elements that tie with it:
    everything before it in the input is strictly greater. *)
Lemma SliceStable_head_first {A} (less : A -> A -> bool) l x l' :
  SliceStable less l = x :: l' ->
  exists pre post, l = pre ++ x :: post /\ Forall (fun y => less x y = true) pre.
Proof.
  revert x l'. induction l as [|a l IH]; intros x l'; simpl; [discriminate|].
  fold (SliceStable less l). destruct (SliceStable less l) as [|b s] eqn:E; simpl.
  - apply SliceStable_nil in E as ->. intros [= <- <-]. by exists [], [].
  - destruct (less b a) eqn:Eba; intros [= <- <-].
    + destruct (IH b s eq_refl) as (pre & post & -> & Hpre).
      exists (a :: pre), post. split; [done|]. by constructor.
    + by exists [], l.
Qed.

(** Splitting a mapped and filtered list splits the list itself. *)
Lemma map_filter_split {A B} (f : A -> B) (q : A -> bool) l pre x post :
  List.map f (List.filter q l) = pre ++ x :: post ->
  exists pre' a post', l = pre' ++ a :: post' /\ f a = x /\ q a = true /\
    List.map f (List.filter q pre') = pre.
Proof.
  revert pre. induction l as [|a l IH]; intros pre; simpl; [by destruct pre|].
  destruct (q a) eqn:Ea; simpl.
  - destruct pre as [|b pre]; simpl; intros [= <- H].
    + by exists [], a, l.
    + destruct (IH pre H) as (pre' & a' & post' & -> & Hf & Hq & Hm).
      exists (a :: pre'), a', post'. simpl. rewrite Ea. simpl. by rewrite Hm.
  - intros H. destruct (IH pre H) as (pre' & a' & post' & -> & Hf & Hq & Hm).
    exists (a :: pre'), a', post'. simpl. by rewrite Ea.
Qed.
