(* ===== verification/GoTime.v ===== *)
(** * [time.Time.Format(time.RFC3339Nano)]

    The text of a UTC instant as it appears in database keys:
    [2006-01-02T15:04:05.999999999Z07:00], where the fraction loses its
    trailing zeros and disappears when it is zero.  Instants are
    those of the years 1 to 9999. *)

From Stdlib Require Import Ascii String.
From S2P Require Import Prelude GoLang.

(** The civil date of a day number, day 0 being January 1 of year 1.  Years are
    counted from March, in 400-year eras of 146097 days. *)
Definition civil (days : Z) : Z * Z * Z :=
  let z := days + 306 in
  let era := z / 146097 in
  let doe := z mod 146097 in
  let yoe := (doe - doe / 1460 + doe / 36524 - doe / 146096) / 365 in
  let doy := doe - (365 * yoe + yoe / 4 - yoe / 100) in
  let mp := (5 * doy + 2) / 153 in
  let d := doy - (153 * mp + 2) / 5 + 1 in
  let m := if mp <? 10 then mp + 3 else mp - 9 in
  let y := yoe + era * 400 in
  (if m <=? 2 then y + 1 else y, m, d).

(** A non-negative number, zero padded to [w] columns. *)
Definition pad (w : nat) (z : Z) : string :=
  let s := pretty (Z.abs_N z) in
  String.concat "" (List.repeat "0" (w - String.length s)%nat) +:+ s.

Definition fraction (ns : Z) : string :=
  if ns =? 0 then "" else "." +:+ TrimRight (pad 9 ns) "0"%char.

Definition RFC3339Nano (t : Time) : string :=
  let '(y, m, d) := civil (t / (86400 * 10 ^ 9)) in
  let s := (t / 10 ^ 9) mod 86400 in
  pad 4 y +:+ "-" +:+ pad 2 m +:+ "-" +:+ pad 2 d +:+ "T"
    +:+ pad 2 (s / 3600) +:+ ":" +:+ pad 2 ((s / 60) mod 60) +:+ ":" +:+ pad 2 (s mod 60)
    +:+ fraction (t mod 10 ^ 9) +:+ "Z".

Example civil_epoch : civil (unix_epoch / (86400 * 10 ^ 9)) = (1970, 1, 1).
Proof. reflexivity. Qed.

Example format_leap_day :
  RFC3339Nano (unix_epoch + 951782400 * 10 ^ 9 + 120000000) = "2000-02-29T00:00:00.12Z".
Proof. vm_compute. reflexivity. Qed.
