(* ===== verification/Effects.v ===== *)
(** * The effects of the orchestrator's operations

    An operation of the service reads the clock and a random generator, runs
    database transactions that may fail, and updates the state the service
    keeps in memory.  [M S] is the state-and-error monad over a state [S]: a Go
    function of results [(A, error)] is a computation in [M S A], and an error
    leaves the effects made so far in place, as in Go.

    [steps R m] says that running [m] relates the state before to the state
    after by [R], whatever the outcome; with [R] a preorder it is established
    compositionally, and it expresses both invariants and frame conditions. *)

From S2P Require Import Prelude GoLang.

Definition M (S A : Type) : Type := S -> Res A * S.

#[export] Instance M_ret {S} : MRet (M S) := fun A a s => (Ok a, s).

#[export] Instance M_bind {S} : MBind (M S) := fun A B k m s =>
  match m s with
  | (Ok a, s') => k a s'
  | (Err e, s') => (Err e, s')
  end.

(** [return ..., err] *)
Definition throw {S A} (e : error) : M S A := fun s => (Err e, s).

(** Run [m] and inspect its error: [x, err := m; if err != nil ...]. *)
Definition attempt {S A} (m : M S A) : M S (Res A) := fun s =>
  let '(r, s') := m s in (Ok r, s').

(** [_ = m] *)
Definition ignore {S A} (m : M S A) : M S unit := fun s => (Ok tt, (m s).2).

Definition get_state {S} : M S S := fun s => (Ok s, s).
Definition modify {S} (f : S -> S) : M S unit := fun s => (Ok tt, f s).
Definition of_res {S A} (r : Res A) : M S A := fun s => (r, s).

(** [for _, x := range l { ...; if err != nil { return err } }] *)
Fixpoint for_each {S A} (l : list A) (body : A -> M S unit) : M S unit :=
  match l with
  | [] => mret tt
  | x :: l' => body x ;; for_each l' body
  end.

(** A loop with an accumulator. *)
Fixpoint fold_m {S A B} (l : list A) (acc : B) (body : B -> A -> M S B) : M S B :=
  match l with
  | [] => mret acc
  | x :: l' => acc' ← body acc x; fold_m l' acc' body
  end.

(** ** Reasoning about runs *)

Lemma bind_Ok {S A B} (m : M S A) (k : A -> M S B) s a s' :
  m s = (Ok a, s') -> (m ≫= k) s = k a s'.
Proof. intros H. unfold mbind, M_bind. by rewrite H. Qed.

Lemma bind_Err {S A B} (m : M S A) (k : A -> M S B) s e s' :
  m s = (Err e, s') -> (m ≫= k) s = (Err e, s').
Proof. intros H. unfold mbind, M_bind. by rewrite H. Qed.

Lemma bind_inv {S A B} (m : M S A) (k : A -> M S B) s r s' :
  (m ≫= k) s = (r, s') ->
  (exists a s1, m s = (Ok a, s1) /\ k a s1 = (r, s'))
  \/ (exists e, m s = (Err e, s') /\ r = Err e).
Proof.
  unfold mbind, M_bind. destruct (m s) as [[a|e] s1]; [eauto|].
  intros [= <- <-]. eauto.
Qed.

(** ** Step relations *)

Definition steps {S A} (R : relation S) (m : M S A) : Prop := forall s, R s (m s).2.

Create HintDb steps.

Section Steps.
Context {S : Type} (R : relation S) `{!PreOrder R}.

Lemma steps_ret {A} (a : A) : steps R (mret a : M S A).
Proof. intros s. simpl. reflexivity. Qed.

Lemma steps_throw {A} e : steps R (throw e : M S A).
Proof. intros s. simpl. reflexivity. Qed.

Lemma steps_of_res {A} (r : Res A) : steps R (of_res r : M S A).
Proof. intros s. simpl. reflexivity. Qed.

Lemma steps_get : steps R (get_state : M S S).
Proof. intros s. simpl. reflexivity. Qed.

Lemma steps_bind {A B} (m : M S A) (k : A -> M S B) :
  steps R m -> (forall a, steps R (k a)) -> steps R (m ≫= k).
Proof.
  intros Hm Hk s. unfold mbind, M_bind. specialize (Hm s).
  destruct (m s) as [[a|e] s']; [|done]. etrans; [exact Hm|apply Hk].
Qed.

Lemma steps_attempt {A} (m : M S A) : steps R m -> steps R (attempt m).
Proof. intros H s. unfold attempt. specialize (H s). by destruct (m s). Qed.

Lemma steps_ignore {A} (m : M S A) : steps R m -> steps R (ignore m).
Proof. intros H s. apply H. Qed.

Lemma steps_for_each {A} (l : list A) body :
  (forall x, x ∈ l -> steps R (body x)) -> steps R (for_each l body).
Proof.
  induction l as [|x l IH]; intros H; simpl; [apply steps_ret|].
  apply steps_bind; [apply H; left|]. intros _. apply IH. intros y Hy. apply H. by right.
Qed.

Lemma steps_fold_m {A B} (l : list A) (acc : B) body :
  (forall acc x, x ∈ l -> steps R (body acc x)) -> steps R (fold_m l acc body).
Proof.
  revert acc. induction l as [|x l IH]; intros acc H; simpl; [apply steps_ret|].
  apply steps_bind; [apply H; left|]. intros acc'. apply IH. intros acc'' y Hy. apply H. by right.
Qed.

End Steps.

#[export] Hint Extern 1 (steps _ (mret _)) => apply steps_ret; typeclasses eauto : steps.
#[export] Hint Extern 1 (steps _ (throw _)) => apply steps_throw; typeclasses eauto : steps.
#[export] Hint Extern 1 (steps _ (of_res _)) => apply steps_of_res; typeclasses eauto : steps.
#[export] Hint Extern 1 (steps _ get_state) => apply steps_get; typeclasses eauto : steps.

(** Walk through a computation: binds, loops and case distinctions are taken
    apart, and the operations they call are looked up in the database. *)
Ltac steps_tac :=
  repeat match goal with
    | |- forall _, _ => intro
    | |- steps _ (_ ≫= _) => apply steps_bind; [typeclasses eauto| |]
    | |- steps _ (for_each _ _) => apply steps_for_each; [typeclasses eauto|]
    | |- steps _ (fold_m _ _ _) => apply steps_fold_m; [typeclasses eauto|]
    | |- steps _ (attempt _) => apply steps_attempt
    | |- steps _ (ignore _) => apply steps_ignore
    | |- steps _ (if ?b then _ else _) => destruct b
    | |- steps _ (match ?x with _ => _ end) => destruct x
    | |- steps _ _ => solve [eauto with steps]
    end.

(** Invariants are step relations. *)
Definition keeps {S} (I : S -> Prop) : relation S := fun s s' => I s -> I s'.

#[export] Instance keeps_PreOrder {S} (I : S -> Prop) : PreOrder (keeps I).
Proof. split; [intros s Hs; exact Hs|]. intros x y z Hxy Hyz Hx. by apply Hyz, Hxy. Qed.

(** Two step relations at once. *)
Definition both {S} (R R' : relation S) : relation S := fun s s' => R s s' /\ R' s s'.

#[export] Instance both_PreOrder {S} (R R' : relation S) `{!PreOrder R, !PreOrder R'} :
  PreOrder (both R R').
Proof.
  split.
  - intros x. split; reflexivity.
  - intros x y z [H1 H2] [H3 H4]. split; etrans; eauto.
Qed.

(** ** Triples

    [hoare P m Q]: from a state in [P], [m] ends with an outcome and a state in
    [Q].  Every computation of [M] terminates, so that this is total
    correctness. *)
Definition hoare {S A} (P : S -> Prop) (m : M S A) (Q : Res A -> S -> Prop) : Prop :=
  forall s, P s -> Q (m s).1 (m s).2.

Section Hoare.
Context {S : Type}.

Lemma hoare_ret {A} (P : S -> Prop) (a : A) (Q : Res A -> S -> Prop) :
  (forall s, P s -> Q (Ok a) s) -> hoare P (mret a) Q.
Proof. intros H s Hs. by apply H. Qed.

Lemma hoare_conseq {A} (P P' : S -> Prop) (m : M S A) (Q Q' : Res A -> S -> Prop) :
  hoare P' m Q' -> (forall s, P s -> P' s) -> (forall r s, Q' r s -> Q r s) -> hoare P m Q.
Proof. intros H HP HQ s Hs. by apply HQ, H, HP. Qed.

Lemma hoare_bind {A B} (P : S -> Prop) (m : M S A) (R : Res A -> S -> Prop) (k : A -> M S B)
    (Q : Res B -> S -> Prop) :
  hoare P m R -> (forall a, hoare (R (Ok a)) (k a) Q) -> (forall e s, R (Err e) s -> Q (Err e) s) ->
  hoare P (m ≫= k) Q.
Proof.
  intros Hm Hk He s Hs. specialize (Hm s Hs). unfold mbind, M_bind.
  destruct (m s) as [[a|e] s']; [by apply Hk|by apply He].
Qed.

Lemma hoare_attempt {A} (P : S -> Prop) (m : M S A) (Q : Res (Res A) -> S -> Prop) :
  hoare P m (fun r s => Q (Ok r) s) -> hoare P (attempt m) Q.
Proof. intros H s Hs. specialize (H s Hs). unfold attempt. by destruct (m s). Qed.

Lemma hoare_ignore {A} (P : S -> Prop) (m : M S A) (Q : Res unit -> S -> Prop) :
  hoare P m (fun _ s => Q (Ok tt) s) -> hoare P (ignore m) Q.
Proof. intros H s Hs. by specialize (H s Hs). Qed.

Lemma hoare_steps {A} (R : relation S) (P : S -> Prop) (m : M S A) (Q : Res A -> S -> Prop) :
  steps R m -> (forall r s s', P s -> R s s' -> Q r s') -> hoare P m Q.
Proof. intros H HQ s Hs. by apply (HQ _ s). Qed.

(** A fact that does not depend on the state leaves the precondition. *)
Lemma hoare_pure {A} (F : Prop) (P : S -> Prop) (m : M S A) (Q : Res A -> S -> Prop) :
  (F -> hoare P m Q) -> hoare (fun s => P s /\ F) m Q.
Proof. intros H s [Hs HF]. by apply H. Qed.

Lemma hoare_fact {A} (F : Prop) (P P' : S -> Prop) (m : M S A) (Q : Res A -> S -> Prop) :
  (forall s, P s -> F /\ P' s) -> (F -> hoare P' m Q) -> hoare P m Q.
Proof. intros H HF s Hs. destruct (H s Hs). by apply HF. Qed.

End Hoare.
