(* ===== verification/Model.v ===== *)
(** * The domain types

    One record per struct of [internal/model/types.go], its fields prefixed
    with the struct's name; the string-typed enumerations stay strings, as in
    Go, because their values also come from requests.  A map or slice field is
    an [option] where the code tells nil from empty (it compares with [nil], or
    [reflect.DeepEqual] sees it); elsewhere nil and empty are one value.

    The file also holds what [encoding/json] does to a value that is marshalled
    and unmarshalled again: an empty slice of an [omitempty] field comes back
    as nil, and a NaN or an infinity is refused. *)

From Corelib Require Import SpecFloat.
From S2P Require Import Prelude GoLang GoFloat.

(** ** Enumerations *)

Abbreviation NodeStatus := string (only parsing).
Abbreviation NodeFailureClass := string (only parsing).
Abbreviation DeploymentStatus := string (only parsing).
Abbreviation RolloutStrategyType := string (only parsing).
Abbreviation DeploymentConditionType := string (only parsing).
Abbreviation WorkloadStatus := string (only parsing).
Abbreviation ServiceProtocol := string (only parsing).
Abbreviation ServiceType := string (only parsing).
Abbreviation PersistentVolumePhase := string (only parsing).
Abbreviation PersistentVolumeClaimPhase := string (only parsing).
Abbreviation JobPhase := string (only parsing).
Abbreviation EventLevel := string (only parsing).

Definition NodeReady : NodeStatus := "Ready".
Definition NodeUnknown : NodeStatus := "Unknown".
Definition NodeDown : NodeStatus := "Down".
Definition NodeFailureHealthy : NodeFailureClass := "Healthy".
Definition NodeFailureWarning : NodeFailureClass := "Warning".
Definition NodeFailureCritical : NodeFailureClass := "Critical".
Definition DeploymentPending : DeploymentStatus := "Pending".
Definition DeploymentRunning : DeploymentStatus := "Running".
Definition DeploymentFailed : DeploymentStatus := "Failed".
Definition RolloutStrategyRollingUpdate : RolloutStrategyType := "RollingUpdate".
Definition RolloutStrategyCanary : RolloutStrategyType := "Canary".
Definition ConditionAvailable : DeploymentConditionType := "Available".
Definition ConditionProgressing : DeploymentConditionType := "Progressing".
Definition ConditionDegraded : DeploymentConditionType := "Degraded".
Definition WorkloadPending : WorkloadStatus := "Pending".
Definition WorkloadRunning : WorkloadStatus := "Running".
Definition WorkloadFailed : WorkloadStatus := "Failed".
Definition WorkloadTerminating : WorkloadStatus := "Terminating".
Definition WorkloadTerminated : WorkloadStatus := "Terminated".
Definition ServiceProtocolTCP : ServiceProtocol := "TCP".
Definition ServiceProtocolUDP : ServiceProtocol := "UDP".
Definition ServiceTypeClusterIP : ServiceType := "ClusterIP".
Definition ServiceTypeNodePort : ServiceType := "NodePort".
Definition PersistentVolumeAvailable : PersistentVolumePhase := "Available".
Definition PersistentVolumeBound : PersistentVolumePhase := "Bound".
Definition PersistentVolumeReleased : PersistentVolumePhase := "Released".
Definition PersistentVolumeClaimPending : PersistentVolumeClaimPhase := "Pending".
Definition PersistentVolumeClaimBound : PersistentVolumeClaimPhase := "Bound".
Definition JobPending : JobPhase := "Pending".
Definition JobRunning : JobPhase := "Running".
Definition JobSucceeded : JobPhase := "Succeeded".
Definition JobFailed : JobPhase := "Failed".
Definition EventInfo : EventLevel := "Info".
Definition EventWarn : EventLevel := "Warn".
Definition EventError : EventLevel := "Error".

(** ** Structs *)

Record Resource : Type := MkResource {
  Resource_MilliCPU : Z;
  Resource_MemoryMB : Z
}.

#[export] Instance eta_Resource : Eta Resource := fun r =>
  MkResource r.(Resource_MilliCPU) r.(Resource_MemoryMB).

Record Taint : Type := MkTaint {
  Taint_Key : string;
  Taint_Value : string;
  Taint_Effect : string
}.

#[export] Instance eta_Taint : Eta Taint := fun r =>
  MkTaint r.(Taint_Key) r.(Taint_Value) r.(Taint_Effect).

Record Toleration : Type := MkToleration {
  Toleration_Key : string;
  Toleration_Value : string;
  Toleration_Effect : string;
  Toleration_Operator : string
}.

#[export] Instance eta_Toleration : Eta Toleration := fun r =>
  MkToleration r.(Toleration_Key) r.(Toleration_Value) r.(Toleration_Effect)
    r.(Toleration_Operator).

Record NodeHealth : Type := MkNodeHealth {
  NodeHealth_CPUUtilization : float64;
  NodeHealth_MemoryUtilization : float64;
  NodeHealth_LastHeartbeatAgeSec : Z;
  NodeHealth_ConsecutiveMissedTTL : Z;
  NodeHealth_FailureClass : NodeFailureClass;
  NodeHealth_Reason : string;
  NodeHealth_Isolated : bool;
  NodeHealth_Draining : bool;
  NodeHealth_LastEvaluatedAt : Time
}.

#[export] Instance eta_NodeHealth : Eta NodeHealth := fun r =>
  MkNodeHealth r.(NodeHealth_CPUUtilization) r.(NodeHealth_MemoryUtilization)
    r.(NodeHealth_LastHeartbeatAgeSec) r.(NodeHealth_ConsecutiveMissedTTL)
    r.(NodeHealth_FailureClass) r.(NodeHealth_Reason) r.(NodeHealth_Isolated)
    r.(NodeHealth_Draining) r.(NodeHealth_LastEvaluatedAt).

Record Node : Type := MkNode {
  Node_ID : string;
  Node_Address : string;
  Node_Labels : option (gmap string string);
  Node_Taints : list Taint;
  Node_Capacity : Resource;
  Node_Allocatable : Resource;
  Node_Used : Resource;
  Node_Status : NodeStatus;
  Node_Health : NodeHealth;
  Node_LastSeen : Time
}.

#[export] Instance eta_Node : Eta Node := fun r =>
  MkNode r.(Node_ID) r.(Node_Address) r.(Node_Labels) r.(Node_Taints) r.(Node_Capacity)
    r.(Node_Allocatable) r.(Node_Used) r.(Node_Status) r.(Node_Health) r.(Node_LastSeen).

Record SecretMountSpec : Type := MkSecretMountSpec {
  SecretMountSpec_SecretName : string;
  SecretMountSpec_MountPath : string
}.

#[export] Instance eta_SecretMountSpec : Eta SecretMountSpec := fun r =>
  MkSecretMountSpec r.(SecretMountSpec_SecretName) r.(SecretMountSpec_MountPath).

Record ProbeSpec : Type := MkProbeSpec {
  ProbeSpec_Enabled : bool;
  ProbeSpec_InitialDelaySeconds : Z;
  ProbeSpec_FailureThreshold : Z
}.

#[export] Instance eta_ProbeSpec : Eta ProbeSpec := fun r =>
  MkProbeSpec r.(ProbeSpec_Enabled) r.(ProbeSpec_InitialDelaySeconds)
    r.(ProbeSpec_FailureThreshold).

Record RollingUpdateSpec : Type := MkRollingUpdateSpec {
  RollingUpdateSpec_MaxUnavailable : Z;
  RollingUpdateSpec_MaxSurge : Z
}.

#[export] Instance eta_RollingUpdateSpec : Eta RollingUpdateSpec := fun r =>
  MkRollingUpdateSpec r.(RollingUpdateSpec_MaxUnavailable)
    r.(RollingUpdateSpec_MaxSurge).

Record CanarySpec : Type := MkCanarySpec {
  CanarySpec_Enabled : bool;
  CanarySpec_Percentage : Z
}.

#[export] Instance eta_CanarySpec : Eta CanarySpec := fun r =>
  MkCanarySpec r.(CanarySpec_Enabled) r.(CanarySpec_Percentage).

Record RolloutSpec : Type := MkRolloutSpec {
  RolloutSpec_Strategy : RolloutStrategyType;
  RolloutSpec_RollingUpdate : RollingUpdateSpec;
  RolloutSpec_Canary : CanarySpec;
  RolloutSpec_ProgressDeadlineSeconds : Z;
  RolloutSpec_AutoRollbackOnFailure : bool;
  RolloutSpec_MaxFailedWorkloads : Z;
  RolloutSpec_SLOErrorRateThreshold : float64;
  RolloutSpec_SLOWindowSeconds : Z
}.

#[export] Instance eta_RolloutSpec : Eta RolloutSpec := fun r =>
  MkRolloutSpec r.(RolloutSpec_Strategy) r.(RolloutSpec_RollingUpdate)
    r.(RolloutSpec_Canary) r.(RolloutSpec_ProgressDeadlineSeconds)
    r.(RolloutSpec_AutoRollbackOnFailure) r.(RolloutSpec_MaxFailedWorkloads)
    r.(RolloutSpec_SLOErrorRateThreshold) r.(RolloutSpec_SLOWindowSeconds).

Record DeploymentSpec : Type := MkDeploymentSpec {
  DeploymentSpec_Namespace : string;
  DeploymentSpec_Name : string;
  DeploymentSpec_Image : string;
  DeploymentSpec_ImagePullSecret : string;
  DeploymentSpec_SecretMounts : option (list SecretMountSpec);
  DeploymentSpec_VolumeClaims : option (list string);
  DeploymentSpec_Replicas : Z;
  DeploymentSpec_Priority : Z;
  DeploymentSpec_Resources : Resource;
  DeploymentSpec_Labels : option (gmap string string);
  DeploymentSpec_Tolerations : option (list Toleration);
  DeploymentSpec_LivenessProbe : ProbeSpec;
  DeploymentSpec_ReadinessProbe : ProbeSpec;
  DeploymentSpec_Rollout : RolloutSpec
}.

#[export] Instance eta_DeploymentSpec : Eta DeploymentSpec := fun r =>
  MkDeploymentSpec r.(DeploymentSpec_Namespace) r.(DeploymentSpec_Name)
    r.(DeploymentSpec_Image) r.(DeploymentSpec_ImagePullSecret)
    r.(DeploymentSpec_SecretMounts) r.(DeploymentSpec_VolumeClaims)
    r.(DeploymentSpec_Replicas) r.(DeploymentSpec_Priority) r.(DeploymentSpec_Resources)
    r.(DeploymentSpec_Labels) r.(DeploymentSpec_Tolerations)
    r.(DeploymentSpec_LivenessProbe) r.(DeploymentSpec_ReadinessProbe)
    r.(DeploymentSpec_Rollout).

Record DeploymentCondition : Type := MkDeploymentCondition {
  DeploymentCondition_Type : DeploymentConditionType;
  DeploymentCondition_Status : bool;
  DeploymentCondition_Reason : string;
  DeploymentCondition_Message : string;
  DeploymentCondition_LastTransitionTime : Time
}.

#[export] Instance eta_DeploymentCondition : Eta DeploymentCondition := fun r =>
  MkDeploymentCondition r.(DeploymentCondition_Type) r.(DeploymentCondition_Status)
    r.(DeploymentCondition_Reason) r.(DeploymentCondition_Message)
    r.(DeploymentCondition_LastTransitionTime).

Record DeploymentRevision : Type := MkDeploymentRevision {
  DeploymentRevision_Revision : Z;
  DeploymentRevision_Spec : DeploymentSpec;
  DeploymentRevision_CreatedAt : Time
}.

#[export] Instance eta_DeploymentRevision : Eta DeploymentRevision := fun r =>
  MkDeploymentRevision r.(DeploymentRevision_Revision) r.(DeploymentRevision_Spec)
    r.(DeploymentRevision_CreatedAt).

Record DeploymentRolloutStatus : Type := MkDeploymentRolloutStatus {
  DeploymentRolloutStatus_Phase : string;
  DeploymentRolloutStatus_UpdatedReplicas : Z;
  DeploymentRolloutStatus_ReadyReplicas : Z;
  DeploymentRolloutStatus_UnavailableReplicas : Z;
  DeploymentRolloutStatus_Message : string;
  DeploymentRolloutStatus_StartedAt : Time;
  DeploymentRolloutStatus_LastUpdatedAt : Time
}.

#[export] Instance eta_DeploymentRolloutStatus : Eta DeploymentRolloutStatus := fun r =>
  MkDeploymentRolloutStatus r.(DeploymentRolloutStatus_Phase)
    r.(DeploymentRolloutStatus_UpdatedReplicas)
    r.(DeploymentRolloutStatus_ReadyReplicas)
    r.(DeploymentRolloutStatus_UnavailableReplicas) r.(DeploymentRolloutStatus_Message)
    r.(DeploymentRolloutStatus_StartedAt) r.(DeploymentRolloutStatus_LastUpdatedAt).

Record Deployment : Type := MkDeployment {
  Deployment_ID : string;
  Deployment_Spec : DeploymentSpec;
  Deployment_Generation : Z;
  Deployment_ObservedGeneration : Z;
  Deployment_CurrentRevision : Z;
  Deployment_RevisionHistory : list DeploymentRevision;
  Deployment_RolloutStatus : DeploymentRolloutStatus;
  Deployment_Owner : string;
  Deployment_Finalizers : list string;
  Deployment_DeletionTimestamp : option Time;
  Deployment_Status : DeploymentStatus;
  Deployment_Conditions : list DeploymentCondition;
  Deployment_CreatedAt : Time;
  Deployment_UpdatedAt : Time
}.

#[export] Instance eta_Deployment : Eta Deployment := fun r =>
  MkDeployment r.(Deployment_ID) r.(Deployment_Spec) r.(Deployment_Generation)
    r.(Deployment_ObservedGeneration) r.(Deployment_CurrentRevision)
    r.(Deployment_RevisionHistory) r.(Deployment_RolloutStatus) r.(Deployment_Owner)
    r.(Deployment_Finalizers) r.(Deployment_DeletionTimestamp) r.(Deployment_Status)
    r.(Deployment_Conditions) r.(Deployment_CreatedAt) r.(Deployment_UpdatedAt).

Record Workload : Type := MkWorkload {
  Workload_ID : string;
  Workload_DeploymentID : string;
  Workload_Priority : Z;
  Workload_NodeID : string;
  Workload_Image : string;
  Workload_Resources : Resource;
  Workload_Status : WorkloadStatus;
  Workload_ContainerID : string;
  Workload_RestartCount : Z;
  Workload_Version : Z;
  Workload_CreatedAt : Time;
  Workload_UpdatedAt : Time
}.

#[export] Instance eta_Workload : Eta Workload := fun r =>
  MkWorkload r.(Workload_ID) r.(Workload_DeploymentID) r.(Workload_Priority)
    r.(Workload_NodeID) r.(Workload_Image) r.(Workload_Resources) r.(Workload_Status)
    r.(Workload_ContainerID) r.(Workload_RestartCount) r.(Workload_Version)
    r.(Workload_CreatedAt) r.(Workload_UpdatedAt).

Record SecretFile : Type := MkSecretFile {
  SecretFile_Path : string;
  SecretFile_Content : string
}.

#[export] Instance eta_SecretFile : Eta SecretFile := fun r =>
  MkSecretFile r.(SecretFile_Path) r.(SecretFile_Content).

Record VolumeMount : Type := MkVolumeMount {
  VolumeMount_ClaimName : string;
  VolumeMount_MountPath : string;
  VolumeMount_ReadOnly : bool
}.

#[export] Instance eta_VolumeMount : Eta VolumeMount := fun r =>
  MkVolumeMount r.(VolumeMount_ClaimName) r.(VolumeMount_MountPath)
    r.(VolumeMount_ReadOnly).

Record Assignment : Type := MkAssignment {
  Assignment_Action : string;
  Assignment_ID : string;
  Assignment_NodeID : string;
  Assignment_WorkloadID : string;
  Assignment_Image : string;
  Assignment_ImagePullSecret : string;
  Assignment_ContainerID : string;
  Assignment_SecretFiles : list SecretFile;
  Assignment_VolumeMounts : list VolumeMount;
  Assignment_Resources : Resource
}.

(** [unsafe.Sizeof(Assignment{})]: seven strings, two slices, two integers *)
Definition assignment_size : Z := 7 * 16 + 2 * 24 + 2 * 8.

#[export] Instance eta_Assignment : Eta Assignment := fun r =>
  MkAssignment r.(Assignment_Action) r.(Assignment_ID) r.(Assignment_NodeID)
    r.(Assignment_WorkloadID) r.(Assignment_Image) r.(Assignment_ImagePullSecret)
    r.(Assignment_ContainerID) r.(Assignment_SecretFiles) r.(Assignment_VolumeMounts)
    r.(Assignment_Resources).

Record ServicePort : Type := MkServicePort {
  ServicePort_Name : string;
  ServicePort_Port : Z;
  ServicePort_TargetPort : Z;
  ServicePort_NodePort : Z;
  ServicePort_Protocol : ServiceProtocol
}.

#[export] Instance eta_ServicePort : Eta ServicePort := fun r =>
  MkServicePort r.(ServicePort_Name) r.(ServicePort_Port) r.(ServicePort_TargetPort)
    r.(ServicePort_NodePort) r.(ServicePort_Protocol).

Record ServiceSpec : Type := MkServiceSpec {
  ServiceSpec_Namespace : string;
  ServiceSpec_Name : string;
  ServiceSpec_Selector : gmap string string;
  ServiceSpec_Ports : list ServicePort;
  ServiceSpec_Type : ServiceType
}.

#[export] Instance eta_ServiceSpec : Eta ServiceSpec := fun r =>
  MkServiceSpec r.(ServiceSpec_Namespace) r.(ServiceSpec_Name) r.(ServiceSpec_Selector)
    r.(ServiceSpec_Ports) r.(ServiceSpec_Type).

Record Namespace : Type := MkNamespace {
  Namespace_Name : string;
  Namespace_Tenant : string;
  Namespace_CreatedAt : Time;
  Namespace_UpdatedAt : Time
}.

#[export] Instance eta_Namespace : Eta Namespace := fun r =>
  MkNamespace r.(Namespace_Name) r.(Namespace_Tenant) r.(Namespace_CreatedAt)
    r.(Namespace_UpdatedAt).

Record NamespaceQuota : Type := MkNamespaceQuota {
  NamespaceQuota_Namespace : string;
  NamespaceQuota_MaxDeployments : Z;
  NamespaceQuota_MaxMilliCPU : Z;
  NamespaceQuota_MaxMemoryMB : Z;
  NamespaceQuota_CreatedAt : Time;
  NamespaceQuota_UpdatedAt : Time
}.

#[export] Instance eta_NamespaceQuota : Eta NamespaceQuota := fun r =>
  MkNamespaceQuota r.(NamespaceQuota_Namespace) r.(NamespaceQuota_MaxDeployments)
    r.(NamespaceQuota_MaxMilliCPU) r.(NamespaceQuota_MaxMemoryMB)
    r.(NamespaceQuota_CreatedAt) r.(NamespaceQuota_UpdatedAt).

Record Secret : Type := MkSecret {
  Secret_Namespace : string;
  Secret_Name : string;
  Secret_Data : option (gmap string string);
  Secret_CreatedAt : Time;
  Secret_UpdatedAt : Time
}.

#[export] Instance eta_Secret : Eta Secret := fun r =>
  MkSecret r.(Secret_Namespace) r.(Secret_Name) r.(Secret_Data) r.(Secret_CreatedAt)
    r.(Secret_UpdatedAt).

Record PersistentVolume : Type := MkPersistentVolume {
  PersistentVolume_Name : string;
  PersistentVolume_CapacityMB : Z;
  PersistentVolume_StorageClass : string;
  PersistentVolume_AccessMode : string;
  PersistentVolume_ClaimNamespace : string;
  PersistentVolume_ClaimName : string;
  PersistentVolume_BoundDeployment : string;
  PersistentVolume_Phase : PersistentVolumePhase;
  PersistentVolume_CreatedAt : Time;
  PersistentVolume_UpdatedAt : Time
}.

#[export] Instance eta_PersistentVolume : Eta PersistentVolume := fun r =>
  MkPersistentVolume r.(PersistentVolume_Name) r.(PersistentVolume_CapacityMB)
    r.(PersistentVolume_StorageClass) r.(PersistentVolume_AccessMode)
    r.(PersistentVolume_ClaimNamespace) r.(PersistentVolume_ClaimName)
    r.(PersistentVolume_BoundDeployment) r.(PersistentVolume_Phase)
    r.(PersistentVolume_CreatedAt) r.(PersistentVolume_UpdatedAt).

Record PersistentVolumeClaim : Type := MkPersistentVolumeClaim {
  PersistentVolumeClaim_Namespace : string;
  PersistentVolumeClaim_Name : string;
  PersistentVolumeClaim_RequestedCapacity : Z;
  PersistentVolumeClaim_StorageClass : string;
  PersistentVolumeClaim_AccessMode : string;
  PersistentVolumeClaim_VolumeName : string;
  PersistentVolumeClaim_Phase : PersistentVolumeClaimPhase;
  PersistentVolumeClaim_CreatedAt : Time;
  PersistentVolumeClaim_UpdatedAt : Time
}.

#[export] Instance eta_PersistentVolumeClaim : Eta PersistentVolumeClaim := fun r =>
  MkPersistentVolumeClaim r.(PersistentVolumeClaim_Namespace)
    r.(PersistentVolumeClaim_Name) r.(PersistentVolumeClaim_RequestedCapacity)
    r.(PersistentVolumeClaim_StorageClass) r.(PersistentVolumeClaim_AccessMode)
    r.(PersistentVolumeClaim_VolumeName) r.(PersistentVolumeClaim_Phase)
    r.(PersistentVolumeClaim_CreatedAt) r.(PersistentVolumeClaim_UpdatedAt).

Record NetworkPolicyPeer : Type := MkNetworkPolicyPeer {
  NetworkPolicyPeer_Namespace : string;
  NetworkPolicyPeer_Labels : gmap string string
}.

#[export] Instance eta_NetworkPolicyPeer : Eta NetworkPolicyPeer := fun r =>
  MkNetworkPolicyPeer r.(NetworkPolicyPeer_Namespace) r.(NetworkPolicyPeer_Labels).

Record NetworkPolicyRule : Type := MkNetworkPolicyRule {
  NetworkPolicyRule_From : list NetworkPolicyPeer;
  NetworkPolicyRule_To : list NetworkPolicyPeer;
  NetworkPolicyRule_Port : Z
}.

#[export] Instance eta_NetworkPolicyRule : Eta NetworkPolicyRule := fun r =>
  MkNetworkPolicyRule r.(NetworkPolicyRule_From) r.(NetworkPolicyRule_To)
    r.(NetworkPolicyRule_Port).

Record NetworkPolicy : Type := MkNetworkPolicy {
  NetworkPolicy_Namespace : string;
  NetworkPolicy_Name : string;
  NetworkPolicy_PodSelector : gmap string string;
  NetworkPolicy_Ingress : list NetworkPolicyRule;
  NetworkPolicy_Egress : list NetworkPolicyRule;
  NetworkPolicy_Group : string;
  NetworkPolicy_CreatedAt : Time;
  NetworkPolicy_UpdatedAt : Time
}.

#[export] Instance eta_NetworkPolicy : Eta NetworkPolicy := fun r =>
  MkNetworkPolicy r.(NetworkPolicy_Namespace) r.(NetworkPolicy_Name)
    r.(NetworkPolicy_PodSelector) r.(NetworkPolicy_Ingress) r.(NetworkPolicy_Egress)
    r.(NetworkPolicy_Group) r.(NetworkPolicy_CreatedAt) r.(NetworkPolicy_UpdatedAt).

Record JobSpec : Type := MkJobSpec {
  JobSpec_Namespace : string;
  JobSpec_Name : string;
  JobSpec_Template : DeploymentSpec;
  JobSpec_Completions : Z;
  JobSpec_BackoffLimit : Z;
  JobSpec_TTLSeconds : Z;
  JobSpec_HistoryLimit : Z;
  JobSpec_ScheduleReason : string
}.

#[export] Instance eta_JobSpec : Eta JobSpec := fun r =>
  MkJobSpec r.(JobSpec_Namespace) r.(JobSpec_Name) r.(JobSpec_Template)
    r.(JobSpec_Completions) r.(JobSpec_BackoffLimit) r.(JobSpec_TTLSeconds)
    r.(JobSpec_HistoryLimit) r.(JobSpec_ScheduleReason).

Record Job : Type := MkJob {
  Job_ID : string;
  Job_Spec : JobSpec;
  Job_Status : JobPhase;
  Job_Deployment : string;
  Job_Succeeded : Z;
  Job_Failed : Z;
  Job_RunCount : Z;
  Job_LastRunAt : Time;
  Job_CompletedAt : Time;
  Job_CreatedAt : Time;
  Job_UpdatedAt : Time
}.

#[export] Instance eta_Job : Eta Job := fun r =>
  MkJob r.(Job_ID) r.(Job_Spec) r.(Job_Status) r.(Job_Deployment) r.(Job_Succeeded)
    r.(Job_Failed) r.(Job_RunCount) r.(Job_LastRunAt) r.(Job_CompletedAt)
    r.(Job_CreatedAt) r.(Job_UpdatedAt).

Record CronJob : Type := MkCronJob {
  CronJob_Namespace : string;
  CronJob_Name : string;
  CronJob_ScheduleEveryS : Z;
  CronJob_Template : JobSpec;
  CronJob_Suspend : bool;
  CronJob_HistoryLimit : Z;
  CronJob_LastRunAt : Time;
  CronJob_CreatedAt : Time;
  CronJob_UpdatedAt : Time
}.

#[export] Instance eta_CronJob : Eta CronJob := fun r =>
  MkCronJob r.(CronJob_Namespace) r.(CronJob_Name) r.(CronJob_ScheduleEveryS)
    r.(CronJob_Template) r.(CronJob_Suspend) r.(CronJob_HistoryLimit)
    r.(CronJob_LastRunAt) r.(CronJob_CreatedAt) r.(CronJob_UpdatedAt).

Record RoleBinding : Type := MkRoleBinding {
  RoleBinding_Namespace : string;
  RoleBinding_Name : string;
  RoleBinding_Subject : string;
  RoleBinding_Roles : list string;
  RoleBinding_Inherits : list string;
  RoleBinding_CreatedAt : Time;
  RoleBinding_UpdatedAt : Time
}.

#[export] Instance eta_RoleBinding : Eta RoleBinding := fun r =>
  MkRoleBinding r.(RoleBinding_Namespace) r.(RoleBinding_Name) r.(RoleBinding_Subject)
    r.(RoleBinding_Roles) r.(RoleBinding_Inherits) r.(RoleBinding_CreatedAt)
    r.(RoleBinding_UpdatedAt).

Record ControllerLease : Type := MkControllerLease {
  ControllerLease_LeaderID : string;
  ControllerLease_ExpiresAt : Time;
  ControllerLease_Term : Z;
  ControllerLease_UpdatedAt : Time
}.

#[export] Instance eta_ControllerLease : Eta ControllerLease := fun r =>
  MkControllerLease r.(ControllerLease_LeaderID) r.(ControllerLease_ExpiresAt)
    r.(ControllerLease_Term) r.(ControllerLease_UpdatedAt).

Record ControlPlaneTransition : Type := MkControlPlaneTransition {
  ControlPlaneTransition_ID : string;
  ControlPlaneTransition_NodeID : string;
  ControlPlaneTransition_Term : Z;
  ControlPlaneTransition_Action : string;
  ControlPlaneTransition_Description : string;
  ControlPlaneTransition_CreatedAt : Time
}.

#[export] Instance eta_ControlPlaneTransition : Eta ControlPlaneTransition := fun r =>
  MkControlPlaneTransition r.(ControlPlaneTransition_ID)
    r.(ControlPlaneTransition_NodeID) r.(ControlPlaneTransition_Term)
    r.(ControlPlaneTransition_Action) r.(ControlPlaneTransition_Description)
    r.(ControlPlaneTransition_CreatedAt).

Record Service : Type := MkService {
  Service_ID : string;
  Service_Spec : ServiceSpec;
  Service_ClusterIP : string;
  Service_DNSRecordTTLSeconds : Z;
  Service_CreatedAt : Time;
  Service_UpdatedAt : Time
}.

#[export] Instance eta_Service : Eta Service := fun r =>
  MkService r.(Service_ID) r.(Service_Spec) r.(Service_ClusterIP)
    r.(Service_DNSRecordTTLSeconds) r.(Service_CreatedAt) r.(Service_UpdatedAt).

Record ServiceEndpoint : Type := MkServiceEndpoint {
  ServiceEndpoint_ID : string;
  ServiceEndpoint_ServiceID : string;
  ServiceEndpoint_WorkloadID : string;
  ServiceEndpoint_NodeID : string;
  ServiceEndpoint_Address : string;
  ServiceEndpoint_Port : Z;
  ServiceEndpoint_Protocol : ServiceProtocol;
  ServiceEndpoint_Ready : bool;
  ServiceEndpoint_UpdatedAt : Time
}.

#[export] Instance eta_ServiceEndpoint : Eta ServiceEndpoint := fun r =>
  MkServiceEndpoint r.(ServiceEndpoint_ID) r.(ServiceEndpoint_ServiceID)
    r.(ServiceEndpoint_WorkloadID) r.(ServiceEndpoint_NodeID)
    r.(ServiceEndpoint_Address) r.(ServiceEndpoint_Port) r.(ServiceEndpoint_Protocol)
    r.(ServiceEndpoint_Ready) r.(ServiceEndpoint_UpdatedAt).

Record DeploymentMetricSample : Type := MkDeploymentMetricSample {
  DeploymentMetricSample_ID : string;
  DeploymentMetricSample_DeploymentID : string;
  DeploymentMetricSample_Timestamp : Time;
  DeploymentMetricSample_CPUUsage : float64;
  DeploymentMetricSample_MemoryUsage : float64;
  DeploymentMetricSample_Custom : option (gmap string float64)
}.

#[export] Instance eta_DeploymentMetricSample : Eta DeploymentMetricSample := fun r =>
  MkDeploymentMetricSample r.(DeploymentMetricSample_ID)
    r.(DeploymentMetricSample_DeploymentID) r.(DeploymentMetricSample_Timestamp)
    r.(DeploymentMetricSample_CPUUsage) r.(DeploymentMetricSample_MemoryUsage)
    r.(DeploymentMetricSample_Custom).

Record AutoscalerPolicy : Type := MkAutoscalerPolicy {
  AutoscalerPolicy_ID : string;
  AutoscalerPolicy_DeploymentID : string;
  AutoscalerPolicy_MinReplicas : Z;
  AutoscalerPolicy_MaxReplicas : Z;
  AutoscalerPolicy_TargetCPUUtilization : float64;
  AutoscalerPolicy_TargetMemoryUtilization : float64;
  AutoscalerPolicy_CustomMetricName : string;
  AutoscalerPolicy_TargetCustomMetricValue : float64;
  AutoscalerPolicy_PredictiveScalingEnabled : bool;
  AutoscalerPolicy_PredictiveLookbackSamples : Z;
  AutoscalerPolicy_PredictiveScaleFactor : float64;
  AutoscalerPolicy_StabilizationWindowSec : Z;
  AutoscalerPolicy_ScaleUpCooldownSec : Z;
  AutoscalerPolicy_ScaleDownCooldownSec : Z;
  AutoscalerPolicy_LastScaleAt : Time;
  AutoscalerPolicy_LastScaleDirection : string;
  AutoscalerPolicy_CreatedAt : Time;
  AutoscalerPolicy_UpdatedAt : Time
}.

#[export] Instance eta_AutoscalerPolicy : Eta AutoscalerPolicy := fun r =>
  MkAutoscalerPolicy r.(AutoscalerPolicy_ID) r.(AutoscalerPolicy_DeploymentID)
    r.(AutoscalerPolicy_MinReplicas) r.(AutoscalerPolicy_MaxReplicas)
    r.(AutoscalerPolicy_TargetCPUUtilization)
    r.(AutoscalerPolicy_TargetMemoryUtilization) r.(AutoscalerPolicy_CustomMetricName)
    r.(AutoscalerPolicy_TargetCustomMetricValue)
    r.(AutoscalerPolicy_PredictiveScalingEnabled)
    r.(AutoscalerPolicy_PredictiveLookbackSamples)
    r.(AutoscalerPolicy_PredictiveScaleFactor)
    r.(AutoscalerPolicy_StabilizationWindowSec) r.(AutoscalerPolicy_ScaleUpCooldownSec)
    r.(AutoscalerPolicy_ScaleDownCooldownSec) r.(AutoscalerPolicy_LastScaleAt)
    r.(AutoscalerPolicy_LastScaleDirection) r.(AutoscalerPolicy_CreatedAt)
    r.(AutoscalerPolicy_UpdatedAt).

Record ClusterState : Type := MkClusterState {
  ClusterState_Nodes : list Node;
  ClusterState_Deployments : list Deployment;
  ClusterState_Workloads : list Workload
}.

#[export] Instance eta_ClusterState : Eta ClusterState := fun r =>
  MkClusterState r.(ClusterState_Nodes) r.(ClusterState_Deployments)
    r.(ClusterState_Workloads).

Record NodeHealthSample : Type := MkNodeHealthSample {
  NodeHealthSample_NodeID : string;
  NodeHealthSample_Timestamp : Time;
  NodeHealthSample_CPUUtilization : float64;
  NodeHealthSample_MemoryUtilization : float64;
  NodeHealthSample_FailureClass : NodeFailureClass
}.

#[export] Instance eta_NodeHealthSample : Eta NodeHealthSample := fun r =>
  MkNodeHealthSample r.(NodeHealthSample_NodeID) r.(NodeHealthSample_Timestamp)
    r.(NodeHealthSample_CPUUtilization) r.(NodeHealthSample_MemoryUtilization)
    r.(NodeHealthSample_FailureClass).

Record NodeHealthTrend : Type := MkNodeHealthTrend {
  NodeHealthTrend_NodeID : string;
  NodeHealthTrend_SampleCount : Z;
  NodeHealthTrend_AvgCPUUtilization : float64;
  NodeHealthTrend_AvgMemoryUtilization : float64;
  NodeHealthTrend_MaxCPUUtilization : float64;
  NodeHealthTrend_MaxMemoryUtilization : float64;
  NodeHealthTrend_CurrentFailureClass : NodeFailureClass;
  NodeHealthTrend_AnomalyDetected : bool;
  NodeHealthTrend_AnomalyReason : string;
  NodeHealthTrend_LastEvaluatedAt : Time
}.

#[export] Instance eta_NodeHealthTrend : Eta NodeHealthTrend := fun r =>
  MkNodeHealthTrend r.(NodeHealthTrend_NodeID) r.(NodeHealthTrend_SampleCount)
    r.(NodeHealthTrend_AvgCPUUtilization) r.(NodeHealthTrend_AvgMemoryUtilization)
    r.(NodeHealthTrend_MaxCPUUtilization) r.(NodeHealthTrend_MaxMemoryUtilization)
    r.(NodeHealthTrend_CurrentFailureClass) r.(NodeHealthTrend_AnomalyDetected)
    r.(NodeHealthTrend_AnomalyReason) r.(NodeHealthTrend_LastEvaluatedAt).

Record Event : Type := MkEvent {
  Event_ID : string;
  Event_Timestamp : Time;
  Event_Level : EventLevel;
  Event_Type : string;
  Event_Reason : string;
  Event_Message : string;
  Event_DeploymentID : string;
  Event_WorkloadID : string;
  Event_NodeID : string
}.

#[export] Instance eta_Event : Eta Event := fun r =>
  MkEvent r.(Event_ID) r.(Event_Timestamp) r.(Event_Level) r.(Event_Type)
    r.(Event_Reason) r.(Event_Message) r.(Event_DeploymentID) r.(Event_WorkloadID)
    r.(Event_NodeID).

(** ** Decidable equality of specs, and [reflect.DeepEqual] on them *)

#[export] Instance spec_float_eq_dec : EqDecision spec_float.
Proof. solve_decision. Defined.

#[export] Instance Resource_eq_dec : EqDecision Resource.
Proof. solve_decision. Defined.

#[export] Instance Toleration_eq_dec : EqDecision Toleration.
Proof. solve_decision. Defined.

#[export] Instance SecretMountSpec_eq_dec : EqDecision SecretMountSpec.
Proof. solve_decision. Defined.

#[export] Instance ProbeSpec_eq_dec : EqDecision ProbeSpec.
Proof. solve_decision. Defined.

#[export] Instance RollingUpdateSpec_eq_dec : EqDecision RollingUpdateSpec.
Proof. solve_decision. Defined.

#[export] Instance CanarySpec_eq_dec : EqDecision CanarySpec.
Proof. solve_decision. Defined.

#[export] Instance RolloutSpec_eq_dec : EqDecision RolloutSpec.
Proof. solve_decision. Defined.

#[export] Instance DeploymentSpec_eq_dec : EqDecision DeploymentSpec.
Proof. solve_decision. Defined.

Definition with_SLO (x : float64) (s : DeploymentSpec) : DeploymentSpec :=
  s <| DeploymentSpec_Rollout ::= set RolloutSpec_SLOErrorRateThreshold (fun _ => x) |>.

(** [reflect.DeepEqual] on deployment specs: every field, nil distinguished
    from empty; the one float field is compared with [==]. *)
Definition DeepEqual (a b : DeploymentSpec) : bool :=
  bool_decide (with_SLO f_zero a = with_SLO f_zero b)
  && SFeqb a.(DeploymentSpec_Rollout).(RolloutSpec_SLOErrorRateThreshold)
           b.(DeploymentSpec_Rollout).(RolloutSpec_SLOErrorRateThreshold).

(** ** JSON round trips

    [json x] is what unmarshalling the JSON text of [x] yields, or [None] when
    [json.Marshal] fails.  Times are taken to lie in the years JSON can
    express. *)

Class JSON (T : Type) := json : T -> option T.

Definition omitempty {A} (l : option (list A)) : option (list A) :=
  match l with Some [] => None | _ => l end.

Definition omitempty_map {V} (m : option (gmap string V)) : option (gmap string V) :=
  match m with
  | Some m' => if decide (m' = ∅) then None else m
  | None => None
  end.

Definition json_spec (s : DeploymentSpec) : DeploymentSpec :=
  s <| DeploymentSpec_SecretMounts ::= omitempty |>
    <| DeploymentSpec_VolumeClaims ::= omitempty |>
    <| DeploymentSpec_Tolerations ::= omitempty |>.

Definition spec_floats_ok (s : DeploymentSpec) : bool :=
  is_finite_f s.(DeploymentSpec_Rollout).(RolloutSpec_SLOErrorRateThreshold).

Definition json_revision (r : DeploymentRevision) : DeploymentRevision :=
  r <| DeploymentRevision_Spec ::= json_spec |>.

#[export] Instance JSON_Deployment : JSON Deployment := fun d =>
  if spec_floats_ok d.(Deployment_Spec)
     && forallb (fun r => spec_floats_ok r.(DeploymentRevision_Spec)) d.(Deployment_RevisionHistory)
  then Some (d <| Deployment_Spec ::= json_spec |>
               <| Deployment_RevisionHistory ::= List.map json_revision |>)
  else None.

#[export] Instance JSON_Node : JSON Node := fun n =>
  if is_finite_f n.(Node_Health).(NodeHealth_CPUUtilization)
     && is_finite_f n.(Node_Health).(NodeHealth_MemoryUtilization)
  then Some n else None.

#[export] Instance JSON_Job : JSON Job := fun j =>
  if spec_floats_ok j.(Job_Spec).(JobSpec_Template)
  then Some (j <| Job_Spec ::= set JobSpec_Template json_spec |>) else None.

#[export] Instance JSON_CronJob : JSON CronJob := fun c =>
  if spec_floats_ok c.(CronJob_Template).(JobSpec_Template)
  then Some (c <| CronJob_Template ::= set JobSpec_Template json_spec |>) else None.

#[export] Instance JSON_DeploymentMetricSample : JSON DeploymentMetricSample := fun s =>
  let custom := default ∅ s.(DeploymentMetricSample_Custom) in
  if is_finite_f s.(DeploymentMetricSample_CPUUsage)
     && is_finite_f s.(DeploymentMetricSample_MemoryUsage)
     && forallb is_finite_f (map_to_list custom).*2
  then Some (s <| DeploymentMetricSample_Custom ::= omitempty_map |>) else None.

#[export] Instance JSON_AutoscalerPolicy : JSON AutoscalerPolicy := fun p =>
  if is_finite_f p.(AutoscalerPolicy_TargetCPUUtilization)
     && is_finite_f p.(AutoscalerPolicy_TargetMemoryUtilization)
     && is_finite_f p.(AutoscalerPolicy_TargetCustomMetricValue)
     && is_finite_f p.(AutoscalerPolicy_PredictiveScaleFactor)
  then Some p else None.

#[export] Instance JSON_Workload : JSON Workload := Some.
#[export] Instance JSON_Assignment : JSON Assignment := Some.
#[export] Instance JSON_Service : JSON Service := Some.
#[export] Instance JSON_ServiceEndpoint : JSON ServiceEndpoint := Some.
#[export] Instance JSON_Namespace : JSON Namespace := Some.
#[export] Instance JSON_NamespaceQuota : JSON NamespaceQuota := Some.
#[export] Instance JSON_Secret : JSON Secret := Some.
#[export] Instance JSON_PersistentVolume : JSON PersistentVolume := Some.
#[export] Instance JSON_PersistentVolumeClaim : JSON PersistentVolumeClaim := Some.
#[export] Instance JSON_NetworkPolicy : JSON NetworkPolicy := Some.
#[export] Instance JSON_RoleBinding : JSON RoleBinding := Some.
#[export] Instance JSON_ControllerLease : JSON ControllerLease := Some.
#[export] Instance JSON_ControlPlaneTransition : JSON ControlPlaneTransition := Some.
#[export] Instance JSON_Event : JSON Event := Some.

(** ** Lemmas *)

Lemma omitempty_idemp {A} (l : option (list A)) : omitempty (omitempty l) = omitempty l.
Proof. destruct l as [[]|]; done. Qed.

Lemma json_spec_idemp s : json_spec (json_spec s) = json_spec s.
Proof.
  destruct s as [????[[]|] [[]|] ???? [[]|] ???]; reflexivity.
Qed.

Lemma DeepEqual_refl s : spec_floats_ok s = true -> DeepEqual s s = true.
Proof.
  unfold DeepEqual, spec_floats_ok. rewrite bool_decide_true by done.
  destruct (RolloutSpec_SLOErrorRateThreshold _) as [[]|[]| |[] m e]; try done; intros _;
    unfold SFeqb; cbn; rewrite Z.compare_refl;
    change (Pos.compare_cont Eq m m) with (Pos.compare m m); by rewrite Pos.compare_refl.
Qed.
