(* ===== verification/Scheduler.v ===== *)
(** * The scheduler

    [internal/scheduler/scheduler.go]: the placement engine.  The external
    score plugin is a process outside the program; it is the argument [run] of
    the definitions that call it. *)

From Corelib Require Import SpecFloat.
From S2P Require Import Prelude GoLang GoFloat GoSort Model.

Abbreviation Policy := string (only parsing).

Definition PolicyLeastLoaded : Policy := "least-loaded".
Definition PolicyBestFit : Policy := "best-fit".

(** A [ScorePlugin] is its [Score] method. *)
Definition ScorePlugin : Type := Node -> Resource -> float64.

Record Planner : Type := MkPlanner {
  Planner_policy : Policy;
  Planner_plugins : gmap string ScorePlugin;
  Planner_externalPluginCmd : string;
  Planner_externalTimeout : Duration
}.

#[export] Instance eta_Planner : Eta Planner := fun r =>
  MkPlanner r.(Planner_policy) r.(Planner_plugins) r.(Planner_externalPluginCmd)
    r.(Planner_externalTimeout).

(** ** Scores *)

Definition leastLoadedScore (n : Node) (req : Resource) : float64 :=
  let allocCPU := math_Max (f_of_Z 1) (f_of_Z n.(Node_Allocatable).(Resource_MilliCPU)) in
  let allocMem := math_Max (f_of_Z 1) (f_of_Z n.(Node_Allocatable).(Resource_MemoryMB)) in
  let cpuAfter :=
    f_div (f_of_Z (n.(Node_Used).(Resource_MilliCPU) +! req.(Resource_MilliCPU))) allocCPU in
  let memAfter :=
    f_div (f_of_Z (n.(Node_Used).(Resource_MemoryMB) +! req.(Resource_MemoryMB))) allocMem in
  let spreadPenalty := math_Abs (f_sub cpuAfter memAfter) in
  f_add (f_mul (f_add cpuAfter memAfter) (f_lit 1 2)) (f_mul spreadPenalty (f_lit 15 100)).

Definition bestFitScore (n : Node) (req : Resource) : float64 :=
  let allocCPU := math_Max (f_of_Z 1) (f_of_Z n.(Node_Allocatable).(Resource_MilliCPU)) in
  let allocMem := math_Max (f_of_Z 1) (f_of_Z n.(Node_Allocatable).(Resource_MemoryMB)) in
  let leftCPU := f_of_Z ((n.(Node_Allocatable).(Resource_MilliCPU)
                           -! n.(Node_Used).(Resource_MilliCPU)) -! req.(Resource_MilliCPU)) in
  let leftMem := f_of_Z ((n.(Node_Allocatable).(Resource_MemoryMB)
                           -! n.(Node_Used).(Resource_MemoryMB)) -! req.(Resource_MemoryMB)) in
  let leftCPU := f_div (math_Max f_zero leftCPU) allocCPU in
  let leftMem := f_div (math_Max f_zero leftMem) allocMem in
  let leftoverScore := f_mul (f_add leftCPU leftMem) (f_lit 1 2) in
  let balancePenalty := f_mul (math_Abs (f_sub leftCPU leftMem)) (f_lit 1 10) in
  f_add leftoverScore balancePenalty.

(** ** Planner construction *)

Definition RegisterPlugin (p : Planner) (policy : Policy) (plugin : ScorePlugin) : Planner :=
  p <| Planner_plugins ::= <[policy := plugin]> |>.

Definition NewPlanner (policy : string) : Planner :=
  let raw := TrimSpace policy in
  let '(pluginCmd, raw) :=
    if HasPrefix (ToLower raw) "external:"
    then (TrimSpace (TrimPrefix raw "external:"), "external")
    else ("", raw) in
  let p := TrimSpace (ToLower raw) in
  let p := if String.eqb p PolicyBestFit then p else PolicyLeastLoaded in
  let planner := MkPlanner p ∅ pluginCmd (250 * 10 ^ 6) in
  let planner := RegisterPlugin planner PolicyLeastLoaded leastLoadedScore in
  RegisterPlugin planner PolicyBestFit bestFitScore.

(** ** Filters *)

Definition fits (n : Node) (req : Resource) : bool :=
  let availCPU := n.(Node_Allocatable).(Resource_MilliCPU) -! n.(Node_Used).(Resource_MilliCPU) in
  let availMem := n.(Node_Allocatable).(Resource_MemoryMB) -! n.(Node_Used).(Resource_MemoryMB) in
  (req.(Resource_MilliCPU) <=? availCPU) && (req.(Resource_MemoryMB) <=? availMem).

(** The body of the inner loop of [toleratesNodeTaints]: does [tol] match? *)
Definition toleration_matches (taint : Taint) (tol : Toleration) : bool :=
  if blank tol.(Toleration_Key) then false else
  if negb (String.eqb tol.(Toleration_Key) taint.(Taint_Key)) then false else
  if negb (blank tol.(Toleration_Effect))
     && negb (String.eqb tol.(Toleration_Effect) taint.(Taint_Effect)) then false else
  let op := ToLower (TrimSpace tol.(Toleration_Operator)) in
  if String.eqb op "exists" then true else
  blank tol.(Toleration_Value) || String.eqb tol.(Toleration_Value) taint.(Taint_Value).

Definition toleratesNodeTaints (n : Node) (tolerations : list Toleration) : bool :=
  forallb (fun taint => existsb (toleration_matches taint) tolerations) n.(Node_Taints).

Definition matchesAffinity (n : Node) (labels : gmap string string) : bool :=
  map_forallb (fun k v =>
    if HasPrefix k "affinity."
    then String.eqb (map_index n.(Node_Labels) (TrimPrefix k "affinity.")) v
    else true) labels
  && map_forallb (fun k v =>
    if HasPrefix k "anti-affinity."
    then negb (String.eqb (map_index n.(Node_Labels) (TrimPrefix k "anti-affinity.")) v)
    else true) labels.

(** ** Node selection *)

Section SelectNode.
(** The external plugin: command line, node, request to score or error. *)
Variable run : string -> Node -> Resource -> Res float64.

Definition scoreNodeWithExternalPlugin (p : Planner) (n : Node) (req : Resource) : Res float64 :=
  if blank p.(Planner_externalPluginCmd)
  then Err (Errorf "external plugin command is empty")
  else run p.(Planner_externalPluginCmd) n req.

Definition builtinScore (p : Planner) (n : Node) (req : Resource) : float64 :=
  match p.(Planner_plugins) !! p.(Planner_policy) with
  | Some plugin => plugin n req
  | None =>
      match p.(Planner_plugins) !! PolicyLeastLoaded with
      | Some plugin => plugin n req
      | None => leastLoadedScore n req
      end
  end.

Definition scoreNode (p : Planner) (n : Node) (req : Resource) : float64 :=
  if negb (String.eqb p.(Planner_externalPluginCmd) "") then
    match scoreNodeWithExternalPlugin p n req with
    | Ok score => score
    | Err _ => builtinScore p n req
    end
  else builtinScore p n req.

Record candidate : Type := MkCandidate {
  candidate_node : Node;
  candidate_score : float64
}.

(** The guards of the candidate loop. *)
Definition schedulable (req : Resource) (labels : gmap string string)
    (tolerations : list Toleration) (n : Node) : bool :=
  String.eqb n.(Node_Status) NodeReady
  && fits n req
  && toleratesNodeTaints n tolerations
  && matchesAffinity n labels.

Definition less_score (a b : candidate) : bool :=
  f_ltb a.(candidate_score) b.(candidate_score).

Definition candidates (p : Planner) (nodes : list Node) (req : Resource)
    (labels : gmap string string) (tolerations : list Toleration) : list candidate :=
  List.map (fun n => MkCandidate n (scoreNode p n req))
    (List.filter (schedulable req labels tolerations) nodes).

Definition SelectNode (p : Planner) (nodes : list Node) (req : Resource)
    (labels : gmap string string) (tolerations : list Toleration) : Res Node :=
  match SliceStable less_score (candidates p nodes req labels tolerations) with
  | [] => Err ErrNoSchedulableNode
  | c :: _ => Ok c.(candidate_node)
  end.

End SelectNode.

(** ** What the filters mean *)

(** A toleration covers a taint. *)
Definition covers (tol : Toleration) (taint : Taint) : Prop :=
  blank tol.(Toleration_Key) = false
  /\ tol.(Toleration_Key) = taint.(Taint_Key)
  /\ (blank tol.(Toleration_Effect) = true \/ tol.(Toleration_Effect) = taint.(Taint_Effect))
  /\ (ToLower (TrimSpace tol.(Toleration_Operator)) = "exists"
      \/ blank tol.(Toleration_Value) = true
      \/ tol.(Toleration_Value) = taint.(Taint_Value)).

(** The node's labels agree with the affinity and anti-affinity labels. *)
Definition affine (n : Node) (labels : gmap string string) : Prop :=
  forall k v, labels !! k = Some v ->
    (HasPrefix k "affinity." = true ->
       map_index n.(Node_Labels) (TrimPrefix k "affinity.") = v)
    /\ (HasPrefix k "anti-affinity." = true ->
       map_index n.(Node_Labels) (TrimPrefix k "anti-affinity.") <> v).

(** Placing [req] on [n] does not exceed what [n] can allocate. *)
Definition within_capacity (n : Node) (req : Resource) : Prop :=
  n.(Node_Used).(Resource_MilliCPU) + req.(Resource_MilliCPU)
    <= n.(Node_Allocatable).(Resource_MilliCPU)
  /\ n.(Node_Used).(Resource_MemoryMB) + req.(Resource_MemoryMB)
    <= n.(Node_Allocatable).(Resource_MemoryMB).

(** Amounts a machine can have: non-negative 64-bit numbers. *)
Definition sane_resource (r : Resource) : Prop :=
  0 <= r.(Resource_MilliCPU) <= i64_max /\ 0 <= r.(Resource_MemoryMB) <= i64_max.

Definition sane_node (n : Node) : Prop :=
  sane_resource n.(Node_Allocatable) /\ sane_resource n.(Node_Used).

(** ** Lemmas *)

Lemma fits_spec n req : sane_node n -> fits n req = true <-> within_capacity n req.
Proof.
  unfold sane_node, sane_resource, fits, within_capacity. intros H.
  rewrite !wrap64_id by (unfold in_i64, i64_min, i64_max in *; lia).
  rewrite andb_true_iff, !Z.leb_le. lia.
Qed.

Lemma toleration_matches_spec taint tol :
  toleration_matches taint tol = true <-> covers tol taint.
Proof.
  unfold toleration_matches, covers.
  destruct (blank (Toleration_Key tol)); simpl; [intuition congruence|].
  destruct (String.eqb_spec (Toleration_Key tol) (Taint_Key taint)); simpl;
    [|intuition congruence].
  destruct (blank (Toleration_Effect tol)),
    (String.eqb_spec (Toleration_Effect tol) (Taint_Effect taint)),
    (String.eqb_spec (ToLower (TrimSpace (Toleration_Operator tol))) "exists"),
    (blank (Toleration_Value tol)),
    (String.eqb_spec (Toleration_Value tol) (Taint_Value taint)); simpl;
    intuition congruence.
Qed.

Lemma toleratesNodeTaints_spec n tols :
  toleratesNodeTaints n tols = true <->
  forall taint, taint ∈ n.(Node_Taints) -> exists tol, tol ∈ tols /\ covers tol taint.
Proof.
  unfold toleratesNodeTaints. rewrite forallb_forall. split; intros H taint Hin.
  - apply list_elem_of_In in Hin. apply H, existsb_exists in Hin as (tol & Htol & Hm).
    exists tol. by rewrite list_elem_of_In, <- toleration_matches_spec.
  - apply list_elem_of_In, H in Hin as (tol & Htol & Hm).
    apply existsb_exists. exists tol. by rewrite <- list_elem_of_In, toleration_matches_spec.
Qed.

Lemma matchesAffinity_spec n labels : matchesAffinity n labels = true <-> affine n labels.
Proof.
  unfold matchesAffinity, affine. rewrite andb_true_iff, !map_forallb_spec. split.
  - intros [H1 H2] k v Hk. specialize (H1 k v Hk). specialize (H2 k v Hk). split; intros Hp.
    + rewrite Hp in H1. by apply String.eqb_eq.
    + rewrite Hp in H2. by apply negb_true_iff, String.eqb_neq in H2.
  - intros H. split; intros k v Hk; destruct (H k v Hk) as [H1 H2].
    + destruct (HasPrefix k "affinity."); [|done]. apply String.eqb_eq. auto.
    + destruct (HasPrefix k "anti-affinity."); [|done].
      apply negb_true_iff, String.eqb_neq. auto.
Qed.

#[export] Instance less_score_StrictWeak :
  StrictWeak (fun c => is_nan c.(candidate_score) = false) less_score.
Proof.
  split; unfold less_score.
  - intros. by apply f_ltb_asym.
  - intros. by apply f_ltb_cotrans.
Qed.

Section SelectNodeFacts.
Variable run : string -> Node -> Resource -> Res float64.

Lemma elem_of_candidates p nodes req labels tols c :
  c ∈ candidates run p nodes req labels tols <->
  c.(candidate_node) ∈ nodes /\ schedulable req labels tols c.(candidate_node) = true
  /\ c = MkCandidate c.(candidate_node) (scoreNode run p c.(candidate_node) req).
Proof.
  unfold candidates. rewrite list_elem_of_In, in_map_iff. split.
  - intros (n & <- & Hin). apply List.filter_In in Hin as [Hin Hq]. simpl.
    by rewrite list_elem_of_In.
  - intros (Hin & Hq & E). exists (candidate_node c). split; [by rewrite <- E|].
    apply List.filter_In. by rewrite <- list_elem_of_In.
Qed.

Lemma SelectNode_Ok_inv p nodes req labels tols n :
  SelectNode run p nodes req labels tols = Ok n ->
  exists rest, SliceStable less_score (candidates run p nodes req labels tols)
    = MkCandidate n (scoreNode run p n req) :: rest
  /\ n ∈ nodes /\ schedulable req labels tols n = true.
Proof.
  unfold SelectNode. destruct (SliceStable _ _) as [|c rest] eqn:E; [discriminate|].
  intros [= <-].
  assert (c ∈ candidates run p nodes req labels tols) as Hc.
  { rewrite <- (SliceStable_perm less_score), E. left. }
  apply elem_of_candidates in Hc as (Hin & Hq & Ec). exists rest. by rewrite <- Ec.
Qed.

Lemma SelectNode_Err_inv p nodes req labels tols e :
  SelectNode run p nodes req labels tols = Err e ->
  e = ErrNoSchedulableNode /\ forall n, n ∈ nodes -> schedulable req labels tols n = false.
Proof.
  unfold SelectNode. destruct (SliceStable _ _) eqn:E; [|discriminate].
  intros [= <-]. split; [done|]. intros n Hn. apply SliceStable_nil in E.
  apply not_true_is_false. intros Hq.
  assert (MkCandidate n (scoreNode run p n req) ∈ candidates run p nodes req labels tols) as Hin.
  { by apply elem_of_candidates. }
  rewrite E in Hin. by apply not_elem_of_nil in Hin.
Qed.

End SelectNodeFacts.

(** ** Theorems *)

(** C14: When no score is NaN, [SelectNode] returns one of the nodes given that
    passes every filter, no schedulable node has a smaller score, and every
    schedulable node listed before it has a strictly larger one; it fails only
    with [ErrNoSchedulableNode], and only when no node passes the filters. *)
Theorem SelectNode_best run p nodes req labels tols :
  (forall m, m ∈ nodes -> schedulable req labels tols m = true ->
     is_nan (scoreNode run p m req) = false) ->
  match SelectNode run p nodes req labels tols with
  | Ok n =>
      schedulable req labels tols n = true
      /\ (forall m, m ∈ nodes -> schedulable req labels tols m = true ->
            f_ltb (scoreNode run p m req) (scoreNode run p n req) = false)
      /\ exists pre post, nodes = pre ++ n :: post
         /\ forall m, m ∈ pre -> schedulable req labels tols m = true ->
              f_ltb (scoreNode run p n req) (scoreNode run p m req) = true
  | Err e =>
      e = ErrNoSchedulableNode /\ forall n, n ∈ nodes -> schedulable req labels tols n = false
  end.
Proof.
  intros Hnan. destruct (SelectNode run p nodes req labels tols) as [n|e] eqn:H.
  2: by apply SelectNode_Err_inv in H.
  apply SelectNode_Ok_inv in H as (rest & E & Hin & Hq).
  split; [done|]. split.
  - intros m Hm Hqm.
    apply (SliceStable_head_min (fun c => is_nan c.(candidate_score) = false) less_score
      (candidates run p nodes req labels tols) (MkCandidate n (scoreNode run p n req)) rest
      (MkCandidate m (scoreNode run p m req))); [|done|by apply elem_of_candidates].
    apply Forall_forall. intros c Hc. apply elem_of_candidates in Hc as (? & ? & ->).
    by apply Hnan.
  - apply SliceStable_head_first in E as (pre & post & E & Hpre).
    apply map_filter_split in E as (pre' & a & post' & -> & Ea & _ & Hm).
    injection Ea as -> _. exists pre', post'. split; [done|]. intros m Hm' Hqm.
    rewrite Forall_forall in Hpre.
    apply (Hpre (MkCandidate m (scoreNode run p m req))). rewrite <- Hm.
    apply list_elem_of_In, in_map_iff. exists m. split; [done|].
    apply List.filter_In. by rewrite <- list_elem_of_In.
Qed.

(** The filters decide the declared placement policy: on a node with sane
    amounts, [schedulable] holds exactly when the node is Ready, the request
    stays within its allocatable capacity, every taint is covered by some
    toleration and the affinity labels agree. *)
Theorem schedulable_spec req labels tols n :
  sane_node n ->
  schedulable req labels tols n = true <->
    n.(Node_Status) = NodeReady
    /\ within_capacity n req
    /\ (forall taint, taint ∈ n.(Node_Taints) -> exists tol, tol ∈ tols /\ covers tol taint)
    /\ affine n labels.
Proof.
  intros Hn. unfold schedulable.
  rewrite !andb_true_iff, String.eqb_eq, fits_spec by done.
  rewrite toleratesNodeTaints_spec, matchesAffinity_spec. tauto.
Qed.
