(* ===== verification/Badger.v ===== *)
(** * The key-value database, as an interface

    BadgerDB is a third-party package: the development is parametric in it.
    [Badger V DB] lists the operations of a transaction that the store uses,
    on a database [DB] whose values are of type [V]; [BadgerLaws] states what
    its documentation promises: point reads see point writes, and an iterator
    that seeks to a prefix yields exactly the live pairs with that prefix, in
    byte-wise ascending key order.  A finite map satisfies both. *)

From Stdlib Require Import Ascii String.
From S2P Require Import Prelude GoLang GoSort.

Class Badger (V DB : Type) := {
  db_get : DB -> string -> option V;
  db_set : DB -> string -> V -> DB;
  db_delete : DB -> string -> DB;
  (** [it.Seek(prefix); it.ValidForPrefix(prefix); it.Next()] *)
  db_scan : DB -> string -> list (string * V)
}.

Definition key_lt {V} (a b : string * V) : Prop := string_ltb a.1 b.1 = true.

Class BadgerLaws (V DB : Type) `{!Badger V DB} : Prop := {
  db_get_set : forall (db : DB) k v k',
    db_get (db_set db k v) k' = if decide (k = k') then Some v else db_get db k';
  db_get_delete : forall (db : DB) k k',
    db_get (db_delete db k) k' = if decide (k = k') then None else db_get db k';
  db_scan_elem : forall (db : DB) p k v,
    (k, v) ∈ db_scan db p <-> HasPrefix k p = true /\ db_get db k = Some v;
  db_scan_sorted : forall (db : DB) p, StronglySorted key_lt (db_scan db p)
}.

(** ** The order on keys *)

Lemma string_compare_refl a : String.compare a a = Eq.
Proof.
  induction a as [|c a IH]; simpl; [done|].
  unfold Ascii.compare. by rewrite N.compare_refl.
Qed.

Lemma ascii_compare_lt_trans a b c :
  Ascii.compare a b = Lt -> Ascii.compare b c = Lt -> Ascii.compare a c = Lt.
Proof. unfold Ascii.compare. rewrite !N.compare_lt_iff. lia. Qed.

Lemma string_compare_lt_trans a b c :
  String.compare a b = Lt -> String.compare b c = Lt -> String.compare a c = Lt.
Proof.
  revert b c. induction a as [|x a IH]; intros [|y b] [|z c]; simpl; try done.
  destruct (Ascii.compare x y) eqn:Exy; try done.
  - apply Ascii.compare_eq_iff in Exy as ->.
    destruct (Ascii.compare y z) eqn:Eyz; try done. apply IH.
  - intros _. destruct (Ascii.compare y z) eqn:Eyz; try done.
    + apply Ascii.compare_eq_iff in Eyz as ->. by rewrite Exy.
    + by rewrite (ascii_compare_lt_trans x y z).
Qed.

Lemma string_ltb_spec a b : string_ltb a b = true <-> String.compare a b = Lt.
Proof. unfold string_ltb, String.ltb. by destruct (String.compare a b). Qed.

Lemma string_ltb_trans a b c :
  string_ltb a b = true -> string_ltb b c = true -> string_ltb a c = true.
Proof. rewrite !string_ltb_spec. apply string_compare_lt_trans. Qed.

Lemma string_ltb_irrefl a : string_ltb a a = false.
Proof. unfold string_ltb, String.ltb. by rewrite string_compare_refl. Qed.

Lemma string_ltb_total a b :
  string_ltb a b = true \/ a = b \/ string_ltb b a = true.
Proof.
  rewrite !string_ltb_spec, (String.compare_antisym b a).
  destruct (String.compare a b) eqn:E; auto.
  apply String.compare_eq_iff in E. auto.
Qed.

#[export] Instance key_lt_trans {V} : Transitive (@key_lt V).
Proof. intros [] [] []; unfold key_lt; simpl. apply string_ltb_trans. Qed.

(** Sorting by a string key: the order of [sort.Slice] on IDs and of keys. *)
#[export] Instance string_key_StrictWeak {A} (f : A -> string) :
  StrictWeak (fun _ => True) (fun x y => string_ltb (f x) (f y)).
Proof.
  split.
  - intros x y _ _ H. apply not_true_is_false. intros H'.
    pose proof (string_ltb_trans _ _ _ H H') as Hxx. by rewrite string_ltb_irrefl in Hxx.
  - intros x y z _ _ _ H. destruct (string_ltb_total (f x) (f y)) as [?|[E|E]]; [by left| |].
    + right. by rewrite <- E.
    + right. by eapply string_ltb_trans.
Qed.

(** ** A finite map is such a database *)

Definition gmap_scan {V} (m : gmap string V) (p : string) : list (string * V) :=
  SliceStable (fun a b => string_ltb a.1 b.1)
    (List.filter (fun kv => HasPrefix kv.1 p) (map_to_list m)).

#[export] Instance gmap_Badger {V} : Badger V (gmap string V) := {
  db_get m k := m !! k;
  db_set m k v := <[k := v]> m;
  db_delete m k := delete k m;
  db_scan := gmap_scan
}.

Lemma StronglySorted_strict {V} (l : list (string * V)) :
  NoDup l.*1 ->
  StronglySorted (not_after (fun a b => string_ltb a.1 b.1)) l -> StronglySorted key_lt l.
Proof.
  intros Hnd Hs. induction Hs as [|x l Hs IH Hx]; constructor.
  - apply IH. by inversion Hnd.
  - inversion Hnd as [|? ? Hnin _]; subst.
    rewrite Forall_forall in Hx |- *. intros y Hy.
    specialize (Hx y Hy). unfold not_after, key_lt in *.
    destruct (string_ltb_total x.1 y.1) as [?|[E|E]]; [done| |congruence].
    exfalso. apply Hnin. rewrite E. by apply list_elem_of_fmap_2.
Qed.

#[export] Instance gmap_BadgerLaws {V} : BadgerLaws V (gmap string V).
Proof.
  split; simpl.
  - intros. apply lookup_insert.
  - intros. apply lookup_delete.
  - intros m p k v. unfold gmap_scan. rewrite SliceStable_perm.
    rewrite list_elem_of_In, List.filter_In, <- list_elem_of_In, elem_of_map_to_list.
    tauto.
  - intros m p. unfold gmap_scan. apply StronglySorted_strict.
    + rewrite SliceStable_perm.
      assert (forall l : list (string * V), NoDup l.*1 ->
        NoDup (List.filter (fun kv => HasPrefix kv.1 p) l).*1) as Hf.
      { induction l as [|kv l IH]; simpl; [done|]. inversion 1 as [|? ? Hnin Hnd]; subst.
        destruct (HasPrefix kv.1 p); simpl; [|auto]. constructor; [|auto].
        rewrite list_elem_of_fmap. intros [kv' [E Hin]]. apply Hnin. rewrite E.
        apply list_elem_of_fmap_2. rewrite list_elem_of_In in Hin |- *.
        by apply List.filter_In in Hin as [? _]. }
      apply Hf, NoDup_fst_map_to_list.
    + pose proof (string_key_StrictWeak (A := string * V) fst) as Hsw.
      apply (SliceStable_sorted (fun _ => True)); [done | by apply Forall_true].
Qed.

(** ** Consequences of the laws *)

Section ScanFacts.
Context {V DB : Type} `{!Badger V DB, !BadgerLaws V DB}.
Implicit Types (db : DB).

Lemma db_scan_NoDup db p : NoDup (db_scan db p).*1.
Proof.
  pose proof (db_scan_sorted db p) as Hs.
  induction Hs as [|x l Hs IH Hx]; simpl; constructor; [|done].
  rewrite list_elem_of_fmap. intros [y [E Hy]]. rewrite Forall_forall in Hx.
  specialize (Hx y Hy). unfold key_lt in Hx. by rewrite E, string_ltb_irrefl in Hx.
Qed.

Lemma db_scan_NoDup_pairs db p : NoDup (db_scan db p).
Proof. eapply NoDup_fmap_1, db_scan_NoDup. Qed.

(** Databases with the same contents under a prefix iterate alike. *)
Lemma db_scan_ext db db' p :
  (forall k, HasPrefix k p = true -> db_get db k = db_get db' k) ->
  db_scan db p = db_scan db' p.
Proof.
  intros H. apply (StronglySorted_unique_strong key_lt).
  - intros x y _ _ Hxy Hyx. pose proof (string_ltb_trans _ _ _ Hxy Hyx) as E.
    by rewrite string_ltb_irrefl in E.
  - apply db_scan_sorted.
  - apply db_scan_sorted.
  - apply NoDup_Permutation; [apply db_scan_NoDup_pairs..|].
    intros [k v]. rewrite !db_scan_elem. split; intros [Hp Hg]; split; try done;
      [rewrite <- H|rewrite H]; done.
Qed.

Lemma db_scan_set_other db k v p :
  HasPrefix k p = false -> db_scan (db_set db k v) p = db_scan db p.
Proof.
  intros H. apply db_scan_ext. intros k' Hk'. rewrite db_get_set.
  case_decide; [congruence|done].
Qed.

Lemma db_scan_delete_other db k p :
  HasPrefix k p = false -> db_scan (db_delete db k) p = db_scan db p.
Proof.
  intros H. apply db_scan_ext. intros k' Hk'. rewrite db_get_delete.
  case_decide; [congruence|done].
Qed.

Lemma db_scan_set_new db k v p :
  HasPrefix k p = true -> db_get db k = None ->
  db_scan (db_set db k v) p ≡ₚ (k, v) :: db_scan db p.
Proof.
  intros Hp Hk. apply NoDup_Permutation; [apply db_scan_NoDup_pairs| |].
  - constructor; [|apply db_scan_NoDup_pairs]. rewrite db_scan_elem. naive_solver.
  - intros [k' v']. rewrite elem_of_cons, !db_scan_elem, db_get_set.
    case_decide; naive_solver.
Qed.

Lemma db_scan_delete db k v p :
  HasPrefix k p = true -> db_get db k = Some v ->
  db_scan db p ≡ₚ (k, v) :: db_scan (db_delete db k) p.
Proof.
  intros Hp Hk. apply NoDup_Permutation; [apply db_scan_NoDup_pairs| |].
  - constructor; [|apply db_scan_NoDup_pairs].
    rewrite db_scan_elem, db_get_delete. case_decide; naive_solver.
  - intros [k' v']. rewrite elem_of_cons, !db_scan_elem, db_get_delete.
    case_decide; naive_solver.
Qed.

Lemma db_scan_set_upd db k v v' p :
  HasPrefix k p = true -> db_get db k = Some v ->
  exists rest, db_scan db p ≡ₚ (k, v) :: rest /\ db_scan (db_set db k v') p ≡ₚ (k, v') :: rest.
Proof.
  intros Hp Hk. exists (db_scan (db_delete db k) p). split; [by apply db_scan_delete|].
  rewrite (db_scan_delete (db_set db k v') k v'); [|done|by rewrite db_get_set, decide_True].
  apply Permutation_skip.
  rewrite (db_scan_ext (db_delete (db_set db k v') k) (db_delete db k)); [done|].
  intros k' _. rewrite !db_get_delete, db_get_set. by case_decide.
Qed.

End ScanFacts.
