(* ===== verification/Balancer.v ===== *)
(** * The load balancer

    [internal/loadbalancer/balancer.go]: endpoint selection with a round-robin
    cursor per service and an in-flight count per endpoint.  Both maps are
    state behind one mutex, so each call is one atomic step. *)

From S2P Require Import Prelude GoLang GoSort Model Badger.

Definition StrategyRoundRobin : string := "round-robin".
Definition StrategyLeastConnections : string := "least-connections".

Record Balancer : Type := MkBalancer {
  Balancer_rrIndex : gmap string Z;
  Balancer_inflight : gmap string Z
}.

#[export] Instance eta_Balancer : Eta Balancer := fun r =>
  MkBalancer r.(Balancer_rrIndex) r.(Balancer_inflight).

Definition NewBalancer : Balancer := MkBalancer ∅ ∅.

(** [m[k]] on a map of ints *)
Definition map_int (m : gmap string Z) (k : string) : Z := default 0 (m !! k).

Definition readyEndpoints (endpoints : list ServiceEndpoint) : list ServiceEndpoint :=
  SliceStable (fun a b => string_ltb a.(ServiceEndpoint_ID) b.(ServiceEndpoint_ID))
    (List.filter ServiceEndpoint_Ready endpoints).

(** [b.inflight[id]++] *)
Definition acquire (b : Balancer) (id : string) : Balancer :=
  b <| Balancer_inflight ::= fun m => <[id := map_int m id +! 1]> m |>.

(** The loop of the least-connections case over [ready[1:]]. *)
Fixpoint leastLoop (b : Balancer) (selected : ServiceEndpoint) (best : Z)
    (rest : list ServiceEndpoint) : ServiceEndpoint :=
  match rest with
  | [] => selected
  | ep :: rest' =>
      let c := map_int b.(Balancer_inflight) ep.(ServiceEndpoint_ID) in
      if c <? best then leastLoop b ep c rest' else leastLoop b selected best rest'
  end.

Definition Select (b : Balancer) (serviceID strategy : string)
    (endpoints : list ServiceEndpoint) : Res ServiceEndpoint * Balancer :=
  match readyEndpoints endpoints with
  | [] => (Err (Errorf "no ready endpoints"), b)
  | (first :: rest) as ready =>
      if String.eqb strategy "" || String.eqb strategy StrategyRoundRobin then
        let idx := go_mod (map_int b.(Balancer_rrIndex) serviceID) (lenZ ready) in
        let b := b <| Balancer_rrIndex ::= <[serviceID := go_mod (idx +! 1) (lenZ ready)]> |> in
        match (if idx <? 0 then None else ready !! Z.to_nat idx) with
        | Some selected => (Ok selected, acquire b selected.(ServiceEndpoint_ID))
        | None => (Err (Panic "index out of range"), b)
        end
      else if String.eqb strategy StrategyLeastConnections then
        let selected :=
          leastLoop b first (map_int b.(Balancer_inflight) first.(ServiceEndpoint_ID)) rest in
        (Ok selected, acquire b selected.(ServiceEndpoint_ID))
      else (Err (Errorf "unsupported balancing strategy"), b)
  end.

Definition Release (b : Balancer) (endpointID : string) : Balancer :=
  if 0 <? map_int b.(Balancer_inflight) endpointID
  then b <| Balancer_inflight ::= fun m => <[endpointID := map_int m endpointID -! 1]> m |>
  else b.

(** [n] consecutive calls of [Select] with the same arguments. *)
Fixpoint selects (n : nat) (b : Balancer) (serviceID strategy : string)
    (endpoints : list ServiceEndpoint) : list (Res ServiceEndpoint) * Balancer :=
  match n with
  | O => ([], b)
  | S n' =>
      let '(r, b1) := Select b serviceID strategy endpoints in
      let '(rs, b2) := selects n' b1 serviceID strategy endpoints in
      (r :: rs, b2)
  end.

(** ** The invariant of the state *)

(** Cursors and counts are non-negative 64-bit integers. *)
Definition Balancer_ok (b : Balancer) : Prop :=
  (forall k, 0 <= map_int b.(Balancer_rrIndex) k <= i64_max)
  /\ (forall k, 0 <= map_int b.(Balancer_inflight) k <= i64_max).

(** The number of connections counted for an endpoint. *)
Definition connections (b : Balancer) (id : string) : Z := map_int b.(Balancer_inflight) id.

(** A call leaves room for one more connection. *)
Definition has_room (b : Balancer) : Prop := forall k, connections b k < i64_max.

(** ** Lemmas *)

Lemma map_int_insert m k v k' :
  map_int (<[k := v]> m) k' = if decide (k = k') then v else map_int m k'.
Proof. unfold map_int. rewrite lookup_insert. by case_decide. Qed.

Lemma elem_of_readyEndpoints eps ep :
  ep ∈ readyEndpoints eps <-> ep ∈ eps /\ ep.(ServiceEndpoint_Ready) = true.
Proof.
  unfold readyEndpoints.
  by rewrite SliceStable_perm, list_elem_of_In, List.filter_In, <- list_elem_of_In.
Qed.

Lemma leastLoop_spec b sel rest :
  let r := leastLoop b sel (connections b sel.(ServiceEndpoint_ID)) rest in
  r ∈ sel :: rest
  /\ forall ep, ep ∈ sel :: rest ->
       connections b r.(ServiceEndpoint_ID) <= connections b ep.(ServiceEndpoint_ID).
Proof.
  revert sel. induction rest as [|x rest IH]; intros sel; simpl.
  { split; [left|]. intros ep Hep. apply list_elem_of_singleton in Hep as ->. lia. }
  fold (connections b (ServiceEndpoint_ID x)).
  destruct (Z.ltb_spec (connections b (ServiceEndpoint_ID x))
              (connections b (ServiceEndpoint_ID sel))) as [Hlt|Hge].
  - destruct (IH x) as [Hin Hmin]. split; [by right|]. intros ep Hep.
    apply elem_of_cons in Hep as [->|Hep]; [|by apply Hmin].
    specialize (Hmin x ltac:(left)). lia.
  - destruct (IH sel) as [Hin Hmin]. split.
    { apply elem_of_cons in Hin as [->|Hin]; [left|right; by right]. }
    intros ep Hep. apply elem_of_cons in Hep as [->|Hep]; [apply Hmin; left|].
    apply elem_of_cons in Hep as [->|Hep]; [|apply Hmin; by right].
    specialize (Hmin sel ltac:(left)). lia.
Qed.

Lemma acquire_connections b id k :
  connections (acquire b id) k = if decide (id = k) then connections b id +! 1 else connections b k.
Proof. unfold connections, acquire. cbn. apply map_int_insert. Qed.

Lemma Release_connections b id k :
  connections (Release b id) k =
    if decide (id = k /\ 0 < connections b id) then connections b id -! 1 else connections b k.
Proof.
  unfold Release. fold (connections b id).
  destruct (Z.ltb_spec 0 (connections b id)) as [H|H].
  - unfold connections at 1. cbn. rewrite map_int_insert. repeat case_decide; naive_solver lia.
  - case_decide; [lia|done].
Qed.

Lemma go_mod_small a n : 0 <= a -> 0 < n -> 0 <= go_mod a n < n.
Proof. intros. unfold go_mod. by apply Z.rem_bound_pos. Qed.

Lemma round_robin_strategy strategy :
  strategy = "" \/ strategy = StrategyRoundRobin ->
  String.eqb strategy "" || String.eqb strategy StrategyRoundRobin = true.
Proof. by intros [->| ->]. Qed.

(** One round-robin step, in terms of the cursor. *)
Lemma Select_rr_step b svc strategy eps :
  0 <= map_int b.(Balancer_rrIndex) svc -> strategy = "" \/ strategy = StrategyRoundRobin ->
  readyEndpoints eps <> [] -> lenZ (readyEndpoints eps) <= i64_max ->
  exists ep, let n := lenZ (readyEndpoints eps) in
    let idx := Z.rem (map_int b.(Balancer_rrIndex) svc) n in
    readyEndpoints eps !! Z.to_nat idx = Some ep
    /\ Select b svc strategy eps =
       (Ok ep, acquire (b <| Balancer_rrIndex ::= <[svc := (idx + 1) mod n]> |>)
                 ep.(ServiceEndpoint_ID)).
Proof.
  intros Hrr Hs Hne Hlen. unfold Select.
  rewrite round_robin_strategy by done.
  destruct (readyEndpoints eps) as [|e l]; [done|]. cbv zeta. unfold go_mod.
  assert (0 < lenZ (e :: l)) as Hpos by (unfold lenZ; simpl; lia).
  pose proof (go_mod_small (map_int (Balancer_rrIndex b) svc) (lenZ (e :: l))
    Hrr Hpos) as Hidx. unfold go_mod in Hidx.
  set (n := lenZ (e :: l)) in *. set (idx := Z.rem _ n) in *.
  assert (exists ep, (e :: l) !! Z.to_nat idx = Some ep) as [ep Hep].
  { apply lookup_lt_is_Some_2. unfold n, lenZ in Hidx. lia. }
  exists ep. split; [done|].
  replace (idx <? 0) with false by (symmetry; apply Z.ltb_ge; lia).
  rewrite Hep, wrap64_id by (unfold in_i64, i64_min; lia).
  by rewrite Z.rem_mod_nonneg by lia.
Qed.

(** [k] round-robin steps visit [k] consecutive positions of the cycle. *)
Lemma selects_rr k b svc strategy eps j :
  0 <= map_int b.(Balancer_rrIndex) svc -> strategy = "" \/ strategy = StrategyRoundRobin ->
  readyEndpoints eps <> [] -> lenZ (readyEndpoints eps) <= i64_max -> (j < k)%nat ->
  (selects k b svc strategy eps).1 !! j =
    Ok <$> readyEndpoints eps !!
      Z.to_nat ((map_int b.(Balancer_rrIndex) svc + Z.of_nat j) mod lenZ (readyEndpoints eps)).
Proof.
  revert b j. induction k as [|k IH]; intros b j Hrr Hs Hne Hlen Hj; [lia|].
  assert (0 < lenZ (readyEndpoints eps)) as Hpos.
  { destruct (readyEndpoints eps); [done|]. unfold lenZ. simpl. lia. }
  destruct (Select_rr_step b svc strategy eps Hrr Hs Hne Hlen) as (ep & Hep & E).
  cbn [selects]. rewrite E. rewrite Z.rem_mod_nonneg in * by lia.
  set (n := lenZ (readyEndpoints eps)) in *. set (c := map_int _ svc) in *.
  set (b' := acquire _ _).
  assert (map_int b'.(Balancer_rrIndex) svc = (c mod n + 1) mod n) as Eb'.
  { unfold b', acquire. cbn. by rewrite map_int_insert, decide_True. }
  destruct (selects k b' svc strategy eps) as [rs b''] eqn:Ek.
  destruct j as [|j]; simpl.
  - by rewrite Z.add_0_r, Hep.
  - assert (rs = (selects k b' svc strategy eps).1) as -> by (by rewrite Ek).
    rewrite IH; [|rewrite Eb'; apply Z.mod_pos_bound; lia|done..|lia].
    rewrite Eb'. do 3 f_equal.
    rewrite Zplus_mod_idemp_l, <- Z.add_assoc, Zplus_mod_idemp_l. f_equal. lia.
Qed.

Lemma length_selects k b svc strategy eps : length (selects k b svc strategy eps).1 = k.
Proof.
  revert b. induction k as [|k IH]; intros b; simpl; [done|].
  destruct (Select b svc strategy eps) as [r b1]. specialize (IH b1).
  destruct (selects k b1 svc strategy eps). simpl in *. by rewrite IH.
Qed.

Lemma rotate_Permutation {A} n (l : list A) : rotate n l ≡ₚ l.
Proof. unfold rotate. by rewrite Permutation_app_comm, take_drop. Qed.

(** One least-connections step. *)
Lemma Select_lc_step b svc eps :
  readyEndpoints eps <> [] ->
  exists ep, Select b svc StrategyLeastConnections eps = (Ok ep, acquire b ep.(ServiceEndpoint_ID))
  /\ ep ∈ readyEndpoints eps
  /\ (forall ep', ep' ∈ readyEndpoints eps ->
        connections b ep.(ServiceEndpoint_ID) <= connections b ep'.(ServiceEndpoint_ID)).
Proof.
  intros Hne. unfold Select.
  destruct (readyEndpoints eps) as [|e l]; [done|].
  destruct (leastLoop_spec b e l) as [Hin Hmin].
  by exists (leastLoop b e (connections b (ServiceEndpoint_ID e)) l).
Qed.

Lemma Balancer_ok_alt b :
  Balancer_ok b <->
  (forall k, 0 <= map_int b.(Balancer_rrIndex) k <= i64_max)
  /\ (forall k, 0 <= connections b k <= i64_max).
Proof. done. Qed.

Lemma acquire_Release_ok b id :
  Balancer_ok b -> has_room b ->
  Balancer_ok (acquire b id) /\ Balancer_ok (Release (acquire b id) id)
  /\ forall k, connections (Release (acquire b id) id) k = connections b k.
Proof.
  rewrite !Balancer_ok_alt. intros [Hrr Hin] Hroom. pose proof (Hin id) as Hid.
  specialize (Hroom id).
  assert (forall k, connections (acquire b id) k =
    if decide (id = k) then connections b id + 1 else connections b k) as Ha.
  { intros k. rewrite acquire_connections, wrap64_id; [done|].
    unfold in_i64, i64_min in *. lia. }
  assert (forall k, connections (Release (acquire b id) id) k = connections b k) as Hr.
  { intros k. rewrite Release_connections, !Ha, !(decide_True (P := id = id)) by done.
    rewrite wrap64_id by (unfold in_i64, i64_min in *; lia).
    destruct (decide (id = k)) as [->|Hne].
    - rewrite decide_True; [lia|]. split; [done|lia].
    - rewrite decide_False by tauto. done. }
  split_and!; try done.
  - intros k. rewrite Ha. specialize (Hin k). case_decide; lia.
  - unfold Release. case_match; apply Hrr.
  - intros k. by rewrite Hr.
Qed.

(** The outcomes of [Select]: an error that leaves the state alone, or a
    selection that counts one connection. *)
Lemma Select_cases b svc strategy eps :
  Balancer_ok b -> lenZ (readyEndpoints eps) <= i64_max ->
  (exists m, Select b svc strategy eps = (Err (Errorf m), b))
  \/ (exists ep b1, Select b svc strategy eps = (Ok ep, acquire b1 ep.(ServiceEndpoint_ID))
      /\ Balancer_ok b1 /\ connections b1 = connections b).
Proof.
  intros Hok Hlen.
  destruct (decide (readyEndpoints eps = [])) as [E0|Hne].
  { left. unfold Select. rewrite E0. eauto. }
  destruct (decide (strategy = "" \/ strategy = StrategyRoundRobin)) as [Hs|Hs].
  - right. destruct Hok as [Hrr Hin].
    destruct (Select_rr_step b svc strategy eps ltac:(apply Hrr) Hs Hne Hlen) as (ep & _ & E).
    eexists ep, _. split; [exact E|]. split; [|done]. split; [|exact Hin].
    intros k. cbn. rewrite map_int_insert. case_decide; [|apply Hrr].
    assert (0 < lenZ (readyEndpoints eps)) by
      (destruct (readyEndpoints eps); [done|unfold lenZ; simpl; lia]).
    match goal with |- 0 <= ?a mod ?n <= _ => pose proof (Z.mod_pos_bound a n) end. lia.
  - destruct (decide (strategy = StrategyLeastConnections)) as [->|Hl].
    + right. destruct (Select_lc_step b svc eps Hne) as (ep & E & _). eauto.
    + left. unfold Select. destruct (readyEndpoints eps) as [|e l]; [done|].
      rewrite !(proj2 (String.eqb_neq _ _)) by tauto. simpl. eauto.
Qed.

(** ** Theorems *)

(** C21: Round robin is fair: from any state, as many consecutive selections as
    there are ready endpoints return each ready endpoint exactly once, in ID
    order starting at the cursor. *)
Theorem round_robin_fair b svc strategy eps :
  Balancer_ok b -> strategy = "" \/ strategy = StrategyRoundRobin ->
  readyEndpoints eps <> [] -> lenZ (readyEndpoints eps) <= i64_max ->
  let results := (selects (length (readyEndpoints eps)) b svc strategy eps).1 in
  results = Ok <$> rotate (Z.to_nat (map_int b.(Balancer_rrIndex) svc)) (readyEndpoints eps)
  /\ results ≡ₚ Ok <$> readyEndpoints eps.
Proof.
  intros [Hrr _] Hs Hne Hlen results.
  assert (results = Ok <$> rotate (Z.to_nat (map_int b.(Balancer_rrIndex) svc))
                           (readyEndpoints eps)) as E.
  { apply list_eq. intros j. rewrite list_lookup_fmap.
    destruct (decide (j < length (readyEndpoints eps))%nat) as [Hj|Hj].
    - unfold results. rewrite selects_rr by (try done; apply Hrr).
      rewrite lookup_rotate_r by done. unfold rotate_nat_add, lenZ.
      rewrite Z2Nat.id by apply Hrr. done.
    - rewrite !lookup_ge_None_2; [done|rewrite length_rotate; lia|].
      unfold results. rewrite length_selects. lia. }
  split; [done|]. by rewrite E, rotate_Permutation.
Qed.

(** Least connections picks a ready endpoint none of the ready endpoints
    has fewer in-flight connections than, and counts one more connection for
    that endpoint and no other. *)
Theorem least_connections_min b svc eps :
  readyEndpoints eps <> [] ->
  exists ep b', Select b svc StrategyLeastConnections eps = (Ok ep, b')
  /\ ep ∈ eps /\ ep.(ServiceEndpoint_Ready) = true
  /\ (forall ep', ep' ∈ eps -> ep'.(ServiceEndpoint_Ready) = true ->
        connections b ep.(ServiceEndpoint_ID) <= connections b ep'.(ServiceEndpoint_ID))
  /\ (forall k, connections b' k =
        if decide (ep.(ServiceEndpoint_ID) = k)
        then connections b ep.(ServiceEndpoint_ID) +! 1 else connections b k).
Proof.
  intros Hne. destruct (Select_lc_step b svc eps Hne) as (ep & E & Hin & Hmin).
  exists ep, (acquire b ep.(ServiceEndpoint_ID)). apply elem_of_readyEndpoints in Hin as [Hin Hr].
  split_and!; [done..| |apply acquire_connections].
  intros ep' Hep' Hr'. by apply Hmin, elem_of_readyEndpoints.
Qed.

(** C22: Every call keeps the balancer's state well formed, no call panics, and
    a selection followed by the release of its endpoint restores every
    connection count. *)
Theorem Select_safe b svc strategy eps r b' :
  Balancer_ok b -> has_room b -> lenZ (readyEndpoints eps) <= i64_max ->
  Select b svc strategy eps = (r, b') ->
  Balancer_ok b'
  /\ (forall m, r <> Err (Panic m))
  /\ (forall ep, r = Ok ep ->
        Balancer_ok (Release b' ep.(ServiceEndpoint_ID))
        /\ forall k, connections (Release b' ep.(ServiceEndpoint_ID)) k = connections b k).
Proof.
  intros Hok Hroom Hlen E.
  destruct (Select_cases b svc strategy eps Hok Hlen) as [(m & E')|(ep & b1 & E' & Hok1 & Ec)];
    rewrite E' in E; injection E as <- <-.
  - split; [done|]. split; [congruence|done].
  - destruct (acquire_Release_ok b1 (ServiceEndpoint_ID ep) Hok1) as (H1 & H2 & H3).
    { intros k. rewrite Ec. apply Hroom. }
    split; [done|]. split; [congruence|]. intros ep' [= <-]. split; [done|].
    intros k. by rewrite H3, Ec.
Qed.
