(* ===== verification/World.v ===== *)
(** * The state of the control plane and its environment

    [World DB] is everything an operation may change: the database, the
    balancer, the health samples and the event subscribers that the
    orchestrator keeps in memory, and a counter of the interactions with the
    outside.  [Env] is the outside: at interaction number [t] it fixes what the
    clock, the random generator, the database and the external programs
    answer.  Every statement about an operation holds for every [Env]. *)

From Corelib Require Import SpecFloat.
From S2P Require Import Prelude GoLang GoFloat Effects Model Badger Balancer Scheduler.

(** ** Documents

    The value under a key is the JSON text of one entity. *)
Inductive Blob : Type :=
| BNode (x : Node)
| BDeployment (x : Deployment)
| BWorkload (x : Workload)
| BAssignment (x : Assignment)
| BService (x : Service)
| BServiceEndpoint (x : ServiceEndpoint)
| BNamespace (x : Namespace)
| BNamespaceQuota (x : NamespaceQuota)
| BSecret (x : Secret)
| BPersistentVolume (x : PersistentVolume)
| BPersistentVolumeClaim (x : PersistentVolumeClaim)
| BNetworkPolicy (x : NetworkPolicy)
| BJob (x : Job)
| BCronJob (x : CronJob)
| BRoleBinding (x : RoleBinding)
| BControllerLease (x : ControllerLease)
| BControlPlaneTransition (x : ControlPlaneTransition)
| BAutoscalerPolicy (x : AutoscalerPolicy)
| BDeploymentMetricSample (x : DeploymentMetricSample)
| BEvent (x : Event).

(** A Go type stored as a document of its own. *)
Class Entity (T : Type) := {
  inject : T -> Blob;
  project : Blob -> option T;
  project_inject : forall x, project (inject x) = Some x;
  inject_project : forall b x, project b = Some x -> b = inject x
}.

Ltac solve_entity :=
  [> reflexivity | intros b x H; destruct b; simpl in H; congruence].

#[export, refine] Instance Entity_Node : Entity Node :=
  {| inject := BNode; project b := match b with BNode x => Some x | _ => None end |}.
Proof. all: solve_entity. Defined.

#[export, refine] Instance Entity_Deployment : Entity Deployment :=
  {| inject := BDeployment; project b := match b with BDeployment x => Some x | _ => None end |}.
Proof. all: solve_entity. Defined.

#[export, refine] Instance Entity_Workload : Entity Workload :=
  {| inject := BWorkload; project b := match b with BWorkload x => Some x | _ => None end |}.
Proof. all: solve_entity. Defined.

#[export, refine] Instance Entity_Assignment : Entity Assignment :=
  {| inject := BAssignment;
     project b := match b with BAssignment x => Some x | _ => None end |}.
Proof. all: solve_entity. Defined.

#[export, refine] Instance Entity_Service : Entity Service :=
  {| inject := BService;
     project b := match b with BService x => Some x | _ => None end |}.
Proof. all: solve_entity. Defined.

#[export, refine] Instance Entity_ServiceEndpoint : Entity ServiceEndpoint :=
  {| inject := BServiceEndpoint;
     project b := match b with BServiceEndpoint x => Some x | _ => None end |}.
Proof. all: solve_entity. Defined.

#[export, refine] Instance Entity_Namespace : Entity Namespace :=
  {| inject := BNamespace;
     project b := match b with BNamespace x => Some x | _ => None end |}.
Proof. all: solve_entity. Defined.

#[export, refine] Instance Entity_NamespaceQuota : Entity NamespaceQuota :=
  {| inject := BNamespaceQuota;
     project b := match b with BNamespaceQuota x => Some x | _ => None end |}.
Proof. all: solve_entity. Defined.

#[export, refine] Instance Entity_Secret : Entity Secret :=
  {| inject := BSecret;
     project b := match b with BSecret x => Some x | _ => None end |}.
Proof. all: solve_entity. Defined.

#[export, refine] Instance Entity_PersistentVolume : Entity PersistentVolume :=
  {| inject := BPersistentVolume;
     project b := match b with BPersistentVolume x => Some x | _ => None end |}.
Proof. all: solve_entity. Defined.

#[export, refine] Instance Entity_PersistentVolumeClaim : Entity PersistentVolumeClaim :=
  {| inject := BPersistentVolumeClaim;
     project b := match b with BPersistentVolumeClaim x => Some x | _ => None end |}.
Proof. all: solve_entity. Defined.

#[export, refine] Instance Entity_NetworkPolicy : Entity NetworkPolicy :=
  {| inject := BNetworkPolicy;
     project b := match b with BNetworkPolicy x => Some x | _ => None end |}.
Proof. all: solve_entity. Defined.

#[export, refine] Instance Entity_Job : Entity Job :=
  {| inject := BJob;
     project b := match b with BJob x => Some x | _ => None end |}.
Proof. all: solve_entity. Defined.

#[export, refine] Instance Entity_CronJob : Entity CronJob :=
  {| inject := BCronJob;
     project b := match b with BCronJob x => Some x | _ => None end |}.
Proof. all: solve_entity. Defined.

#[export, refine] Instance Entity_RoleBinding : Entity RoleBinding :=
  {| inject := BRoleBinding;
     project b := match b with BRoleBinding x => Some x | _ => None end |}.
Proof. all: solve_entity. Defined.

#[export, refine] Instance Entity_ControllerLease : Entity ControllerLease :=
  {| inject := BControllerLease;
     project b := match b with BControllerLease x => Some x | _ => None end |}.
Proof. all: solve_entity. Defined.

#[export, refine] Instance Entity_ControlPlaneTransition : Entity ControlPlaneTransition :=
  {| inject := BControlPlaneTransition;
     project b := match b with BControlPlaneTransition x => Some x | _ => None end |}.
Proof. all: solve_entity. Defined.

#[export, refine] Instance Entity_AutoscalerPolicy : Entity AutoscalerPolicy :=
  {| inject := BAutoscalerPolicy;
     project b := match b with BAutoscalerPolicy x => Some x | _ => None end |}.
Proof. all: solve_entity. Defined.

#[export, refine] Instance Entity_DeploymentMetricSample : Entity DeploymentMetricSample :=
  {| inject := BDeploymentMetricSample;
     project b := match b with BDeploymentMetricSample x => Some x | _ => None end |}.
Proof. all: solve_entity. Defined.

#[export, refine] Instance Entity_Event : Entity Event :=
  {| inject := BEvent;
     project b := match b with BEvent x => Some x | _ => None end |}.
Proof. all: solve_entity. Defined.

(** ** The environment *)

(** What the admission plugin is asked about. *)
Inductive AdmissionRequest : Type :=
| AdmitDeployment (spec : DeploymentSpec)
| AdmitService (spec : ServiceSpec).

(** How a run of the admission plugin ends: the process fails, its output is
    not a response, or it answers. *)
Inductive AdmissionOutcome : Type :=
| AdmissionFailed (e : error)
| AdmissionInvalid (e : error)
| AdmissionResponse (allowed : bool) (reason : string).

Class Env := {
  (** [time.Now().UTC()] *)
  env_now : nat -> Time;
  (** [rand.Intn(9999)] *)
  env_rand : nat -> Z;
  (** the error of the database transaction, when it fails *)
  env_dberr : nat -> option string;
  (** the external score plugin *)
  env_score : nat -> string -> Node -> Resource -> Res float64;
  (** [ORCH_ADMISSION_PLUGIN_CMD], and the plugin it names *)
  env_admissionCmd : string;
  env_admission : nat -> AdmissionRequest -> AdmissionOutcome;
  (** the key-management key ([""] when there is none), the nonces of the
      crypto generator, and AES-GCM: key, nonce, text *)
  env_kmsKey : string;
  env_nonce : nat -> Res string;
  env_seal : string -> string -> string -> string;
  env_open : string -> string -> string -> option string;
  (** the planner and the node time-to-live the orchestrator was built with *)
  env_planner : Planner;
  env_nodeTTL : Duration
}.

(** ** The state *)

(** A subscriber's channel: its capacity and the events not yet received. *)
Record Subscriber : Type := MkSubscriber {
  Subscriber_buffer : Z;
  Subscriber_queue : list Event
}.

#[export] Instance eta_Subscriber : Eta Subscriber := fun r =>
  MkSubscriber r.(Subscriber_buffer) r.(Subscriber_queue).

Record World (DB : Type) : Type := MkWorld {
  w_db : DB;
  w_tick : nat;
  w_balance : Balancer;
  w_healthSamples : gmap string (list NodeHealthSample);
  w_subscribers : gmap nat Subscriber;
  w_nextSub : nat
}.

Arguments MkWorld {DB}.
Arguments w_db {DB}.
Arguments w_tick {DB}.
Arguments w_balance {DB}.
Arguments w_healthSamples {DB}.
Arguments w_subscribers {DB}.
Arguments w_nextSub {DB}.

#[export] Instance eta_World {DB} : Eta (World DB) := fun r =>
  MkWorld r.(w_db) r.(w_tick) r.(w_balance) r.(w_healthSamples) r.(w_subscribers)
    r.(w_nextSub).

(** [NewOrchestrator]: nothing in memory yet; the planner and the time-to-live
    are part of the environment. *)
Definition NewOrchestrator {DB} (st : DB) : World DB := MkWorld st 0 NewBalancer ∅ ∅ 0.

Section Interactions.
Context {DB : Type} `{!Badger Blob DB} {E : Env}.

(** Ask the environment something: every question has its own number. *)
Definition ask {A} (f : nat -> A) : M (World DB) A := fun w =>
  (Ok (f w.(w_tick)), w <| w_tick ::= S |>).

Definition now : M (World DB) Time := ask env_now.
Definition rand_Intn : M (World DB) Z := ask env_rand.

(** [s.db.Update]: the changes of the transaction are kept when it succeeds and
    dropped when its function or the commit fails. *)
Definition db_Update {A} (f : DB -> Res (A * DB)) : M (World DB) A := fun w =>
  let w1 := w <| w_tick ::= S |> in
  match env_dberr w.(w_tick) with
  | Some m => (Err (ErrIO m), w1)
  | None =>
      match f w.(w_db) with
      | Ok (a, db') => (Ok a, w1 <| w_db := db' |>)
      | Err e => (Err e, w1)
      end
  end.

(** [s.db.View] *)
Definition db_View {A} (f : DB -> Res A) : M (World DB) A := fun w =>
  let w1 := w <| w_tick ::= S |> in
  match env_dberr w.(w_tick) with
  | Some m => (Err (ErrIO m), w1)
  | None => (f w.(w_db), w1)
  end.

End Interactions.
