(* ===== verification/Store.v ===== *)
(** * The state store

    [internal/store/store.go]: the typed interface over the key-value
    database.  Every entity lives under a key built from its identity; the
    operations below are the methods of [BadgerStateStore].  The file shows
    that every operation keeps each document under the key its own contents
    determine ([db_wf]), what reads see after writes, and what the listing,
    queue and cascade operations do. *)

From Stdlib Require Import Ascii String.
From Corelib Require Import SpecFloat.
From S2P Require Import Prelude GoLang GoTime Effects Model Badger World.

(** ** Keys *)

Definition keyNode (nodeID : string) : string := "node:" +:+ nodeID.
Definition keyDeployment (deploymentID : string) : string := "deployment:" +:+ deploymentID.
Definition keyWorkload (workloadID : string) : string := "workload:" +:+ workloadID.
Definition keyAssignmentPrefix (nodeID : string) : string := "assignment:" +:+ nodeID +:+ ":".
Definition keyAssignment (nodeID assignmentID : string) : string :=
  keyAssignmentPrefix nodeID +:+ assignmentID.
Definition keyEvent (ts : Time) (eventID : string) : string :=
  "event:" +:+ RFC3339Nano ts +:+ ":" +:+ eventID.
Definition keyService (serviceID : string) : string := "service:" +:+ serviceID.
Definition keyServiceEndpointPrefix (serviceID : string) : string :=
  "service-endpoint:" +:+ serviceID +:+ ":".
Definition keyServiceEndpoint (serviceID endpointID : string) : string :=
  keyServiceEndpointPrefix serviceID +:+ endpointID.
Definition keyAutoscalerPolicy (policyID : string) : string := "autoscaler:" +:+ policyID.
Definition keyDeploymentMetricPrefix (deploymentID : string) : string :=
  "metric:" +:+ deploymentID +:+ ":".
Definition keyDeploymentMetric (deploymentID : string) (ts : Time) (metricID : string) : string :=
  keyDeploymentMetricPrefix deploymentID +:+ RFC3339Nano ts +:+ ":" +:+ metricID.
Definition keyNamespace (name : string) : string := "namespace:" +:+ name.
Definition keyNamespaceQuota (namespace : string) : string := "quota:" +:+ namespace.
Definition keySecretPrefix (namespace : string) : string := "secret:" +:+ namespace +:+ ":".
Definition keySecret (namespace name : string) : string := keySecretPrefix namespace +:+ name.
Definition keyPersistentVolume (name : string) : string := "pv:" +:+ name.
Definition keyPersistentVolumeClaimPrefix (namespace : string) : string :=
  "pvc:" +:+ namespace +:+ ":".
Definition keyPersistentVolumeClaim (namespace name : string) : string :=
  keyPersistentVolumeClaimPrefix namespace +:+ name.
Definition keyNetworkPolicyPrefix (namespace : string) : string :=
  "netpol:" +:+ namespace +:+ ":".
Definition keyNetworkPolicy (namespace name : string) : string :=
  keyNetworkPolicyPrefix namespace +:+ name.
Definition keyJob (id : string) : string := "job:" +:+ id.
Definition keyCronJobPrefix (namespace : string) : string := "cronjob:" +:+ namespace +:+ ":".
Definition keyCronJob (namespace name : string) : string := keyCronJobPrefix namespace +:+ name.
Definition keyRoleBindingPrefix (namespace : string) : string :=
  if blank namespace then "rbac:global:" else "rbac:" +:+ namespace +:+ ":".
Definition keyRoleBinding (namespace name : string) : string :=
  keyRoleBindingPrefix namespace +:+ name.
Definition keyControllerLease : string := "controller:lease".
Definition keyControlPlaneTransition (ts : Time) (id : string) : string :=
  "transition:" +:+ RFC3339Nano ts +:+ ":" +:+ id.

(** The key an entity is stored under. *)
Definition key_of (b : Blob) : string :=
  match b with
  | BNode x => keyNode x.(Node_ID)
  | BDeployment x => keyDeployment x.(Deployment_ID)
  | BWorkload x => keyWorkload x.(Workload_ID)
  | BAssignment x => keyAssignment x.(Assignment_NodeID) x.(Assignment_ID)
  | BService x => keyService x.(Service_ID)
  | BServiceEndpoint x => keyServiceEndpoint x.(ServiceEndpoint_ServiceID) x.(ServiceEndpoint_ID)
  | BNamespace x => keyNamespace x.(Namespace_Name)
  | BNamespaceQuota x => keyNamespaceQuota x.(NamespaceQuota_Namespace)
  | BSecret x => keySecret x.(Secret_Namespace) x.(Secret_Name)
  | BPersistentVolume x => keyPersistentVolume x.(PersistentVolume_Name)
  | BPersistentVolumeClaim x =>
      keyPersistentVolumeClaim x.(PersistentVolumeClaim_Namespace) x.(PersistentVolumeClaim_Name)
  | BNetworkPolicy x => keyNetworkPolicy x.(NetworkPolicy_Namespace) x.(NetworkPolicy_Name)
  | BJob x => keyJob x.(Job_ID)
  | BCronJob x => keyCronJob x.(CronJob_Namespace) x.(CronJob_Name)
  | BRoleBinding x => keyRoleBinding x.(RoleBinding_Namespace) x.(RoleBinding_Name)
  | BControllerLease _ => keyControllerLease
  | BControlPlaneTransition x =>
      keyControlPlaneTransition x.(ControlPlaneTransition_CreatedAt) x.(ControlPlaneTransition_ID)
  | BAutoscalerPolicy x => keyAutoscalerPolicy x.(AutoscalerPolicy_ID)
  | BDeploymentMetricSample x =>
      keyDeploymentMetric x.(DeploymentMetricSample_DeploymentID)
        x.(DeploymentMetricSample_Timestamp) x.(DeploymentMetricSample_ID)
  | BEvent x => keyEvent x.(Event_Timestamp) x.(Event_ID)
  end.

Section Store.
Context {DB : Type} `{!Badger Blob DB} {E : Env}.

Abbreviation IO := (M (World DB)).

(** ** Generic access *)

Definition put {T} `{!Entity T, !JSON T} (key : string) (x : T) : IO unit :=
  match json x with
  | None => throw ErrMarshal
  | Some y => db_Update (fun db => Ok (tt, db_set db key (inject y)))
  end.

Definition get_in {T} `{!Entity T} (key : string) (db : DB) : Res T :=
  match db_get db key with
  | None => Err ErrNotFound
  | Some b => match project b with Some x => Ok x | None => Err ErrMarshal end
  end.

Definition get {T} `{!Entity T} (key : string) : IO T := db_View (get_in key).

(** Decode every document of a scan; stop at the first that does not decode. *)
Definition decode_all {T} `{!Entity T} (kvs : list (string * Blob)) : Res (list T) :=
  match mapM (fun kv => project kv.2) kvs with
  | Some l => Ok l
  | None => Err ErrMarshal
  end.

Definition listPrefix {T} `{!Entity T} (prefix : string) : IO (list T) :=
  db_View (fun db => decode_all (db_scan db prefix)).

Definition del (key : string) : IO unit := db_Update (fun db => Ok (tt, db_delete db key)).

(** [if t.IsZero() { t = time.Now().UTC() }] *)
Definition or_now (t : Time) : IO Time := if IsZero t then now else mret t.

(** Keep the last [limit] items. *)
Definition last_items {A} (limit : Z) (l : list A) : list A :=
  if limit <? lenZ l then drop (length l - Z.to_nat limit) l else l.

Definition default_limit (limit : Z) : Z := if limit <=? 0 then 100 else limit.

(** ** Nodes *)

Definition UpsertNode (node : Node) : IO unit :=
  seen ← or_now node.(Node_LastSeen);
  put (keyNode node.(Node_ID)) (node <| Node_LastSeen := seen |>).

Definition GetNode (id : string) : IO Node := get (keyNode id).
Definition ListNodes : IO (list Node) := listPrefix "node:".

(** ** Deployments *)

Definition GetDeployment (id : string) : IO Deployment := get (keyDeployment id).

Definition CreateDeployment (dep : Deployment) : IO unit :=
  r ← attempt (GetDeployment dep.(Deployment_ID));
  match r with
  | Ok _ => throw (Errorf ("deployment " +:+ dep.(Deployment_ID) +:+ " already exists"))
  | Err _ => put (keyDeployment dep.(Deployment_ID)) dep
  end.

Definition UpdateDeployment (dep : Deployment) : IO unit :=
  put (keyDeployment dep.(Deployment_ID)) dep.

Definition ListDeployments : IO (list Deployment) := listPrefix "deployment:".

(** Inside the transaction the iterator runs over the state it was created in;
    the deletions it makes do not disturb it. *)
Definition delete_keys (db : DB) (ks : list string) : DB := foldl db_delete db ks.

Definition DeleteDeployment (id : string) : IO unit :=
  db_Update (fun db =>
    let db1 := db_delete db (keyDeployment id) in
    let kvs := db_scan db1 "workload:" in
    match decode_all (T := Workload) kvs with
    | Err e => Err e
    | Ok ws =>
        let doomed := List.filter
          (fun kw => String.eqb kw.2.(Workload_DeploymentID) id) (zip kvs.*1 ws) in
        Ok (tt, delete_keys db1 doomed.*1)
    end).

(** ** Workloads *)

Definition UpsertWorkload (w : Workload) : IO unit :=
  t ← now; put (keyWorkload w.(Workload_ID)) (w <| Workload_UpdatedAt := t |>).

Definition GetWorkload (id : string) : IO Workload := get (keyWorkload id).
Definition ListWorkloads : IO (list Workload) := listPrefix "workload:".

Definition of_deployment (deploymentID : string) : list Workload -> list Workload :=
  List.filter (fun w => String.eqb w.(Workload_DeploymentID) deploymentID).

Definition ListWorkloadsByDeployment (deploymentID : string) : IO (list Workload) :=
  items ← ListWorkloads; mret (of_deployment deploymentID items).

Definition DeleteWorkload (id : string) : IO unit := del (keyWorkload id).

(** ** Services and their endpoints *)

Definition GetService (id : string) : IO Service := get (keyService id).

Definition CreateService (svc : Service) : IO unit :=
  r ← attempt (GetService svc.(Service_ID));
  match r with
  | Ok _ => throw (Errorf ("service " +:+ svc.(Service_ID) +:+ " already exists"))
  | Err _ => put (keyService svc.(Service_ID)) svc
  end.

Definition ListServices : IO (list Service) := listPrefix "service:".
Definition UpdateService (svc : Service) : IO unit := put (keyService svc.(Service_ID)) svc.

Definition DeleteService (id : string) : IO unit :=
  db_Update (fun db =>
    let db1 := db_delete db (keyService id) in
    Ok (tt, delete_keys db1 (db_scan db1 (keyServiceEndpointPrefix id)).*1)).

(** One endpoint of the list: default ID, default time. *)
Definition complete_endpoint (ep : ServiceEndpoint) : IO ServiceEndpoint :=
  let ep := if String.eqb ep.(ServiceEndpoint_ID) ""
    then ep <| ServiceEndpoint_ID := ep.(ServiceEndpoint_ServiceID) +:+ "-"
           +:+ ep.(ServiceEndpoint_WorkloadID) +:+ "-" +:+ fmt_d ep.(ServiceEndpoint_Port) |>
    else ep in
  t ← or_now ep.(ServiceEndpoint_UpdatedAt);
  mret (ep <| ServiceEndpoint_UpdatedAt := t |>).

Definition set_endpoint (db : DB) (ep : ServiceEndpoint) : DB :=
  db_set db (keyServiceEndpoint ep.(ServiceEndpoint_ServiceID) ep.(ServiceEndpoint_ID))
    (BServiceEndpoint ep).

(** The clock readings of the loop are taken before the transaction commits;
    they do not depend on it. *)
Definition ReplaceServiceEndpoints (serviceID : string) (endpoints : list ServiceEndpoint)
    : IO unit :=
  eps ← fold_m endpoints [] (fun acc ep => ep' ← complete_endpoint ep; mret (acc ++ [ep']));
  db_Update (fun db =>
    let db1 := delete_keys db (db_scan db (keyServiceEndpointPrefix serviceID)).*1 in
    Ok (tt, foldl set_endpoint db1 eps)).

Definition ListServiceEndpoints (serviceID : string) : IO (list ServiceEndpoint) :=
  listPrefix (keyServiceEndpointPrefix serviceID).

(** ** Namespaces, quotas, secrets *)

Definition GetNamespace (name : string) : IO Namespace := get (keyNamespace name).

Definition CreateNamespace (ns : Namespace) : IO unit :=
  r ← attempt (GetNamespace ns.(Namespace_Name));
  match r with
  | Ok _ => throw (Errorf ("namespace " +:+ ns.(Namespace_Name) +:+ " already exists"))
  | Err _ =>
      created ← or_now ns.(Namespace_CreatedAt);
      let updated :=
        if IsZero ns.(Namespace_UpdatedAt) then created else ns.(Namespace_UpdatedAt) in
      put (keyNamespace ns.(Namespace_Name))
        (ns <| Namespace_CreatedAt := created |> <| Namespace_UpdatedAt := updated |>)
  end.

Definition ListNamespaces : IO (list Namespace) := listPrefix "namespace:".
Definition DeleteNamespace (name : string) : IO unit := del (keyNamespace name).

Definition UpsertNamespaceQuota (quota : NamespaceQuota) : IO unit :=
  created ← or_now quota.(NamespaceQuota_CreatedAt);
  updated ← now;
  put (keyNamespaceQuota quota.(NamespaceQuota_Namespace))
    (quota <| NamespaceQuota_CreatedAt := created |> <| NamespaceQuota_UpdatedAt := updated |>).

Definition GetNamespaceQuota (namespace : string) : IO NamespaceQuota :=
  get (keyNamespaceQuota namespace).
Definition ListNamespaceQuotas : IO (list NamespaceQuota) := listPrefix "quota:".
Definition DeleteNamespaceQuota (namespace : string) : IO unit := del (keyNamespaceQuota namespace).

Definition UpsertSecret (secret : Secret) : IO unit :=
  created ← or_now secret.(Secret_CreatedAt);
  updated ← now;
  put (keySecret secret.(Secret_Namespace) secret.(Secret_Name))
    (secret <| Secret_CreatedAt := created |> <| Secret_UpdatedAt := updated |>).

Definition GetSecret (namespace name : string) : IO Secret := get (keySecret namespace name).
Definition ListSecrets (namespace : string) : IO (list Secret) :=
  listPrefix (keySecretPrefix namespace).
Definition DeleteSecret (namespace name : string) : IO unit := del (keySecret namespace name).

(** ** Volumes and claims *)

Definition UpsertPersistentVolume (pv : PersistentVolume) : IO unit :=
  created ← or_now pv.(PersistentVolume_CreatedAt);
  updated ← now;
  let phase := if String.eqb pv.(PersistentVolume_Phase) ""
    then PersistentVolumeAvailable else pv.(PersistentVolume_Phase) in
  put (keyPersistentVolume pv.(PersistentVolume_Name))
    (pv <| PersistentVolume_CreatedAt := created |> <| PersistentVolume_UpdatedAt := updated |>
        <| PersistentVolume_Phase := phase |>).

Definition GetPersistentVolume (name : string) : IO PersistentVolume :=
  get (keyPersistentVolume name).
Definition ListPersistentVolumes : IO (list PersistentVolume) := listPrefix "pv:".
Definition DeletePersistentVolume (name : string) : IO unit := del (keyPersistentVolume name).

Definition UpsertPersistentVolumeClaim (pvc : PersistentVolumeClaim) : IO unit :=
  created ← or_now pvc.(PersistentVolumeClaim_CreatedAt);
  updated ← now;
  let phase := if String.eqb pvc.(PersistentVolumeClaim_Phase) ""
    then PersistentVolumeClaimPending else pvc.(PersistentVolumeClaim_Phase) in
  put (keyPersistentVolumeClaim pvc.(PersistentVolumeClaim_Namespace)
        pvc.(PersistentVolumeClaim_Name))
    (pvc <| PersistentVolumeClaim_CreatedAt := created |>
         <| PersistentVolumeClaim_UpdatedAt := updated |>
         <| PersistentVolumeClaim_Phase := phase |>).

Definition GetPersistentVolumeClaim (namespace name : string) : IO PersistentVolumeClaim :=
  get (keyPersistentVolumeClaim namespace name).
Definition ListPersistentVolumeClaims (namespace : string) : IO (list PersistentVolumeClaim) :=
  listPrefix (keyPersistentVolumeClaimPrefix namespace).
Definition DeletePersistentVolumeClaim (namespace name : string) : IO unit :=
  del (keyPersistentVolumeClaim namespace name).

(** ** Network policies *)

Definition UpsertNetworkPolicy (policy : NetworkPolicy) : IO unit :=
  created ← or_now policy.(NetworkPolicy_CreatedAt);
  updated ← now;
  put (keyNetworkPolicy policy.(NetworkPolicy_Namespace) policy.(NetworkPolicy_Name))
    (policy <| NetworkPolicy_CreatedAt := created |> <| NetworkPolicy_UpdatedAt := updated |>).

Definition GetNetworkPolicy (namespace name : string) : IO NetworkPolicy :=
  get (keyNetworkPolicy namespace name).
Definition ListNetworkPolicies (namespace : string) : IO (list NetworkPolicy) :=
  listPrefix (keyNetworkPolicyPrefix namespace).
Definition DeleteNetworkPolicy (namespace name : string) : IO unit :=
  del (keyNetworkPolicy namespace name).

(** ** Jobs and cron jobs *)

Definition UpsertJob (job : Job) : IO unit :=
  created ← or_now job.(Job_CreatedAt);
  updated ← now;
  let status := if String.eqb job.(Job_Status) "" then JobPending else job.(Job_Status) in
  put (keyJob job.(Job_ID))
    (job <| Job_CreatedAt := created |> <| Job_UpdatedAt := updated |>
         <| Job_Status := status |>).

Definition GetJob (id : string) : IO Job := get (keyJob id).

Definition ListJobs (namespace : string) : IO (list Job) :=
  jobs ← listPrefix "job:";
  if blank namespace then mret jobs else
  mret (List.filter (fun j =>
    EqualFold (TrimSpace j.(Job_Spec).(JobSpec_Namespace)) (TrimSpace namespace)) jobs).

Definition DeleteJob (id : string) : IO unit := del (keyJob id).

Definition UpsertCronJob (cj : CronJob) : IO unit :=
  created ← or_now cj.(CronJob_CreatedAt);
  updated ← now;
  let every := if cj.(CronJob_ScheduleEveryS) <=? 0 then 60 else cj.(CronJob_ScheduleEveryS) in
  put (keyCronJob cj.(CronJob_Namespace) cj.(CronJob_Name))
    (cj <| CronJob_CreatedAt := created |> <| CronJob_UpdatedAt := updated |>
        <| CronJob_ScheduleEveryS := every |>).

Definition GetCronJob (namespace name : string) : IO CronJob := get (keyCronJob namespace name).
Definition ListCronJobs (namespace : string) : IO (list CronJob) :=
  listPrefix (keyCronJobPrefix namespace).
Definition DeleteCronJob (namespace name : string) : IO unit := del (keyCronJob namespace name).

(** ** Role bindings *)

Definition UpsertRoleBinding (binding : RoleBinding) : IO unit :=
  created ← or_now binding.(RoleBinding_CreatedAt);
  updated ← now;
  put (keyRoleBinding binding.(RoleBinding_Namespace) binding.(RoleBinding_Name))
    (binding <| RoleBinding_CreatedAt := created |> <| RoleBinding_UpdatedAt := updated |>).

Definition GetRoleBinding (namespace name : string) : IO RoleBinding :=
  get (keyRoleBinding namespace name).
Definition ListRoleBindings (namespace : string) : IO (list RoleBinding) :=
  listPrefix (keyRoleBindingPrefix namespace).
Definition DeleteRoleBinding (namespace name : string) : IO unit :=
  del (keyRoleBinding namespace name).

(** ** Controller lease and transitions *)

Definition UpsertControllerLease (lease : ControllerLease) : IO unit :=
  updated ← or_now lease.(ControllerLease_UpdatedAt);
  put keyControllerLease (lease <| ControllerLease_UpdatedAt := updated |>).

Definition GetControllerLease : IO ControllerLease := get keyControllerLease.
Definition DeleteControllerLease : IO unit := del keyControllerLease.

Definition AppendControlPlaneTransition (t : ControlPlaneTransition) : IO unit :=
  created ← or_now t.(ControlPlaneTransition_CreatedAt);
  let id := if blank t.(ControlPlaneTransition_ID)
    then "tr-" +:+ fmt_d (UnixNano created) else t.(ControlPlaneTransition_ID) in
  put (keyControlPlaneTransition created id)
    (t <| ControlPlaneTransition_CreatedAt := created |> <| ControlPlaneTransition_ID := id |>).

Definition ListControlPlaneTransitions (limit : Z) : IO (list ControlPlaneTransition) :=
  items ← listPrefix "transition:"; mret (last_items (default_limit limit) items).

(** ** Autoscaler policies and metrics *)

Definition UpsertAutoscalerPolicy (policy : AutoscalerPolicy) : IO unit :=
  updated ← or_now policy.(AutoscalerPolicy_UpdatedAt);
  let created := if IsZero policy.(AutoscalerPolicy_CreatedAt)
    then updated else policy.(AutoscalerPolicy_CreatedAt) in
  put (keyAutoscalerPolicy policy.(AutoscalerPolicy_ID))
    (policy <| AutoscalerPolicy_UpdatedAt := updated |>
            <| AutoscalerPolicy_CreatedAt := created |>).

Definition GetAutoscalerPolicy (id : string) : IO AutoscalerPolicy := get (keyAutoscalerPolicy id).
Definition ListAutoscalerPolicies : IO (list AutoscalerPolicy) := listPrefix "autoscaler:".
Definition DeleteAutoscalerPolicy (id : string) : IO unit := del (keyAutoscalerPolicy id).

Definition AppendDeploymentMetric (sample : DeploymentMetricSample) : IO unit :=
  id ← (if String.eqb sample.(DeploymentMetricSample_ID) ""
        then t ← now; mret ("m-" +:+ fmt_d (UnixNano t))
        else mret sample.(DeploymentMetricSample_ID));
  ts ← or_now sample.(DeploymentMetricSample_Timestamp);
  put (keyDeploymentMetric sample.(DeploymentMetricSample_DeploymentID) ts id)
    (sample <| DeploymentMetricSample_ID := id |> <| DeploymentMetricSample_Timestamp := ts |>).

Definition ListDeploymentMetrics (deploymentID : string) (limit : Z)
    : IO (list DeploymentMetricSample) :=
  items ← listPrefix (keyDeploymentMetricPrefix deploymentID);
  mret (last_items (default_limit limit) items).

(** ** Assignments *)

Definition EnqueueAssignment (a : Assignment) : IO unit :=
  id ← (if String.eqb a.(Assignment_ID) ""
        then t ← now; mret (a.(Assignment_WorkloadID) +:+ "-" +:+ fmt_d (UnixNano t))
        else mret a.(Assignment_ID));
  put (keyAssignment a.(Assignment_NodeID) id) (a <| Assignment_ID := id |>).

(** [max] bounds the loop; [make] panics when it is negative or the capacity is
    larger than the address space. *)
Definition PopAssignments (nodeID : string) (max : Z) : IO (list Assignment) :=
  if negb (make_ok assignment_size max) then throw (Panic "makeslice: cap out of range") else
  db_Update (fun db =>
    let kvs := take (Z.to_nat max) (db_scan db (keyAssignmentPrefix nodeID)) in
    match decode_all kvs with
    | Err e => Err e
    | Ok items => Ok (items, delete_keys db kvs.*1)
    end).

(** ** Events and snapshots *)

Definition AppendEvent (e : Event) : IO unit :=
  id ← (if String.eqb e.(Event_ID) ""
        then t ← now; mret ("evt-" +:+ fmt_d (UnixNano t))
        else mret e.(Event_ID));
  ts ← or_now e.(Event_Timestamp);
  put (keyEvent ts id) (e <| Event_ID := id |> <| Event_Timestamp := ts |>).

Definition ListEvents (limit : Z) : IO (list Event) :=
  events ← listPrefix "event:"; mret (last_items (default_limit limit) events).

Definition Snapshot : IO ClusterState :=
  nodes ← ListNodes; deps ← ListDeployments; workloads ← ListWorkloads;
  mret (MkClusterState nodes deps workloads).

End Store.
