(* ===== verification/StoreFacts.v ===== *)
(** * Facts about the store

    The invariant [db_wf] (every document lies under the key its contents
    determine), the frame of each write, and the effect of the operations on
    listings.  The clients of the store are verified with these lemmas alone. *)

From Stdlib Require Import Ascii String.
From Corelib Require Import SpecFloat.
From S2P Require Import Prelude GoLang GoTime Effects Model Badger World Store.

(** ** Families of keys *)

(** The documents whose key starts with [p] are those of type [T]. *)
Class Family (T : Type) `{!Entity T} (p : string) : Prop :=
  family_spec : forall b, HasPrefix (key_of b) p = true <-> is_Some (project (T := T) b).

Ltac solve_family :=
  intros b; unfold HasPrefix; split;
  [ intros H; destruct b; simpl in H |- *;
    first
      [ eauto; fail
      | discriminate H
      | exfalso; unfold keyRoleBinding, keyRoleBindingPrefix in H;
        match type of H with context [if ?c then _ else _] => destruct c; discriminate H end ]
  | intros [x Hx]; destruct b; simpl in Hx; try discriminate Hx;
    unfold key_of, keyRoleBinding, keyRoleBindingPrefix; try case_match;
    apply string_prefix_spec; eexists; reflexivity ].

#[export] Instance Family_Node : Family Node "node:".
Proof. solve_family. Qed.
#[export] Instance Family_Deployment : Family Deployment "deployment:".
Proof. solve_family. Qed.
#[export] Instance Family_Workload : Family Workload "workload:".
Proof. solve_family. Qed.
#[export] Instance Family_Assignment : Family Assignment "assignment:".
Proof. solve_family. Qed.
#[export] Instance Family_Service : Family Service "service:".
Proof. solve_family. Qed.
#[export] Instance Family_ServiceEndpoint : Family ServiceEndpoint "service-endpoint:".
Proof. solve_family. Qed.
#[export] Instance Family_Namespace : Family Namespace "namespace:".
Proof. solve_family. Qed.
#[export] Instance Family_NamespaceQuota : Family NamespaceQuota "quota:".
Proof. solve_family. Qed.
#[export] Instance Family_Secret : Family Secret "secret:".
Proof. solve_family. Qed.
#[export] Instance Family_PersistentVolume : Family PersistentVolume "pv:".
Proof. solve_family. Qed.
#[export] Instance Family_PersistentVolumeClaim : Family PersistentVolumeClaim "pvc:".
Proof. solve_family. Qed.
#[export] Instance Family_NetworkPolicy : Family NetworkPolicy "netpol:".
Proof. solve_family. Qed.
#[export] Instance Family_Job : Family Job "job:".
Proof. solve_family. Qed.
#[export] Instance Family_CronJob : Family CronJob "cronjob:".
Proof. solve_family. Qed.
#[export] Instance Family_RoleBinding : Family RoleBinding "rbac:".
Proof. solve_family. Qed.
#[export] Instance Family_ControlPlaneTransition : Family ControlPlaneTransition "transition:".
Proof. solve_family. Qed.
#[export] Instance Family_AutoscalerPolicy : Family AutoscalerPolicy "autoscaler:".
Proof. solve_family. Qed.
#[export] Instance Family_DeploymentMetricSample : Family DeploymentMetricSample "metric:".
Proof. solve_family. Qed.
#[export] Instance Family_Event : Family Event "event:".
Proof. solve_family. Qed.

(** ** Marshalling keeps the identity of an entity *)

Class JSONKey (T : Type) `{!Entity T, !JSON T} : Prop :=
  json_key : forall x y : T, json x = Some y -> key_of (inject y) = key_of (inject x).

Ltac solve_json_key inst :=
  intros x y H; unfold json, inst in H; cbv zeta in H;
  repeat match type of H with
    | (if ?c then _ else _) = _ => destruct c; [|discriminate H]
    end;
  injection H as <-; reflexivity.

#[export] Instance JSONKey_Node : JSONKey Node.
Proof. solve_json_key JSON_Node. Qed.
#[export] Instance JSONKey_Deployment : JSONKey Deployment.
Proof. solve_json_key JSON_Deployment. Qed.
#[export] Instance JSONKey_Workload : JSONKey Workload.
Proof. solve_json_key JSON_Workload. Qed.
#[export] Instance JSONKey_Assignment : JSONKey Assignment.
Proof. solve_json_key JSON_Assignment. Qed.
#[export] Instance JSONKey_Service : JSONKey Service.
Proof. solve_json_key JSON_Service. Qed.
#[export] Instance JSONKey_ServiceEndpoint : JSONKey ServiceEndpoint.
Proof. solve_json_key JSON_ServiceEndpoint. Qed.
#[export] Instance JSONKey_Namespace : JSONKey Namespace.
Proof. solve_json_key JSON_Namespace. Qed.
#[export] Instance JSONKey_NamespaceQuota : JSONKey NamespaceQuota.
Proof. solve_json_key JSON_NamespaceQuota. Qed.
#[export] Instance JSONKey_Secret : JSONKey Secret.
Proof. solve_json_key JSON_Secret. Qed.
#[export] Instance JSONKey_PersistentVolume : JSONKey PersistentVolume.
Proof. solve_json_key JSON_PersistentVolume. Qed.
#[export] Instance JSONKey_PersistentVolumeClaim : JSONKey PersistentVolumeClaim.
Proof. solve_json_key JSON_PersistentVolumeClaim. Qed.
#[export] Instance JSONKey_NetworkPolicy : JSONKey NetworkPolicy.
Proof. solve_json_key JSON_NetworkPolicy. Qed.
#[export] Instance JSONKey_Job : JSONKey Job.
Proof. solve_json_key JSON_Job. Qed.
#[export] Instance JSONKey_CronJob : JSONKey CronJob.
Proof. solve_json_key JSON_CronJob. Qed.
#[export] Instance JSONKey_RoleBinding : JSONKey RoleBinding.
Proof. solve_json_key JSON_RoleBinding. Qed.
#[export] Instance JSONKey_ControllerLease : JSONKey ControllerLease.
Proof. solve_json_key JSON_ControllerLease. Qed.
#[export] Instance JSONKey_ControlPlaneTransition : JSONKey ControlPlaneTransition.
Proof. solve_json_key JSON_ControlPlaneTransition. Qed.
#[export] Instance JSONKey_AutoscalerPolicy : JSONKey AutoscalerPolicy.
Proof. solve_json_key JSON_AutoscalerPolicy. Qed.
#[export] Instance JSONKey_DeploymentMetricSample : JSONKey DeploymentMetricSample.
Proof. solve_json_key JSON_DeploymentMetricSample. Qed.
#[export] Instance JSONKey_Event : JSONKey Event.
Proof. solve_json_key JSON_Event. Qed.

(** Step relations on the database, and the invariants among them. *)
Definition dbrel {DB} (P : relation DB) : relation (World DB) :=
  fun w w' => P w.(w_db) w'.(w_db).

Abbreviation keeps_db I := (dbrel (fun db db' => I db -> I db')).

Section StoreFacts.
Context {DB : Type} `{!Badger Blob DB, !BadgerLaws Blob DB} {E : Env}.
Implicit Types (db : DB) (w : World DB).

(** ** Step relations on the database *)

#[export] Instance dbrel_PreOrder (P : relation DB) `{!PreOrder P} : PreOrder (dbrel P).
Proof. unfold dbrel. split; [intros w; reflexivity|]. intros x y z ? ?. etrans; eauto. Qed.

Lemma steps_ask (P : relation DB) `{!PreOrder P} {A} (f : nat -> A) : steps (dbrel P) (ask f).
Proof. intros w. unfold dbrel. cbn. reflexivity. Qed.

Lemma steps_now (P : relation DB) `{!PreOrder P} : steps (dbrel P) now.
Proof. by apply steps_ask. Qed.

Lemma steps_rand (P : relation DB) `{!PreOrder P} : steps (dbrel P) rand_Intn.
Proof. by apply steps_ask. Qed.

Lemma steps_View (P : relation DB) `{!PreOrder P} {A} (f : DB -> Res A) : steps (dbrel P) (db_View f).
Proof. intros w. unfold dbrel, db_View. destruct (env_dberr _); cbn; reflexivity. Qed.

Lemma steps_Update (P : relation DB) `{!PreOrder P} {A} (f : DB -> Res (A * DB)) :
  (forall db a db', f db = Ok (a, db') -> P db db') -> steps (dbrel P) (db_Update f).
Proof.
  intros H w. unfold dbrel, db_Update. destruct (env_dberr _); cbn; [reflexivity|].
  destruct (f (w_db w)) as [[a db']|e] eqn:Ef; cbn; [by eapply H|reflexivity].
Qed.

Lemma steps_put (P : relation DB) `{!PreOrder P} {T} `{!Entity T, !JSON T} k (x : T) :
  (forall db y, json x = Some y -> P db (db_set db k (inject y))) ->
  steps (dbrel P) (put k x).
Proof.
  intros H. unfold put. destruct (json x) as [y|] eqn:Ey; [|apply steps_throw, _].
  apply steps_Update; [done|]. intros db a db' [= <- <-]. by apply H.
Qed.

Lemma steps_del (P : relation DB) `{!PreOrder P} k :
  (forall db, P db (db_delete db k)) -> steps (dbrel P) (del k).
Proof. intros H. apply steps_Update; [done|]. intros db a db' [= <- <-]. by apply H. Qed.

Lemma steps_or_now (P : relation DB) `{!PreOrder P} t : steps (dbrel P) (or_now t).
Proof. unfold or_now. destruct (IsZero t); [by apply steps_now|apply steps_ret, _]. Qed.

(** ** Documents under their own key *)

Definition db_wf db : Prop := forall k b, db_get db k = Some b -> key_of b = k.

Definition wf w : Prop := db_wf w.(w_db).

Lemma db_wf_set db k b : db_wf db -> key_of b = k -> db_wf (db_set db k b).
Proof.
  intros H Hk k' b'. rewrite db_get_set. case_decide; [|by apply H]. intros [= <-]. congruence.
Qed.

Lemma db_wf_delete db k : db_wf db -> db_wf (db_delete db k).
Proof. intros H k' b'. rewrite db_get_delete. case_decide; [done|by apply H]. Qed.

Lemma db_wf_delete_keys db ks : db_wf db -> db_wf (delete_keys db ks).
Proof.
  unfold delete_keys. revert db. induction ks as [|k ks IH]; intros db H; simpl; [done|].
  by apply IH, db_wf_delete.
Qed.

#[export] Instance impl_PreOrder (I : DB -> Prop) : PreOrder (fun db db' : DB => I db -> I db').
Proof. split; [intros s Hs; exact Hs|]. intros x y z Hxy Hyz Hx. auto. Qed.

Lemma wf_put {T} `{!Entity T, !JSON T, !JSONKey T} k (x : T) :
  key_of (inject x) = k -> steps (keeps_db db_wf) (put k x).
Proof.
  intros Hk. apply steps_put; [apply _|]. intros db y Hy Hwf. apply db_wf_set; [done|].
  by rewrite (json_key x y Hy).
Qed.

Lemma wf_del k : steps (keeps_db db_wf) (del k).
Proof. apply steps_del; [apply _|]. intros db. apply db_wf_delete. Qed.

(** ** Listings *)

(** The entities of type [T] under a prefix, in key order. *)
Definition list_of {T} `{!Entity T} (p : string) db : list T :=
  omap (fun kv => project kv.2) (db_scan db p).

Lemma decode_all_list_of {T} `{!Entity T} p db (l : list T) :
  decode_all (db_scan db p) = Ok l -> l = list_of p db.
Proof.
  unfold decode_all, list_of. destruct (mapM _ _) as [l'|] eqn:Em; [|discriminate].
  intros [= <-]. apply mapM_Some_1 in Em.
  induction Em as [|kv x kvs xs Hx _ IH]; simpl; [done|]. by rewrite Hx, IH.
Qed.

Lemma decode_all_Some {T} `{!Entity T} (kvs : list (string * Blob)) :
  (forall kv, kv ∈ kvs -> is_Some (project (T := T) kv.2)) ->
  decode_all kvs = Ok (omap (fun kv => project (T := T) kv.2) kvs).
Proof.
  intros H. unfold decode_all.
  assert (mapM (fun kv => project (T := T) kv.2) kvs
    = Some (omap (fun kv => project (T := T) kv.2) kvs)) as ->; [|done].
  induction kvs as [|kv kvs IH]; [done|]. cbn.
  destruct (H kv ltac:(left)) as [x ->]. cbn. rewrite IH; [done|]. intros kv' Hkv'.
  apply H. by right.
Qed.

(** Under the invariant, a listing of a family never fails to decode. *)
Lemma decode_all_wf {T} `{!Entity T} fam `{!Family T fam} p db :
  (exists s, p = fam +:+ s) -> db_wf db -> decode_all (db_scan db p) = Ok (list_of (T := T) p db).
Proof.
  intros [s ->] Hwf. apply decode_all_Some. intros [k b] Hin.
  apply db_scan_elem in Hin as [Hp Hg]. apply (proj1 (family_spec (p := fam) b)).
  rewrite (Hwf k b Hg). apply HasPrefix_spec in Hp as [t ->].
  rewrite string_app_assoc. apply HasPrefix_app.
Qed.

(** What a write does to a listing that covers its key: the old entity, if any,
    is replaced by the new one. *)
Lemma list_of_set {T} `{!Entity T} p db k (x : T) :
  HasPrefix k p = true ->
  exists rest, list_of p db ≡ₚ option_list (db_get db k ≫= project) ++ rest
  /\ list_of p (db_set db k (inject x)) ≡ₚ x :: rest.
Proof.
  intros Hp. unfold list_of. destruct (db_get db k) as [b|] eqn:Ek.
  - destruct (db_scan_set_upd db k b (inject x) p Hp Ek) as (rest & H1 & H2).
    exists (omap (fun kv => project kv.2) rest). rewrite H1, H2. cbn.
    rewrite project_inject. by destruct (project b).
  - exists (omap (fun kv => project kv.2) (db_scan db p)). split; [done|].
    rewrite (db_scan_set_new db k (inject x) p Hp Ek). cbn. by rewrite project_inject.
Qed.

Lemma list_of_delete {T} `{!Entity T} p db k :
  HasPrefix k p = true ->
  list_of (T := T) p db ≡ₚ option_list (db_get db k ≫= project) ++ list_of p (db_delete db k).
Proof.
  intros Hp. unfold list_of. destruct (db_get db k) as [b|] eqn:Ek.
  - rewrite (db_scan_delete db k b p Hp Ek). cbn. by destruct (project b).
  - cbn. rewrite (db_scan_ext (db_delete db k) db); [done|].
    intros k' _. rewrite db_get_delete. by case_decide; subst.
Qed.

(** Under the invariant a family lists exactly what its keys hold. *)
Lemma elem_of_list_of {T} `{!Entity T} p db (x : T) :
  db_wf db ->
  x ∈ list_of p db <->
    HasPrefix (key_of (inject x)) p = true /\ db_get db (key_of (inject x)) = Some (inject x).
Proof.
  intros Hwf. unfold list_of. rewrite list_elem_of_omap. split.
  - intros [[k b] [Hin Hx]]. apply inject_project in Hx. simpl in Hx. subst b.
    apply db_scan_elem in Hin as [Hp Hg]. by rewrite (Hwf k _ Hg).
  - intros [Hp Hg]. exists (key_of (inject x), inject x). split; [by apply db_scan_elem|].
    apply project_inject.
Qed.

(** ** Frames *)

(** The documents under the keys that start with [p] are the same. *)
Definition same_under (p : string) : relation DB := fun db db' =>
  forall k, HasPrefix k p = true -> db_get db' k = db_get db k.

#[export] Instance same_under_PreOrder p : PreOrder (same_under p).
Proof.
  split; [by intros db k|]. intros x y z H1 H2 k Hk. by rewrite H2, H1.
Qed.

Lemma same_under_put p {T} `{!Entity T, !JSON T} k (x : T) :
  HasPrefix k p = false -> steps (dbrel (same_under p)) (put k x).
Proof.
  intros H. apply steps_put; [apply _|]. intros db y _ k' Hk'. rewrite db_get_set.
  case_decide; congruence.
Qed.

Lemma same_under_del p k : HasPrefix k p = false -> steps (dbrel (same_under p)) (del k).
Proof.
  intros H. apply steps_del; [apply _|]. intros db k' Hk'. rewrite db_get_delete.
  case_decide; congruence.
Qed.

Lemma same_under_list {T} `{!Entity T} p db db' :
  same_under p db db' -> list_of (T := T) p db' = list_of p db.
Proof. intros H. unfold list_of. by rewrite (db_scan_ext db' db p H). Qed.

(** Only documents under the keys that start with one of [ps] change. *)
Definition only (ps : list string) : relation DB := fun db db' =>
  forall k, existsb (HasPrefix k) ps = false -> db_get db' k = db_get db k.

#[export] Instance only_PreOrder ps : PreOrder (only ps).
Proof. split; [by intros db k|]. intros x y z H1 H2 k Hk. by rewrite H2, H1. Qed.

Lemma only_put ps {T} `{!Entity T, !JSON T} fam `{!Family T fam} k (x : T) :
  key_of (inject x) = k -> fam ∈ ps -> steps (dbrel (only ps)) (put k x).
Proof.
  intros Hk Hin. apply steps_put; [apply _|]. intros db y _ k' Hk'. rewrite db_get_set.
  case_decide as Heq; [|done]. subst k'.
  assert (HasPrefix k fam = true) as Hp.
  { rewrite <- Hk. apply (family_spec (T := T) (p := fam)). by rewrite project_inject. }
  assert (existsb (HasPrefix k) ps = true) by (apply existsb_exists; exists fam; by rewrite <- list_elem_of_In).
  congruence.
Qed.

Lemma only_del ps k : existsb (HasPrefix k) ps = true -> steps (dbrel (only ps)) (del k).
Proof.
  intros H. apply steps_del; [apply _|]. intros db k' Hk'. rewrite db_get_delete.
  case_decide; congruence.
Qed.

End StoreFacts.

#[export] Hint Extern 2 (steps (dbrel (only _)) (put _ _)) =>
  eapply only_put; [typeclasses eauto|reflexivity|apply (bool_decide_unpack _); exact I] : steps.
#[export] Hint Extern 2 (steps (dbrel (only _)) (del _)) =>
  apply only_del, existsb_exists; eexists; split; [|apply HasPrefix_app]; cbn; tauto : steps.

#[export] Hint Extern 1 (steps _ now) => apply steps_now; typeclasses eauto : steps.
#[export] Hint Extern 1 (steps _ rand_Intn) => apply steps_rand; typeclasses eauto : steps.
#[export] Hint Extern 1 (steps _ (ask _)) => apply steps_ask; typeclasses eauto : steps.
#[export] Hint Extern 1 (steps _ (db_View _)) => apply steps_View; typeclasses eauto : steps.
#[export] Hint Extern 1 (steps _ (or_now _)) => apply steps_or_now; typeclasses eauto : steps.

#[export] Hint Extern 2 (steps (keeps_db db_wf) (put _ _)) => apply wf_put; reflexivity : steps.
#[export] Hint Extern 2 (steps (keeps_db db_wf) (del _)) => apply wf_del : steps.
#[export] Hint Extern 2 (steps (dbrel (same_under _)) (put _ _)) =>
  apply same_under_put; reflexivity : steps.
#[export] Hint Extern 2 (steps (dbrel (same_under _)) (del _)) =>
  apply same_under_del; reflexivity : steps.

(** The store operations built from one read, one write or one delete. *)
Create HintDb store.

#[export] Hint Unfold UpsertNode GetNode ListNodes GetDeployment CreateDeployment
  UpdateDeployment ListDeployments UpsertWorkload GetWorkload ListWorkloads
  ListWorkloadsByDeployment DeleteWorkload GetService CreateService ListServices UpdateService
  ListServiceEndpoints GetNamespace CreateNamespace ListNamespaces DeleteNamespace
  UpsertNamespaceQuota GetNamespaceQuota ListNamespaceQuotas DeleteNamespaceQuota UpsertSecret
  GetSecret ListSecrets DeleteSecret UpsertPersistentVolume GetPersistentVolume
  ListPersistentVolumes DeletePersistentVolume UpsertPersistentVolumeClaim
  GetPersistentVolumeClaim ListPersistentVolumeClaims DeletePersistentVolumeClaim
  UpsertNetworkPolicy GetNetworkPolicy ListNetworkPolicies DeleteNetworkPolicy UpsertJob GetJob
  ListJobs DeleteJob UpsertCronJob GetCronJob ListCronJobs DeleteCronJob UpsertRoleBinding
  GetRoleBinding ListRoleBindings DeleteRoleBinding UpsertControllerLease GetControllerLease
  DeleteControllerLease AppendControlPlaneTransition ListControlPlaneTransitions
  UpsertAutoscalerPolicy GetAutoscalerPolicy ListAutoscalerPolicies DeleteAutoscalerPolicy
  AppendDeploymentMetric ListDeploymentMetrics EnqueueAssignment AppendEvent ListEvents Snapshot
  get listPrefix : store.

(** [steps_tac] through the store operations. *)
Ltac store_steps := repeat (steps_tac; try progress autounfold with store).
