(* ===== verification/StoreTheorems.v ===== *)
(** * Correctness of the store

    The mutating methods of the store as commands, the invariant of every
    reachable database, and the contracts of reads after writes, of the
    assignment queue and of the cascading delete. *)

From Stdlib Require Import Ascii String.
From Corelib Require Import SpecFloat.
From S2P Require Import Prelude GoLang GoTime Effects Model Badger World Store StoreFacts.

(** ** Commands *)

(** The methods of [StateStore] that change the database. *)
Inductive StoreOp : Type :=
| OpUpsertNode (x : Node)
| OpCreateDeployment (x : Deployment)
| OpDeleteDeployment (id : string)
| OpUpdateDeployment (x : Deployment)
| OpUpsertWorkload (x : Workload)
| OpDeleteWorkload (id : string)
| OpCreateService (x : Service)
| OpUpdateService (x : Service)
| OpDeleteService (id : string)
| OpCreateNamespace (x : Namespace)
| OpDeleteNamespace (name : string)
| OpUpsertNamespaceQuota (x : NamespaceQuota)
| OpDeleteNamespaceQuota (namespace : string)
| OpUpsertSecret (x : Secret)
| OpDeleteSecret (namespace name : string)
| OpUpsertPersistentVolume (x : PersistentVolume)
| OpDeletePersistentVolume (name : string)
| OpUpsertPersistentVolumeClaim (x : PersistentVolumeClaim)
| OpDeletePersistentVolumeClaim (namespace name : string)
| OpUpsertNetworkPolicy (x : NetworkPolicy)
| OpDeleteNetworkPolicy (namespace name : string)
| OpUpsertJob (x : Job)
| OpDeleteJob (id : string)
| OpUpsertCronJob (x : CronJob)
| OpDeleteCronJob (namespace name : string)
| OpUpsertRoleBinding (x : RoleBinding)
| OpDeleteRoleBinding (namespace name : string)
| OpUpsertControllerLease (x : ControllerLease)
| OpDeleteControllerLease
| OpAppendControlPlaneTransition (x : ControlPlaneTransition)
| OpReplaceServiceEndpoints (serviceID : string) (eps : list ServiceEndpoint)
| OpUpsertAutoscalerPolicy (x : AutoscalerPolicy)
| OpDeleteAutoscalerPolicy (id : string)
| OpAppendDeploymentMetric (x : DeploymentMetricSample)
| OpEnqueueAssignment (x : Assignment)
| OpPopAssignments (nodeID : string) (max : Z)
| OpAppendEvent (x : Event).

Section StoreTheorems.
Context {DB : Type} `{!Badger Blob DB, !BadgerLaws Blob DB} {E : Env}.
Implicit Types (db : DB) (w : World DB).

Definition run_op (op : StoreOp) : M (World DB) unit :=
  match op with
  | OpUpsertNode x => UpsertNode x
  | OpCreateDeployment x => CreateDeployment x
  | OpDeleteDeployment id => DeleteDeployment id
  | OpUpdateDeployment x => UpdateDeployment x
  | OpUpsertWorkload x => UpsertWorkload x
  | OpDeleteWorkload id => DeleteWorkload id
  | OpCreateService x => CreateService x
  | OpUpdateService x => UpdateService x
  | OpDeleteService id => DeleteService id
  | OpCreateNamespace x => CreateNamespace x
  | OpDeleteNamespace name => DeleteNamespace name
  | OpUpsertNamespaceQuota x => UpsertNamespaceQuota x
  | OpDeleteNamespaceQuota namespace => DeleteNamespaceQuota namespace
  | OpUpsertSecret x => UpsertSecret x
  | OpDeleteSecret namespace name => DeleteSecret namespace name
  | OpUpsertPersistentVolume x => UpsertPersistentVolume x
  | OpDeletePersistentVolume name => DeletePersistentVolume name
  | OpUpsertPersistentVolumeClaim x => UpsertPersistentVolumeClaim x
  | OpDeletePersistentVolumeClaim namespace name => DeletePersistentVolumeClaim namespace name
  | OpUpsertNetworkPolicy x => UpsertNetworkPolicy x
  | OpDeleteNetworkPolicy namespace name => DeleteNetworkPolicy namespace name
  | OpUpsertJob x => UpsertJob x
  | OpDeleteJob id => DeleteJob id
  | OpUpsertCronJob x => UpsertCronJob x
  | OpDeleteCronJob namespace name => DeleteCronJob namespace name
  | OpUpsertRoleBinding x => UpsertRoleBinding x
  | OpDeleteRoleBinding namespace name => DeleteRoleBinding namespace name
  | OpUpsertControllerLease x => UpsertControllerLease x
  | OpDeleteControllerLease => DeleteControllerLease
  | OpAppendControlPlaneTransition x => AppendControlPlaneTransition x
  | OpReplaceServiceEndpoints serviceID eps => ReplaceServiceEndpoints serviceID eps
  | OpUpsertAutoscalerPolicy x => UpsertAutoscalerPolicy x
  | OpDeleteAutoscalerPolicy id => DeleteAutoscalerPolicy id
  | OpAppendDeploymentMetric x => AppendDeploymentMetric x
  | OpEnqueueAssignment x => EnqueueAssignment x
  | OpPopAssignments nodeID max => PopAssignments nodeID max ;; mret tt
  | OpAppendEvent x => AppendEvent x
  end.

(** One command, successful or not. *)
Definition store_step w w' : Prop := exists op, w' = (run_op op w).2.

(** ** Lemmas *)

Lemma delete_keys_get db ks k :
  db_get (delete_keys db ks) k = if decide (k ∈ ks) then None else db_get db k.
Proof.
  unfold delete_keys. revert db. induction ks as [|k0 ks IH]; intros db.
  { by rewrite decide_False by apply not_elem_of_nil. }
  cbn [foldl]. rewrite IH, db_get_delete. repeat case_decide; set_solver.
Qed.

Lemma wf_DeleteDeployment id : steps (keeps_db db_wf) (DeleteDeployment id).
Proof.
  apply steps_Update; [apply impl_PreOrder|]. intros db a db'. cbv zeta.
  destruct (decode_all _) as [ws|e]; [|discriminate]. intros [= <- <-] H.
  by apply db_wf_delete_keys, db_wf_delete.
Qed.

Lemma wf_DeleteService id : steps (keeps_db db_wf) (DeleteService id).
Proof.
  apply steps_Update; [apply impl_PreOrder|]. intros db a db' [= <- <-] H.
  by apply db_wf_delete_keys, db_wf_delete.
Qed.

Lemma db_wf_set_endpoints eps db : db_wf db -> db_wf (foldl set_endpoint db eps).
Proof.
  revert db. induction eps as [|ep eps IH]; intros db H; simpl; [done|].
  apply IH. by apply db_wf_set.
Qed.

Lemma wf_ReplaceServiceEndpoints id eps : steps (keeps_db db_wf) (ReplaceServiceEndpoints id eps).
Proof.
  unfold ReplaceServiceEndpoints, complete_endpoint. store_steps.
  apply steps_Update; [apply impl_PreOrder|]. intros db b db' [= <- <-] H.
  by apply db_wf_set_endpoints, db_wf_delete_keys.
Qed.

Lemma wf_PopAssignments id max : steps (keeps_db db_wf) (PopAssignments id max).
Proof.
  unfold PopAssignments. destruct (negb _); [apply steps_throw, _|].
  apply steps_Update; [apply impl_PreOrder|]. intros db a db'. cbv zeta.
  destruct (decode_all _); [|discriminate]. intros [= <- <-] H. by apply db_wf_delete_keys.
Qed.

Lemma wf_run_op op : steps (keeps_db db_wf) (run_op op).
Proof.
  destruct op; simpl;
    first [apply wf_DeleteDeployment | apply wf_DeleteService
          | apply wf_ReplaceServiceEndpoints | idtac];
    try (apply steps_bind; [apply _|apply wf_PopAssignments|]); store_steps.
Qed.

Lemma run_Update {A} (f : DB -> Res (A * DB)) w a db' :
  env_dberr w.(w_tick) = None -> f w.(w_db) = Ok (a, db') ->
  db_Update f w = (Ok a, w <| w_tick ::= S |> <| w_db := db' |>).
Proof. intros He Hf. unfold db_Update. by rewrite He, Hf. Qed.

Lemma run_View {A} (f : DB -> Res A) w :
  env_dberr w.(w_tick) = None -> db_View f w = (f w.(w_db), w <| w_tick ::= S |>).
Proof. intros He. unfold db_View. by rewrite He. Qed.

(** Popping the first pairs of a scan leaves the others, in order. *)
Lemma scan_delete_take db p n :
  db_scan (delete_keys db (take n (db_scan db p)).*1) p = drop n (db_scan db p).
Proof.
  pose proof (db_scan_sorted db p) as Hs. pose proof (db_scan_NoDup db p) as Hnd.
  rewrite <- (take_drop n (db_scan db p)) in Hs, Hnd.
  rewrite fmap_app in Hnd. apply NoDup_app in Hnd as (_ & Hdisj & Hnd).
  apply StronglySorted_app in Hs as (_ & _ & Hs).
  apply (StronglySorted_unique_strong key_lt).
  - intros x y _ _ Hxy Hyx. pose proof (string_ltb_trans _ _ _ Hxy Hyx) as H.
    by rewrite string_ltb_irrefl in H.
  - apply db_scan_sorted.
  - exact Hs.
  - apply NoDup_Permutation; [apply db_scan_NoDup_pairs|by eapply NoDup_fmap_1|].
    intros [k b]. rewrite db_scan_elem, delete_keys_get. split.
    + intros [Hp Hg]. case_decide as Hin; [done|].
      assert (He : (k, b) ∈ db_scan db p) by by apply db_scan_elem.
      rewrite <- (take_drop n (db_scan db p)) in He. apply elem_of_app in He as [He|He]; [|done].
      destruct Hin. by apply (list_elem_of_fmap_2 fst) in He.
    + intros He. assert (Hall : (k, b) ∈ db_scan db p).
      { rewrite <- (take_drop n (db_scan db p)). apply elem_of_app. by right. }
      apply db_scan_elem in Hall as [Hp Hg]. split; [done|]. case_decide as Hin; [|done].
      exfalso. apply (Hdisj k Hin). by apply (list_elem_of_fmap_2 fst) in He.
Qed.

Lemma omap_take_drop {A B} (f : A -> option B) l n :
  (forall x, x ∈ l -> is_Some (f x)) ->
  omap f (take n l) = take n (omap f l) /\ omap f (drop n l) = drop n (omap f l).
Proof.
  revert n. induction l as [|x l IH]; intros n H; [by destruct n|].
  destruct (H x ltac:(left)) as [y Hy]. destruct n as [|n]; cbn; [done|].
  rewrite Hy. cbn. destruct (IH n) as [-> ->]; [|done]. intros z Hz. apply H. by right.
Qed.

(** Under the invariant the documents of a family all decode. *)
Lemma scan_decodes {T} `{!Entity T} fam `{!Family T fam} s db kv :
  db_wf db -> kv ∈ db_scan db (fam +:+ s) -> is_Some (project (T := T) kv.2).
Proof.
  intros Hwf. destruct kv as [k b]. intros [Hp Hg]%db_scan_elem.
  apply (proj1 (family_spec (p := fam) b)). rewrite (Hwf k b Hg).
  apply HasPrefix_spec in Hp as [t ->]. rewrite string_app_assoc. apply HasPrefix_app.
Qed.

Lemma reachable_wf w w' : wf w -> rtc store_step w w' -> wf w'.
Proof.
  intros Hw. induction 1 as [|w w1 w' [op ->] _ IH]; [done|].
  apply IH. exact (wf_run_op op w Hw).
Qed.

Lemma zip_decoded {T} `{!Entity T} (kvs : list (string * Blob)) :
  (forall kv, kv ∈ kvs -> is_Some (project (T := T) kv.2)) ->
  forall k (x : T), (k, x) ∈ zip kvs.*1 (omap (fun kv => project kv.2) kvs)
    <-> (k, inject x) ∈ kvs.
Proof.
  induction kvs as [|[k0 b0] kvs IH]; intros H k x; [by cbn; rewrite !elem_of_nil|].
  destruct (H (k0, b0) ltac:(left)) as [y Hy]. cbn in *. rewrite Hy. cbn.
  rewrite !elem_of_cons, IH; [|intros kv Hkv; apply H; by right].
  apply inject_project in Hy as ->. split; intros [Heq|?]; auto; left.
  - by injection Heq as -> ->.
  - injection Heq as -> Heq. apply (f_equal (project (T := T))) in Heq.
    rewrite !project_inject in Heq. by injection Heq as ->.
Qed.

(** The keys that [DeleteDeployment] deletes in its loop. *)
Lemma doomed_keys db id k :
  db_wf db ->
  k ∈ (List.filter (fun kw : string * Workload => String.eqb kw.2.(Workload_DeploymentID) id)
        (zip (db_scan db "workload:").*1
           (omap (fun kv => project kv.2) (db_scan db "workload:")))).*1
  <-> exists x, db_get db k = Some (BWorkload x) /\ Workload_DeploymentID x = id.
Proof.
  intros Hw. pose proof (fun kv => scan_decodes (T := Workload) "workload:" "" db kv Hw) as Hall.
  rewrite list_elem_of_fmap. setoid_rewrite list_elem_of_In.
  setoid_rewrite List.filter_In. setoid_rewrite <- list_elem_of_In. split.
  - intros [[k' x] [-> [Hz Hd]]]. apply zip_decoded in Hz; [|done].
    apply db_scan_elem in Hz as [_ Hg]. exists x. split; [done|]. by apply String.eqb_eq.
  - intros [x [Hg Hd]]. exists (k, x). split; [done|]. split; [|by apply String.eqb_eq].
    apply zip_decoded; [done|]. apply db_scan_elem. split; [|done].
    rewrite <- (Hw _ _ Hg). apply (HasPrefix_app "workload:").
Qed.

(** ** Theorems *)

(** C13: whatever sequence of store commands runs on an empty database, with
    commands failing at any point, every document stays under the key that its
    own contents determine, and every listing by a prefix of a family of keys
    decodes: it yields exactly the entities stored under that prefix. *)
Theorem reachable_listing {T} `{!Entity T} (fam s : string) `{!Family T fam} w0 w :
  (forall k, db_get w0.(w_db) k = None) ->
  rtc store_step w0 w ->
  wf w
  /\ (env_dberr w.(w_tick) = None ->
      exists l, (listPrefix (fam +:+ s) w).1 = Ok l
      /\ forall x : T, x ∈ l <-> HasPrefix (key_of (inject x)) (fam +:+ s) = true
                             /\ db_get w.(w_db) (key_of (inject x)) = Some (inject x)).
Proof.
  intros H0 Hr. assert (Hw : wf w).
  { eapply reachable_wf; [|exact Hr]. intros k b. by rewrite H0. }
  split; [done|]. intros He. exists (list_of (fam +:+ s) w.(w_db)).
  unfold listPrefix. rewrite run_View by done. split.
  - simpl. apply (decode_all_wf fam); [by exists s|done].
  - intros x. by apply elem_of_list_of.
Qed.

(** A write either fails and leaves the database as it was, or stores the
    JSON image of its argument: a read of the same key returns that image, and
    a read of any other key returns what it returned before. *)
Lemma put_get {T} `{!Entity T, !JSON T} k (x : T) w :
  let w' := (put k x w).2 in
  match (put k x w).1 with
  | Err _ => w'.(w_db) = w.(w_db)
  | Ok _ =>
      exists y, json x = Some y
      /\ forall T' (HT : Entity T') k',
           get_in (T := T') k' w'.(w_db)
           = if decide (k = k')
             then match project (T := T') (inject y) with
                  | Some z => Ok z | None => Err ErrMarshal end
             else get_in k' w.(w_db)
  end.
Proof.
  unfold put. destruct (json x) as [y|] eqn:Ey; [|done]. unfold db_Update.
  destruct (env_dberr _); cbn; [done|]. exists y. split; [done|]. intros T' HT k'.
  unfold get_in. rewrite db_get_set. by case_decide.
Qed.

(** A pop, as one transaction. *)
Lemma pop_run nodeID max w :
  wf w -> make_ok assignment_size max = true -> env_dberr w.(w_tick) = None ->
  let p := keyAssignmentPrefix nodeID in
  PopAssignments nodeID max w
  = (Ok (take (Z.to_nat max) (list_of p w.(w_db))),
     w <| w_tick ::= S |>
       <| w_db := delete_keys w.(w_db) (take (Z.to_nat max) (db_scan w.(w_db) p)).*1 |>).
Proof.
  intros Hw Hmax He p. unfold PopAssignments. rewrite Hmax. cbn [negb]. fold p.
  assert (Hall : forall kv, kv ∈ db_scan w.(w_db) p -> is_Some (project (T := Assignment) kv.2)).
  { intros kv. exact (scan_decodes "assignment:" _ w.(w_db) kv Hw). }
  unfold list_of. rewrite <- (proj1 (omap_take_drop (fun kv => project (T := Assignment) kv.2) _ (Z.to_nat max) Hall)).
  apply run_Update; [done|]. rewrite (decode_all_Some (T := Assignment)); [reflexivity|].
  intros kv Hkv. apply Hall. eapply elem_of_submseteq; [exact Hkv|].
  apply sublist_submseteq, sublist_take.
Qed.

(** What is left of the queue, and of everything else. *)
Lemma popped_queue nodeID n db :
  db_wf db -> let p := keyAssignmentPrefix nodeID in
  list_of (T := Assignment) p (delete_keys db (take n (db_scan db p)).*1) = drop n (list_of p db).
Proof.
  intros Hw p. unfold list_of. rewrite scan_delete_take.
  apply (omap_take_drop (fun kv => project (T := Assignment) kv.2)).
  intros kv. exact (scan_decodes "assignment:" _ db kv Hw).
Qed.

Lemma popped_others p n db k :
  HasPrefix k p = false -> db_get (delete_keys db (take n (db_scan db p)).*1) k = db_get db k.
Proof.
  intros Hk. rewrite delete_keys_get. case_decide as Hin; [|done].
  apply list_elem_of_fmap in Hin as [[k' b] [-> Hin]]. simpl in Hk.
  assert (Hin' : (k', b) ∈ db_scan db p).
  { eapply elem_of_submseteq; [exact Hin|]. apply sublist_submseteq, sublist_take. }
  apply db_scan_elem in Hin' as [? _]. congruence.
Qed.

(** C12: popping a node's queue returns its first [max] assignments in key
    order and removes exactly those: the rest of the queue and every other
    document stay, so no assignment is delivered twice and none is lost. *)
Theorem PopAssignments_queue nodeID max w :
  wf w -> make_ok assignment_size max = true -> env_dberr w.(w_tick) = None ->
  let queue db : list Assignment := list_of (keyAssignmentPrefix nodeID) db in
  let w' := (PopAssignments nodeID max w).2 in
  (PopAssignments nodeID max w).1 = Ok (take (Z.to_nat max) (queue w.(w_db)))
  /\ queue w'.(w_db) = drop (Z.to_nat max) (queue w.(w_db))
  /\ forall k, HasPrefix k (keyAssignmentPrefix nodeID) = false ->
       db_get w'.(w_db) k = db_get w.(w_db) k.
Proof.
  intros Hw Hmax He queue w'. subst queue w'. rewrite (pop_run nodeID max w Hw Hmax He). cbn [fst snd].
  split; [done|]. split; [exact (popped_queue nodeID (Z.to_nat max) w.(w_db) Hw)|].
  intros k Hk. by apply popped_others.
Qed.

(** Deleting a deployment succeeds, removes the deployment and every
    workload that belongs to it, and leaves every other document alone. *)
Lemma DeleteDeployment_cascade id w :
  wf w -> env_dberr w.(w_tick) = None ->
  (DeleteDeployment id w).1 = Ok tt
  /\ forall k, db_get (DeleteDeployment id w).2.(w_db) k
     = if decide (k = keyDeployment id) then None else
       match db_get w.(w_db) k with
       | Some (BWorkload x) =>
           if String.eqb x.(Workload_DeploymentID) id then None else Some (BWorkload x)
       | o => o
       end.
Proof.
  intros Hw He. set (db1 := db_delete w.(w_db) (keyDeployment id)).
  assert (Hw1 : db_wf db1) by by apply db_wf_delete.
  pose proof (fun kv => scan_decodes (T := Workload) "workload:" "" db1 kv Hw1) as Hall.
  unfold DeleteDeployment. erewrite run_Update; [|done|].
  2: { cbv zeta. fold db1. by rewrite (decode_all_Some (T := Workload)). }
  split; [done|]. intros k. cbn [snd].
  change (w_db (w <| w_tick ::= S |> <| w_db := ?d |>)) with d.
  pose proof (doomed_keys db1 id k Hw1) as Hin. rewrite delete_keys_get.
  replace (db_get db1 k) with (if decide (k = keyDeployment id) then None else db_get (w_db w) k) in *
    by (unfold db1; rewrite db_get_delete; by apply decide_ext).
  destruct (decide (k = keyDeployment id)) as [->|Hk]; [by case_decide|].
  case_decide as Hd.
  - apply Hin in Hd as [x [-> <-]]. by rewrite String.eqb_refl.
  - destruct (db_get (w_db w) k) as [b|] eqn:Eg; [|done].
    destruct b as [| |x| | | | | | | | | | | | | | | | |]; try done.
    destruct (String.eqb_spec (Workload_DeploymentID x) id); [|done].
    destruct Hd. apply Hin. by exists x.
Qed.

End StoreTheorems.
