(* ===== verification/Events.v ===== *)
(** * Events

    [emitEvent] and [SubscribeEvents] of [internal/service/orchestrator.go]:
    an event is stamped, appended to the store and offered to every subscriber
    without blocking. *)

From Stdlib Require Import Ascii String.
From S2P Require Import Prelude GoLang GoTime Effects Model Badger World Store StoreFacts.

(** The event literals of the code: ID and timestamp are filled in later. *)
Definition event (level type reason message deploymentID workloadID nodeID : string) : Event :=
  MkEvent "" 0 level type reason message deploymentID workloadID nodeID.

(** [select { case ch <- event: default: }] on a buffered channel *)
Definition offer (e : Event) (s : Subscriber) : Subscriber :=
  if lenZ s.(Subscriber_queue) <? s.(Subscriber_buffer)
  then s <| Subscriber_queue ::= fun q => q ++ [e] |> else s.

Definition stamp (e : Event) (t : Time) (r : Z) : Event :=
  e <| Event_Timestamp := t |>
    <| Event_ID := "evt-" +:+ fmt_d (UnixNano t) +:+ "-" +:+ fmt_04d r |>.

Section Events.
Context {DB : Type} `{!Badger Blob DB} {E : Env}.

Abbreviation IO := (M (World DB)).

Definition emitEvent (e : Event) : IO unit :=
  t ← now; r ← rand_Intn;
  let e := stamp e t r in
  AppendEvent e ;;
  modify (set w_subscribers (fmap (offer e))).

(** The channel is named by a fresh number; the second result, the clean-up
    function, is [Unsubscribe] on that number. *)
Definition SubscribeEvents (buffer : Z) : IO nat :=
  let buffer := if buffer <=? 0 then 32 else buffer in
  w ← get_state;
  let ch := w.(w_nextSub) in
  modify (fun w => w <| w_nextSub ::= S |>
                     <| w_subscribers ::= <[ch := MkSubscriber buffer []]> |>) ;;
  mret ch.

(** Closing the channel makes it unreachable for [emitEvent]. *)
Definition Unsubscribe (ch : nat) : IO unit := modify (set w_subscribers (delete ch)).

End Events.

(** ** Lemmas *)

Section EventFacts.
Context {DB : Type} `{!Badger Blob DB, !BadgerLaws Blob DB} {E : Env}.

Lemma steps_modify_subscribers (P : relation DB) `{!PreOrder P} f :
  steps (dbrel P) (modify (set w_subscribers f)).
Proof. intros w. unfold dbrel. cbn. reflexivity. Qed.

End EventFacts.

#[export] Hint Extern 1 (steps _ (modify (set w_subscribers _))) =>
  apply steps_modify_subscribers; typeclasses eauto : steps.
#[export] Hint Unfold emitEvent : store.

Section EventTheorems.
Context {DB : Type} `{!Badger Blob DB, !BadgerLaws Blob DB} {E : Env}.
Implicit Types (w : World DB).

Definition subscribers_ok w : Prop :=
  forall ch s, w.(w_subscribers) !! ch = Some s ->
    (ch < w.(w_nextSub))%nat /\ lenZ s.(Subscriber_queue) <= s.(Subscriber_buffer).

Lemma offer_ok e s :
  lenZ s.(Subscriber_queue) <= s.(Subscriber_buffer) ->
  lenZ (offer e s).(Subscriber_queue) <= (offer e s).(Subscriber_buffer).
Proof.
  unfold offer. destruct (Z.ltb_spec (lenZ (Subscriber_queue s)) (Subscriber_buffer s)); [|done].
  intros _. cbn. rewrite lenZ_app. change (lenZ [e]) with 1. lia.
Qed.

(** [AppendEvent] on an event that carries an ID and a time is one write. *)
Lemma AppendEvent_stamped e : IsZero e.(Event_Timestamp) = false -> e.(Event_ID) <> "" ->
  forall w, AppendEvent e w = put (keyEvent e.(Event_Timestamp) e.(Event_ID)) e w.
Proof.
  intros Ht Hid w. unfold AppendEvent, or_now. apply String.eqb_neq in Hid. rewrite Hid, Ht.
  by destruct e.
Qed.

Lemma emitEvent_run e w :
  emitEvent e w =
  (let e' := stamp e (env_now w.(w_tick)) (env_rand (S w.(w_tick))) in
   AppendEvent e' ;; modify (set w_subscribers (fmap (offer e'))))
  (w <| w_tick := S (S w.(w_tick)) |>).
Proof. reflexivity. Qed.

Lemma subscribers_offer e w w1 :
  subscribers_ok w -> w1.(w_nextSub) = w.(w_nextSub) ->
  w1.(w_subscribers) = offer e <$> w.(w_subscribers) -> subscribers_ok w1.
Proof.
  intros Hok Hn Hs ch s. rewrite Hs, Hn, lookup_fmap_Some. intros [s0 [<- H0]].
  destruct (Hok ch s0 H0). split; [done|]. by apply offer_ok.
Qed.

(** C26: emitting an event never blocks and never overruns a subscriber.  It
    is all or nothing: when the append fails nothing changes, neither store
    nor channels; when it succeeds the stamped event is stored under its own
    key, every subscriber with room gets it exactly once and last, and a full
    one is left as it is. *)
Theorem emitEvent_delivers e w :
  subscribers_ok w -> IsZero (env_now w.(w_tick)) = false ->
  let '(r, w') := emitEvent e w in
  let e' := stamp e (env_now w.(w_tick)) (env_rand (S w.(w_tick))) in
  subscribers_ok w'
  /\ match r with
     | Err _ => w'.(w_db) = w.(w_db) /\ w'.(w_subscribers) = w.(w_subscribers)
     | Ok _ =>
         db_get w'.(w_db) (keyEvent e'.(Event_Timestamp) e'.(Event_ID)) = Some (BEvent e')
         /\ forall ch, w'.(w_subscribers) !! ch
              = (fun s => if lenZ s.(Subscriber_queue) <? s.(Subscriber_buffer)
                          then s <| Subscriber_queue := s.(Subscriber_queue) ++ [e'] |>
                          else s) <$> w.(w_subscribers) !! ch
     end.
Proof.
  intros Hok Ht. rewrite emitEvent_run.
  set (e' := stamp e _ _). set (w2 := w <| w_tick := S (S (w_tick w)) |>).
  unfold mbind, M_bind. rewrite AppendEvent_stamped by done.
  unfold put. change (json e') with (Some e'). unfold db_Update.
  destruct (env_dberr (w_tick w2)); cbn; [done|]. split.
  - by eapply (subscribers_offer e' w).
  - split; [by rewrite db_get_set, decide_True|]. intros ch. by rewrite lookup_fmap.
Qed.

End EventTheorems.
