(* ===== verification/Base64.v ===== *)
(** * Base64

    [encoding/base64]'s [StdEncoding], which the secret store uses for sealed
    values: the padded standard alphabet; the decoder skips line breaks and
    refuses an incomplete or over-long last group.  And the decoder of
    [RawURLEncoding], in which JSON web keys are written. *)

From Stdlib Require Import Ascii String.
From S2P Require Import Prelude GoLang.

Definition sextet_char (n : N) : ascii :=
  if (n <? 26)%N then ascii_of_N (65 + n)
  else if (n <? 52)%N then ascii_of_N (71 + n)
  else if (n <? 62)%N then ascii_of_N (n - 4)
  else if (n =? 62)%N then "+"%char else "/"%char.

Definition char_sextet (c : ascii) : option N :=
  let n := byte_of c in
  if ((65 <=? n) && (n <=? 90))%N then Some (n - 65)%N
  else if ((97 <=? n) && (n <=? 122))%N then Some (n - 71)%N
  else if ((48 <=? n) && (n <=? 57))%N then Some (n + 4)%N
  else if (n =? 43)%N then Some 62%N
  else if (n =? 47)%N then Some 63%N
  else None.

Definition pad_char : ascii := "="%char.

Fixpoint encode_bytes (l : list ascii) : list ascii :=
  match l with
  | [] => []
  | [a] =>
      let v := (byte_of a * 65536)%N in
      [sextet_char (v / 262144); sextet_char (v / 4096 mod 64); pad_char; pad_char]
  | [a; b] =>
      let v := (byte_of a * 65536 + byte_of b * 256)%N in
      [sextet_char (v / 262144); sextet_char (v / 4096 mod 64);
       sextet_char (v / 64 mod 64); pad_char]
  | a :: b :: c :: l' =>
      let v := (byte_of a * 65536 + byte_of b * 256 + byte_of c)%N in
      sextet_char (v / 262144) :: sextet_char (v / 4096 mod 64)
        :: sextet_char (v / 64 mod 64) :: sextet_char (v mod 64) :: encode_bytes l'
  end.

(** One group of two, three or four sextets. *)
Definition group_value (w x y z : N) : N := (w * 262144 + x * 4096 + y * 64 + z)%N.

Definition byte_at (v shift : N) : ascii := ascii_of_N (v / shift mod 256).

Fixpoint decode_bytes (l : list ascii) : option (list ascii) :=
  match l with
  | [] => Some []
  | c1 :: c2 :: c3 :: c4 :: l' =>
      match char_sextet c1, char_sextet c2, char_sextet c3, char_sextet c4 with
      | Some w, Some x, Some y, Some z =>
          let v := group_value w x y z in
          match decode_bytes l' with
          | Some out => Some (byte_at v 65536 :: byte_at v 256 :: byte_at v 1 :: out)
          | None => None
          end
      | Some w, Some x, Some y, None =>
          if Ascii.eqb c4 pad_char
          then match l' with
               | [] => let v := group_value w x y 0 in Some [byte_at v 65536; byte_at v 256]
               | _ => None
               end
          else None
      | Some w, Some x, None, None =>
          if Ascii.eqb c3 pad_char && Ascii.eqb c4 pad_char
          then match l' with
               | [] => Some [byte_at (group_value w x 0 0) 65536]
               | _ => None
               end
          else None
      | _, _, _, _ => None
      end
  | _ => None
  end.

Definition is_line_break (c : ascii) : bool := ((byte_of c =? 10) || (byte_of c =? 13))%N.

Definition EncodeToString (s : string) : string :=
  string_of_list_ascii (encode_bytes (list_ascii_of_string s)).

Definition DecodeString (s : string) : option string :=
  string_of_list_ascii <$>
    decode_bytes (List.filter (fun c => negb (is_line_break c)) (list_ascii_of_string s)).

(** ** [RawURLEncoding]

    The URL-safe alphabet without padding: the last group has two, three or
    four characters. *)

Definition url_sextet (c : ascii) : option N :=
  if Ascii.eqb c "-" then Some 62%N
  else if Ascii.eqb c "_" then Some 63%N
  else if Ascii.eqb c "+" || Ascii.eqb c "/" then None
  else char_sextet c.

Fixpoint raw_decode_bytes (l : list ascii) : option (list ascii) :=
  match l with
  | [] => Some []
  | [_] => None
  | [c1; c2] =>
      w ← url_sextet c1; x ← url_sextet c2;
      Some [byte_at (group_value w x 0 0) 65536]
  | [c1; c2; c3] =>
      w ← url_sextet c1; x ← url_sextet c2; y ← url_sextet c3;
      let v := group_value w x y 0 in Some [byte_at v 65536; byte_at v 256]
  | c1 :: c2 :: c3 :: c4 :: l' =>
      w ← url_sextet c1; x ← url_sextet c2; y ← url_sextet c3; z ← url_sextet c4;
      out ← raw_decode_bytes l';
      let v := group_value w x y z in
      Some (byte_at v 65536 :: byte_at v 256 :: byte_at v 1 :: out)
  end.

Definition RawURLDecodeString (s : string) : option string :=
  string_of_list_ascii <$>
    raw_decode_bytes (List.filter (fun c => negb (is_line_break c)) (list_ascii_of_string s)).

(** ** Decoding inverts encoding *)

Lemma sextet_cases (P : N -> Prop) :
  (forall k : nat, (k < 64)%nat -> P (N.of_nat k)) -> forall n, (n < 64)%N -> P n.
Proof. intros H n Hn. rewrite <- (N2Nat.id n). apply H. lia. Qed.

Lemma char_sextet_char n : (n < 64)%N ->
  char_sextet (sextet_char n) = Some n /\ is_line_break (sextet_char n) = false.
Proof.
  revert n. apply (sextet_cases (fun n => char_sextet (sextet_char n) = Some n
    /\ is_line_break (sextet_char n) = false)).
  intros k Hk. do 64 (destruct k as [|k]; [by vm_compute|]). lia.
Qed.

Lemma byte_of_bound c : (byte_of c < 256)%N.
Proof. apply N_ascii_bounded. Qed.

Lemma byte_of_inv c : ascii_of_N (byte_of c) = c.
Proof. apply ascii_N_embedding. Qed.

(** [lia] with division and remainder. *)
Ltac div_lia := zify; Z.to_euclidean_division_equations; lia.

Ltac sextets :=
  repeat match goal with
    | |- context [char_sextet (sextet_char ?n)] =>
        rewrite (proj1 (char_sextet_char n ltac:(div_lia)))
    end.

Lemma byte_at_eq v shift c : (v / shift mod 256 = byte_of c)%N -> byte_at v shift = c.
Proof. intros H. unfold byte_at. rewrite H. apply byte_of_inv. Qed.

(** Induction by groups of three. *)
Lemma list_ind3 {A} (P : list A -> Prop) :
  P [] -> (forall a, P [a]) -> (forall a b, P [a; b]) ->
  (forall a b c l, P l -> P (a :: b :: c :: l)) -> forall l, P l.
Proof.
  intros H0 H1 H2 H3. fix IH 1. intros [|a [|b [|c l]]]; [done|done|done|]. apply H3, IH.
Qed.

Ltac clean_char n := rewrite (proj2 (char_sextet_char n ltac:(div_lia))).

Lemma encode_clean l :
  List.filter (fun c => negb (is_line_break c)) (encode_bytes l) = encode_bytes l.
Proof.
  induction l as [|a|a b|a b c l IH] using list_ind3; [done|..];
    pose proof (byte_of_bound a); try pose proof (byte_of_bound b);
    try pose proof (byte_of_bound c); cbn -[sextet_char is_line_break N.div N.modulo N.mul N.add];
    repeat match goal with |- context [is_line_break (sextet_char ?n)] => clean_char n end;
    cbn -[sextet_char N.div N.modulo N.mul N.add]; by rewrite ?IH.
Qed.

Lemma decode_encode_bytes l : decode_bytes (encode_bytes l) = Some l.
Proof.
  induction l as [|a|a b|a b c l IH] using list_ind3; [done|..];
    pose proof (byte_of_bound a); try pose proof (byte_of_bound b);
    try pose proof (byte_of_bound c);
    cbn -[sextet_char char_sextet byte_at group_value pad_char N.div N.modulo N.mul N.add Ascii.eqb];
    sextets; change (char_sextet pad_char) with (@None N); cbn [Ascii.eqb];
    rewrite ?Ascii.eqb_refl, ?IH; cbn [andb]; unfold group_value;
    repeat f_equal; apply byte_at_eq; div_lia.
Qed.

Lemma DecodeString_EncodeToString s : DecodeString (EncodeToString s) = Some s.
Proof.
  unfold DecodeString, EncodeToString.
  rewrite list_ascii_of_string_of_list_ascii, encode_clean, decode_encode_bytes.
  simpl. by rewrite string_of_list_ascii_of_string.
Qed.
