(* ===== verification/Secrets.v ===== *)
(** * Secrets

    Encryption at rest and delivery of secrets: [encryptStringAESGCM],
    [decryptStringAESGCM], [encryptSecretData], [decryptSecretData] and
    [resolveSecretFilesForDeployment] of [internal/service/features.go].
    AES-GCM is the environment's [env_seal] and [env_open]. *)

From Stdlib Require Import Ascii String.
From S2P Require Import Prelude GoLang GoSort Effects Model Badger World Store StoreFacts Base64.

(** [gcm.NonceSize()] *)
Definition nonceSize : nat := 12.

Definition enc_prefix : string := "enc:v1:".

Section Secrets.
Context {DB : Type} `{!Badger Blob DB} {E : Env}.

Abbreviation IO := (M (World DB)).

Definition encryptStringAESGCM (key plain : string) : IO string :=
  if (String.length key <? 32)%nat then throw (Errorf "kms key must be at least 32 bytes") else
  r ← ask env_nonce;
  nonce ← of_res r;
  mret (EncodeToString (nonce +:+ env_seal (substring 0 32 key) nonce plain)).

Definition decryptStringAESGCM (key enc : string) : Res string :=
  if (String.length key <? 32)%nat then Err (Errorf "kms key must be at least 32 bytes") else
  match DecodeString enc with
  | None => Err (Errorf "illegal base64 data")
  | Some blob =>
      if (String.length blob <? nonceSize)%nat then Err (Errorf "ciphertext too short") else
      let nonce := substring 0 nonceSize blob in
      let ciphertext := substring nonceSize (String.length blob - nonceSize)%nat blob in
      match env_open (substring 0 32 key) nonce ciphertext with
      | None => Err (Errorf "cipher: message authentication failed")
      | Some plain => Ok plain
      end
  end.

Definition encryptSecretData (data : gmap string string) : IO (gmap string string) :=
  if String.eqb env_kmsKey "" then mret data else
  fold_m (map_to_list data) ∅ (fun out kv =>
    enc ← encryptStringAESGCM env_kmsKey kv.2;
    mret (<[kv.1 := enc_prefix +:+ enc]> out)).

Definition decryptValue (v : string) : string :=
  if HasPrefix v enc_prefix then
    match decryptStringAESGCM env_kmsKey (TrimPrefix v enc_prefix) with
    | Ok raw => raw
    | Err _ => v
    end
  else v.

(** A nil map stays nil without a key and becomes an empty one with it. *)
Definition decryptSecretData (data : option (gmap string string)) : option (gmap string string) :=
  if String.eqb env_kmsKey "" then data else Some (decryptValue <$> default ∅ data).

Definition mount_base (path : string) : string :=
  let base := TrimRight (TrimSpace path) "/"%char in
  if String.eqb base "" then "/etc/secrets" else base.

(** The keys of one secret give distinct paths, so that the order in which the
    map is traversed is forgotten by the final sort. *)
Definition secret_files (sm : SecretMountSpec) (data : option (gmap string string))
    : list SecretFile :=
  List.map (fun kv => MkSecretFile (mount_base sm.(SecretMountSpec_MountPath) +:+ "/" +:+ kv.1) kv.2)
    (map_to_list (default ∅ data)).

Definition resolveSecretFilesForDeployment (dep : Deployment) : IO (list SecretFile) :=
  files ← fold_m (default [] dep.(Deployment_Spec).(DeploymentSpec_SecretMounts)) []
    (fun files sm =>
      if blank sm.(SecretMountSpec_SecretName) then mret files else
      secret ← GetSecret dep.(Deployment_Spec).(DeploymentSpec_Namespace)
                 sm.(SecretMountSpec_SecretName);
      mret (files ++ secret_files sm (decryptSecretData secret.(Secret_Data))));
  mret (SliceStable (fun a b => string_ltb a.(SecretFile_Path) b.(SecretFile_Path)) files).

End Secrets.

#[export] Hint Unfold encryptStringAESGCM encryptSecretData resolveSecretFilesForDeployment : store.

(** ** What AES-GCM promises *)

(** Opening what was sealed under the same key and nonce yields the text;
    nonces have the size the cipher asks for. *)
Class AEAD (E : Env) : Prop := {
  open_seal : forall key nonce text, env_open key nonce (env_seal key nonce text) = Some text;
  nonce_size : forall t nonce, env_nonce t = Ok nonce -> String.length nonce = nonceSize
}.

Section SecretTheorems.
Context {DB : Type} `{!Badger Blob DB} {E : Env} `{!AEAD E}.

Lemma decrypt_encrypt_string plain w enc (w' : World DB) :
  encryptStringAESGCM env_kmsKey plain w = (Ok enc, w') ->
  decryptValue (enc_prefix +:+ enc) = plain.
Proof.
  unfold encryptStringAESGCM, decryptValue. rewrite HasPrefix_app, TrimPrefix_app.
  unfold decryptStringAESGCM. destruct (String.length env_kmsKey <? 32)%nat; [done|].
  unfold mbind, M_bind, ask, of_res. destruct (env_nonce (w_tick w)) as [nonce|] eqn:En; [|done].
  intros [= <- _]. rewrite DecodeString_EncodeToString, length_string_app.
  pose proof (nonce_size _ _ En) as Hn. rewrite Hn.
  destruct (Nat.ltb_spec (nonceSize + String.length
    (env_seal (substring 0 32 env_kmsKey) nonce plain)) nonceSize); [lia|].
  rewrite <- Hn at 1. rewrite substring_app_l.
  replace (nonceSize + _ - nonceSize)%nat
    with (String.length (env_seal (substring 0 32 env_kmsKey) nonce plain)) by lia.
  rewrite <- Hn. by rewrite substring_app_r, open_seal.
Qed.

Lemma encrypt_fold_decrypts l (acc : gmap string string) (w : World DB) out w' :
  fold_m l acc (fun (out : gmap string string) kv =>
    enc ← encryptStringAESGCM env_kmsKey kv.2;
    mret (<[kv.1 := enc_prefix +:+ enc]> out)) w = (Ok out, w') ->
  decryptValue <$> out
  = foldl (fun m (kv : string * string) => <[kv.1 := kv.2]> m) (decryptValue <$> acc) l.
Proof.
  revert acc w. induction l as [|[k v] l IH]; intros acc w; cbn [fold_m foldl].
  { by intros [= <- _]. }
  intros [[acc' [w1 [H1 H2]]]|[e [_ [=]]]]%bind_inv.
  apply bind_inv in H1 as [[enc [w2 [Henc [= <- <-]]]]|[e [_ [=]]]].
  apply IH in H2. rewrite H2, fmap_insert.
  simpl in Henc. simpl. by rewrite (decrypt_encrypt_string v w enc w2 Henc).
Qed.

Lemma foldl_insert_map (m : gmap string string) :
  foldl (fun m (kv : string * string) => <[kv.1 := kv.2]> m) ∅ (map_to_list m) = m.
Proof.
  assert (H : forall l : list (string * string),
    foldl (fun m (kv : string * string) => <[kv.1 := kv.2]> m) ∅ l
    = list_to_map (M := gmap string string) (reverse l)).
  { induction l as [|kv l IH] using rev_ind; [done|].
    rewrite foldl_app, reverse_snoc. simpl. by rewrite IH. }
  rewrite H. transitivity (list_to_map (M := gmap string string) (map_to_list m)).
  - apply list_to_map_proper; [|by rewrite reverse_Permutation].
    rewrite reverse_Permutation. apply NoDup_fst_map_to_list.
  - apply list_to_map_to_list.
Qed.

Lemma encrypt_fold_total l (acc : gmap string string) (w : World DB) :
  (32 <= String.length env_kmsKey)%nat -> (forall t, is_ok (env_nonce t) = true) ->
  exists out w', fold_m l acc (fun (out : gmap string string) kv =>
    enc ← encryptStringAESGCM env_kmsKey kv.2;
    mret (<[kv.1 := enc_prefix +:+ enc]> out)) w = (Ok out, w').
Proof.
  intros Hk Hn. revert acc w. induction l as [|[k v] l IH]; intros acc w; [by do 2 eexists|].
  cbn [fold_m]. unfold mbind, M_bind, encryptStringAESGCM at 1.
  destruct (Nat.ltb_spec (String.length env_kmsKey) 32); [lia|].
  unfold ask, of_res, mbind, M_bind. specialize (Hn (w_tick w)).
  destruct (env_nonce (w_tick w)) as [nonce|]; [|done]. cbn. apply IH.
Qed.

(** C24: what [encryptSecretData] stores, [decryptSecretData] gives back, with
    or without a key; and with a key of 32 bytes and working nonces encryption
    does not fail: a secret that was accepted can be delivered. *)
Theorem decrypt_encrypt data (w : World DB) :
  (env_kmsKey = "" \/ (32 <= String.length env_kmsKey)%nat) ->
  (forall t, is_ok (env_nonce t) = true) ->
  exists out w', encryptSecretData data w = (Ok out, w')
    /\ decryptSecretData (Some out) = Some data.
Proof.
  intros Hk Hn. unfold encryptSecretData, decryptSecretData.
  destruct (String.eqb_spec env_kmsKey "") as [_|Hne]; [by do 2 eexists|].
  destruct Hk as [?|Hk]; [done|].
  destruct (encrypt_fold_total (map_to_list data) ∅ w Hk Hn) as (out & w' & H).
  exists out, w'. split; [exact H|]. apply encrypt_fold_decrypts in H. simpl.
  by rewrite H, fmap_empty, foldl_insert_map.
Qed.

End SecretTheorems.
