(* ===== verification/Rollout.v ===== *)
(** * Rollout helpers

    The pure functions the reconciler is built from
    ([internal/service/orchestrator.go]): counting and classifying workloads,
    choosing the victims of a scale-down, conditions, finalizers and the
    normalisation of a rollout specification. *)

From Stdlib Require Import Ascii String.
From Corelib Require Import SpecFloat.
From S2P Require Import Prelude GoLang GoFloat GoSort Model.

(** ** Workloads *)

Definition is_active (w : Workload) : bool :=
  String.eqb w.(Workload_Status) WorkloadRunning || String.eqb w.(Workload_Status) WorkloadPending.

Definition is_running (w : Workload) : bool := String.eqb w.(Workload_Status) WorkloadRunning.

Definition activeWorkloads (l : list Workload) : list Workload := List.filter is_active l.

Definition runningCount (l : list Workload) : Z := lenZ (List.filter is_running l).
Definition runningCountFromSlice (l : list Workload) : Z := lenZ (List.filter is_running l).

Definition activeForRevision (l : list Workload) (rev : Z) : list Workload :=
  List.filter (fun w => w.(Workload_Version) =? rev) l.

Definition oldRevisionWorkloads (l : list Workload) (rev : Z) : list Workload :=
  List.filter (fun w => negb (w.(Workload_Version) =? rev)) l.

Definition runningOrPendingCount (l : list Workload) : Z := lenZ (List.filter is_active l).

Definition minInt (a b : Z) : Z := if a <? b then a else b.
Definition maxInt (a b : Z) : Z := if b <? a then a else b.

(** Pending before running, youngest first. *)
Definition victim_less (a b : Workload) : bool :=
  if negb (String.eqb a.(Workload_Status) b.(Workload_Status))
  then String.eqb a.(Workload_Status) WorkloadPending
  else After a.(Workload_CreatedAt) b.(Workload_CreatedAt).

Definition pickScaleDownVictims (workloads : list Workload) (count : Z) : list Workload :=
  if count <=? 0 then [] else
  let candidates := SliceStable victim_less
    (List.filter (fun w => String.eqb w.(Workload_Status) WorkloadPending
                           || String.eqb w.(Workload_Status) WorkloadRunning) workloads) in
  if count <? lenZ candidates then take (Z.to_nat count) candidates else candidates.

(** ** Conditions and finalizers *)

Definition setCondition (existing : list DeploymentCondition) (next : DeploymentCondition)
    : list DeploymentCondition :=
  let same c := String.eqb c.(DeploymentCondition_Type) next.(DeploymentCondition_Type) in
  let out := List.map (fun c => if same c then next else c) existing in
  if existsb same existing then out else out ++ [next].

Definition removeFinalizer (finalizers : list string) (target : string) : list string :=
  List.filter (fun f => negb (String.eqb f target)) finalizers.

(** ** Rollout specifications *)

Definition clamp0 (z : Z) : Z := if z <? 0 then 0 else z.

Definition normalizeRolloutSpec (r : RolloutSpec) : RolloutSpec :=
  let r := if String.eqb r.(RolloutSpec_Strategy) ""
    then r <| RolloutSpec_Strategy := RolloutStrategyRollingUpdate |> else r in
  let r := r <| RolloutSpec_ProgressDeadlineSeconds ::= clamp0 |>
             <| RolloutSpec_MaxFailedWorkloads ::= clamp0 |>
             <| RolloutSpec_SLOErrorRateThreshold ::=
                  fun x => if f_ltb x f_zero then f_zero else x |>
             <| RolloutSpec_SLOWindowSeconds ::= clamp0 |>
             <| RolloutSpec_RollingUpdate ::= set RollingUpdateSpec_MaxSurge clamp0 |>
             <| RolloutSpec_RollingUpdate ::= set RollingUpdateSpec_MaxUnavailable clamp0 |> in
  if String.eqb r.(RolloutSpec_Strategy) RolloutStrategyCanary then
    r <| RolloutSpec_Canary ::= set CanarySpec_Percentage (fun p => if p <=? 0 then 20 else p) |>
      <| RolloutSpec_Canary ::= set CanarySpec_Percentage (fun p => if 100 <? p then 100 else p) |>
      <| RolloutSpec_Canary ::= set CanarySpec_Enabled (fun _ => true) |>
  else r.

Definition isRolloutInProgress (phase : string) : bool :=
  existsb (String.eqb phase) ["Progressing"; "Canary"; "CanaryPromoting"; "Autoscaling"; "Rollback"].

(** ** Lemmas *)

Lemma minInt_spec a b : minInt a b = Z.min a b.
Proof. unfold minInt. destruct (Z.ltb_spec a b); lia. Qed.

Lemma maxInt_spec a b : maxInt a b = Z.max a b.
Proof. unfold maxInt. destruct (Z.ltb_spec b a); lia. Qed.

Lemma filter_perm {A} (f : A -> bool) l k : l ≡ₚ k -> List.filter f l ≡ₚ List.filter f k.
Proof.
  induction 1 as [|x l k _ IH|x y l|l k m _ IH1 _ IH2]; simpl; try done.
  - destruct (f x); [by constructor|done].
  - destruct (f x), (f y); try done. apply Permutation_swap.
  - by etrans.
Qed.

Lemma filter_split_perm {A} (f : A -> bool) l :
  List.filter f l ++ List.filter (fun x => negb (f x)) l ≡ₚ l.
Proof.
  induction l as [|x l IH]; simpl; [done|]. destruct (f x); simpl.
  - by rewrite IH.
  - by rewrite <- Permutation_middle, IH.
Qed.

Lemma filter_orb_comm {A} (f g : A -> bool) l :
  List.filter (fun x => f x || g x) l = List.filter (fun x => g x || f x) l.
Proof. apply List.filter_ext. intros x. apply orb_comm. Qed.

(** The victims are among the active workloads, [count] of them when there are
    that many. *)
Lemma pickScaleDownVictims_perm l count :
  exists rest, activeWorkloads l ≡ₚ pickScaleDownVictims l count ++ rest.
Proof.
  unfold pickScaleDownVictims. destruct (count <=? 0); [by exists (activeWorkloads l)|].
  set (c := SliceStable _ _).
  assert (Hc : c ≡ₚ activeWorkloads l).
  { unfold c. rewrite SliceStable_perm. unfold activeWorkloads, is_active.
    by rewrite filter_orb_comm. }
  destruct (count <? lenZ c).
  - exists (drop (Z.to_nat count) c). by rewrite take_drop, Hc.
  - exists []. by rewrite app_nil_r, Hc.
Qed.

Lemma pickScaleDownVictims_length l count :
  lenZ (pickScaleDownVictims l count) = Z.max 0 (Z.min count (lenZ (activeWorkloads l))).
Proof.
  unfold pickScaleDownVictims.
  destruct (Z.leb_spec count 0) as [?|Hc]; [pose proof (lenZ_nonneg (activeWorkloads l)); unfold lenZ at 1; simpl; lia|].
  set (c := SliceStable _ _).
  assert (Hlen : lenZ c = lenZ (activeWorkloads l)).
  { unfold c. apply lenZ_perm. rewrite SliceStable_perm. unfold activeWorkloads, is_active.
    by rewrite filter_orb_comm. }
  pose proof (lenZ_nonneg c). destruct (Z.ltb_spec count (lenZ c)); [|lia].
  unfold lenZ in *. rewrite length_take. lia.
Qed.

Lemma elem_of_victims l count x : x ∈ pickScaleDownVictims l count -> x ∈ l /\ is_active x = true.
Proof.
  intros Hx. destruct (pickScaleDownVictims_perm l count) as [rest Hp].
  assert (Hin : x ∈ activeWorkloads l) by (rewrite Hp; set_solver).
  unfold activeWorkloads in Hin. rewrite list_elem_of_In, List.filter_In in Hin.
  by rewrite list_elem_of_In.
Qed.

Lemma clamp0_nonneg z : 0 <= clamp0 z.
Proof. unfold clamp0. destruct (Z.ltb_spec z 0); lia. Qed.

Lemma clamp0_id z : 0 <= z -> clamp0 z = z.
Proof. unfold clamp0. destruct (Z.ltb_spec z 0); lia. Qed.

Lemma normalizeRolloutSpec_RollingUpdate r :
  (normalizeRolloutSpec r).(RolloutSpec_RollingUpdate)
  = r.(RolloutSpec_RollingUpdate) <| RollingUpdateSpec_MaxSurge ::= clamp0 |>
      <| RollingUpdateSpec_MaxUnavailable ::= clamp0 |>.
Proof.
  unfold normalizeRolloutSpec. cbv zeta.
  destruct (String.eqb (RolloutSpec_Strategy r) ""); by destruct (String.eqb _ _).
Qed.

Lemma normalizeRolloutSpec_nonneg r :
  let ru := (normalizeRolloutSpec r).(RolloutSpec_RollingUpdate) in
  0 <= ru.(RollingUpdateSpec_MaxSurge) /\ 0 <= ru.(RollingUpdateSpec_MaxUnavailable).
Proof.
  cbv zeta. rewrite normalizeRolloutSpec_RollingUpdate. cbn -[clamp0].
  split; apply clamp0_nonneg.
Qed.

Lemma active_cases w :
  is_active w = true <-> Workload_Status w = WorkloadRunning \/ Workload_Status w = WorkloadPending.
Proof. unfold is_active. by rewrite orb_true_iff, !String.eqb_eq. Qed.

(** Among active workloads the order of victims is a rank and then an age. *)
Definition victim_rank (w : Workload) : Z := if is_running w then 1 else 0.

Lemma victim_less_rank a b :
  is_active a = true -> is_active b = true ->
  victim_less a b = true <->
    victim_rank a < victim_rank b
    \/ victim_rank a = victim_rank b /\ Workload_CreatedAt b < Workload_CreatedAt a.
Proof.
  intros [Ha|Ha]%active_cases [Hb|Hb]%active_cases; unfold victim_less, victim_rank, is_running, After;
    rewrite Ha, Hb; simpl; rewrite ?Z.ltb_lt; intuition (try lia; try congruence).
Qed.

#[export] Instance victim_less_StrictWeak :
  StrictWeak (fun w => is_active w = true) victim_less.
Proof.
  split.
  - intros x y Hx Hy H. apply not_true_is_false. intros H'.
    rewrite victim_less_rank in H, H' by done. lia.
  - intros x y z Hx Hy Hz H. rewrite victim_less_rank in H |- * by done.
    rewrite (victim_less_rank y z) by done. lia.
Qed.

Lemma StronglySorted_app_cross {A} (R : relation A) l k x y :
  StronglySorted R (l ++ k) -> x ∈ l -> y ∈ k -> R x y.
Proof.
  induction l as [|z l IH]; simpl; [by intros _ ?%not_elem_of_nil|].
  intros Hs. inversion Hs as [|? ? Hs' Hall]; subst. intros [->|Hx]%elem_of_cons Hy.
  - rewrite Forall_forall in Hall. apply Hall, elem_of_app. by right.
  - by apply IH.
Qed.

(** ** Theorems *)

(** C15: a scale-down by [count] picks exactly the asked number of active
    workloads (all of them when there are fewer), never an inactive one; it
    takes pending workloads before running ones and younger ones before older
    ones of the same status. *)
Theorem pickScaleDownVictims_order l count :
  exists kept,
    activeWorkloads l ≡ₚ pickScaleDownVictims l count ++ kept
    /\ lenZ (pickScaleDownVictims l count) = Z.max 0 (Z.min count (lenZ (activeWorkloads l)))
    /\ forall v k, v ∈ pickScaleDownVictims l count -> k ∈ kept ->
         (Workload_Status v = WorkloadRunning -> Workload_Status k = WorkloadRunning)
         /\ (Workload_Status k = Workload_Status v -> Workload_CreatedAt k <= Workload_CreatedAt v).
Proof.
  set (c := SliceStable victim_less (activeWorkloads l)).
  set (n := if count <=? 0 then 0%nat else Z.to_nat count).
  assert (Hc : c ≡ₚ activeWorkloads l) by apply SliceStable_perm.
  assert (Hact : Forall (fun w => is_active w = true) (activeWorkloads l)).
  { apply Forall_forall. intros x. rewrite list_elem_of_In. by intros [_ ?]%List.filter_In. }
  assert (Hp : pickScaleDownVictims l count = take n c).
  { unfold pickScaleDownVictims, n. destruct (count <=? 0); [done|]. rewrite filter_orb_comm.
    fold (activeWorkloads l). change (List.filter _ l) with (activeWorkloads l). fold c.
    destruct (Z.ltb_spec count (lenZ c)); [done|]. rewrite take_ge; [done|]. unfold lenZ in *. lia. }
  exists (drop n c). rewrite pickScaleDownVictims_length, Hp, take_drop. split; [done|].
  split; [done|]. intros v k Hv Hk.
  pose proof (SliceStable_sorted _ victim_less _ Hact) as Hs. fold c in Hs.
  rewrite <- (take_drop n c) in Hs.
  pose proof (StronglySorted_app_cross _ _ _ v k Hs Hv Hk) as Hna.
  rewrite Forall_forall in Hact.
  assert (Hav : is_active v = true) by (apply Hact; rewrite <- Hc, <- (take_drop n c); set_solver).
  assert (Hak : is_active k = true) by (apply Hact; rewrite <- Hc, <- (take_drop n c); set_solver).
  unfold not_after in Hna. apply not_true_iff_false in Hna.
  rewrite victim_less_rank in Hna by done. unfold victim_rank, is_running in Hna.
  apply active_cases in Hak as [Hk'|Hk'], Hav as [Hv'|Hv']; rewrite Hk', Hv' in *;
    simpl in Hna; split; try done; intros _; lia.
Qed.

(** ** Normalisation *)

Lemma f_ltb_zero : f_ltb f_zero f_zero = false.
Proof. done. Qed.

Lemma clamp0_idemp z : clamp0 (clamp0 z) = clamp0 z.
Proof. apply clamp0_id, clamp0_nonneg. Qed.

Definition clamp_pct (p : Z) : Z :=
  let p := if p <=? 0 then 20 else p in if 100 <? p then 100 else p.

Lemma clamp_pct_idemp p : clamp_pct (clamp_pct p) = clamp_pct p.
Proof.
  assert (H : 1 <= clamp_pct p <= 100).
  { unfold clamp_pct. cbv zeta. destruct (Z.leb_spec p 0); [done|].
    destruct (Z.ltb_spec 100 p); lia. }
  unfold clamp_pct at 1. cbv zeta. destruct (Z.leb_spec (clamp_pct p) 0); [lia|].
  destruct (Z.ltb_spec 100 (clamp_pct p)); lia.
Qed.

Definition clamp_slo (x : float64) : float64 := if f_ltb x f_zero then f_zero else x.

Lemma clamp_slo_idemp x : clamp_slo (clamp_slo x) = clamp_slo x.
Proof. unfold clamp_slo. by destruct (f_ltb x f_zero) eqn:H; [rewrite f_ltb_zero|rewrite H]. Qed.

(** [normalizeRolloutSpec], field by field. *)
Lemma normalizeRolloutSpec_fields strategy mu ms en pct dl auto mf slo win :
  normalizeRolloutSpec (MkRolloutSpec strategy (MkRollingUpdateSpec mu ms) (MkCanarySpec en pct)
    dl auto mf slo win)
  = let strategy := if String.eqb strategy "" then RolloutStrategyRollingUpdate else strategy in
    let canary := String.eqb strategy RolloutStrategyCanary in
    MkRolloutSpec strategy (MkRollingUpdateSpec (clamp0 mu) (clamp0 ms))
      (if canary then MkCanarySpec true (clamp_pct pct) else MkCanarySpec en pct)
      (clamp0 dl) auto (clamp0 mf) (clamp_slo slo) (clamp0 win).
Proof.
  unfold normalizeRolloutSpec. cbv zeta.
  cbn -[String.eqb clamp0 f_ltb RolloutStrategyCanary RolloutStrategyRollingUpdate].
  destruct (String.eqb strategy ""); cbn -[String.eqb clamp0 f_ltb RolloutStrategyCanary RolloutStrategyRollingUpdate];
    by destruct (String.eqb _ RolloutStrategyCanary).
Qed.

Lemma normalizeRolloutSpec_idemp r :
  normalizeRolloutSpec (normalizeRolloutSpec r) = normalizeRolloutSpec r.
Proof.
  destruct r as [strategy [mu ms] [en pct] dl auto mf slo win].
  rewrite normalizeRolloutSpec_fields. cbv zeta.
  set (s := if String.eqb strategy "" then _ else _).
  assert (Hs : String.eqb s "" = false).
  { unfold s. by destruct (String.eqb strategy "") eqn:H. }
  destruct (String.eqb s RolloutStrategyCanary) eqn:Hc; rewrite normalizeRolloutSpec_fields; cbv zeta;
    rewrite Hs, Hc, ?clamp0_idemp, ?clamp_pct_idemp, ?clamp_slo_idemp; done.
Qed.
