(* ===== verification/Placement.v ===== *)
(** * Placement of workloads

    [createWorkloadForDeployment], [tryPreemptForPriority] and
    [enqueueDeleteForWorkload] of [internal/service/orchestrator.go]: the
    reconciler's actions on single workloads. *)

From Stdlib Require Import Ascii String.
From Corelib Require Import SpecFloat.
From S2P Require Import Prelude GoLang GoFloat GoSort GoTime Effects Model Scheduler Badger World.
From S2P Require Import Store StoreFacts Events Secrets Rollout.

(** Lower priority first, then youngest first. *)
Definition preempt_less (a b : Workload) : bool :=
  if negb (a.(Workload_Priority) =? b.(Workload_Priority))
  then a.(Workload_Priority) <? b.(Workload_Priority)
  else After a.(Workload_CreatedAt) b.(Workload_CreatedAt).

(** [nodeByID] *)
Definition node_by_id (nodes : list Node) : gmap string Node :=
  foldl (fun m n => <[n.(Node_ID) := n]> m) ∅ nodes.

Definition preempt_candidates (dep : Deployment) (workloads : list Workload) : list Workload :=
  SliceStable preempt_less
    (List.filter (fun w =>
      (w.(Workload_Priority) <? dep.(Deployment_Spec).(DeploymentSpec_Priority))
      && negb (String.eqb w.(Workload_DeploymentID) dep.(Deployment_ID))) workloads).

(** The node, with the victim's resources given back, has room. *)
Definition preempt_fits (node : Node) (victim : Workload) (req : Resource) : bool :=
  let availCPU := (node.(Node_Allocatable).(Resource_MilliCPU)
                    -! node.(Node_Used).(Resource_MilliCPU))
                  +! victim.(Workload_Resources).(Resource_MilliCPU) in
  let availMem := (node.(Node_Allocatable).(Resource_MemoryMB)
                    -! node.(Node_Used).(Resource_MemoryMB))
                  +! victim.(Workload_Resources).(Resource_MemoryMB) in
  negb ((availCPU <? req.(Resource_MilliCPU)) || (availMem <? req.(Resource_MemoryMB))).

(** [used -= victim; if used < 0 { used = 0 }], per resource. *)
Definition give_back (used victim : Resource) : Resource :=
  MkResource (clamp0 (used.(Resource_MilliCPU) -! victim.(Resource_MilliCPU)))
             (clamp0 (used.(Resource_MemoryMB) -! victim.(Resource_MemoryMB))).

Definition take_up (used req : Resource) : Resource :=
  MkResource (used.(Resource_MilliCPU) +! req.(Resource_MilliCPU))
             (used.(Resource_MemoryMB) +! req.(Resource_MemoryMB)).

(** The first candidate whose node is known, ready and has room without it. *)
Definition preempt_choice (nodes : gmap string Node) (req : Resource) (candidates : list Workload)
    : option (Workload * Node) :=
  head (omap (fun victim =>
    match nodes !! victim.(Workload_NodeID) with
    | Some node =>
        if String.eqb node.(Node_Status) NodeReady && preempt_fits node victim req
        then Some (victim, node) else None
    | None => None
    end) candidates).

Definition new_workload (id : string) (dep : Deployment) (nodeID : string) (created updated : Time)
    : Workload :=
  MkWorkload id dep.(Deployment_ID) dep.(Deployment_Spec).(DeploymentSpec_Priority) nodeID
    dep.(Deployment_Spec).(DeploymentSpec_Image) dep.(Deployment_Spec).(DeploymentSpec_Resources)
    WorkloadPending "" 0 dep.(Deployment_CurrentRevision) created updated.

Definition volume_mounts (dep : Deployment) : list VolumeMount :=
  List.map (fun claim => MkVolumeMount claim ("/mnt/pv/" +:+ claim) false)
    (default [] dep.(Deployment_Spec).(DeploymentSpec_VolumeClaims)).

Definition delete_assignment (victim : Workload) : Assignment :=
  MkAssignment "delete" "" victim.(Workload_NodeID) victim.(Workload_ID) "" ""
    victim.(Workload_ContainerID) [] [] victim.(Workload_Resources).

Definition create_assignment (dep : Deployment) (workload : Workload) (files : list SecretFile)
    : Assignment :=
  MkAssignment "create" "" workload.(Workload_NodeID) workload.(Workload_ID)
    workload.(Workload_Image) dep.(Deployment_Spec).(DeploymentSpec_ImagePullSecret) ""
    files (volume_mounts dep) workload.(Workload_Resources).

Section Placement.
Context {DB : Type} `{!Badger Blob DB} {E : Env}.

Abbreviation IO := (M (World DB)).

Definition tryPreemptForPriority (dep : Deployment) (req : Resource) : IO bool :=
  workloads ← ListWorkloads;
  nodes ← ListNodes;
  match preempt_choice (node_by_id nodes) req (preempt_candidates dep workloads) with
  | None => mret false
  | Some (victim, node) =>
      UpsertNode (node <| Node_Used ::= fun u => give_back u victim.(Workload_Resources) |>) ;;
      DeleteWorkload victim.(Workload_ID) ;;
      ignore (emitEvent (event EventWarn "scheduler" "PreemptedLowerPriorityWorkload"
        "Preempted lower priority workload to free resources"
        dep.(Deployment_ID) victim.(Workload_ID) victim.(Workload_NodeID))) ;;
      mret true
  end.

(** [o.scheduler.SelectNode(nodes, spec.Resources, spec.Labels, spec.Tolerations)] *)
Definition schedule (dep : Deployment) (nodes : list Node) : IO (Res Node) :=
  run ← ask env_score;
  let spec := dep.(Deployment_Spec) in
  mret (SelectNode run env_planner nodes spec.(DeploymentSpec_Resources)
    (default ∅ spec.(DeploymentSpec_Labels)) (default [] spec.(DeploymentSpec_Tolerations))).

(** Select a node; when there is none and the deployment has a priority, try
    once more after a preemption. *)
Definition choose_node (dep : Deployment) : IO Node :=
  nodes ← ListNodes;
  r ← schedule dep nodes;
  match r with
  | Ok node => mret node
  | Err err =>
      preempted ← (if 0 <? dep.(Deployment_Spec).(DeploymentSpec_Priority)
        then p ← attempt (tryPreemptForPriority dep dep.(Deployment_Spec).(DeploymentSpec_Resources));
             mret (match p with Ok b => b | Err _ => false end)
        else mret false);
      if preempted : bool then
        nodes ← ListNodes;
        r ← schedule dep nodes;
        of_res r
      else throw err
  end.

(** ["wk-%d-%04d"] *)
Definition workload_id : IO string :=
  t ← now; r ← rand_Intn;
  mret ("wk-" +:+ fmt_d (UnixNano t) +:+ "-" +:+ fmt_04d r).

Definition createWorkloadForDeployment (dep : Deployment) : IO unit :=
  node ← choose_node dep;
  ignore (emitEvent (event EventInfo "scheduler" "NodeSelected"
    "Scheduler selected node for workload" dep.(Deployment_ID) "" node.(Node_ID))) ;;
  id ← workload_id;
  created ← now; updated ← now;
  let workload := new_workload id dep node.(Node_ID) created updated in
  UpsertWorkload workload ;;
  UpsertNode (node <| Node_Used ::=
    fun u => take_up u dep.(Deployment_Spec).(DeploymentSpec_Resources) |>) ;;
  files ← resolveSecretFilesForDeployment dep;
  EnqueueAssignment (create_assignment dep workload files) ;;
  ignore (emitEvent (event EventInfo "reconcile" "AssignmentEnqueued"
    "Workload assignment enqueued" dep.(Deployment_ID) id node.(Node_ID))).

Definition enqueueDeleteForWorkload (dep : Deployment) (victim : Workload) : IO unit :=
  UpsertWorkload (victim <| Workload_Status := WorkloadTerminating |>) ;;
  EnqueueAssignment (delete_assignment victim) ;;
  ignore (emitEvent (event EventInfo "rollout" "OldRevisionScaledDown"
    "Scaled down old revision workload"
    dep.(Deployment_ID) victim.(Workload_ID) victim.(Workload_NodeID))).

End Placement.

#[export] Hint Unfold tryPreemptForPriority schedule choose_node workload_id
  createWorkloadForDeployment enqueueDeleteForWorkload : store.

Section PlacementFacts.
Context {DB : Type} `{!Badger Blob DB, !BadgerLaws Blob DB} {E : Env}.
Implicit Types (db : DB) (w : World DB).

Lemma wf_tryPreempt dep req : steps (keeps_db (db_wf (DB := DB))) (tryPreemptForPriority dep req).
Proof. store_steps. Qed.

Lemma wf_createWorkload dep : steps (keeps_db (db_wf (DB := DB))) (createWorkloadForDeployment dep).
Proof. store_steps. Qed.

Lemma wf_enqueueDelete dep victim :
  steps (keeps_db (db_wf (DB := DB))) (enqueueDeleteForWorkload dep victim).
Proof. store_steps. Qed.

End PlacementFacts.
