(* ===== verification/Reconcile.v ===== *)
(** * The deployment reconciler

    [reconcileDeployment], [reconcileDeletion] and
    [rollbackDeploymentLocked] of [internal/service/orchestrator.go].  Both
    reconcilers hold the orchestrator's mutex from the first to the last
    statement, so that one run is one step of the state. *)

From Stdlib Require Import Ascii String.
From Corelib Require Import SpecFloat.
From S2P Require Import Prelude GoLang GoFloat GoSort GoTime Effects Model Scheduler Badger World.
From S2P Require Import Store StoreFacts Events Secrets Rollout Placement.

(** ** Decisions of one pass *)

(** The number of new-revision replicas aimed at, and the rollout phase. *)
Definition rollout_target (dep : Deployment) (workloads : list Workload) : Z * string :=
  let spec := dep.(Deployment_Spec) in
  let rollout := spec.(DeploymentSpec_Rollout) in
  let active := activeWorkloads workloads in
  let newActive := activeForRevision active dep.(Deployment_CurrentRevision) in
  let oldActive := lenZ active -! lenZ newActive in
  if String.eqb rollout.(RolloutSpec_Strategy) RolloutStrategyCanary
     && rollout.(RolloutSpec_Canary).(CanarySpec_Enabled) && (0 <? oldActive) then
    let canaryTarget := go_div (spec.(DeploymentSpec_Replicas)
      *! rollout.(RolloutSpec_Canary).(CanarySpec_Percentage)) 100 in
    let canaryTarget := if canaryTarget <=? 0 then 1 else canaryTarget in
    let canaryTarget := if spec.(DeploymentSpec_Replicas) <? canaryTarget
      then spec.(DeploymentSpec_Replicas) else canaryTarget in
    if canaryTarget <=? runningCount (activeForRevision workloads dep.(Deployment_CurrentRevision))
    then (spec.(DeploymentSpec_Replicas), "CanaryPromoting")
    else (canaryTarget, "Canary")
  else (spec.(DeploymentSpec_Replicas), "Progressing").

Definition max_total (dep : Deployment) : Z :=
  let replicas := dep.(Deployment_Spec).(DeploymentSpec_Replicas) in
  let maxSurge := dep.(Deployment_Spec).(DeploymentSpec_Rollout)
                     .(RolloutSpec_RollingUpdate).(RollingUpdateSpec_MaxSurge) in
  let maxTotal := replicas +! maxSurge in
  if maxTotal <? replicas then replicas else maxTotal.

Definition min_available (dep : Deployment) : Z :=
  clamp0 (dep.(Deployment_Spec).(DeploymentSpec_Replicas)
    -! dep.(Deployment_Spec).(DeploymentSpec_Rollout)
          .(RolloutSpec_RollingUpdate).(RollingUpdateSpec_MaxUnavailable)).

(** The number of workloads to create. *)
Definition to_create (dep : Deployment) (workloads : list Workload) : Z :=
  let active := activeWorkloads workloads in
  let newActive := activeForRevision active dep.(Deployment_CurrentRevision) in
  let createNeeded := clamp0 ((rollout_target dep workloads).1 -! lenZ newActive) in
  let createBudget := clamp0 (max_total dep -! lenZ active) in
  minInt createNeeded createBudget.

Section Reconcile.
Context {DB : Type} `{!Badger Blob DB} {E : Env}.

Abbreviation IO := (M (World DB)).

(** [dep.Conditions = setCondition(dep.Conditions, ...)], stamped now *)
Definition with_condition (type : string) (status : bool) (reason message : string)
    (dep : Deployment) : IO Deployment :=
  t ← now;
  mret (dep <| Deployment_Conditions ::= fun c =>
    setCondition c (MkDeploymentCondition type status reason message t) |>).

Definition set_phase (phase message : string) (dep : Deployment) : Deployment :=
  dep <| Deployment_RolloutStatus ::= fun s =>
    s <| DeploymentRolloutStatus_Phase := phase |> <| DeploymentRolloutStatus_Message := message |> |>.

(** [dep.RolloutStatus.LastUpdatedAt = time.Now().UTC()] *)
Definition touch_rollout (dep : Deployment) : IO Deployment :=
  t ← now;
  mret (dep <| Deployment_RolloutStatus ::= set DeploymentRolloutStatus_LastUpdatedAt (fun _ => t) |>).

(** [dep.UpdatedAt = time.Now().UTC()] *)
Definition touch (dep : Deployment) : IO Deployment :=
  t ← now; mret (dep <| Deployment_UpdatedAt := t |>).

(** The pointer argument is the deployment before and, on [true], after. *)
Definition rollbackDeploymentLocked (dep : Deployment) (targetRevision : Z) (message : string)
    : IO (option Deployment) :=
  match List.find (fun r => r.(DeploymentRevision_Revision) =? targetRevision)
          dep.(Deployment_RevisionHistory) with
  | None => mret None
  | Some target =>
      let spec := target.(DeploymentRevision_Spec)
        <| DeploymentSpec_Rollout ::= normalizeRolloutSpec |> in
      let revision := dep.(Deployment_CurrentRevision) +! 1 in
      t ← now;
      mret (Some (dep <| Deployment_Spec := spec |>
        <| Deployment_Generation ::= fun g => g +! 1 |>
        <| Deployment_CurrentRevision := revision |>
        <| Deployment_RevisionHistory ::= fun h => h ++ [MkDeploymentRevision revision spec t] |>
        <| Deployment_Status := DeploymentPending |>
        <| Deployment_RolloutStatus ::= fun s =>
             s <| DeploymentRolloutStatus_Phase := "Rollback" |>
               <| DeploymentRolloutStatus_Message := message |>
               <| DeploymentRolloutStatus_StartedAt := t |>
               <| DeploymentRolloutStatus_LastUpdatedAt := t |> |>
        <| Deployment_Conditions ::= fun c =>
             setCondition c (MkDeploymentCondition ConditionProgressing true "RollbackStarted"
               message t) |>))
  end.

(** The rollout has a deadline and it has passed. *)
Definition deadline_passed (dep : Deployment) : IO bool :=
  let deadline := dep.(Deployment_Spec).(DeploymentSpec_Rollout)
                     .(RolloutSpec_ProgressDeadlineSeconds) in
  let status := dep.(Deployment_RolloutStatus) in
  if isRolloutInProgress status.(DeploymentRolloutStatus_Phase) && (0 <? deadline)
     && negb (IsZero status.(DeploymentRolloutStatus_StartedAt)) then
    t ← now;
    mret (After t (time_Add status.(DeploymentRolloutStatus_StartedAt) (seconds deadline)))
  else mret false.

Definition fail_rollout (dep : Deployment) : IO unit :=
  let message := "rollout progress deadline exceeded" in
  let dep := set_phase "Failed" message (dep <| Deployment_Status := DeploymentFailed |>) in
  dep ← touch_rollout dep;
  dep ← with_condition ConditionProgressing false "ProgressDeadlineExceeded" message dep;
  dep ← with_condition ConditionDegraded true "ProgressDeadlineExceeded" message dep;
  dep ← (if dep.(Deployment_Spec).(DeploymentSpec_Rollout).(RolloutSpec_AutoRollbackOnFailure)
            && (1 <? dep.(Deployment_CurrentRevision)) then
    r ← rollbackDeploymentLocked dep (dep.(Deployment_CurrentRevision) -! 1)
          "Automatic rollback after progress deadline exceeded";
    match r with
    | Some dep' =>
        ignore (emitEvent (event EventWarn "rollout" "AutoRollbackTriggered"
          "Automatic rollback triggered by progress deadline" dep'.(Deployment_ID) "" "")) ;;
        mret dep'
    | None => mret dep
    end
  else mret dep);
  dep ← touch dep;
  ignore (emitEvent (event EventWarn "rollout" "ProgressDeadlineExceeded"
    dep.(Deployment_RolloutStatus).(DeploymentRolloutStatus_Message) dep.(Deployment_ID) "" "")) ;;
  UpdateDeployment dep.

(** The creation loop: the error that stopped it, if any. *)
Fixpoint create_workloads (dep : Deployment) (n : nat) : IO (option error) :=
  match n with
  | O => mret None
  | S n' =>
      r ← attempt (createWorkloadForDeployment dep);
      match r with
      | Ok _ => create_workloads dep n'
      | Err err => mret (Some err)
      end
  end.

(** The body of the creation loop's error branch. *)
Definition placement_failed (dep : Deployment) (rolloutPhase : string) (err : error) : IO unit :=
  let dep := dep <| Deployment_Status := DeploymentPending |> in
  dep ← with_condition ConditionProgressing true "NoSchedulableNode" (Error err) dep;
  dep ← with_condition ConditionDegraded true "SchedulingFailed"
          "Scheduler could not place workload" dep;
  let dep := set_phase rolloutPhase "waiting for schedulable nodes" dep in
  dep ← touch_rollout dep;
  dep ← touch dep;
  ignore (UpdateDeployment dep) ;;
  ignore (emitEvent (event EventWarn "scheduler" "NoSchedulableNode"
    "Scheduler could not place workload" dep.(Deployment_ID) "" "")).

(** Scale down old revisions, then whatever exceeds the replica count. *)
Definition scale_down (deploymentID : string) (dep : Deployment) (active : list Workload) : IO unit :=
  let oldCandidates := oldRevisionWorkloads active dep.(Deployment_CurrentRevision) in
  let deleteBudget := lenZ active -! min_available dep in
  (if 0 <? deleteBudget then
     let toDelete := minInt (lenZ oldCandidates) deleteBudget in
     for_each (pickScaleDownVictims oldCandidates toDelete) (enqueueDeleteForWorkload dep)
   else mret tt) ;;
  workloads ← ListWorkloadsByDeployment deploymentID;
  let activeNow := activeWorkloads workloads in
  let excess := lenZ activeNow -! dep.(Deployment_Spec).(DeploymentSpec_Replicas) in
  if 0 <? excess then
    for_each (pickScaleDownVictims activeNow excess) (enqueueDeleteForWorkload dep)
  else mret tt.

Definition activeWorkloadsAfterRefresh (deploymentID : string) : IO (list Workload) :=
  r ← attempt (ListWorkloadsByDeployment deploymentID);
  mret (match r with Ok items => activeWorkloads items | Err _ => [] end).

Definition mark_stable (dep : Deployment) : Deployment :=
  set_phase "Stable" "rollout complete" (dep <| Deployment_Status := DeploymentRunning |>).

(** The status part: from the refreshed active workloads to the stored
    deployment. *)
Definition finish_reconcile (dep : Deployment) (rolloutPhase : string) : IO unit :=
  active ← activeWorkloadsAfterRefresh dep.(Deployment_ID);
  let replicas := dep.(Deployment_Spec).(DeploymentSpec_Replicas) in
  let updatedReplicas := lenZ (activeForRevision active dep.(Deployment_CurrentRevision)) in
  let readyReplicas := runningCountFromSlice active in
  let unavailable := clamp0 (replicas -! readyReplicas) in
  let remainingOld := lenZ (oldRevisionWorkloads active dep.(Deployment_CurrentRevision)) in
  let stable := (remainingOld =? 0) && (replicas <=? updatedReplicas) && (unavailable =? 0) in
  dep ← (if stable then
    dep ← with_condition ConditionAvailable true "DesiredReplicasPlaced"
            "Desired replica count has been placed" (mark_stable dep);
    dep ← with_condition ConditionProgressing false "ReconciliationStable"
            "Reconciliation reached stable state" dep;
    with_condition ConditionDegraded false "Healthy" "Deployment is healthy" dep
  else
    let message := "rollout in progress: updated=" +:+ fmt_d updatedReplicas +:+ " ready="
      +:+ fmt_d readyReplicas +:+ " unavailable=" +:+ fmt_d unavailable
      +:+ " old=" +:+ fmt_d remainingOld in
    let dep := set_phase rolloutPhase message (dep <| Deployment_Status := DeploymentPending |>) in
    dep ← with_condition ConditionProgressing true "RolloutInProgress" message dep;
    let availableNow := (replicas <=? readyReplicas) && (remainingOld =? 0) in
    dep ← with_condition ConditionAvailable availableNow "ReplicaReadiness"
            "Availability evaluated" dep;
    if availableNow then
      dep ← with_condition ConditionProgressing false "ReconciliationStable"
              "Reconciliation reached stable state" (mark_stable dep);
      with_condition ConditionDegraded false "Healthy" "Deployment is healthy" dep
    else mret dep);
  let dep := dep <| Deployment_ObservedGeneration := dep.(Deployment_Generation) |>
    <| Deployment_RolloutStatus ::= fun s =>
         s <| DeploymentRolloutStatus_UpdatedReplicas := updatedReplicas |>
           <| DeploymentRolloutStatus_ReadyReplicas := readyReplicas |>
           <| DeploymentRolloutStatus_UnavailableReplicas := unavailable |> |> in
  dep ← touch_rollout dep;
  dep ← touch dep;
  ignore (emitEvent (event EventInfo "rollout" "RolloutProgress"
    dep.(Deployment_RolloutStatus).(DeploymentRolloutStatus_Message) dep.(Deployment_ID) "" "")) ;;
  UpdateDeployment dep.

(** The deployment as the pass works on it. *)
Definition prepare (dep : Deployment) : Deployment :=
  let dep := dep <| Deployment_Spec ::= set DeploymentSpec_Rollout normalizeRolloutSpec |> in
  if dep.(Deployment_CurrentRevision) <=? 0 then dep <| Deployment_CurrentRevision := 1 |> else dep.

Definition reconcileDeployment (deploymentID : string) : IO unit :=
  dep ← GetDeployment deploymentID;
  let dep := prepare dep in
  late ← deadline_passed dep;
  if late : bool then fail_rollout dep else
  workloads ← ListWorkloadsByDeployment deploymentID;
  let '(_, rolloutPhase) := rollout_target dep workloads in
  failure ← create_workloads dep (Z.to_nat (to_create dep workloads));
  match failure with
  | Some err => placement_failed dep rolloutPhase err
  | None =>
      workloads ← ListWorkloadsByDeployment deploymentID;
      (if negb (String.eqb rolloutPhase "Canary")
       then scale_down deploymentID dep (activeWorkloads workloads) else mret tt) ;;
      finish_reconcile dep rolloutPhase
  end.

(** The iteration variable is a copy: the later count sees the old statuses. *)
Definition cleanup_workload (dep : Deployment) (w : Workload) : IO unit :=
  if String.eqb w.(Workload_Status) WorkloadTerminating
     || String.eqb w.(Workload_Status) WorkloadTerminated then mret tt else
  UpsertWorkload (w <| Workload_Status := WorkloadTerminating |>) ;;
  EnqueueAssignment (delete_assignment w) ;;
  ignore (emitEvent (event EventInfo "reconcile" "CleanupAssignmentEnqueued"
    "Enqueued workload cleanup assignment"
    dep.(Deployment_ID) w.(Workload_ID) w.(Workload_NodeID))).

Definition not_terminated (w : Workload) : bool :=
  negb (String.eqb w.(Workload_Status) WorkloadTerminated).

Definition reconcileDeletion (deploymentID : string) : IO unit :=
  dep ← GetDeployment deploymentID;
  workloads ← ListWorkloadsByDeployment deploymentID;
  for_each workloads (cleanup_workload dep) ;;
  if 0 <? lenZ (List.filter not_terminated workloads) then mret tt else
  let dep := dep <| Deployment_Finalizers ::= fun f => removeFinalizer f "workloads.cleanup" |> in
  if 0 <? lenZ dep.(Deployment_Finalizers) then UpdateDeployment dep else
  DeleteDeployment dep.(Deployment_ID) ;;
  ignore (emitEvent (event EventInfo "reconcile" "DeploymentDeleted"
    "Deployment fully deleted after finalizers completed" dep.(Deployment_ID) "" "")).

End Reconcile.

#[export] Hint Unfold with_condition touch_rollout touch deadline_passed
  fail_rollout placement_failed scale_down activeWorkloadsAfterRefresh finish_reconcile
  cleanup_workload : store.

(** A rollback works on the deployment in hand. *)
Lemma steps_rollback {DB : Type} `{!Badger Blob DB} {E : Env} (P : relation DB) `{!PreOrder P} dep r msg :
  steps (dbrel P) (rollbackDeploymentLocked dep r msg).
Proof. unfold rollbackDeploymentLocked. steps_tac. Qed.

#[export] Hint Extern 1 (steps _ (rollbackDeploymentLocked _ _ _)) =>
  apply steps_rollback; typeclasses eauto : steps.
