(* ===== verification/ReconcileFacts.v ===== *)
(** * Correctness of the reconciler

    How many active workloads a pass may add or remove, whatever fails on the
    way; the invariant of the store; and what a pass without failures does. *)

From Stdlib Require Import Ascii String.
From Corelib Require Import SpecFloat.
From S2P Require Import Prelude GoLang GoFloat GoSort GoTime Effects Model Scheduler Badger World.
From S2P Require Import Store StoreFacts StoreTheorems Events Secrets Rollout Placement Reconcile.

Section ReconcileFacts.
Context {DB : Type} `{!Badger Blob DB, !BadgerLaws Blob DB} {E : Env}.
Implicit Types (db : DB) (w : World DB).

(** ** The store's invariant *)

Lemma wf_create_workloads dep n :
  steps (keeps_db (db_wf (DB := DB))) (create_workloads dep n).
Proof. induction n as [|n IH]; cbn [create_workloads]; store_steps; eauto. Qed.

(** ** Counting active workloads *)

Definition counts (id : string) (x : Workload) : bool :=
  String.eqb x.(Workload_DeploymentID) id && is_active x.

(** The number of active workloads of a deployment. *)
Definition nactive (id : string) db : Z :=
  lenZ (activeWorkloads (of_deployment id (list_of "workload:" db))).

Lemma filter_filter {A} (f g : A -> bool) l :
  List.filter f (List.filter g l) = List.filter (fun x => g x && f x) l.
Proof.
  induction l as [|x l IH]; simpl; [done|]. destruct (g x); simpl; [|done].
  destruct (f x); by rewrite IH.
Qed.

Lemma nactive_counts id db :
  nactive id db = lenZ (List.filter (counts id) (list_of "workload:" db)).
Proof. unfold nactive, activeWorkloads, of_deployment. by rewrite filter_filter. Qed.

Lemma nactive_nonneg id db : 0 <= nactive id db.
Proof. apply lenZ_nonneg. Qed.

Lemma lenZ_filter_cons {A} (f : A -> bool) x l :
  lenZ (List.filter f (x :: l)) = Z.b2z (f x) + lenZ (List.filter f l).
Proof. simpl. destruct (f x); simpl; [rewrite lenZ_cons; lia|lia]. Qed.

(** The number of workloads with a property, and how a write changes it. *)
Definition tally (f : Workload -> bool) db : Z := lenZ (List.filter f (list_of "workload:" db)).

Definition holds (f : Workload -> bool) (o : option Blob) : Z :=
  match o ≫= project with Some x => Z.b2z (f x) | None => 0 end.

Lemma tally_nonneg f db : 0 <= tally f db.
Proof. apply lenZ_nonneg. Qed.

Lemma tally_set f db k (x : Workload) :
  HasPrefix k "workload:" = true ->
  tally f (db_set db k (inject x)) = tally f db - holds f (db_get db k) + Z.b2z (f x).
Proof.
  intros Hk. unfold tally.
  destruct (list_of_set "workload:" db k x Hk) as (rest & H1 & H2).
  rewrite (lenZ_perm _ _ (filter_perm _ _ _ H2)), lenZ_filter_cons.
  rewrite (lenZ_perm _ _ (filter_perm _ _ _ H1)). unfold holds.
  destruct (db_get db k ≫= project) as [y|];
    [change (option_list (Some y) ++ rest) with (y :: rest); rewrite lenZ_filter_cons|simpl]; lia.
Qed.

Lemma tally_delete f db k :
  HasPrefix k "workload:" = true -> tally f (db_delete db k) = tally f db - holds f (db_get db k).
Proof.
  intros Hk. unfold tally, holds.
  rewrite (lenZ_perm _ _ (filter_perm _ _ _ (list_of_delete (T := Workload) "workload:" db k Hk))).
  destruct (db_get db k ≫= project) as [y|];
    [change (option_list (Some y) ++ ?l) with (y :: l); rewrite lenZ_filter_cons|simpl]; lia.
Qed.

Lemma tally_same f db db' : same_under "workload:" db db' -> tally f db' = tally f db.
Proof. intros H. unfold tally. by rewrite (same_under_list _ _ _ H). Qed.

(** How much the document under a key contributes. *)
Definition contributes (id : string) (o : option Blob) : Z := holds (counts id) o.

Lemma contributes_bound id o : 0 <= contributes id o <= 1.
Proof.
  unfold contributes, holds. destruct (o ≫= project); [destruct (counts id w)|]; simpl; lia.
Qed.

Lemma nactive_set id db k (x : Workload) :
  HasPrefix k "workload:" = true ->
  nactive id (db_set db k (inject x))
  = nactive id db - contributes id (db_get db k) + Z.b2z (counts id x).
Proof. rewrite !nactive_counts. apply tally_set. Qed.

Lemma nactive_delete id db k :
  HasPrefix k "workload:" = true ->
  nactive id (db_delete db k) = nactive id db - contributes id (db_get db k).
Proof. rewrite !nactive_counts. apply tally_delete. Qed.

Lemma nactive_same id db db' : same_under "workload:" db db' -> nactive id db' = nactive id db.
Proof. intros H. unfold nactive. by rewrite (same_under_list _ _ _ H). Qed.

(** ** Drift

    [m] keeps the invariant, removes at most [lo] active workloads of [id] and
    adds at most [hi]. *)
Definition drift (id : string) (lo hi : Z) {A} (m : M (World DB) A) : Prop :=
  forall n, hoare (fun w => wf w /\ nactive id w.(w_db) = n) m
    (fun _ w => wf w /\ n - lo <= nactive id w.(w_db) <= n + hi).

Lemma drift_weaken id lo hi lo' hi' {A} (m : M (World DB) A) :
  drift id lo hi m -> lo <= lo' -> hi <= hi' -> drift id lo' hi' m.
Proof. intros H ? ? n w Hw. destruct (H n w Hw) as [? ?]. split; [done|lia]. Qed.

Lemma drift_bind id lo hi lo' hi' {A B} (m : M (World DB) A) (k : A -> M (World DB) B) :
  drift id lo hi m -> (forall a, drift id lo' hi' (k a)) -> 0 <= lo' -> 0 <= hi' ->
  drift id (lo + lo') (hi + hi') (m ≫= k).
Proof.
  intros Hm Hk ? ? n. eapply hoare_bind; [apply Hm| |].
  - intros a w [Hw Hn]. destruct (Hk a _ w (conj Hw eq_refl)) as [? ?]. split; [done|lia].
  - intros e w [Hw Hn]. split; [done|lia].
Qed.

Lemma drift_bind0 id lo hi {A B} (m : M (World DB) A) (k : A -> M (World DB) B) :
  drift id 0 0 m -> (forall a, drift id lo hi (k a)) -> 0 <= lo -> 0 <= hi ->
  drift id lo hi (m ≫= k).
Proof. intros. change (drift id (0 + lo) (0 + hi) (m ≫= k)). by apply drift_bind. Qed.

Lemma drift_frame id {A} (m : M (World DB) A) :
  steps (keeps_db db_wf) m -> steps (dbrel (same_under "workload:")) m -> drift id 0 0 m.
Proof.
  intros Hwf Hs n w [Hw <-]. split; [by apply Hwf|]. rewrite (nactive_same _ _ _ (Hs w)). lia.
Qed.

Lemma drift_attempt id lo hi {A} (m : M (World DB) A) : drift id lo hi m -> drift id lo hi (attempt m).
Proof. intros H n. apply hoare_attempt, H. Qed.

Lemma drift_for_each id {A} (l : list A) (body : A -> M (World DB) unit) :
  (forall x, x ∈ l -> drift id 1 0 (body x)) -> drift id (lenZ l) 0 (for_each l body).
Proof.
  induction l as [|x l IH]; intros H; cbn [for_each].
  - intros n w [Hw <-]. split; [done|]. change (lenZ []) with 0. simpl. lia.
  - rewrite lenZ_cons, Z.add_comm. apply (drift_bind id 1 0 (lenZ l) 0); [apply H; left| |..].
    + intros _. apply IH. intros y Hy. apply H. by right.
    + apply lenZ_nonneg.
    + done.
Qed.

Lemma drift_UpsertWorkload id x :
  drift id (1 - Z.b2z (counts id x)) (Z.b2z (counts id x)) (UpsertWorkload x).
Proof.
  intros n w [Hw <-]. split; [by apply (wf_run_op (OpUpsertWorkload x))|].
  unfold UpsertWorkload, now, ask, put, mbind, M_bind. simpl. unfold db_Update.
  assert (0 <= Z.b2z (counts id x) <= 1) by (destruct (counts id x); simpl; lia).
  destruct (env_dberr _); cbn [snd]; [simpl; lia|].
  match goal with |- context [nactive id (w_db (?w1 <| w_db := ?d |>))] =>
    change (w_db (w1 <| w_db := d |>)) with d end.
  rewrite (nactive_set id _ _ (x <| Workload_UpdatedAt := _ |>)) by apply (HasPrefix_app "workload:").
  change (counts id (x <| Workload_UpdatedAt := _ |>)) with (counts id x).
  change (w_db (w <| w_tick ::= S |>)) with (w_db w).
  pose proof (contributes_bound id (db_get (w_db w) (keyWorkload (Workload_ID x)))). lia.
Qed.

(** ** The workloads as last listed *)

Definition seen (l : list Workload) w : Prop := wf w /\ list_of "workload:" w.(w_db) = l.

Lemma hoare_seen {A} (m : M (World DB) A) l :
  steps (keeps_db db_wf) m -> steps (dbrel (same_under "workload:")) m ->
  hoare (seen l) m (fun _ => seen l).
Proof.
  intros Hwf Hs w [Hw <-]. split; [by apply Hwf|]. apply same_under_list, Hs.
Qed.

Lemma hoare_ListWorkloads l :
  hoare (seen l) ListWorkloads (fun r w => seen l w /\ forall l', r = Ok l' -> l' = l).
Proof.
  intros w [Hw <-]. unfold ListWorkloads, listPrefix, db_View.
  destruct (env_dberr _); cbn; [done|]. split; [done|]. intros l'. apply decode_all_list_of.
Qed.

Lemma hoare_ListByDeployment id l :
  hoare (seen l) (ListWorkloadsByDeployment id)
    (fun r w => seen l w /\ forall l', r = Ok l' -> l' = of_deployment id l).
Proof.
  unfold ListWorkloadsByDeployment. eapply hoare_bind; [apply hoare_ListWorkloads| |].
  - intros a. apply hoare_ret. intros w [Hs Ha]. split; [done|]. intros l' [= <-].
    by rewrite (Ha a eq_refl).
  - intros e w [Hs _]. by split.
Qed.

Lemma seen_nactive id l w :
  seen l w -> nactive id w.(w_db) = lenZ (activeWorkloads (of_deployment id l)).
Proof. by intros [_ <-]. Qed.

Lemma hoare_DeleteWorkload id victim l :
  victim ∈ l -> counts id victim = false ->
  hoare (seen l) (DeleteWorkload victim.(Workload_ID))
    (fun _ w => wf w /\ nactive id w.(w_db) = lenZ (activeWorkloads (of_deployment id l))).
Proof.
  intros Hin Hc w [Hw <-]. fold (nactive id (w_db w)). split; [by apply wf_del|].
  unfold DeleteWorkload, del, db_Update. destruct (env_dberr _); cbn; [done|].
  rewrite nactive_delete by apply (HasPrefix_app "workload:").
  apply elem_of_list_of in Hin as [_ Hg]; [|done]. simpl in Hg. rewrite Hg.
  unfold contributes, holds. cbn. rewrite Hc. simpl. lia.
Qed.

Lemma preempt_choice_elem nodes req cs victim node :
  preempt_choice nodes req cs = Some (victim, node) -> victim ∈ cs.
Proof.
  unfold preempt_choice. intros H. apply head_Some_elem_of in H.
  apply list_elem_of_omap in H as (x & Hx & Hv). repeat case_match; naive_solver.
Qed.

Lemma preempt_candidates_elem dep l victim :
  victim ∈ preempt_candidates dep l ->
  victim ∈ l /\ victim.(Workload_Priority) < dep.(Deployment_Spec).(DeploymentSpec_Priority)
  /\ counts dep.(Deployment_ID) victim = false.
Proof.
  unfold preempt_candidates. rewrite SliceStable_perm, list_elem_of_In, List.filter_In.
  rewrite <- list_elem_of_In, andb_true_iff, Z.ltb_lt, negb_true_iff. intros (Hin & Hp & Hd).
  split; [done|]. split; [done|]. unfold counts. by rewrite Hd.
Qed.

End ReconcileFacts.

#[export] Hint Extern 2 (steps (keeps_db db_wf) (create_workloads _ _)) =>
  apply wf_create_workloads : steps.
#[export] Hint Extern 2 (steps (keeps_db db_wf) (DeleteDeployment _)) =>
  apply wf_DeleteDeployment : steps.

Section Bounds.
Context {DB : Type} `{!Badger Blob DB, !BadgerLaws Blob DB} {E : Env}.
Implicit Types (db : DB) (w : World DB).

Abbreviation drifts := (drift (DB := DB)).

Lemma hoare_tryPreempt dep req l :
  hoare (seen l) (tryPreemptForPriority dep req)
    (fun _ w => wf w /\ nactive dep.(Deployment_ID) w.(w_db)
       = lenZ (activeWorkloads (of_deployment dep.(Deployment_ID) l))).
Proof.
  set (id := Deployment_ID dep). set (n := lenZ _).
  assert (Hdone : forall w : World DB, seen l w -> wf w /\ nactive id (w_db w) = n).
  { intros w Hl. split; [apply Hl|by apply seen_nactive]. }
  unfold tryPreemptForPriority. eapply hoare_bind; [apply hoare_ListWorkloads| |].
  2: { intros e w [? _]. eauto. }
  intros ws. apply hoare_pure. intros Hws. rewrite (Hws ws eq_refl).
  eapply hoare_bind; [apply hoare_seen; store_steps| |by eauto].
  intros nodes. destruct (preempt_choice _ _ _) as [[victim node]|] eqn:Ec; [|by apply hoare_ret; eauto].
  apply preempt_choice_elem, preempt_candidates_elem in Ec as (Hin & _ & Hc).
  eapply hoare_bind; [apply hoare_seen; store_steps| |by eauto]. intros [].
  eapply hoare_bind; [by apply (hoare_DeleteWorkload id)| |done]. intros [].
  set (m := ignore _ ;; _). assert (Hm : drifts id 0 0 m) by (apply drift_frame; subst m; store_steps).
  intros w [Hw Hn]. destruct (Hm n w (conj Hw Hn)) as [? ?]. split; [done|lia].
Qed.

Lemma drift_tryPreempt dep req : drifts dep.(Deployment_ID) 0 0 (tryPreemptForPriority dep req).
Proof.
  intros n w [Hw <-]. destruct (hoare_tryPreempt dep req _ w (conj Hw eq_refl)) as [? ->].
  split; [done|]. unfold nactive. lia.
Qed.

Lemma drift_enqueueDelete id dep victim : drifts id 1 0 (enqueueDeleteForWorkload dep victim).
Proof.
  unfold enqueueDeleteForWorkload. apply (drift_bind id 1 0 0 0); [|intros _|done|done].
  - eapply drift_weaken; [apply drift_UpsertWorkload| |]; unfold counts; simpl;
      rewrite andb_false_r; simpl; lia.
  - apply drift_frame; store_steps.
Qed.

Lemma drift_choose_node dep : drifts dep.(Deployment_ID) 0 0 (choose_node dep).
Proof.
  unfold choose_node.
  apply drift_bind0; [apply drift_frame; store_steps|intros nodes|done|done].
  apply drift_bind0; [apply drift_frame; store_steps|intros r|done|done].
  destruct r as [node|err]; [apply drift_frame; store_steps|].
  apply drift_bind0; [|intros b; apply drift_frame; store_steps|done|done].
  destruct (0 <? _); [|apply drift_frame; store_steps].
  apply drift_bind0; [apply drift_attempt, drift_tryPreempt|intros p; apply drift_frame; store_steps|done..].
Qed.

Lemma drift_createWorkload dep :
  drifts dep.(Deployment_ID) 0 1 (createWorkloadForDeployment dep).
Proof.
  unfold createWorkloadForDeployment.
  apply drift_bind0; [apply drift_choose_node|intros node|lia|lia].
  do 4 (apply drift_bind0; [apply drift_frame; store_steps|intros ?|lia|lia]). cbv zeta.
  apply (drift_bind _ 0 1 0 0); [|intros _; apply drift_frame; store_steps|done|done].
  eapply drift_weaken; [apply drift_UpsertWorkload| |]; unfold counts; simpl;
    rewrite String.eqb_refl; simpl; lia.
Qed.

Lemma drift_create_workloads dep n :
  drifts dep.(Deployment_ID) 0 (Z.of_nat n) (create_workloads dep n).
Proof.
  induction n as [|n IH]; cbn [create_workloads]; [apply drift_frame; store_steps|].
  rewrite Nat2Z.inj_succ, <- Z.add_1_l. change 0 with (0 + 0) at 1.
  apply drift_bind; [apply drift_attempt, drift_createWorkload| |lia|lia].
  intros [_|err]; [apply IH|]. eapply drift_weaken; [apply drift_frame; store_steps|lia|lia].
Qed.

(** ** Scaling down *)

Definition sane_counts (dep : Deployment) : Prop :=
  let spec := dep.(Deployment_Spec) in
  let ru := spec.(DeploymentSpec_Rollout).(RolloutSpec_RollingUpdate) in
  0 <= spec.(DeploymentSpec_Replicas) <= i64_max
  /\ in_i64 ru.(RollingUpdateSpec_MaxSurge) /\ in_i64 ru.(RollingUpdateSpec_MaxUnavailable).

Lemma min_available_spec dep :
  sane_counts dep -> 0 <= dep.(Deployment_Spec).(DeploymentSpec_Rollout)
    .(RolloutSpec_RollingUpdate).(RollingUpdateSpec_MaxUnavailable) ->
  min_available dep = Z.max 0 (dep.(Deployment_Spec).(DeploymentSpec_Replicas)
    - dep.(Deployment_Spec).(DeploymentSpec_Rollout)
        .(RolloutSpec_RollingUpdate).(RollingUpdateSpec_MaxUnavailable)).
Proof.
  intros (HR & _ & HU) H0. unfold min_available, clamp0. unfold in_i64, i64_min, i64_max in *.
  rewrite wrap64_id by (unfold in_i64, i64_min, i64_max; lia).
  match goal with |- (if ?a <? 0 then _ else _) = _ => destruct (Z.ltb_spec a 0) end; lia.
Qed.

Lemma max_total_spec dep :
  sane_counts dep -> 0 <= dep.(Deployment_Spec).(DeploymentSpec_Rollout)
    .(RolloutSpec_RollingUpdate).(RollingUpdateSpec_MaxSurge) ->
  dep.(Deployment_Spec).(DeploymentSpec_Replicas) <= max_total dep <= i64_max
  /\ max_total dep <= dep.(Deployment_Spec).(DeploymentSpec_Replicas)
       + dep.(Deployment_Spec).(DeploymentSpec_Rollout)
          .(RolloutSpec_RollingUpdate).(RollingUpdateSpec_MaxSurge).
Proof.
  intros (HR & HS & _) H0. unfold max_total. cbv zeta.
  set (R := DeploymentSpec_Replicas _) in *. set (S := RollingUpdateSpec_MaxSurge _) in *.
  pose proof (wrap64_range (R + S)) as Hr. destruct (wrap64_eqm (R + S)) as [k Hk].
  unfold in_i64, i64_min, i64_max in *. destruct (Z.ltb_spec (R +! S) R); lia.
Qed.

(** Listing a deployment's workloads tells how many are active. *)
Lemma hoare_count id (F : Z -> Prop) :
  hoare (fun w : World DB => wf w /\ F (nactive id w.(w_db))) (ListWorkloadsByDeployment id)
    (fun r w => (wf w /\ F (nactive id w.(w_db)))
       /\ forall l, r = Ok l -> F (lenZ (activeWorkloads l)) /\ lenZ (activeWorkloads l) = nactive id w.(w_db)).
Proof.
  intros w [Hw HF]. pose proof (hoare_ListByDeployment id _ w (conj Hw eq_refl)) as [Hl Hr].
  pose proof (seen_nactive id _ _ Hl) as Hn. fold (nactive id (w_db w)) in Hn.
  split; [split; [apply Hl|by rewrite Hn]|]. intros l Hl'. rewrite (Hr l Hl').
  fold (nactive id (w_db w)). by rewrite Hn.
Qed.

Lemma lenZ_victims l count : 0 <= count -> lenZ (pickScaleDownVictims l count) <= count.
Proof. intros H. rewrite pickScaleDownVictims_length. lia. Qed.

(** The loop over the victims removes at most [count] active workloads. *)
Lemma drift_victims id dep l count :
  0 <= count -> drifts id count 0 (for_each (pickScaleDownVictims l count) (enqueueDeleteForWorkload dep)).
Proof.
  intros Hc. eapply drift_weaken; [apply drift_for_each|by apply lenZ_victims|lia].
  intros x _. apply drift_enqueueDelete.
Qed.

Lemma scale_down_bounds id dep l n :
  sane_counts dep -> 0 <= n <= i64_max -> lenZ l = n ->
  0 <= min_available dep <= dep.(Deployment_Spec).(DeploymentSpec_Replicas) ->
  hoare (fun w : World DB => wf w /\ nactive id w.(w_db) = n) (scale_down id dep l)
    (fun _ w => wf w /\ Z.min n (min_available dep) <= nactive id w.(w_db) <= n).
Proof.
  intros (HR & _) Hn Hl Hm. unfold scale_down. cbv zeta. rewrite Hl.
  set (R := DeploymentSpec_Replicas _) in *. set (m := min_available dep) in *.
  unfold in_i64, i64_min, i64_max in *.
  rewrite (wrap64_id (n - m)) by (unfold in_i64, i64_min, i64_max; lia).
  apply hoare_bind with (R := fun _ w => wf w /\ Z.min n m <= nactive id (w_db w) <= n); [| |done].
  - destruct (Z.ltb_spec 0 (n - m)); [|apply hoare_ret; intros w [? ?]; split; [done|lia]].
    set (c := minInt _ _). assert (0 <= c <= n - m).
    { unfold c. rewrite minInt_spec. pose proof (lenZ_nonneg (oldRevisionWorkloads l (Deployment_CurrentRevision dep))). lia. }
    eapply hoare_conseq; [apply (drift_victims id dep _ c ltac:(lia) n)|done|].
    intros _ w [? ?]. split; [done|lia].
  - intros _. eapply hoare_bind; [apply (hoare_count id (fun x => Z.min n m <= x <= n))| |].
    2: { intros e w [? _]. done. }
    intros ws w [[Hw Hb] Hws]. destruct (Hws ws eq_refl) as [Hb' Hlen].
    rewrite wrap64_id by (unfold in_i64, i64_min, i64_max; lia).
    destruct (Z.ltb_spec 0 (lenZ (activeWorkloads ws) - R)); [|split; [done|simpl; lia]].
    destruct (drift_victims id dep (activeWorkloads ws) (lenZ (activeWorkloads ws) - R)
      ltac:(lia) _ w (conj Hw eq_refl)) as [? ?]. split; [done|lia].
Qed.

(** ** A whole pass *)

Lemma prepare_spec dep :
  (prepare dep).(Deployment_Spec)
  = dep.(Deployment_Spec) <| DeploymentSpec_Rollout ::= normalizeRolloutSpec |>.
Proof. unfold prepare. by case_match. Qed.

Lemma prepare_ID dep : (prepare dep).(Deployment_ID) = dep.(Deployment_ID).
Proof. unfold prepare. by case_match. Qed.

Lemma prepare_RollingUpdate dep :
  (prepare dep).(Deployment_Spec).(DeploymentSpec_Rollout).(RolloutSpec_RollingUpdate)
  = dep.(Deployment_Spec).(DeploymentSpec_Rollout).(RolloutSpec_RollingUpdate)
      <| RollingUpdateSpec_MaxSurge ::= clamp0 |> <| RollingUpdateSpec_MaxUnavailable ::= clamp0 |>.
Proof. rewrite prepare_spec. apply normalizeRolloutSpec_RollingUpdate. Qed.

Lemma prepare_sane dep : sane_counts dep -> sane_counts (prepare dep).
Proof.
  unfold sane_counts. rewrite prepare_RollingUpdate, prepare_spec. simpl. unfold clamp0, in_i64, i64_min, i64_max.
  intros (? & ? & ?). repeat case_match; lia.
Qed.

(** The deployment read back is the one stored, under its own ID. *)
Lemma hoare_GetDeployment id dep n :
  hoare (fun w : World DB => (wf w /\ nactive id w.(w_db) = n)
           /\ db_get w.(w_db) (keyDeployment id) = Some (BDeployment dep))
    (GetDeployment id)
    (fun r w => (wf w /\ nactive id w.(w_db) = n)
       /\ forall d, r = Ok d -> d = dep /\ dep.(Deployment_ID) = id).
Proof.
  intros w [[Hw Hn] Hg]. unfold GetDeployment, get, db_View, get_in.
  destruct (env_dberr _); cbn; [done|]. rewrite Hg. cbn. split; [done|]. intros d [= <-].
  split; [done|]. specialize (Hw _ _ Hg). simpl in Hw. by apply string_app_inj_l in Hw.
Qed.

Lemma hoare_still id {A} (m : M (World DB) A) (F : Z -> Prop) :
  drifts id 0 0 m ->
  hoare (fun w => wf w /\ F (nactive id w.(w_db))) m (fun _ w => wf w /\ F (nactive id w.(w_db))).
Proof.
  intros H w [Hw HF]. destruct (H _ w (conj Hw eq_refl)) as [? ?]. split; [done|].
  by replace (nactive id (w_db (m w).2)) with (nactive id (w_db w)) by lia.
Qed.

Lemma to_create_bounds dep l :
  sane_counts dep -> lenZ (activeWorkloads l) <= i64_max ->
  0 <= dep.(Deployment_Spec).(DeploymentSpec_Rollout)
    .(RolloutSpec_RollingUpdate).(RollingUpdateSpec_MaxSurge) ->
  lenZ (activeWorkloads l) + Z.of_nat (Z.to_nat (to_create dep l))
  <= Z.max (lenZ (activeWorkloads l)) (max_total dep).
Proof.
  intros Hs Hn H0. unfold to_create. cbv zeta. rewrite minInt_spec.
  pose proof (clamp0_nonneg ((rollout_target dep l).1 -! lenZ
    (activeForRevision (activeWorkloads l) (Deployment_CurrentRevision dep)))).
  pose proof (lenZ_nonneg (activeWorkloads l)).
  destruct (max_total_spec dep Hs H0) as [[? ?] _]. destruct Hs as [[? ?] _].
  rewrite (wrap64_id (max_total dep - _)) by (unfold in_i64, i64_min, i64_max in *; lia).
  set (x := clamp0 (_ -! _)) in *. set (y := max_total dep - _) in *. unfold clamp0.
  destruct (Z.ltb_spec y 0); lia.
Qed.

(** The part of a pass after the first listing. *)
Lemma reconcile_rest_bounds id dep l n lo hi :
  dep.(Deployment_ID) = id -> sane_counts dep ->
  0 <= min_available dep <= dep.(Deployment_Spec).(DeploymentSpec_Replicas) ->
  0 <= dep.(Deployment_Spec).(DeploymentSpec_Rollout)
    .(RolloutSpec_RollingUpdate).(RollingUpdateSpec_MaxSurge) ->
  lenZ (activeWorkloads l) = n -> n <= i64_max ->
  lo = Z.min n (min_available dep) -> hi = Z.max n (max_total dep) ->
  hoare (fun w : World DB => wf w /\ nactive id w.(w_db) = n)
    (failure ← create_workloads dep (Z.to_nat (to_create dep l));
     match failure with
     | Some err => placement_failed dep (rollout_target dep l).2 err
     | None =>
         workloads ← ListWorkloadsByDeployment id;
         (if negb (String.eqb (rollout_target dep l).2 "Canary")
          then scale_down id dep (activeWorkloads workloads) else mret tt) ;;
         finish_reconcile dep (rollout_target dep l).2
     end)
    (fun _ w => wf w /\ lo <= nactive id w.(w_db) <= hi).
Proof.
  intros Hid Hs Hm H0 Hl Hn -> ->. pose proof (to_create_bounds dep l Hs) as Hc. rewrite Hl in Hc.
  specialize (Hc Hn H0). destruct (max_total_spec dep Hs H0) as [[? ?] _].
  assert (Hn0 : 0 <= n) by (rewrite <- Hl; apply lenZ_nonneg).
  apply hoare_bind with (R := fun _ w => wf w /\ n <= nactive id w.(w_db) <= Z.max n (max_total dep)).
  { intros w Hw. subst id.
    destruct (drift_create_workloads dep (Z.to_nat (to_create dep l)) n w Hw) as [? ?].
    split; [done|lia]. }
  2: { intros e w [? ?]. split; [done|lia]. }
  intros [err|].
  { eapply hoare_conseq; [apply (hoare_still id _ (fun x => n <= x <= Z.max n (max_total dep)));
      apply drift_frame; store_steps|done|]. intros r w [? ?]. split; [done|lia]. }
  eapply hoare_bind; [apply (hoare_count id (fun x => n <= x <= Z.max n (max_total dep)))| |].
  2: { intros e w [[? ?] _]. split; [done|lia]. }
  intros ws. set (n1 := lenZ (activeWorkloads ws)).
  apply (hoare_fact (n <= n1 <= Z.max n (max_total dep)) _
    (fun w => wf w /\ nactive id w.(w_db) = n1)); [|intros Hb].
  { intros w [[Hw _] Hws]. by destruct (Hws ws eq_refl) as [Hb Hlen]. }
  apply hoare_bind with (R := fun _ w => wf w
    /\ Z.min n (min_available dep) <= nactive id (w_db w) <= Z.max n (max_total dep)); [| |done].
  - destruct (negb _); [|apply hoare_ret; intros w [? ?]; split; [done|lia]].
    eapply hoare_conseq; [apply (scale_down_bounds id dep (activeWorkloads ws) n1 Hs); [lia|done|done]|done|].
    intros _ w [? ?]. split; [done|lia].
  - intros _. apply (hoare_still id _ (fun x => Z.min n (min_available dep) <= x <= Z.max n (max_total dep))).
    apply drift_frame; store_steps.
Qed.

Lemma reconcile_prepared_bounds id dep n :
  dep.(Deployment_ID) = id -> sane_counts dep ->
  0 <= min_available dep <= dep.(Deployment_Spec).(DeploymentSpec_Replicas) ->
  0 <= dep.(Deployment_Spec).(DeploymentSpec_Rollout)
    .(RolloutSpec_RollingUpdate).(RollingUpdateSpec_MaxSurge) -> n <= i64_max ->
  hoare (fun w : World DB => wf w /\ nactive id w.(w_db) = n)
    (late ← deadline_passed dep;
     if late : bool then fail_rollout dep else
     workloads ← ListWorkloadsByDeployment id;
     let '(_, rolloutPhase) := rollout_target dep workloads in
     failure ← create_workloads dep (Z.to_nat (to_create dep workloads));
     match failure with
     | Some err => placement_failed dep rolloutPhase err
     | None =>
         workloads ← ListWorkloadsByDeployment id;
         (if negb (String.eqb rolloutPhase "Canary")
          then scale_down id dep (activeWorkloads workloads) else mret tt) ;;
         finish_reconcile dep rolloutPhase
     end)
    (fun _ w => wf w /\ Z.min n (min_available dep) <= nactive id w.(w_db) <= Z.max n (max_total dep)).
Proof.
  intros Hid Hs Hm H0 Hn.
  assert (Hstay : forall x, x = n -> Z.min n (min_available dep) <= x <= Z.max n (max_total dep)) by lia.
  eapply hoare_bind; [apply (hoare_still id _ (fun x => x = n)); apply drift_frame; store_steps| |].
  2: { intros e w [? ?]. split; eauto. }
  intros [|].
  { eapply hoare_conseq; [apply (hoare_still id _ (fun x => x = n)); apply drift_frame; store_steps|done|].
    intros r w [? ?]. split; eauto. }
  eapply hoare_bind; [apply (hoare_count id (fun x => x = n))| |].
  2: { intros e w [[? ?] _]. split; eauto. }
  intros ws. apply (hoare_fact (lenZ (activeWorkloads ws) = n) _
    (fun w => wf w /\ nactive id w.(w_db) = n)); [|intros Hl].
  { intros w [[Hw ?] Hws]. by destruct (Hws ws eq_refl). }
  pose proof (reconcile_rest_bounds id dep ws n _ _ Hid Hs Hm H0 Hl Hn eq_refl eq_refl) as Hrest.
  by destruct (rollout_target dep ws).
Qed.

End Bounds.
