(* ===== verification/ReconcileTheorems.v ===== *)
(** * Theorems about the reconciler *)

From Stdlib Require Import Ascii String.
From Corelib Require Import SpecFloat.
From S2P Require Import Prelude GoLang GoFloat GoSort GoTime Effects Model Scheduler Badger World.
From S2P Require Import Store StoreFacts StoreTheorems Events Secrets Rollout Placement Reconcile.
From S2P Require Import ReconcileFacts.

Section ReconcileTheorems.
Context {DB : Type} `{!Badger Blob DB, !BadgerLaws Blob DB} {E : Env}.
Implicit Types (db : DB) (w : World DB).

(** ** Runs without database failures *)

Lemma GetDeployment_run id d w :
  (forall t, env_dberr t = None) -> db_get w.(w_db) (keyDeployment id) = Some (BDeployment d) ->
  GetDeployment id w = (Ok d, w <| w_tick ::= S |>).
Proof. intros He Hg. unfold GetDeployment, get, db_View, get_in. by rewrite He, Hg. Qed.

Lemma put_run {T} `{!Entity T, !JSON T} k (x y : T) w :
  (forall t, env_dberr t = None) -> json x = Some y ->
  put k x w = (Ok tt, w <| w_tick ::= S |> <| w_db := db_set w.(w_db) k (inject y) |>).
Proof. intros He Hj. unfold put, db_Update. by rewrite Hj, He. Qed.

(** Emitting an event leaves the documents of other families alone. *)
Lemma emitEvent_frame e k w :
  HasPrefix k "event:" = false -> db_get (emitEvent e w).2.(w_db) k = db_get w.(w_db) k.
Proof.
  intros Hk. assert (H : steps (dbrel (only ["event:"])) (emitEvent (DB := DB) e)) by store_steps.
  apply (H w). simpl. by rewrite Hk.
Qed.

(** ** The rolling-update contract *)

(** The limits a pass works with, in terms of the stored deployment. *)
Lemma prepared_limits dep :
  sane_counts dep ->
  let R := dep.(Deployment_Spec).(DeploymentSpec_Replicas) in
  let ru := dep.(Deployment_Spec).(DeploymentSpec_Rollout).(RolloutSpec_RollingUpdate) in
  sane_counts (prepare dep)
  /\ (prepare dep).(Deployment_Spec).(DeploymentSpec_Replicas) = R
  /\ 0 <= (prepare dep).(Deployment_Spec).(DeploymentSpec_Rollout)
           .(RolloutSpec_RollingUpdate).(RollingUpdateSpec_MaxSurge)
  /\ R <= max_total (prepare dep) <= R + Z.max 0 ru.(RollingUpdateSpec_MaxSurge)
  /\ min_available (prepare dep) = Z.max 0 (R - Z.max 0 ru.(RollingUpdateSpec_MaxUnavailable)).
Proof.
  intros Hsane. cbv zeta. pose proof (prepare_sane dep Hsane) as Hs.
  pose proof (prepare_RollingUpdate dep) as Hru. set (d := prepare dep) in *.
  assert (HR : d.(Deployment_Spec).(DeploymentSpec_Replicas)
    = dep.(Deployment_Spec).(DeploymentSpec_Replicas)) by (unfold d; by rewrite prepare_spec).
  pose proof (max_total_spec d Hs) as Hmax. pose proof (min_available_spec d Hs) as Hmin.
  rewrite HR, Hru in Hmax, Hmin. rewrite Hru. cbn -[clamp0] in *.
  specialize (Hmax (clamp0_nonneg _)). specialize (Hmin (clamp0_nonneg _)).
  assert (Hclamp : forall z, clamp0 z = Z.max 0 z).
  { intros z. unfold clamp0. destruct (Z.ltb_spec z 0); lia. }
  rewrite !Hclamp in *. repeat split; try apply Hs; lia.
Qed.

(** C1: the rolling-update contract, at every outcome of every call.  Whatever
    the database, the clock, the scheduler or the secret store answer, and
    wherever a pass stops, it leaves at most [max(before, Replicas + MaxSurge)]
    active workloads of the deployment and at least
    [min(before, Replicas - MaxUnavailable)]; negative settings count as 0,
    and the sums are exact even where 64-bit addition would wrap around. *)
Theorem reconcileDeployment_bounds id dep w :
  wf w -> db_get w.(w_db) (keyDeployment id) = Some (BDeployment dep) ->
  sane_counts dep -> nactive id w.(w_db) <= i64_max ->
  let replicas := dep.(Deployment_Spec).(DeploymentSpec_Replicas) in
  let ru := dep.(Deployment_Spec).(DeploymentSpec_Rollout).(RolloutSpec_RollingUpdate) in
  let before := nactive id w.(w_db) in
  let after := nactive id (reconcileDeployment id w).2.(w_db) in
  Z.min before (replicas - Z.max 0 ru.(RollingUpdateSpec_MaxUnavailable)) <= after
  <= Z.max before (replicas + Z.max 0 ru.(RollingUpdateSpec_MaxSurge)).
Proof.
  intros Hw Hg Hsane Hn. cbv zeta. set (n := nactive id (w_db w)) in *.
  destruct (prepared_limits dep Hsane) as (Hs & HR & Hsu & Hmax & Hmin).
  pose proof (proj1 Hsane) as HR0. set (d := prepare dep) in *.
  assert (Hb : hoare (fun w : World DB => (wf w /\ nactive id w.(w_db) = n)
      /\ db_get w.(w_db) (keyDeployment id) = Some (BDeployment dep)) (reconcileDeployment id)
    (fun _ w => wf w /\ Z.min n (min_available d) <= nactive id w.(w_db) <= Z.max n (max_total d))).
  2: { destruct (Hb w (conj (conj Hw eq_refl) Hg)) as [_ Hb']. pose proof (nactive_nonneg id (w_db w)).
       fold n in H. lia. }
  unfold reconcileDeployment. eapply hoare_bind; [apply hoare_GetDeployment| |].
  2: { intros e w' [[? ?] _]. split; [done|lia]. }
  intros d0. apply hoare_pure. intros Hd0. destruct (Hd0 d0 eq_refl) as [-> Hid].
  apply (reconcile_prepared_bounds id d n); [|done|rewrite HR; lia|done|done].
  unfold d. by rewrite prepare_ID.
Qed.

(** ** At the desired size *)

Lemma to_create_0 dep l :
  sane_counts dep -> lenZ (activeWorkloads l) <= i64_max -> max_total dep = lenZ (activeWorkloads l) ->
  Z.to_nat (to_create dep l) = 0%nat.
Proof.
  intros Hs Hn Hm. unfold to_create. cbv zeta. rewrite minInt_spec, Hm, Z.sub_diag.
  change (wrap64 0) with 0. change (clamp0 0) with 0.
  pose proof (clamp0_nonneg ((rollout_target dep l).1 -! lenZ (activeForRevision (activeWorkloads l)
    (Deployment_CurrentRevision dep)))). lia.
Qed.

Lemma scale_down_0 id dep l :
  lenZ (activeWorkloads (of_deployment id l)) = min_available dep ->
  dep.(Deployment_Spec).(DeploymentSpec_Replicas) = min_available dep ->
  hoare (seen (DB := DB) l) (scale_down id dep (activeWorkloads (of_deployment id l))) (fun _ => seen l).
Proof.
  intros Hl HR. unfold scale_down. cbv zeta. rewrite Hl, Z.sub_diag.
  change (0 <? wrap64 0) with false.
  apply hoare_bind with (R := fun _ => seen l); [by apply hoare_ret| |done]. intros _.
  eapply hoare_bind; [apply hoare_ListByDeployment| |by intros e w [? _]].
  intros ws. apply hoare_pure. intros Hws. rewrite (Hws ws eq_refl), Hl, HR, Z.sub_diag.
  change (0 <? wrap64 0) with false. by apply hoare_ret.
Qed.

(** C27: at the desired size the reconciler is at rest.  When exactly [Replicas]
    workloads of the deployment are active and neither surge nor unavailability
    is allowed, a pass leaves every workload as it is, whatever else happens.
    The revision of these workloads plays no role: with both settings at zero,
    their default, a rollout of a new revision never starts. *)
Theorem reconcileDeployment_rest id dep w :
  wf w -> db_get w.(w_db) (keyDeployment id) = Some (BDeployment dep) -> sane_counts dep ->
  let ru := dep.(Deployment_Spec).(DeploymentSpec_Rollout).(RolloutSpec_RollingUpdate) in
  ru.(RollingUpdateSpec_MaxSurge) <= 0 -> ru.(RollingUpdateSpec_MaxUnavailable) <= 0 ->
  nactive id w.(w_db) = dep.(Deployment_Spec).(DeploymentSpec_Replicas) ->
  list_of (T := Workload) "workload:" (reconcileDeployment id w).2.(w_db)
  = list_of "workload:" w.(w_db).
Proof.
  intros Hw Hg Hsane ru Hsu Hun Hn. subst ru.
  destruct (prepared_limits dep Hsane) as (Hs & HR & _ & Hmax & Hmin). set (d := prepare dep) in *.
  pose proof (proj1 Hsane) as HR0. set (l := list_of (T := Workload) "workload:" (w_db w)) in *.
  assert (Hl : lenZ (activeWorkloads (of_deployment id l)) = DeploymentSpec_Replicas (Deployment_Spec dep)) by done.
  enough (H : hoare (fun w' => seen l w' /\ db_get w'.(w_db) (keyDeployment id) = Some (BDeployment dep))
    (reconcileDeployment id) (fun _ w' => seen l w')) by exact (proj2 (H w (conj (conj Hw eq_refl) Hg))).
  unfold reconcileDeployment.
  apply hoare_bind with (R := fun r w' => seen l w' /\ forall d0, r = Ok d0 -> d0 = dep /\ dep.(Deployment_ID) = id);
    [| |by intros e w' [? _]].
  { intros w' [Hl' Hg']. split; [by apply (hoare_seen (GetDeployment id) l); [store_steps..|]|].
    exact (proj2 (hoare_GetDeployment id dep _ w' (conj (conj (proj1 Hl') eq_refl) Hg'))). }
  intros d0. apply hoare_pure. intros Hd0. destruct (Hd0 d0 eq_refl) as [-> Hid]. cbv zeta. fold d.
  apply hoare_bind with (R := fun _ => seen l); [apply hoare_seen; store_steps| |done].
  intros [|]; [apply hoare_seen; store_steps|].
  eapply hoare_bind; [apply hoare_ListByDeployment| |by intros e w' [? _]].
  intros ws. apply hoare_pure. intros Hws. rewrite (Hws ws eq_refl).
  destruct (rollout_target d (of_deployment id l)) as [target phase].
  rewrite to_create_0 by (done || lia). cbn [create_workloads].
  apply hoare_bind with (R := fun r w' => seen l w' /\ r = Ok None); [by apply hoare_ret| |by intros e w' [? _]].
  intros o. apply hoare_pure. intros [= ->].
  eapply hoare_bind; [apply hoare_ListByDeployment| |by intros e w' [? _]].
  intros ws'. apply hoare_pure. intros Hws'. rewrite (Hws' ws' eq_refl).
  apply hoare_bind with (R := fun _ => seen l); [|intros _; apply hoare_seen; store_steps|done].
  destruct (negb _); [|by apply hoare_ret]. apply scale_down_0; lia.
Qed.

(** ** Deletion *)

Lemma for_each_noop {A} (l : list A) body (w : World DB) :
  (forall x, x ∈ l -> body x w = (Ok tt, w)) -> for_each l body w = (Ok tt, w).
Proof.
  induction l as [|x l IH]; intros H; cbn [for_each]; [done|].
  rewrite (bind_Ok _ _ _ tt w); [|apply H; left]. apply IH. intros y Hy. apply H. by right.
Qed.

Lemma elem_of_of_deployment id l x :
  x ∈ of_deployment id l <-> x ∈ l /\ x.(Workload_DeploymentID) = id.
Proof.
  unfold of_deployment. by rewrite list_elem_of_In, List.filter_In, String.eqb_eq, list_elem_of_In.
Qed.

Lemma remaining_pos l x :
  x ∈ l -> x.(Workload_Status) <> WorkloadTerminated -> (0 <? lenZ (List.filter not_terminated l)) = true.
Proof.
  intros Hx Hs. apply Z.ltb_lt. assert (Hin : x ∈ List.filter not_terminated l).
  { rewrite list_elem_of_In, List.filter_In, <- list_elem_of_In. split; [done|].
    unfold not_terminated. by apply negb_true_iff, String.eqb_neq. }
  destruct (List.filter not_terminated l); [by apply not_elem_of_nil in Hin|]. unfold lenZ. simpl. lia.
Qed.

Lemma remaining_none l :
  (forall x, x ∈ l -> x.(Workload_Status) = WorkloadTerminated) ->
  (0 <? lenZ (List.filter not_terminated l)) = false.
Proof.
  intros H. assert (List.filter not_terminated l = []) as ->; [|done].
  induction l as [|x l IH]; simpl; [done|]. unfold not_terminated at 1. rewrite (H x) by left.
  simpl. apply IH. intros y Hy. apply H. by right.
Qed.

(** C7: a pass over a deployment marked for deletion never removes it, or
    changes it, while one of its workloads is not yet terminated, whatever
    fails during the pass. *)
Theorem reconcileDeletion_waits id dep x w :
  wf w -> db_get w.(w_db) (keyDeployment id) = Some (BDeployment dep) ->
  x ∈ list_of "workload:" w.(w_db) -> x.(Workload_DeploymentID) = id ->
  x.(Workload_Status) <> WorkloadTerminated ->
  db_get (reconcileDeletion id w).2.(w_db) (keyDeployment id) = Some (BDeployment dep).
Proof.
  intros Hw Hg Hx Hid Hs. rewrite <- Hg. set (l := list_of "workload:" (w_db w)) in *.
  set (R := fun (w' : World DB) => db_get w'.(w_db) (keyDeployment id) = db_get w.(w_db) (keyDeployment id)).
  enough (H : hoare (fun w' => seen l w' /\ R w') (reconcileDeletion id) (fun _ w' => R w'))
    by exact (H w (conj (conj Hw eq_refl) eq_refl)).
  assert (Hframe : forall {A} (m : M (World DB) A), steps (dbrel (same_under "deployment:")) m ->
    hoare R m (fun _ => R)).
  { intros A m Hm w' Hw'. unfold R in *. rewrite (Hm w'); [done|apply (HasPrefix_app "deployment:")]. }
  unfold reconcileDeletion. apply hoare_bind with (R := fun _ w' => seen l w' /\ R w'); [| |by intros e w' [_ ?]].
  { intros w' [Hl HR]. split; [|by apply (Hframe _ (GetDeployment id)); [store_steps|]].
    by apply (hoare_seen (GetDeployment id) l); [store_steps..|]. }
  intros d. apply hoare_bind with (R := fun r w' => R w' /\ forall l', r = Ok l' -> l' = of_deployment id l);
    [| |by intros e w' [? _]].
  { intros w' [Hl HR]. split; [|by apply (hoare_ListByDeployment id l w' Hl)].
    by apply (Hframe _ (ListWorkloadsByDeployment id)); [store_steps|]. }
  intros ws. apply hoare_pure. intros Hws. rewrite (Hws ws eq_refl).
  apply hoare_bind with (R := fun _ w' => R w'); [apply Hframe; store_steps| |done].
  intros _. rewrite (remaining_pos _ x); [by apply hoare_ret| |done]. by apply elem_of_of_deployment.
Qed.

Lemma ListByDeployment_run id w :
  (forall t, env_dberr t = None) -> wf w ->
  ListWorkloadsByDeployment id w
  = (Ok (of_deployment id (list_of "workload:" w.(w_db))), w <| w_tick ::= S |>).
Proof.
  intros He Hw. unfold ListWorkloadsByDeployment, ListWorkloads, listPrefix, mbind, M_bind.
  rewrite run_View by done.
  by rewrite (decode_all_wf (T := Workload) "workload:" _ _ (ex_intro _ "" eq_refl) Hw).
Qed.

(** C6: once every workload of a deployment marked for deletion is terminated
    and the workload clean-up is its only finalizer, one pass without database
    failures removes the deployment and its workloads, and apart from the
    event it emits touches nothing else. *)
Theorem reconcileDeletion_completes id dep w :
  wf w -> (forall t, env_dberr t = None) ->
  db_get w.(w_db) (keyDeployment id) = Some (BDeployment dep) ->
  (forall f, f ∈ dep.(Deployment_Finalizers) -> f = "workloads.cleanup") ->
  (forall x, x ∈ list_of "workload:" w.(w_db) -> x.(Workload_DeploymentID) = id ->
     x.(Workload_Status) = WorkloadTerminated) ->
  let w' := (reconcileDeletion id w).2 in
  (reconcileDeletion id w).1 = Ok tt
  /\ forall k, HasPrefix k "event:" = false ->
     db_get w'.(w_db) k
     = if decide (k = keyDeployment id) then None else
       match db_get w.(w_db) k with
       | Some (BWorkload x) =>
           if String.eqb x.(Workload_DeploymentID) id then None else Some (BWorkload x)
       | o => o
       end.
Proof.
  intros Hw He Hg Hfin Hterm. cbv zeta. unfold reconcileDeletion.
  pose proof (Hw _ _ Hg) as Hid. simpl in Hid. apply string_app_inj_l in Hid.
  rewrite (bind_Ok _ _ _ _ _ (GetDeployment_run id dep w He Hg)).
  set (w1 := w <| w_tick ::= S |>).
  rewrite (bind_Ok _ _ _ _ _ (ListByDeployment_run id w1 He Hw)). set (w2 := w1 <| w_tick ::= S |>).
  set (l := of_deployment id _).
  assert (Hl : forall x, x ∈ l -> x.(Workload_Status) = WorkloadTerminated).
  { intros x [Hx Hd]%elem_of_of_deployment. by apply Hterm. }
  rewrite (bind_Ok _ _ w2 tt w2).
  2: { apply for_each_noop. intros x Hx. unfold cleanup_workload. by rewrite (Hl x Hx). }
  rewrite remaining_none by done. cbv zeta. cbn [Deployment_Finalizers Deployment_ID set].
  assert (Hrm : removeFinalizer (Deployment_Finalizers dep) "workloads.cleanup" = []).
  { unfold removeFinalizer. revert Hfin. generalize (Deployment_Finalizers dep). clear.
    induction l as [|f l IH]; intros H; simpl; [done|]. rewrite (H f) by left. simpl.
    apply IH. intros g Hg. apply H. by right. }
  change (Deployment_Finalizers (dep <| Deployment_Finalizers ::= ?f |>)) with (f (Deployment_Finalizers dep)).
  cbv beta. rewrite Hrm. change (0 <? lenZ []) with false.
  change (Deployment_ID (dep <| Deployment_Finalizers ::= ?f |>)) with (Deployment_ID dep). rewrite Hid.
  destruct (DeleteDeployment_cascade id w2 Hw (He _)) as [Hok Hdb].
  destruct (DeleteDeployment id w2) as [r w3] eqn:Hdel. cbn [fst snd] in Hok, Hdb. subst r.
  rewrite (bind_Ok _ _ _ _ _ Hdel). split; [done|]. intros k Hk. unfold ignore. cbn [snd].
  rewrite emitEvent_frame by done. apply Hdb.
Qed.

End ReconcileTheorems.
