(* ===== verification/Convergence.v ===== *)
(** * Runs of the reconciler that succeed

    The bounds of ReconcileTheorems hold whatever fails.  Here nothing fails,
    and some node has room for the missing replicas.  The file says what such
    a state is ([poised]), gives triples for runs that end without an error
    ([yields]), and shows that creating workloads succeeds and counts. *)

From Stdlib Require Import Ascii String.
From Corelib Require Import SpecFloat.
From S2P Require Import Prelude GoLang GoFloat GoSort GoTime Effects Model Scheduler Badger World.
From S2P Require Import Store StoreFacts StoreTheorems Events Secrets Rollout Placement Reconcile.
From S2P Require Import ReconcileFacts ReconcileTheorems.

(** ** What convergence needs *)

(** [n] would take [k] more workloads of the deployment. *)
Definition hosts (dep : Deployment) (k : Z) (n : Node) : Prop :=
  let spec := dep.(Deployment_Spec) in
  let req := spec.(DeploymentSpec_Resources) in
  sane_node n /\ n.(Node_Status) = NodeReady
  /\ toleratesNodeTaints n (default [] spec.(DeploymentSpec_Tolerations)) = true
  /\ matchesAffinity n (default ∅ spec.(DeploymentSpec_Labels)) = true
  /\ n.(Node_Used).(Resource_MilliCPU) + k * req.(Resource_MilliCPU)
     <= n.(Node_Allocatable).(Resource_MilliCPU)
  /\ n.(Node_Used).(Resource_MemoryMB) + k * req.(Resource_MemoryMB)
     <= n.(Node_Allocatable).(Resource_MemoryMB).

(** The rollout's deadline, if it has one, does not pass. *)
Definition on_time {E : Env} (dep : Deployment) : Prop :=
  let status := dep.(Deployment_RolloutStatus) in
  let deadline := dep.(Deployment_Spec).(DeploymentSpec_Rollout)
                     .(RolloutSpec_ProgressDeadlineSeconds) in
  IsZero status.(DeploymentRolloutStatus_StartedAt) = false -> 0 < deadline ->
  forall i, After (env_now i)
    (time_Add status.(DeploymentRolloutStatus_StartedAt) (seconds deadline)) = false.

(** The identifier a workload gets when interaction [i] reads the clock. *)
Definition id_at {E : Env} (i : nat) : string :=
  "wk-" +:+ fmt_d (UnixNano (env_now i)) +:+ "-" +:+ fmt_04d (env_rand (S i)).

Section Convergence.
Context {DB : Type} `{!Badger Blob DB, !BadgerLaws Blob DB} {E : Env}.
Implicit Types (db : DB) (w : World DB).

(** Every secret the deployment mounts exists. *)
Definition deliverable (dep : Deployment) w : Prop :=
  forall sm, sm ∈ default [] dep.(Deployment_Spec).(DeploymentSpec_SecretMounts) ->
    blank sm.(SecretMountSpec_SecretName) = false ->
    exists s, db_get w.(w_db) (keySecret dep.(Deployment_Spec).(DeploymentSpec_Namespace)
      sm.(SecretMountSpec_SecretName)) = Some (BSecret s).

(** The number of active workloads of another revision than [rev]. *)
Definition stale (id : string) (rev : Z) (x : Workload) : bool :=
  counts id x && negb (x.(Workload_Version) =? rev).

Definition nold (id : string) (rev : Z) db : Z := tally (stale id rev) db.

(** The identifiers drawn before interaction [T] are new. *)
Definition ids_fresh (T : nat) w : Prop :=
  forall i, (w.(w_tick) <= i < T)%nat -> db_get w.(w_db) (keyWorkload (id_at i)) = None.

Definition ids_distinct (T : nat) : Prop := forall i j, (i < j < T)%nat -> id_at i <> id_at j.

(** The nodes' documents can be written again. *)
Definition nodes_storable w : Prop :=
  forall n, n ∈ list_of "node:" w.(w_db) -> is_Some (json (n : Node)).

(** [n] active workloads, [o] of them old, and everything that [k] more need. *)
Record poised (T : nat) (dep : Deployment) (k n o : Z) w : Prop := {
  poised_wf : wf w;
  poised_count : nactive dep.(Deployment_ID) w.(w_db) = n;
  poised_old : nold dep.(Deployment_ID) dep.(Deployment_CurrentRevision) w.(w_db) = o;
  poised_fresh : ids_fresh T w;
  poised_secrets : deliverable dep w;
  poised_nodes : nodes_storable w;
  poised_room : exists n0, n0 ∈ list_of "node:" w.(w_db) /\ hosts dep k n0
}.

(** ** Time passes *)

Definition later : relation (World DB) := fun w w' => (w.(w_tick) <= w'.(w_tick))%nat.

#[export] Instance later_PreOrder : PreOrder later.
Proof. unfold later. split; [intros w; lia|intros x y z; lia]. Qed.

Lemma later_ask {A} (f : nat -> A) : steps later (ask f).
Proof. intros w. unfold later. simpl. lia. Qed.

Lemma later_View {A} (f : DB -> Res A) : steps later (db_View f).
Proof. intros w. unfold later, db_View. destruct (env_dberr _); simpl; lia. Qed.

Lemma later_Update {A} (f : DB -> Res (A * DB)) : steps later (db_Update f).
Proof.
  intros w. unfold later, db_Update. destruct (env_dberr _); [simpl; lia|].
  destruct (f _) as [[a db']|e]; simpl; lia.
Qed.

Lemma later_put {T} `{!Entity T, !JSON T} k (x : T) : steps later (put k x).
Proof. unfold put. destruct (json x); [apply later_Update|apply steps_throw, _]. Qed.

Lemma later_or_now t : steps later (or_now t).
Proof. unfold or_now. destruct (IsZero t); [apply later_ask|apply steps_ret, _]. Qed.

Lemma later_subscribers f : steps later (modify (set w_subscribers f)).
Proof. intros w. unfold later. simpl. lia. Qed.

End Convergence.

#[export] Hint Extern 2 (steps later now) => apply later_ask : steps.
#[export] Hint Extern 2 (steps later rand_Intn) => apply later_ask : steps.
#[export] Hint Extern 2 (steps later (ask _)) => apply later_ask : steps.
#[export] Hint Extern 2 (steps later (db_View _)) => apply later_View : steps.
#[export] Hint Extern 2 (steps later (db_Update _)) => apply later_Update : steps.
#[export] Hint Extern 2 (steps later (put _ _)) => apply later_put : steps.
#[export] Hint Extern 2 (steps later (del _)) => apply later_Update : steps.
#[export] Hint Extern 2 (steps later (or_now _)) => apply later_or_now : steps.
#[export] Hint Extern 2 (steps later (modify (set w_subscribers _))) =>
  apply later_subscribers : steps.

Section Passes.
Context {DB : Type} `{!Badger Blob DB, !BadgerLaws Blob DB} {E : Env}.
Implicit Types (db : DB) (w : World DB).

Lemma later_create_workloads dep n : steps (later (DB := DB)) (create_workloads dep n).
Proof. induction n as [|n IH]; cbn [create_workloads]; store_steps; eauto. Qed.

Lemma later_rollback dep r msg : steps (later (DB := DB)) (rollbackDeploymentLocked dep r msg).
Proof. unfold rollbackDeploymentLocked. steps_tac. Qed.

(** Time passes, and the workloads, nodes and secrets stay. *)
Definition calm w w' : Prop :=
  later w w' /\ (wf w -> wf w')
  /\ same_under "workload:" w.(w_db) w'.(w_db) /\ same_under "node:" w.(w_db) w'.(w_db)
  /\ same_under "secret:" w.(w_db) w'.(w_db).

Lemma calm_steps {A} (m : M (World DB) A) :
  steps later m -> steps (keeps_db db_wf) m -> steps (dbrel (same_under "workload:")) m ->
  steps (dbrel (same_under "node:")) m -> steps (dbrel (same_under "secret:")) m -> steps calm m.
Proof. intros H1 H2 H3 H4 H5 w. exact (conj (H1 w) (conj (H2 w) (conj (H3 w) (conj (H4 w) (H5 w))))). Qed.

Lemma poised_calm T dep k n o w w' : poised T dep k n o w -> calm w w' -> poised T dep k n o w'.
Proof.
  intros [Hw Hc Hv Hf Hs Hn Hr] (Ht & Hwf & Hsw & Hsn & Hss). split.
  - auto.
  - by rewrite (nactive_same _ _ _ Hsw).
  - unfold nold. by rewrite (tally_same _ _ _ Hsw).
  - intros i Hi. rewrite Hsw by apply (HasPrefix_app "workload:"). apply Hf. unfold later in Ht. lia.
  - intros sm H1 H2. destruct (Hs sm H1 H2) as [s Hg]. exists s.
    by rewrite Hss by apply (HasPrefix_app "secret:").
  - unfold nodes_storable. by rewrite (same_under_list _ _ _ Hsn).
  - by rewrite (same_under_list _ _ _ Hsn).
Qed.

Lemma same_prefix_set p db k b : HasPrefix k p = false -> same_under p db (db_set db k b).
Proof. intros H k' Hk'. rewrite db_get_set. case_decide; congruence. Qed.

(** Writing a workload under an identifier that will not be drawn. *)
Lemma poised_write T dep k n o (y : Workload) w w' :
  poised T dep k n o w -> later w w' ->
  w'.(w_db) = db_set w.(w_db) (keyWorkload y.(Workload_ID)) (BWorkload y) ->
  (forall i, (w'.(w_tick) <= i < T)%nat -> id_at i <> y.(Workload_ID)) ->
  let id := dep.(Deployment_ID) in
  let f := stale id dep.(Deployment_CurrentRevision) in
  let old := db_get w.(w_db) (keyWorkload y.(Workload_ID)) in
  poised T dep k (n - contributes id old + Z.b2z (counts id y)) (o - holds f old + Z.b2z (f y)) w'
  /\ same_under "node:" w.(w_db) w'.(w_db).
Proof.
  intros [Hw Hcount Hold Hfresh Hsec Hnodes Hroom] Ht Hdb Hids. cbv zeta. unfold later in Ht.
  assert (Hn : same_under "node:" w.(w_db) w'.(w_db)) by (rewrite Hdb; by apply same_prefix_set).
  split; [|done]. split.
  - unfold wf. rewrite Hdb. by apply db_wf_set.
  - rewrite Hdb. rewrite (nactive_set _ _ _ y), Hcount by apply (HasPrefix_app "workload:"). done.
  - rewrite Hdb. unfold nold in *. rewrite (tally_set _ _ _ y), Hold by apply (HasPrefix_app "workload:"). done.
  - intros i Hi. rewrite Hdb, db_get_set. case_decide as Heq; [|apply Hfresh; lia].
    apply string_app_inj_l in Heq. by destruct (Hids i Hi).
  - intros sm H1 H2. destruct (Hsec sm H1 H2) as [s Hg]. exists s. rewrite Hdb, db_get_set. by case_decide.
  - unfold nodes_storable. by rewrite (same_under_list _ _ _ Hn).
  - by rewrite (same_under_list _ _ _ Hn).
Qed.

(** ** Successful runs

    [yields T P m Q]: from [P], unless interaction [T] has passed, [m] returns
    a result without an error, and [Q] holds. *)
Definition yields (T : nat) {A} (P : World DB -> Prop) (m : M (World DB) A)
    (Q : A -> World DB -> Prop) : Prop :=
  forall w, P w -> (T < (m w).2.(w_tick))%nat \/ exists a, (m w).1 = Ok a /\ Q a (m w).2.

Lemma yields_bind T {A B} (P : World DB -> Prop) (m : M (World DB) A) Q (k : A -> M (World DB) B) R :
  yields T P m Q -> (forall a, yields T (Q a) (k a) R) -> (forall a, steps later (k a)) ->
  yields T P (m ≫= k) R.
Proof.
  intros Hm Hk Hl w Hw. specialize (Hm w Hw). unfold mbind, M_bind.
  destruct (m w) as [[a|e] w'] eqn:Em; simpl in *.
  - destruct Hm as [Hlate|(a' & [= <-] & Hq)]; [|by apply Hk].
    left. specialize (Hl a w'). unfold later in Hl. lia.
  - destruct Hm as [Hlate|(a' & [=] & _)]. by left.
Qed.

Lemma yields_run T {A} (P : World DB -> Prop) (m : M (World DB) A) (Q : A -> World DB -> Prop) :
  (forall w, P w -> exists a w', m w = (Ok a, w') /\ Q a w') -> yields T P m Q.
Proof. intros H w Hw. right. destruct (H w Hw) as (a & w' & -> & HQ). eauto. Qed.

Lemma yields_ret T {A} (P : World DB -> Prop) (a : A) (Q : A -> World DB -> Prop) :
  (forall w, P w -> Q a w) -> yields T P (mret a) Q.
Proof. intros H. apply yields_run. intros w Hw. eexists _, _. split; [done|]. by apply H. Qed.

Lemma yields_conseq T {A} (P P' : World DB -> Prop) (m : M (World DB) A) Q Q' :
  yields T P' m Q' -> (forall w, P w -> P' w) -> (forall a w, Q' a w -> Q a w) -> yields T P m Q.
Proof.
  intros H HP HQ w Hw. destruct (H w (HP w Hw)) as [?|(a & Ha & Hq)]; [by left|right; eauto].
Qed.

Lemma yields_attempt T {A} (P : World DB -> Prop) (m : M (World DB) A) Q :
  yields T P m Q -> yields T P (attempt m) (fun r w => exists a, r = Ok a /\ Q a w).
Proof.
  intros H w Hw. specialize (H w Hw). unfold attempt. destruct (m w) as [r w']. simpl in *.
  destruct H as [?|(a & -> & Hq)]; [by left|right; eauto].
Qed.

Lemma yields_ignore T {A} (P : World DB -> Prop) (m : M (World DB) A) :
  (forall w, P w -> P (m w).2) -> yields T P (ignore m) (fun _ => P).
Proof. intros H. apply yields_run. intros w Hw. eexists _, _. split; [done|]. by apply H. Qed.

End Passes.

#[export] Hint Extern 2 (steps later (create_workloads _ _)) => apply later_create_workloads : steps.
#[export] Hint Extern 2 (steps later (rollbackDeploymentLocked _ _ _)) => apply later_rollback : steps.

Ltac calm_tac := apply calm_steps; store_steps.

Section Creation.
Context {DB : Type} `{!Badger Blob DB, !BadgerLaws Blob DB} {E : Env}.
Implicit Types (db : DB) (w : World DB).
Hypothesis no_faults : forall t, env_dberr t = None.
Variable T : nat.
Hypothesis distinct : ids_distinct T.
Variable dep : Deployment.
Abbreviation req := (dep.(Deployment_Spec).(DeploymentSpec_Resources)).
Hypothesis sane_req : sane_resource req.

Lemma hosts_schedulable k n :
  1 <= k -> hosts dep k n ->
  schedulable req (default ∅ dep.(Deployment_Spec).(DeploymentSpec_Labels))
    (default [] dep.(Deployment_Spec).(DeploymentSpec_Tolerations)) n = true.
Proof.
  intros Hk (Hn & Hs & Ht & Ha & Hcpu & Hmem). unfold schedulable. rewrite Hs, Ht, Ha.
  rewrite (proj2 (fits_spec n req Hn)); [done|]. destruct sane_req. split; nia.
Qed.

(** A node that took one of the workloads can take the others. *)
Lemma hosts_take_up k n seen :
  1 <= k -> hosts dep k n ->
  hosts dep (k - 1) (n <| Node_Used ::= fun u => take_up u req |> <| Node_LastSeen := seen |>).
Proof.
  intros Hk (Hn & Hs & Ht & Ha & Hcpu & Hmem). destruct Hn as [Hal Hu].
  unfold sane_resource in *. destruct sane_req as [Hc0 Hm0].
  unfold hosts, sane_node, sane_resource. cbn. unfold in_i64, i64_min, i64_max in *.
  rewrite !wrap64_id by (unfold in_i64, i64_min, i64_max; nia).
  repeat split; try done; nia.
Qed.

Lemma hosts_less k n : 1 <= k -> hosts dep k n -> hosts dep (k - 1) n.
Proof.
  intros Hk (Hn & Hs & Ht & Ha & Hcpu & Hmem). destruct sane_req.
  split; [done|]. repeat split; try done; nia.
Qed.

(** [node] is stored and passes the filters. *)
Definition chosen (node : Node) w : Prop := node ∈ list_of "node:" w.(w_db).

Lemma chosen_calm node w w' : chosen node w -> calm w w' -> chosen node w'.
Proof. intros H (_ & _ & _ & Hn & _). unfold chosen. by rewrite (same_under_list _ _ _ Hn). Qed.

Lemma choose_node_yields k n o :
  1 <= k ->
  yields T (poised T dep k n o) (choose_node dep) (fun node w => poised T dep k n o w /\ chosen node w).
Proof.
  intros Hk. apply yields_run. intros w Hp. unfold choose_node.
  assert (Hl : ListNodes w = (Ok (list_of "node:" w.(w_db)), w <| w_tick ::= S |>)).
  { unfold ListNodes, listPrefix. rewrite run_View by done.
    by rewrite (decode_all_wf (T := Node) "node:" _ _ (ex_intro _ "" eq_refl) (poised_wf _ _ _ _ _ _ Hp)). }
  rewrite (bind_Ok _ _ _ _ _ Hl). unfold schedule, ask, mbind, M_bind. cbn [fst snd].
  destruct (SelectNode _ _ _ _ _ _) as [node|e] eqn:Es.
  - eexists _, _. split; [done|].
    assert (Hcalm : calm w (w <| w_tick ::= S |> <| w_tick ::= S |>)).
    { repeat split; try done. unfold later. simpl. lia. }
    split; [by eapply poised_calm|]. apply SelectNode_Ok_inv in Es as (_ & _ & Hin & _). exact Hin.
  - apply SelectNode_Err_inv in Es as [_ Hnone]. destruct (poised_room _ _ _ _ _ _ Hp) as (n0 & Hin & Hh).
    specialize (Hnone n0 Hin). by rewrite (hosts_schedulable k n0) in Hnone.
Qed.

(** The identifier is new and will not be drawn again. *)
Definition unused (id : string) w : Prop :=
  db_get w.(w_db) (keyWorkload id) = None
  /\ forall i, (w.(w_tick) <= i < T)%nat -> id_at i <> id.

Lemma unused_calm id w w' : unused id w -> calm w w' -> unused id w'.
Proof.
  intros [H1 H2] (Ht & _ & Hw & _). unfold later in Ht. split.
  - by rewrite Hw by apply (HasPrefix_app "workload:").
  - intros i Hi. apply H2. lia.
Qed.

Lemma workload_id_yields k n o node :
  yields T (fun w => poised T dep k n o w /\ chosen node w) workload_id
    (fun id w => (poised T dep k n o w /\ chosen node w) /\ unused id w).
Proof.
  intros w [Hp Hc]. destruct (decide (w.(w_tick) < T)%nat) as [Hlt|Hge].
  2: { left. simpl. lia. }
  right. exists (id_at w.(w_tick)). split; [done|].
  assert (Hcalm : calm w (workload_id w).2) by (revert w Hp Hc Hlt; intros w _ _ _; revert w; calm_tac).
  split; [split; [by eapply poised_calm|by eapply chosen_calm]|]. split.
  - apply (poised_fresh _ _ _ _ _ _ Hp). lia.
  - intros i [Hi Hi']. simpl in Hi. intros Heq. apply (distinct (w_tick w) i); [lia|done].
Qed.

(** A step that only lets time pass keeps every such predicate. *)
Lemma yields_calm {A} (P : World DB -> Prop) (m : M (World DB) A) :
  (forall w w', P w -> calm w w' -> P w') -> steps calm m -> (forall w, exists a, (m w).1 = Ok a) ->
  yields T P m (fun _ => P).
Proof.
  intros HP Hm Hok w Hw. right. destruct (Hok w) as [a Ha]. exists a. split; [done|].
  exact (HP _ _ Hw (Hm w)).
Qed.

Lemma UpsertWorkload_run (x : Workload) w :
  exists t w', UpsertWorkload x w = (Ok tt, w') /\ w'.(w_tick) = S (S w.(w_tick))
    /\ w'.(w_db) = db_set w.(w_db) (keyWorkload x.(Workload_ID)) (BWorkload (x <| Workload_UpdatedAt := t |>)).
Proof.
  exists (env_now w.(w_tick)). eexists. split; [|split].
  - unfold UpsertWorkload, now, ask, mbind, M_bind. cbn [fst snd].
    by rewrite (put_run _ _ (x <| Workload_UpdatedAt := env_now w.(w_tick) |>)).
  - done.
  - done.
Qed.

Lemma UpsertWorkload_yields k n o node id created updated :
  yields T (fun w => (poised T dep k n o w /\ chosen node w) /\ unused id w)
    (UpsertWorkload (new_workload id dep node.(Node_ID) created updated))
    (fun _ w => poised T dep k (n + 1) o w /\ chosen node w).
Proof.
  apply yields_run. intros w [[Hp Hc] [Hnew Hother]].
  destruct (UpsertWorkload_run (new_workload id dep (Node_ID node) created updated) w)
    as (t & w' & Hrun & Htick & Hdb). exists tt, w'. split; [done|].
  assert (Ht : later w w') by (unfold later; lia).
  set (y := new_workload id dep (Node_ID node) created updated <| Workload_UpdatedAt := t |>) in Hdb.
  destruct (poised_write T dep k n o y w w' Hp Ht Hdb) as [Hp' Hn].
  { intros i Hi. apply Hother. lia. }
  split; [|unfold chosen; by rewrite (same_under_list _ _ _ Hn)].
  change (Workload_ID y) with id in Hp'. rewrite Hnew in Hp'.
  unfold contributes, holds, stale, counts in Hp'. simpl in Hp'.
  rewrite String.eqb_refl, Z.eqb_refl in Hp'. simpl in Hp'.
  by replace (n - 0 + 1) with (n + 1) in Hp' by lia; replace (o - 0 + 0) with o in Hp' by lia.
Qed.

Lemma UpsertNode_run (node : Node) w :
  is_Some (json node) ->
  exists seen w', UpsertNode node w = (Ok tt, w') /\ later w w'
    /\ w'.(w_db) = db_set w.(w_db) (keyNode node.(Node_ID)) (BNode (node <| Node_LastSeen := seen |>)).
Proof.
  intros [y Hy]. set (wt := ((or_now node.(Node_LastSeen)) w).2).
  assert (Hseen : exists seen, or_now node.(Node_LastSeen) w = (Ok seen, wt)).
  { unfold wt, or_now. destruct (IsZero _); by eexists. }
  assert (Hwt : wt.(w_db) = w.(w_db) /\ later w wt).
  { unfold wt, or_now, later. destruct (IsZero _); simpl; split; (done || lia). }
  destruct Hseen as [seen Hseen], Hwt as [Hdb Htick]. set (node' := node <| Node_LastSeen := seen |>).
  assert (Hj : json node' = Some node').
  { revert Hy. unfold json, JSON_Node, node'. cbn. by destruct (_ && _). }
  exists seen. eexists. split; [|split].
  - unfold UpsertNode. rewrite (bind_Ok _ _ _ _ _ Hseen). by rewrite (put_run _ _ node').
  - unfold later in *. simpl. lia.
  - cbn. by rewrite Hdb.
Qed.

Lemma storable_used (node : Node) (used : Resource -> Resource) seen :
  is_Some (json node) -> is_Some (json (node <| Node_Used ::= used |> <| Node_LastSeen := seen |>)).
Proof. unfold json, JSON_Node. cbn. by destruct (_ && _). Qed.

(** Charging the node: it keeps its place in the store, and one unit of the
    room is used up at most. *)
Lemma UpsertNode_yields k n o node :
  1 <= k ->
  yields T (fun w => poised T dep k n o w /\ chosen node w)
    (UpsertNode (node <| Node_Used ::= fun u => take_up u req |>))
    (fun _ w => poised T dep (k - 1) n o w).
Proof.
  intros Hk. apply yields_run. intros w [Hp Hc].
  destruct Hp as [Hw Hcount Hcur Hfresh Hsec Hnodes (n0 & Hin & Hh)].
  assert (Hj : is_Some (json (node <| Node_Used ::= fun u => take_up u req |>)))
    by exact (storable_used node _ node.(Node_LastSeen) (Hnodes node Hc)).
  destruct (UpsertNode_run _ w Hj)
    as (seen & w' & Hrun & Htick & Hdb).
  exists tt, w'. split; [exact Hrun|]. set (node' := _ <| Node_LastSeen := seen |>) in Hdb.
  change (Node_ID (node <| Node_Used ::= _ |>)) with (Node_ID node) in Hdb.
  assert (Hwf' : db_wf (w_db w')) by (rewrite Hdb; by apply db_wf_set).
  assert (Hsw : same_under "workload:" (w_db w) (w_db w')) by (rewrite Hdb; by apply same_prefix_set).
  split.
  - done.
  - by rewrite (nactive_same _ _ _ Hsw).
  - unfold nold. by rewrite (tally_same _ _ _ Hsw).
  - intros i Hi. rewrite Hsw by apply (HasPrefix_app "workload:"). apply Hfresh.
    unfold later in Htick. lia.
  - intros sm H1 H2. destruct (Hsec sm H1 H2) as [s Hg]. exists s. rewrite Hdb, db_get_set. by case_decide.
  - intros m Hm. apply elem_of_list_of in Hm as [Hpre Hg]; [|done]. rewrite Hdb, db_get_set in Hg.
    case_decide; [injection Hg as <-; by apply storable_used, Hnodes|]. apply Hnodes. by apply elem_of_list_of.
  - apply elem_of_list_of in Hin as [Hpre Hg]; [|done]. apply elem_of_list_of in Hc as [_ Hgc]; [|done].
    destruct (decide (Node_ID n0 = Node_ID node)) as [Heq|Hne].
    + assert (n0 = node) as ->. { simpl in Hg, Hgc. rewrite Heq in Hg. congruence. }
      exists node'. split; [|by apply hosts_take_up].
      apply elem_of_list_of; [done|]. split; [done|]. rewrite Hdb, db_get_set. by rewrite decide_True.
    + exists n0. split; [|by apply hosts_less].
      apply elem_of_list_of; [done|]. split; [done|]. rewrite Hdb, db_get_set.
      rewrite decide_False; [done|]. simpl. by intros ?%string_app_inj_l.
Qed.

Lemma resolve_yields k n o :
  yields T (poised T dep k n o) (resolveSecretFilesForDeployment dep) (fun _ => poised T dep k n o).
Proof.
  unfold resolveSecretFilesForDeployment. eapply yields_bind; [| |intros; store_steps].
  2: { intros files. apply yields_ret. intros w Hw. exact Hw. }
  assert (Hall : forall sm, sm ∈ default [] dep.(Deployment_Spec).(DeploymentSpec_SecretMounts) ->
    sm ∈ default [] dep.(Deployment_Spec).(DeploymentSpec_SecretMounts)) by done.
  revert Hall. generalize (@nil SecretFile) as acc.
  generalize (default [] dep.(Deployment_Spec).(DeploymentSpec_SecretMounts)) at 1 3 as l.
  induction l as [|sm l IH]; intros acc Hall; cbn [fold_m]; [apply yields_ret; auto|].
  eapply yields_bind; [| |intros; store_steps].
  2: { intros acc'. apply IH. intros sm' Hsm'. apply Hall. by right. }
  destruct (blank (SecretMountSpec_SecretName sm)) eqn:Hb; [apply yields_ret; auto|].
  apply yields_bind with (Q := fun _ => poised T dep k n o); [| |intros; store_steps].
  - apply yields_run. intros w Hp.
    destruct (poised_secrets _ _ _ _ _ _ Hp sm (Hall sm ltac:(left)) Hb) as [s Hg].
    exists s. eexists. split; [unfold GetSecret, get; rewrite run_View by done; unfold get_in; by rewrite Hg|].
    eapply (poised_calm _ _ _ _ _ _ _ Hp). repeat split; try done. unfold later. simpl. lia.
  - intros s. apply yields_ret. auto.
Qed.

Lemma EnqueueAssignment_ok a w : exists w', EnqueueAssignment a w = (Ok tt, w').
Proof.
  assert (Hput : forall k (x : Assignment) w1, exists w2, put (DB := DB) k x w1 = (Ok tt, w2)).
  { intros k x w1. eexists. by apply (put_run k x x). }
  unfold EnqueueAssignment, mbind, M_bind. destruct (String.eqb _ ""); cbn [fst snd now ask mret M_ret]; apply Hput.
Qed.

(** One workload is created, and one unit of room is used up. *)
Lemma createWorkload_yields k n o :
  1 <= k ->
  yields T (poised T dep k n o) (createWorkloadForDeployment dep) (fun _ => poised T dep (k - 1) (n + 1) o).
Proof.
  intros Hk. unfold createWorkloadForDeployment.
  eapply yields_bind; [by apply choose_node_yields| |intros; store_steps]. intros node.
  assert (Hcalm2 : forall w w', poised T dep k n o w /\ chosen node w -> calm w w' ->
    poised T dep k n o w' /\ chosen node w').
  { intros w w' [Hp Hc] Hw. split; [by eapply poised_calm|by eapply chosen_calm]. }
  eapply yields_bind; [apply yields_calm; [exact Hcalm2|calm_tac|by eexists]| |intros; store_steps].
  intros []. eapply yields_bind; [apply workload_id_yields| |intros; store_steps]. intros id.
  assert (Hcalm3 : forall w w', (poised T dep k n o w /\ chosen node w) /\ unused id w -> calm w w' ->
    (poised T dep k n o w' /\ chosen node w') /\ unused id w').
  { intros w w' [Hp Hu] Hw. split; [by eapply Hcalm2|by eapply unused_calm]. }
  do 2 (eapply yields_bind; [apply yields_calm; [exact Hcalm3|calm_tac|by eexists]| |intros; store_steps];
    intros ?). cbv zeta.
  eapply yields_bind; [apply UpsertWorkload_yields| |intros; store_steps]. intros [].
  eapply yields_bind; [by apply UpsertNode_yields| |intros; store_steps]. intros [].
  eapply yields_bind; [apply resolve_yields| |intros; store_steps]. intros files.
  eapply yields_bind; [apply yields_calm; [apply poised_calm|calm_tac|]| |intros; store_steps].
  - intros w. destruct (EnqueueAssignment_ok (create_assignment dep (new_workload id dep (Node_ID node) a a0) files) w)
      as [w' Hw']. exists tt. by rewrite Hw'.
  - intros []. apply yields_calm; [apply poised_calm|calm_tac|by eexists].
Qed.

Lemma create_workloads_yields m k n o :
  Z.of_nat m <= k ->
  yields T (poised T dep k n o) (create_workloads dep m)
    (fun failure w => failure = None /\ poised T dep (k - Z.of_nat m) (n + Z.of_nat m) o w).
Proof.
  revert k n. induction m as [|m IH]; intros k n Hk; cbn [create_workloads].
  - apply yields_ret. intros w Hw. split; [done|]. by rewrite Z.sub_0_r, Z.add_0_r.
  - eapply yields_bind; [apply yields_attempt, (createWorkload_yields k n); lia| |].
    + intros r w (a & -> & Hw).
      replace (k - Z.of_nat (S m)) with (k - 1 - Z.of_nat m) by lia.
      replace (n + Z.of_nat (S m)) with (n + 1 + Z.of_nat m) by lia.
      apply IH; [lia|done].
    + intros [?|?]; [apply later_create_workloads|store_steps].
Qed.

End Creation.

