(* ===== verification/RolloutTheorems.v ===== *)
(** * The reconciler converges, rollouts complete

    When nothing fails and some node has room: one pass brings a deployment
    whose active workloads are of the current revision to exactly its replica
    count, and when old workloads exist and the rolling-update settings allow
    any progress, every pass replaces some, until none is left. *)

From Stdlib Require Import Ascii String.
From Corelib Require Import SpecFloat.
From S2P Require Import Prelude GoLang GoFloat GoSort GoTime Effects Model Scheduler Badger World.
From S2P Require Import Store StoreFacts StoreTheorems Events Secrets Rollout Placement Reconcile.
From S2P Require Import ReconcileFacts ReconcileTheorems Convergence.

(** ** Scaling down *)

Section ScaleDown.
Context {DB : Type} `{!Badger Blob DB, !BadgerLaws Blob DB} {E : Env}.
Implicit Types (db : DB) (w : World DB).
Hypothesis no_faults : forall t, env_dberr t = None.
Variable T : nat.
Variable dep : Deployment.
Abbreviation id := (dep.(Deployment_ID)).
Abbreviation rev := (dep.(Deployment_CurrentRevision)).

(** No two entities of a listing share a key. *)
Lemma list_of_NoDup {X} `{!Entity X} p db :
  db_wf db -> NoDup ((fun x : X => key_of (inject x)) <$> list_of p db).
Proof.
  intros Hwf. unfold list_of. pose proof (db_scan_NoDup db p) as Hnd.
  assert (Hk : forall kv, kv ∈ db_scan db p -> key_of kv.2 = kv.1).
  { intros [k b] [_ Hg]%db_scan_elem. by apply Hwf. }
  revert Hnd Hk. induction (db_scan db p) as [|[k b] l IH]; intros Hnd Hk; [constructor|].
  cbn in Hnd. apply NoDup_cons in Hnd as [Hnk Hnd].
  assert (IH' := IH Hnd (fun kv Hkv => Hk kv (proj2 (elem_of_cons _ _ _) (or_intror Hkv)))).
  cbn. destruct (project b) as [x|] eqn:Ex; [|done]. cbn. apply NoDup_cons. split; [|done].
  intros (y & Hy & Hin)%list_elem_of_fmap. apply Hnk.
  apply list_elem_of_omap in Hin as ([k' b'] & Hin & Hp). apply inject_project in Ex, Hp. simpl in Hp. subst b b'.
  pose proof (Hk (k, inject x) ltac:(left)) as H1. pose proof (Hk (k', inject y) ltac:(by right)) as H2.
  simpl in H1, H2. apply list_elem_of_fmap. exists (k', inject y). split; [|done]. simpl. congruence.
Qed.

Definition stored_all (vs : list Workload) w : Prop :=
  Forall (fun v => db_get w.(w_db) (keyWorkload v.(Workload_ID)) = Some (BWorkload v)) vs.

(** The victims are among the stored workloads. *)
Definition culling (k n o : Z) (vs : list Workload) w : Prop :=
  poised T dep k n o w /\ stored_all vs w.

Lemma culling_calm k n o vs w w' : culling k n o vs w -> calm w w' -> culling k n o vs w'.
Proof.
  intros [Hp Hs] Hc. split; [by eapply poised_calm|]. destruct Hc as (_ & _ & Hsw & _).
  eapply Forall_impl; [exact Hs|]. intros v Hv. by rewrite Hsw by apply (HasPrefix_app "workload:").
Qed.

Lemma terminate_yields k n o v vs :
  counts id v = true -> keyWorkload v.(Workload_ID) ∉ (fun x => keyWorkload x.(Workload_ID)) <$> vs ->
  yields T (culling k n o (v :: vs)) (UpsertWorkload (v <| Workload_Status := WorkloadTerminating |>))
    (fun _ => culling k (n - 1) (o - Z.b2z (stale id rev v)) vs).
Proof.
  intros Hc Hnot. apply yields_run. intros w [Hp [Hv Hs]%Forall_cons].
  destruct (UpsertWorkload_run no_faults (v <| Workload_Status := WorkloadTerminating |>) w)
    as (t & w' & Hrun & Htick & Hdb). exists tt, w'. split; [exact Hrun|].
  set (y := _ <| Workload_UpdatedAt := t |>) in Hdb.
  change (Workload_ID (v <| Workload_Status := WorkloadTerminating |>)) with (Workload_ID y) in Hdb.
  assert (Hoff : counts id y = false) by (unfold counts, y; simpl; apply andb_false_r).
  assert (Ht : later w w') by (unfold later; lia).
  destruct (poised_write T dep k n o y w w' Hp Ht Hdb) as [Hp' _].
  { intros i Hi Heq. assert (Hnone : db_get (w_db w) (keyWorkload (id_at i)) = None).
    { apply (poised_fresh _ _ _ _ _ _ Hp). lia. }
    rewrite Heq in Hnone. change (Workload_ID y) with (Workload_ID v) in Hnone. congruence. }
  split.
  - change (Workload_ID y) with (Workload_ID v) in Hp'. rewrite Hv in Hp'.
    unfold contributes, holds, stale in Hp'. cbn [project inject mbind option_bind Entity_Workload] in Hp'.
    rewrite Hc, Hoff in Hp'. unfold stale. rewrite Hc. simpl in Hp' |- *.
    by rewrite Z.add_0_r, Z.add_0_r in Hp'.
  - apply Forall_forall. intros x Hin. rewrite Hdb, db_get_set, decide_False.
    + exact (proj1 (Forall_forall _ _) Hs x Hin).
    + intros Heq. apply Hnot. apply list_elem_of_fmap. by exists x.
Qed.

Lemma enqueueDelete_yields k n o v vs :
  counts id v = true -> keyWorkload v.(Workload_ID) ∉ (fun x => keyWorkload x.(Workload_ID)) <$> vs ->
  yields T (culling k n o (v :: vs)) (enqueueDeleteForWorkload dep v)
    (fun _ => culling k (n - 1) (o - Z.b2z (stale id rev v)) vs).
Proof.
  intros Hc Hnot. unfold enqueueDeleteForWorkload.
  eapply yields_bind; [by apply terminate_yields|intros []|intros; store_steps].
  eapply yields_bind; [apply yields_calm; [apply culling_calm|calm_tac|]|intros []|intros; store_steps].
  - intros w. destruct (EnqueueAssignment_ok no_faults (delete_assignment v) w) as [w' Hw'].
    exists tt. by rewrite Hw'.
  - apply yields_calm; [apply culling_calm|calm_tac|by eexists].
Qed.

(** All victims go, the old ones among them count as old. *)
Lemma victims_yields k n o vs :
  (forall v, v ∈ vs -> counts id v = true) -> NoDup ((fun x => keyWorkload x.(Workload_ID)) <$> vs) ->
  yields T (culling k n o vs) (for_each vs (enqueueDeleteForWorkload dep))
    (fun _ => poised T dep k (n - lenZ vs) (o - lenZ (List.filter (stale id rev) vs))).
Proof.
  revert n o. induction vs as [|v vs IH]; intros n o Hc Hnd; cbn [for_each].
  - apply yields_ret. intros w [Hp _]. change (lenZ []) with 0. by rewrite !Z.sub_0_r.
  - apply NoDup_cons in Hnd as [Hv Hnd].
    eapply yields_bind; [apply (enqueueDelete_yields k n o v vs); [apply Hc; left|done]| |].
    + intros []. rewrite lenZ_filter_cons, lenZ_cons.
      set (b := Z.b2z (stale id rev v)). set (m := lenZ (List.filter _ vs)).
      replace (n - (lenZ vs + 1)) with (n - 1 - lenZ vs) by lia. replace (o - (b + m)) with (o - b - m) by lia.
      apply IH; [intros x Hx; apply Hc; by right|done].
    + intros []. store_steps.
Qed.

End ScaleDown.

Lemma NoDup_fmap_part {A B} (f : A -> B) (l a b : list A) :
  l ≡ₚ a ++ b -> NoDup (f <$> l) -> NoDup (f <$> a).
Proof. intros Hp Hnd. rewrite Hp, fmap_app in Hnd. by apply NoDup_app in Hnd as [? _]. Qed.

Lemma activeWorkloads_idemp l : activeWorkloads (activeWorkloads l) = activeWorkloads l.
Proof.
  unfold activeWorkloads. rewrite filter_filter. apply List.filter_ext. intros x. apply andb_diag.
Qed.

Lemma filter_all {A} (f : A -> bool) l : (forall x, x ∈ l -> f x = true) -> List.filter f l = l.
Proof.
  induction l as [|x l IH]; intros H; simpl; [done|]. rewrite (H x) by left.
  f_equal. apply IH. intros y Hy. apply H. by right.
Qed.

Section Pass.
Context {DB : Type} `{!Badger Blob DB, !BadgerLaws Blob DB} {E : Env}.
Implicit Types (db : DB) (w : World DB).
Hypothesis no_faults : forall t, env_dberr t = None.
Variable T : nat.
Variable dep : Deployment.
Abbreviation id := (dep.(Deployment_ID)).
Abbreviation rev := (dep.(Deployment_CurrentRevision)).

(** ** The active workloads as listed *)

Definition listed w : list Workload := activeWorkloads (of_deployment id (list_of "workload:" w.(w_db))).

Lemma elem_of_listed x w : x ∈ listed w -> x ∈ list_of "workload:" w.(w_db) /\ counts id x = true.
Proof.
  unfold listed, activeWorkloads. rewrite list_elem_of_In, List.filter_In, <- list_elem_of_In.
  intros [[Hx Hid]%elem_of_of_deployment Ha]. split; [done|]. unfold counts.
  by rewrite Hid, String.eqb_refl, Ha.
Qed.

Lemma listed_length k n o w : poised T dep k n o w -> lenZ (listed w) = n.
Proof. intros Hp. exact (poised_count _ _ _ _ _ _ Hp). Qed.

Lemma listed_old k n o w :
  poised T dep k n o w -> lenZ (oldRevisionWorkloads (listed w) rev) = o.
Proof.
  intros Hp. rewrite <- (poised_old _ _ _ _ _ _ Hp). unfold nold, tally, oldRevisionWorkloads, listed.
  unfold activeWorkloads, of_deployment. rewrite !filter_filter. f_equal. apply List.filter_ext.
  intros x. unfold stale, counts. by rewrite ?andb_assoc.
Qed.

Lemma listed_new k n o w :
  poised T dep k n o w -> lenZ (activeForRevision (listed w) rev) = n - o.
Proof.
  intros Hp. pose proof (listed_length _ _ _ _ Hp) as Hn. pose proof (listed_old _ _ _ _ Hp) as Ho.
  pose proof (lenZ_perm _ _ (filter_split_perm (fun x => x.(Workload_Version) =? rev) (listed w))) as Hs.
  rewrite lenZ_app in Hs. unfold activeForRevision, oldRevisionWorkloads in *. lia.
Qed.

Lemma poised_counts k n o w : poised T dep k n o w -> 0 <= o <= n.
Proof.
  intros Hp. pose proof (listed_new _ _ _ _ Hp) as Hn. pose proof (listed_old _ _ _ _ Hp) as Ho.
  pose proof (lenZ_nonneg (oldRevisionWorkloads (listed w) rev)).
  pose proof (lenZ_nonneg (activeForRevision (listed w) rev)). lia.
Qed.

(** The victims picked from a part of the listing. *)
Lemma listed_victims k n o w cs rest count :
  poised T dep k n o w -> listed w ≡ₚ cs ++ rest ->
  let vs := pickScaleDownVictims cs count in
  (forall v, v ∈ vs -> v ∈ cs /\ counts id v = true) /\ stored_all vs w
  /\ NoDup ((fun x => keyWorkload x.(Workload_ID)) <$> vs)
  /\ lenZ vs = Z.max 0 (Z.min count (lenZ cs)).
Proof.
  intros Hp Hcs. cbv zeta. set (vs := pickScaleDownVictims _ _).
  assert (Hsub : forall v, v ∈ cs -> v ∈ listed w) by (intros v Hv; rewrite Hcs; set_solver).
  assert (Hact : activeWorkloads cs = cs).
  { apply filter_all. intros x Hx%Hsub%elem_of_listed. destruct Hx as [_ Hx].
    unfold counts in Hx. by apply andb_true_iff in Hx as [_ ?]. }
  assert (Hin : forall v, v ∈ vs -> v ∈ cs) by (intros v Hv; by apply elem_of_victims in Hv as [? _]).
  split; [|split; [|split]].
  - intros v Hv. split; [by apply Hin|]. by apply (elem_of_listed v w), Hsub, Hin.
  - apply Forall_forall. intros v Hv%Hin%Hsub%elem_of_listed. destruct Hv as [Hv _].
    by apply elem_of_list_of in Hv as [_ Hg]; [|apply Hp].
  - destruct (pickScaleDownVictims_perm cs count) as [rest' Hp']. rewrite Hact in Hp'.
    eapply NoDup_fmap_part; [exact Hp'|]. eapply NoDup_fmap_part; [exact Hcs|].
    do 2 (eapply NoDup_fmap_part; [symmetry; apply filter_split_perm|]).
    exact (list_of_NoDup (X := Workload) "workload:" (w_db w) (poised_wf _ _ _ _ _ _ Hp)).
  - unfold vs. by rewrite pickScaleDownVictims_length, Hact.
Qed.

(** ** Scaling down after the creations *)

Abbreviation R := (dep.(Deployment_Spec).(DeploymentSpec_Replicas)).

(** Old workloads first, as many as availability allows. *)
Lemma drop_old_yields k n o w0 :
  poised T dep k n o w0 -> n <= i64_max -> 0 <= min_available dep <= i64_max ->
  let d := Z.max 0 (Z.min o (n - min_available dep)) in
  yields T (fun w => w = w0)
    (if 0 <? lenZ (listed w0) -! min_available dep then
       for_each (pickScaleDownVictims (oldRevisionWorkloads (listed w0) rev)
         (minInt (lenZ (oldRevisionWorkloads (listed w0) rev)) (lenZ (listed w0) -! min_available dep)))
         (enqueueDeleteForWorkload dep)
     else mret tt)
    (fun _ => poised T dep k (n - d) (o - d)).
Proof.
  intros Hp Hn Hm. cbv zeta. pose proof (poised_counts _ _ _ _ Hp) as Ho.
  rewrite (listed_length _ _ _ _ Hp). unfold i64_max in *.
  rewrite (wrap64_id (n - _)) by (unfold in_i64, i64_min, i64_max; lia).
  destruct (Z.ltb_spec 0 (n - min_available dep)) as [Hb|Hb].
  2: { apply yields_ret. intros w ->. rewrite Z.max_l, !Z.sub_0_r by lia. done. }
  rewrite (listed_old _ _ _ _ Hp), minInt_spec. set (c := Z.min o (n - min_available dep)).
  destruct (listed_victims k n o w0 (oldRevisionWorkloads (listed w0) rev)
    (activeForRevision (listed w0) rev) c Hp) as (H1 & H2 & H3 & H4).
  { rewrite Permutation_app_comm. symmetry. apply filter_split_perm. }
  set (vs := pickScaleDownVictims _ _) in *. rewrite (listed_old _ _ _ _ Hp) in H4.
  assert (Hst : List.filter (stale id rev) vs = vs).
  { apply filter_all. intros v Hv. destruct (H1 v Hv) as [Hin Hcv]. unfold stale. rewrite Hcv.
    unfold oldRevisionWorkloads in Hin. rewrite list_elem_of_In, List.filter_In in Hin. apply Hin. }
  pose proof (victims_yields no_faults T dep k n o vs (fun v Hv => proj2 (H1 v Hv)) H3) as Hv.
  rewrite Hst, H4 in Hv. replace (Z.max 0 (Z.min c o)) with (Z.max 0 c) in Hv by lia.
  eapply yields_conseq; [exact Hv| |done]. intros w ->. by split.
Qed.

(** Then whatever exceeds the replica count. *)
Lemma drop_excess_yields k n o w0 :
  poised T dep k n o w0 -> n <= i64_max -> 0 <= R <= i64_max ->
  yields T (fun w => w = w0)
    (if 0 <? lenZ (listed w0) -! R then
       for_each (pickScaleDownVictims (listed w0) (lenZ (listed w0) -! R)) (enqueueDeleteForWorkload dep)
     else mret tt)
    (fun _ w => exists o', o' <= o /\ poised T dep k (Z.min n R) o' w).
Proof.
  intros Hp Hn HR. pose proof (poised_counts _ _ _ _ Hp) as Ho. rewrite (listed_length _ _ _ _ Hp).
  unfold i64_max in *. rewrite (wrap64_id (n - _)) by (unfold in_i64, i64_min, i64_max; lia).
  destruct (Z.ltb_spec 0 (n - R)) as [Hb|Hb].
  2: { apply yields_ret. intros w ->. exists o. rewrite Z.min_l by lia. done. }
  destruct (listed_victims k n o w0 (listed w0) [] (n - R) Hp) as (H1 & H2 & H3 & H4).
  { by rewrite app_nil_r. }
  set (vs := pickScaleDownVictims _ _) in *. rewrite (listed_length _ _ _ _ Hp) in H4.
  pose proof (victims_yields no_faults T dep k n o vs (fun v Hv => proj2 (H1 v Hv)) H3) as Hv.
  rewrite H4 in Hv. replace (n - _) with (Z.min n R) in Hv by lia.
  eapply yields_conseq; [exact Hv|by intros w ->|]. intros [] w Hw.
  exists (o - lenZ (List.filter (stale id rev) vs)). split; [|done].
  pose proof (lenZ_nonneg (List.filter (stale id rev) vs)). lia.
Qed.

(** The active workloads of the deployment, listed. *)
Lemma list_yields k n o :
  yields T (poised T dep k n o) (ListWorkloadsByDeployment id)
    (fun l w => poised T dep k n o w /\ activeWorkloads l = listed w).
Proof.
  apply yields_run. intros w Hp. eexists _, _. split; [apply ListByDeployment_run; [done|apply Hp]|].
  split; [|done]. eapply poised_calm; [exact Hp|]. repeat split; try done. unfold later. simpl. lia.
Qed.

Lemma scale_down_yields k n o w0 :
  poised T dep k n o w0 -> n <= i64_max -> 0 <= min_available dep <= R -> R <= i64_max ->
  let d := Z.max 0 (Z.min o (n - min_available dep)) in
  yields T (fun w => w = w0) (scale_down id dep (listed w0))
    (fun _ w => exists o', o' <= o - d /\ poised T dep k (Z.min (n - d) R) o' w).
Proof.
  intros Hp Hn Hm HR. cbv zeta. unfold scale_down. cbv zeta. pose proof (poised_counts _ _ _ _ Hp) as Ho.
  eapply yields_bind; [apply (drop_old_yields k n o); [done|done|lia]|intros []|intros; store_steps].
  eapply yields_bind; [apply list_yields|intros l|intros; store_steps].
  intros w [Hp' Hl]. rewrite Hl. cbv zeta.
  apply (drop_excess_yields _ _ _ _ Hp'); [lia|lia|done].
Qed.

End Pass.

(** ** The document of the deployment

    [kin d d']: as far as the next pass is concerned, [d'] is [d]. *)
Definition kin (d d' : Deployment) : Prop :=
  let s := d.(Deployment_Spec) in let s' := d'.(Deployment_Spec) in
  d'.(Deployment_ID) = d.(Deployment_ID)
  /\ d'.(Deployment_CurrentRevision) = d.(Deployment_CurrentRevision)
  /\ d'.(Deployment_RolloutStatus).(DeploymentRolloutStatus_StartedAt)
     = d.(Deployment_RolloutStatus).(DeploymentRolloutStatus_StartedAt)
  /\ s'.(DeploymentSpec_Rollout) = s.(DeploymentSpec_Rollout)
  /\ s'.(DeploymentSpec_Replicas) = s.(DeploymentSpec_Replicas)
  /\ s'.(DeploymentSpec_Resources) = s.(DeploymentSpec_Resources)
  /\ s'.(DeploymentSpec_Labels) = s.(DeploymentSpec_Labels)
  /\ s'.(DeploymentSpec_Namespace) = s.(DeploymentSpec_Namespace)
  /\ default [] s'.(DeploymentSpec_Tolerations) = default [] s.(DeploymentSpec_Tolerations)
  /\ default [] s'.(DeploymentSpec_SecretMounts) = default [] s.(DeploymentSpec_SecretMounts).

#[export] Instance kin_PreOrder : PreOrder kin.
Proof.
  unfold kin. cbv zeta. split; [by repeat split|]. intros x y z H1 H2.
  repeat match goal with H : _ /\ _ |- _ => destruct H end. repeat split; etrans; eauto.
Qed.

Lemma kin_sym d d' : kin d d' -> kin d' d.
Proof. unfold kin. cbv zeta. intuition. Qed.

Definition writable (d : Deployment) : Prop := is_Some (json d).

(** Changes to status, conditions and times. *)
Lemma same_spec_kin d d' :
  d'.(Deployment_ID) = d.(Deployment_ID) ->
  d'.(Deployment_CurrentRevision) = d.(Deployment_CurrentRevision) ->
  d'.(Deployment_RolloutStatus).(DeploymentRolloutStatus_StartedAt)
  = d.(Deployment_RolloutStatus).(DeploymentRolloutStatus_StartedAt) ->
  d'.(Deployment_Spec) = d.(Deployment_Spec) ->
  d'.(Deployment_RevisionHistory) = d.(Deployment_RevisionHistory) ->
  kin d d' /\ (writable d -> writable d').
Proof.
  intros Hid Hrev Hst Hs Hh. split; [unfold kin; by rewrite Hid, Hrev, Hst, Hs|].
  unfold writable, json, JSON_Deployment. rewrite Hs, Hh. by destruct (_ && _).
Qed.

Lemma default_omitempty {A} (l : option (list A)) : default [] (omitempty l) = default [] l.
Proof. by destruct l as [[|]|]. Qed.

(** The stored document. *)
Lemma json_kin (d y : Deployment) : json d = Some y -> kin d y /\ writable y.
Proof.
  unfold writable, json, JSON_Deployment. destruct (_ && _) eqn:Hok; [|done]. intros [= <-].
  apply andb_true_iff in Hok as [H1 H2]. split.
  - unfold kin. cbn. rewrite !default_omitempty. done.
  - cbn. unfold spec_floats_ok in *. cbn. rewrite H1. cbn.
    assert (Hh : forallb (fun r => is_finite_f (RolloutSpec_SLOErrorRateThreshold
      (DeploymentSpec_Rollout (DeploymentRevision_Spec r)))) (List.map json_revision (Deployment_RevisionHistory d)) = true).
    { rewrite forallb_forall in H2 |- *. intros r Hr. apply in_map_iff in Hr as (r0 & <- & Hin).
      exact (H2 r0 Hin). }
    rewrite Hh. by eexists.
Qed.

Lemma prepare_writable d : writable d -> writable (prepare d).
Proof.
  assert (Hh : (prepare d).(Deployment_RevisionHistory) = d.(Deployment_RevisionHistory)).
  { unfold prepare. by case_match. }
  unfold writable, json, JSON_Deployment. rewrite Hh, prepare_spec.
  assert (Hf : spec_floats_ok (Deployment_Spec d) = true ->
    spec_floats_ok (Deployment_Spec d <| DeploymentSpec_Rollout ::= normalizeRolloutSpec |>) = true).
  { unfold spec_floats_ok. cbn. destruct (DeploymentSpec_Rollout (Deployment_Spec d)) as [? [? ?] [? ?] ? ? ? slo ?].
    rewrite normalizeRolloutSpec_fields. cbn. unfold clamp_slo. by destruct (f_ltb slo f_zero). }
  destruct (spec_floats_ok (Deployment_Spec d)); [rewrite Hf by done; by destruct (forallb _ _)|].
  simpl. by intros [? ?].
Qed.

Lemma prepare_revision d :
  (prepare d).(Deployment_CurrentRevision) = Z.max 1 d.(Deployment_CurrentRevision).
Proof.
  unfold prepare. cbv zeta. cbn. destruct (Z.leb_spec (Deployment_CurrentRevision d) 0); simpl; lia.
Qed.

Lemma prepare_status d : (prepare d).(Deployment_RolloutStatus) = d.(Deployment_RolloutStatus).
Proof. unfold prepare. by case_match. Qed.

Lemma normalizeRolloutSpec_deadline r :
  (normalizeRolloutSpec r).(RolloutSpec_ProgressDeadlineSeconds)
  = clamp0 r.(RolloutSpec_ProgressDeadlineSeconds).
Proof. destruct r as [? [? ?] [? ?] ? ? ? ? ?]. by rewrite normalizeRolloutSpec_fields. Qed.

Lemma prepare_on_time {E : Env} d : on_time d -> on_time (prepare d).
Proof.
  intros Htime. unfold on_time in *. rewrite prepare_status, prepare_spec. cbn.
  rewrite normalizeRolloutSpec_deadline.
  intros H1 H2. rewrite clamp0_id by (unfold clamp0 in H2; case_match; lia).
  apply Htime; [done|]. unfold clamp0 in H2. case_match; lia.
Qed.

(** What a pass stored, the next pass works on. *)
Lemma kin_prepare d y : kin (prepare d) y -> kin (prepare d) (prepare y).
Proof.
  unfold kin. rewrite (prepare_spec y), (prepare_revision y), (prepare_status y), (prepare_ID y). cbn.
  intros (H1 & H2 & H3 & H4 & H). rewrite H1, H2, H3, H4. split; [done|].
  split; [rewrite prepare_revision; lia|]. split; [done|]. split; [|exact H].
  rewrite prepare_spec. cbn. apply normalizeRolloutSpec_idemp.
Qed.

Section Kin.
Context {DB : Type} `{!Badger Blob DB, !BadgerLaws Blob DB} {E : Env}.

Lemma kin_poised T d d' k n o (w : World DB) : kin d d' -> poised T d k n o w -> poised T d' k n o w.
Proof.
  intros (H1 & H2 & _ & _ & _ & H6 & H7 & H8 & H9 & H10) [Hw Hc Ho Hf Hs Hn Hr]. split; try done.
  - by rewrite H1.
  - by rewrite H1, H2.
  - unfold deliverable. by rewrite H8, H10.
  - destruct Hr as (n0 & Hin & Hh). exists n0. split; [done|]. unfold hosts. by rewrite H6, H7, H9.
Qed.

Lemma kin_limits d d' :
  kin d d' -> min_available d' = min_available d /\ max_total d' = max_total d
  /\ (sane_counts d -> sane_counts d') /\ (on_time d -> on_time d').
Proof.
  intros (_ & _ & H3 & H4 & H5 & _). unfold min_available, max_total, sane_counts, on_time.
  by rewrite H3, H4, H5.
Qed.

End Kin.

(** ** The status part *)

Section Finish.
Context {DB : Type} `{!Badger Blob DB, !BadgerLaws Blob DB} {E : Env}.
Implicit Types (db : DB) (w : World DB).
Hypothesis no_faults : forall t, env_dberr t = None.
Variable T : nat.

(** The deployment in hand is still [d0] and can be stored. *)
Definition edited (d0 d : Deployment) : Prop := kin d0 d /\ writable d.

Lemma edited_same d0 d d' :
  edited d0 d -> kin d d' /\ (writable d -> writable d') -> edited d0 d'.
Proof. intros [H1 H2] [H3 H4]. split; [by etrans|auto]. Qed.

(** A step on the deployment in hand that leaves its specification alone. *)
Definition edits (m : Deployment -> M (World DB) Deployment) : Prop :=
  forall d0 d, edited d0 d -> yields T (fun _ => True) (m d) (fun d' _ => edited d0 d').

Lemma edits_now (f : Time -> Deployment -> Deployment) :
  (forall t d, kin d (f t d) /\ (writable d -> writable (f t d))) ->
  edits (fun d => t ← now; mret (f t d)).
Proof.
  intros Hf d0 d Hd. apply yields_run. intros w _. eexists _, _. split; [done|].
  by eapply edited_same.
Qed.

Lemma edits_condition type status reason message : edits (with_condition type status reason message).
Proof. apply edits_now. intros t d. by apply same_spec_kin. Qed.

Lemma edits_touch_rollout : edits touch_rollout.
Proof. apply edits_now. intros t d. by apply same_spec_kin. Qed.

Lemma edits_touch : edits touch.
Proof. apply edits_now. intros t d. by apply same_spec_kin. Qed.

Lemma edited_mark_stable d0 d : edited d0 d -> edited d0 (mark_stable d).
Proof. intros H. eapply edited_same; [exact H|]. by apply same_spec_kin. Qed.

Lemma yields_edit {B} (m : Deployment -> M (World DB) Deployment) d0 d (k : Deployment -> M (World DB) B) Q :
  edits m -> edited d0 d -> (forall d', edited d0 d' -> yields T (fun _ => True) (k d') Q) ->
  (forall d', steps later (k d')) -> yields T (fun _ => True) (m d ≫= k) Q.
Proof.
  intros Hm Hd Hk Hl. eapply yields_bind; [by apply (Hm d0)| |done]. intros d' w Hd'. by apply Hk.
Qed.

Lemma yields_fact {A} (F : Prop) (P P' : World DB -> Prop) (m : M (World DB) A) Q :
  (forall w, P w -> F /\ P' w) -> (F -> yields T P' m Q) -> yields T P m Q.
Proof. intros H HF w Hw. destruct (H w Hw). by apply HF. Qed.

Lemma yields_pure {A} (F : Prop) (m : M (World DB) A) Q :
  (F -> yields T (fun _ => True) m Q) -> yields T (fun _ => F) m Q.
Proof. intros H w HF. by apply H. Qed.

(** What a call promises, and what it leaves alone, are shown apart. *)
Lemma yields_calm_too {A} (P : World DB -> Prop) (m : M (World DB) A) Q :
  yields T (fun _ => True) m Q -> (forall w w', P w -> calm w w' -> P w') -> steps calm m ->
  yields T P m (fun a w => Q a w /\ P w).
Proof.
  intros Hm HP Hc w Hw. destruct (Hm w I) as [?|(a & Ha & HQ)]; [by left|]. right. exists a.
  split; [done|]. split; [done|]. exact (HP _ _ Hw (Hc w)).
Qed.

(** The document stored for [d0]. *)
Definition tracked (d0 : Deployment) w : Prop :=
  exists d, db_get w.(w_db) (keyDeployment d0.(Deployment_ID)) = Some (BDeployment d) /\ edited d0 d.

End Finish.

Create HintDb edits.
#[export] Hint Resolve edits_condition edits_touch_rollout edits_touch : edits.

Ltac edit_tac d0 := eapply (yields_edit _ _ d0); [solve [eauto with edits]| |intros ? ?|intros; store_steps].

Section Finishes.
Context {DB : Type} `{!Badger Blob DB, !BadgerLaws Blob DB} {E : Env}.
Implicit Types (db : DB) (w : World DB).
Hypothesis no_faults : forall t, env_dberr t = None.
Variable T : nat.

Lemma UpdateDeployment_yields d0 d :
  edited d0 d -> yields T (fun _ => True) (UpdateDeployment d) (fun _ => tracked (DB := DB) d0).
Proof.
  intros [Hk [y Hy]]. apply yields_run. intros w _. exists tt. eexists.
  split; [by apply (put_run _ _ y)|]. exists y. destruct (json_kin d y Hy) as [Hk' Hw]. split.
  - change (w_db (?a <| w_db := ?x |>)) with x. destruct Hk as [<- _]. by rewrite db_get_set, decide_True.
  - split; [by etrans|done].
Qed.

Lemma finish_yields dep phase :
  writable dep ->
  yields T (fun _ => True) (finish_reconcile dep phase) (fun _ => tracked (DB := DB) dep).
Proof.
  intros Hd. assert (He : edited dep dep) by (split; [reflexivity|done]). unfold finish_reconcile.
  apply yields_bind with (Q := fun _ _ => True); [| |intros; store_steps].
  { apply yields_run. intros w _. unfold activeWorkloadsAfterRefresh, mbind, M_bind, attempt.
    destruct (ListWorkloadsByDeployment _ w) as [r w1]. by eexists _, _. }
  intros active. cbv zeta.
  apply yields_bind with (Q := fun d _ => edited dep d); [| |intros; store_steps].
  - destruct (_ && _ && _).
    + do 2 (edit_tac dep; [by try apply edited_mark_stable|]). by apply edits_condition.
    + edit_tac dep; [eapply edited_same; [exact He|by apply same_spec_kin]|]. edit_tac dep; [done|].
      destruct (_ && _); [|by apply yields_ret].
      edit_tac dep; [by apply edited_mark_stable|]. by apply edits_condition.
  - intros d. apply yields_pure. intros Hw.
    edit_tac dep; [eapply edited_same; [exact Hw|by apply same_spec_kin]|]. edit_tac dep; [done|].
    apply yields_bind with (Q := fun _ _ => True); [| |intros; store_steps].
    + apply yields_ignore. auto.
    + intros []. by apply UpdateDeployment_yields.
Qed.

Lemma on_time_yields dep :
  on_time dep -> yields (DB := DB) T (fun _ => True) (deadline_passed dep) (fun late _ => late = false).
Proof.
  intros Ht. apply yields_run. intros w _. unfold deadline_passed, on_time in *. cbv zeta in *.
  destruct (isRolloutInProgress _); [|by eexists _, _]. destruct (Z.ltb_spec 0 (RolloutSpec_ProgressDeadlineSeconds
    (DeploymentSpec_Rollout (Deployment_Spec dep)))); [|by eexists _, _].
  destruct (IsZero _) eqn:Hz; [by eexists _, _|]. eexists _, _. split; [done|]. cbn. by apply Ht.
Qed.

End Finishes.

(** ** One pass *)

(** The replicas a pass creates, with [n] active workloads, [o] of them old,
    and the old ones it then terminates. *)
Definition created (d : Deployment) (n o : Z) : Z :=
  Z.min (Z.max 0 (d.(Deployment_Spec).(DeploymentSpec_Replicas) - (n - o))) (Z.max 0 (max_total d - n)).

Definition retired (d : Deployment) (n o : Z) : Z :=
  Z.max 0 (Z.min o (n + created d n o - min_available d)).

(** The canary strategy plays no role. *)
Definition plain (d : Deployment) (o : Z) : Prop :=
  o = 0 \/ d.(Deployment_Spec).(DeploymentSpec_Rollout).(RolloutSpec_Strategy) <> RolloutStrategyCanary.

Section OnePass.
Context {DB : Type} `{!Badger Blob DB, !BadgerLaws Blob DB} {E : Env}.
Implicit Types (db : DB) (w : World DB).
Hypothesis no_faults : forall t, env_dberr t = None.
Variable T : nat.
Hypothesis distinct : ids_distinct T.

(** [reconcileDeployment] after it has read the deployment. *)
Definition reconcile_prepared (id : string) (dep : Deployment) : M (World DB) unit :=
  late ← deadline_passed dep;
  if late : bool then fail_rollout dep else
  workloads ← ListWorkloadsByDeployment id;
  let '(_, rolloutPhase) := rollout_target dep workloads in
  failure ← create_workloads dep (Z.to_nat (to_create dep workloads));
  match failure with
  | Some err => placement_failed dep rolloutPhase err
  | None =>
      workloads ← ListWorkloadsByDeployment id;
      (if negb (String.eqb rolloutPhase "Canary")
       then scale_down id dep (activeWorkloads workloads) else mret tt) ;;
      finish_reconcile dep rolloutPhase
  end.

Lemma reconcileDeployment_prepared id :
  reconcileDeployment (DB := DB) id = (dep ← GetDeployment id; reconcile_prepared id (prepare dep)).
Proof. reflexivity. Qed.

Variable dep : Deployment.
Abbreviation R := (dep.(Deployment_Spec).(DeploymentSpec_Replicas)).
Hypothesis sane_req : sane_resource dep.(Deployment_Spec).(DeploymentSpec_Resources).
Hypothesis sane : sane_counts dep.
Hypothesis surge : 0 <= dep.(Deployment_Spec).(DeploymentSpec_Rollout)
  .(RolloutSpec_RollingUpdate).(RollingUpdateSpec_MaxSurge).

Lemma plain_target k n o l w :
  poised T dep k n o w -> activeWorkloads l = listed dep w -> plain dep o -> n <= i64_max ->
  rollout_target dep l = (R, "Progressing").
Proof.
  intros Hp Hl Hplain Hn. unfold rollout_target. rewrite Hl, (listed_length T dep k n o w Hp).
  rewrite (listed_new T dep k n o w Hp). pose proof (poised_counts T dep k n o w Hp).
  unfold i64_max in *. rewrite wrap64_id by (unfold in_i64, i64_min, i64_max; lia).
  replace (n - (n - o)) with o by lia. destruct Hplain as [->|Hs].
  - by rewrite andb_false_r.
  - by apply String.eqb_neq in Hs as ->.
Qed.

Lemma to_create_count k n o l w :
  poised T dep k n o w -> activeWorkloads l = listed dep w -> plain dep o -> n <= i64_max ->
  to_create dep l = created dep n o.
Proof.
  intros Hp Hl Hplain Hn. unfold to_create. cbv zeta.
  rewrite (plain_target k n o l w Hp Hl Hplain Hn), Hl, (listed_length T dep k n o w Hp).
  rewrite (listed_new T dep k n o w Hp). pose proof (poised_counts T dep k n o w Hp).
  destruct (max_total_spec dep sane surge) as [[? ?] _]. pose proof (proj1 sane) as HR. cbv zeta in HR.
  cbn [fst]. unfold i64_max in *. rewrite !wrap64_id by (unfold in_i64, i64_min, i64_max; lia).
  rewrite minInt_spec. unfold created. f_equal; unfold clamp0; case_match; lia.
Qed.

Lemma created_bounds n o : 0 <= o <= n -> n <= i64_max -> 0 <= created dep n o /\ n + created dep n o <= i64_max.
Proof.
  intros Ho Hn. unfold created. destruct (max_total_spec dep sane surge) as [[? ?] _]. lia.
Qed.

(** What remains to be done after the creations. *)
Lemma settle_yields k n o :
  n <= i64_max -> writable dep -> 0 <= min_available dep <= R ->
  let d := Z.max 0 (Z.min o (n - min_available dep)) in
  yields T (poised T dep k n o)
    (workloads ← ListWorkloadsByDeployment dep.(Deployment_ID);
     (if negb (String.eqb "Progressing" "Canary")
      then scale_down dep.(Deployment_ID) dep (activeWorkloads workloads) else mret tt) ;;
     finish_reconcile dep "Progressing")
    (fun _ w => tracked dep w /\ exists o', o' <= o - d /\ poised T dep k (Z.min (n - d) R) o' w).
Proof.
  intros Hn Hwr Hm. cbv zeta. pose proof (proj1 sane) as HR. cbv zeta in HR.
  eapply yields_bind; [by apply list_yields|intros ws|intros; store_steps].
  intros w0 [Hp Hl]. rewrite Hl.
  assert (Hy : yields T (fun w => w = w0)
    (scale_down (Deployment_ID dep) dep (listed dep w0) ;; finish_reconcile dep "Progressing")
    (fun _ w => tracked dep w /\ exists o', o' <= o - Z.max 0 (Z.min o (n - min_available dep))
       /\ poised T dep k (Z.min (n - Z.max 0 (Z.min o (n - min_available dep))) R) o' w)); [|exact (Hy w0 eq_refl)].
  eapply yields_bind; [apply (scale_down_yields no_faults T dep k n o); [done|done|lia|lia]|intros []|intros; store_steps].
  apply yields_calm_too; [by apply finish_yields| |calm_tac].
  intros w w' (o' & Ho' & Hp') Hc. exists o'. split; [done|]. by eapply poised_calm.
Qed.

Lemma prepared_pass_yields k n o :
  n <= i64_max -> writable dep -> on_time dep -> 0 <= min_available dep <= R ->
  plain dep o -> created dep n o <= k ->
  yields T (poised T dep k n o) (reconcile_prepared dep.(Deployment_ID) dep)
    (fun _ w => tracked dep w /\ exists o', o' <= o - retired dep n o
       /\ poised T dep (k - created dep n o) (Z.min (n + created dep n o - retired dep n o) R) o' w).
Proof.
  intros Hn Hwr Htime Hm Hplain Hk. unfold reconcile_prepared.
  eapply yields_bind; [apply (yields_calm_too T (poised T dep k n o)); [by apply on_time_yields|
    by intros w w' Hp Hc; eapply poised_calm|calm_tac]|intros late|intros; store_steps].
  eapply yields_fact; [intros w H; exact H|]. intros ->.
  eapply yields_bind; [by apply list_yields|intros ws|intros; store_steps].
  apply (yields_fact T (to_create dep ws = created dep n o /\ rollout_target dep ws = (R, "Progressing")
    /\ 0 <= o <= n) _ (poised T dep k n o)).
  { intros w [Hp Hl]. split; [|done]. split; [by eapply to_create_count|].
    split; [by eapply plain_target|by eapply poised_counts]. }
  intros (-> & -> & Ho). destruct (created_bounds n o Ho Hn) as [Hc0 Hcn].
  eapply yields_bind; [apply (create_workloads_yields no_faults T distinct dep sane_req); lia
    |intros failure|intros; store_steps].
  eapply yields_fact; [intros w H; exact H|]. intros ->. rewrite Z2Nat.id by done.
  by apply settle_yields.
Qed.

End OnePass.

(** ** Passes and rollouts *)

Section Passes.
Context {DB : Type} `{!Badger Blob DB, !BadgerLaws Blob DB} {E : Env}.
Implicit Types (db : DB) (w : World DB).
Hypothesis no_faults : forall t, env_dberr t = None.
Variable T : nat.
Hypothesis distinct : ids_distinct T.
Variable d0 : Deployment.
Abbreviation R := (d0.(Deployment_Spec).(DeploymentSpec_Replicas)).
Hypothesis sane_req : sane_resource d0.(Deployment_Spec).(DeploymentSpec_Resources).
Hypothesis sane : sane_counts d0.
Hypothesis surge : 0 <= d0.(Deployment_Spec).(DeploymentSpec_Rollout)
  .(RolloutSpec_RollingUpdate).(RollingUpdateSpec_MaxSurge).
Hypothesis timely : on_time d0.
Hypothesis available : 0 <= min_available d0 <= R.

(** The stored deployment is the one the next pass takes for [d0]. *)
Definition tracking w : Prop :=
  exists d, db_get w.(w_db) (keyDeployment d0.(Deployment_ID)) = Some (BDeployment d)
  /\ kin d0 (prepare d) /\ writable d.

Lemma pass_yields k n o :
  n <= i64_max -> plain d0 o -> created d0 n o <= k -> (exists dep, d0 = prepare dep) ->
  yields T (fun w => poised T d0 k n o w /\ tracking w) (reconcileDeployment d0.(Deployment_ID))
    (fun _ w => tracking w /\ exists o', o' <= o - retired d0 n o
       /\ poised T d0 (k - created d0 n o) (Z.min (n + created d0 n o - retired d0 n o) R) o' w).
Proof.
  intros Hn Hplain Hk [dep0 Hd0]. rewrite reconcileDeployment_prepared. intros w [Hp (d & Hg & Hkin & Hwr)].
  rewrite (bind_Ok _ _ _ _ _ (GetDeployment_run _ d w no_faults Hg)).
  set (w1 := w <| w_tick ::= S |>). pose proof Hkin as (Hid & _ & _ & Hro & HR & Hres & _).
  destruct (kin_limits _ _ Hkin) as (Hm & HM & Hs & Ht).
  assert (Hc : created (prepare d) n o = created d0 n o) by (unfold created; by rewrite HM, HR).
  assert (Hr : retired (prepare d) n o = retired d0 n o) by (unfold retired; by rewrite Hc, Hm).
  destruct (prepared_pass_yields no_faults T distinct (prepare d)) with (k := k) (n := n) (o := o) (w := w1)
    as [Hlate|([] & Hok & (y & Hy & Hky & Hwy) & o' & Ho' & Hp')].
  - by rewrite Hres.
  - by apply Hs.
  - by rewrite Hro.
  - done.
  - by apply prepare_writable.
  - by apply Ht.
  - by rewrite Hm, HR.
  - unfold plain. by rewrite Hro.
  - by rewrite Hc.
  - apply (kin_poised T d0); [done|]. eapply poised_calm; [exact Hp|].
    repeat split; try done. unfold later. simpl. lia.
  - left. by rewrite Hid in Hlate.
  - right. exists tt. rewrite Hid in *. split; [done|]. rewrite Hr, Hc, HR in *. split.
    + exists y. split; [done|]. split; [|done]. subst d0. apply kin_prepare. by etrans.
    + exists o'. split; [done|]. apply (kin_poised T (prepare d)); [by apply kin_sym|done].
Qed.

(** ** The arithmetic of a pass *)

Definition missing (n o : Z) : Z := Z.max 0 (R - (n - o)).

Lemma pass_arith n o :
  0 <= o <= n ->
  let c := created d0 n o in
  let r := retired d0 n o in
  let n' := Z.min (n + c - r) R in
  c <= missing n o /\ 0 <= n' <= R
  /\ (forall o', 0 <= o' <= o - r -> missing n' o' <= missing n o - c)
  /\ (o = 0 -> r = 0 /\ n' = R)
  /\ (0 < o -> min_available d0 < max_total d0 \/ R = 0 -> 1 <= r).
Proof.
  intros Ho. cbv zeta. unfold missing, retired, created. set (m := min_available d0) in *.
  destruct (max_total_spec d0 sane surge) as [[HM _] _]. set (M := max_total d0) in *.
  repeat split; intros; lia.
Qed.

Fixpoint passes (m : nat) (id : string) : M (World DB) unit :=
  match m with
  | O => mret tt
  | S m' => reconcileDeployment id ;; passes m' id
  end.

Lemma later_passes m id : steps later (passes m id).
Proof.
  induction m as [|m IH]; cbn [passes]; [store_steps|]. apply steps_bind; [apply _|unfold reconcileDeployment; store_steps|].
  intros _. exact IH.
Qed.

(** [i] passes ago there were [o] old workloads. *)
Definition rolling (o0 : Z) (i : nat) w : Prop :=
  exists k n o, poised T d0 k n o w /\ tracking w /\ n <= i64_max /\ missing n o <= k
  /\ o <= Z.max 0 (o0 - Z.of_nat i) /\ (o0 < Z.of_nat i -> n = R).

Lemma rolling_pass o0 i :
  (exists dep, d0 = prepare dep) ->
  o0 = 0 \/ (d0.(Deployment_Spec).(DeploymentSpec_Rollout).(RolloutSpec_Strategy) <> RolloutStrategyCanary
             /\ (min_available d0 < max_total d0 \/ R = 0)) ->
  yields T (rolling o0 i) (reconcileDeployment d0.(Deployment_ID)) (fun _ => rolling o0 (S i)).
Proof.
  intros Hprep Hroll w (k & n & o & Hp & Ht & Hn & Hk & Ho & Hi).
  pose proof (poised_counts T d0 k n o w Hp) as Hon.
  destruct (pass_arith n o Hon) as (Hc & Hn' & Hmiss & Hzero & Hprog).
  assert (Hplain : plain d0 o) by (unfold plain; destruct Hroll as [->|[? _]]; [left; lia|by right]).
  destruct (pass_yields k n o Hn Hplain ltac:(lia) Hprep w (conj Hp Ht))
    as [?|(a & Ha & Ht' & o' & Ho' & Hp')]; [by left|right]. exists a. split; [done|].
  pose proof (poised_counts T d0 _ _ _ _ Hp') as Hon'.
  pose proof (proj1 sane) as HR. cbv zeta in HR.
  eexists _, _, o'. split; [exact Hp'|]. split; [done|]. split; [lia|].
  split; [specialize (Hmiss o' ltac:(lia)); lia|].
  destruct (decide (o = 0)) as [Hz|Hnz].
  - destruct (Hzero Hz) as [Hr HnR]. split; [lia|]. intros _. exact HnR.
  - assert (Hr : 1 <= retired d0 n o) by (apply Hprog; [lia|]; destruct Hroll as [->|[_ ?]]; [lia|done]).
    split; lia.
Qed.

Lemma rolling_passes o0 m i :
  (exists dep, d0 = prepare dep) ->
  o0 = 0 \/ (d0.(Deployment_Spec).(DeploymentSpec_Rollout).(RolloutSpec_Strategy) <> RolloutStrategyCanary
             /\ (min_available d0 < max_total d0 \/ R = 0)) ->
  yields T (rolling o0 i) (passes m d0.(Deployment_ID)) (fun _ => rolling o0 (m + i)).
Proof.
  intros Hprep Hroll. revert i. induction m as [|m IH]; intros i; cbn [passes].
  - apply yields_ret. auto.
  - eapply yields_bind; [by apply rolling_pass|intros []|intros; apply later_passes].
    replace (S m + i)%nat with (m + S i)%nat by lia. apply IH.
Qed.

End Passes.

Section Completes.
Context {DB : Type} `{!Badger Blob DB, !BadgerLaws Blob DB} {E : Env}.
Implicit Types (db : DB) (w : World DB).

(** Settings that allow a rolling update to make progress. *)
Definition can_roll (dep : Deployment) : Prop :=
  let rollout := dep.(Deployment_Spec).(DeploymentSpec_Rollout) in
  let ru := rollout.(RolloutSpec_RollingUpdate) in
  rollout.(RolloutSpec_Strategy) <> RolloutStrategyCanary
  /\ 1 <= Z.max 0 ru.(RollingUpdateSpec_MaxSurge) + Z.max 0 ru.(RollingUpdateSpec_MaxUnavailable)
  /\ dep.(Deployment_Spec).(DeploymentSpec_Replicas) + Z.max 0 ru.(RollingUpdateSpec_MaxSurge) <= i64_max.

Lemma prepare_can_roll dep :
  sane_counts dep -> can_roll dep ->
  let d := prepare dep in
  d.(Deployment_Spec).(DeploymentSpec_Rollout).(RolloutSpec_Strategy) <> RolloutStrategyCanary
  /\ (min_available d < max_total d \/ d.(Deployment_Spec).(DeploymentSpec_Replicas) = 0).
Proof.
  intros Hsane (Hs & Hsu & Hov). cbv zeta. split.
  - rewrite prepare_spec. cbn. revert Hs. destruct (DeploymentSpec_Rollout _) as [st [? ?] [? ?] ? ? ? ? ?].
    rewrite normalizeRolloutSpec_fields. cbn. by destruct (String.eqb st "").
  - destruct (prepared_limits dep Hsane) as (_ & HR & _ & HM & Hm). rewrite Hm, HR.
    pose proof (proj1 Hsane) as HR0. cbv zeta in HR0.
    assert (Hmax : max_total (prepare dep) = dep.(Deployment_Spec).(DeploymentSpec_Replicas)
      + Z.max 0 dep.(Deployment_Spec).(DeploymentSpec_Rollout).(RolloutSpec_RollingUpdate).(RollingUpdateSpec_MaxSurge)).
    { unfold max_total. rewrite HR, prepare_RollingUpdate. cbn -[clamp0].
      replace (clamp0 _) with (Z.max 0 (RollingUpdateSpec_MaxSurge (RolloutSpec_RollingUpdate
        (DeploymentSpec_Rollout (Deployment_Spec dep))))) by (unfold clamp0; case_match; lia).
      rewrite wrap64_id by (unfold in_i64, i64_min, i64_max in *; lia). case_match; lia. }
    lia.
Qed.

(** C3: a rolling update completes.  Nothing fails, the secrets exist, the
    deadline has not passed, the drawn identifiers are new, and one ready node
    the deployment may run on has room for the replicas that are missing in
    the current revision (other nodes may be chosen as well).  Then passes of
    the reconciler end without an error, and when there are more of them than
    active workloads of old revisions, exactly [Replicas] workloads are active
    and all are of the current revision.  This needs a strategy other than
    canary and some surge or unavailability.  Without old workloads none of
    that matters: a single pass reaches the replica count, from below by
    creating workloads and from above by terminating them. *)
Theorem rollout_completes id dep n0 m T w :
  wf w -> (forall t, env_dberr t = None) ->
  db_get w.(w_db) (keyDeployment id) = Some (BDeployment dep) ->
  let replicas := dep.(Deployment_Spec).(DeploymentSpec_Replicas) in
  let rev := Z.max 1 dep.(Deployment_CurrentRevision) in
  let active := nactive id w.(w_db) in
  let old := nold id rev w.(w_db) in
  let w' := (passes m id w).2 in
  old = 0 \/ can_roll dep -> old < Z.of_nat m ->
  sane_counts dep -> sane_resource dep.(Deployment_Spec).(DeploymentSpec_Resources) ->
  active <= i64_max -> is_Some (json dep) -> on_time dep -> deliverable dep w -> nodes_storable w ->
  ids_fresh T w -> ids_distinct T -> (w'.(w_tick) <= T)%nat ->
  n0 ∈ list_of "node:" w.(w_db) -> hosts dep (Z.max 0 (replicas - (active - old))) n0 ->
  (passes m id w).1 = Ok tt /\ nactive id w'.(w_db) = replicas /\ nold id rev w'.(w_db) = 0.
Proof.
  intros Hw Hf Hg replicas rev active old w' Hroll Hm Hsane Hreq Hn Hj Htime Hdel Hnodes Hfresh Hids HT Hin Hh.
  destruct (prepared_limits dep Hsane) as (Hs & HR & Hsu & HM & Hmin).
  pose proof (prepare_spec dep) as Hspec. pose proof (prepare_revision dep) as Hrev.
  pose proof (prepare_on_time dep Htime) as Htd. pose proof (proj1 Hsane) as HR0. cbv zeta in HR0.
  pose proof (Hw _ _ Hg) as Hid. simpl in Hid. apply string_app_inj_l in Hid.
  rewrite <- prepare_ID in Hid. subst id. set (d0 := prepare dep) in *.
  assert (Hp : poised T d0 (Z.max 0 (replicas - (active - old))) active old w).
  { split; rewrite ?Hrev; try done.
    - unfold deliverable. by rewrite Hspec.
    - exists n0. split; [done|]. unfold hosts. by rewrite Hspec. }
  assert (Hstart : rolling T d0 old 0 w).
  { eexists _, _, _. split; [exact Hp|]. split; [exists dep; by split; [|split; [reflexivity|]]|].
    pose proof (tally_nonneg (stale (Deployment_ID d0) rev) (w_db w)) as Hold. change (0 <= old) in Hold.
    split; [done|]. unfold missing. rewrite HR. fold replicas. split; [|split]; lia. }
  destruct (rolling_passes Hf T Hids d0) with (o0 := old) (m := m) (i := 0%nat) (w := w)
    as [Hlate|([] & Hok & k & n & o & Hp' & _ & _ & _ & Ho & Hlast)]; try done.
  - by rewrite Hspec.
  - rewrite Hmin, HR. lia.
  - by exists dep.
  - destruct Hroll as [?|Hroll]; [by left|right]. by apply prepare_can_roll.
  - unfold w' in HT. lia.
  - split; [done|]. rewrite Nat.add_0_r in *. pose proof (poised_counts T d0 _ _ _ _ Hp') as Hon.
    assert (n = replicas) as -> by (rewrite Hlast by lia; done). assert (o = 0) as -> by lia.
    split; [apply Hp'|]. unfold rev. rewrite <- Hrev. apply Hp'.
Qed.

End Completes.
