(* ===== verification/Deployments.v ===== *)
(** * The orchestrator's deployment, namespace and secret operations

    The exported methods of [internal/service/orchestrator.go] that create,
    change and delete deployments, namespaces, quotas and secrets, with the
    checks they run first ([runAdmissionCheck] of [features.go],
    [ensureNamespaceExists], [enforceNamespaceQuota]), and the two calls of the
    agents, [PollAssignments] and [ReportWorkloadStatus].  The store's methods
    of the same name are written [Store.CreateDeployment] and so on. *)

From Stdlib Require Import Ascii String.
From Corelib Require Import SpecFloat.
From S2P Require Import Prelude GoLang GoFloat GoTime Effects Model Scheduler Badger World Store.
From S2P Require Import StoreFacts Events Secrets Rollout Placement Reconcile.

(** [if strings.TrimSpace(s) == "" { s = d }] *)
Definition or_default (d s : string) : string := if blank s then d else s.

(** [if n == 0 { n = d }] *)
Definition or_else (d n : Z) : Z := if n =? 0 then d else n.

(** The defaults [CreateDeployment] fills in first. *)
Definition default_spec (spec : DeploymentSpec) : DeploymentSpec :=
  spec <| DeploymentSpec_Replicas ::= fun r => if r <=? 0 then 1 else r |>
       <| DeploymentSpec_Resources ::= set Resource_MilliCPU (or_else 250) |>
       <| DeploymentSpec_Resources ::= set Resource_MemoryMB (or_else 256) |>
       <| DeploymentSpec_Namespace ::= or_default "default" |>.

(** The ones it fills in after the checks. *)
Definition complete_spec (spec : DeploymentSpec) : DeploymentSpec :=
  spec <| DeploymentSpec_Labels ::= fun l => Some (default ∅ l) |>
       <| DeploymentSpec_Tolerations ::= fun t => Some (default [] t) |>
       <| DeploymentSpec_Rollout ::= normalizeRolloutSpec |>.

Definition new_deployment (id : string) (spec : DeploymentSpec) (t : Time) : Deployment :=
  MkDeployment id spec 1 1 1 [MkDeploymentRevision 1 spec t]
    (MkDeploymentRolloutStatus "Stable" 0 0 0 "" 0 t)
    "orchestrator/controller-manager" ["workloads.cleanup"] None DeploymentPending
    [MkDeploymentCondition ConditionProgressing true "DeploymentAccepted"
       "Deployment accepted and awaiting reconciliation" t] t t.

(** What [UpdateDeployment] keeps of the old spec. *)
Definition merge_spec (old next : DeploymentSpec) : DeploymentSpec :=
  next <| DeploymentSpec_Rollout ::= normalizeRolloutSpec |>
       <| DeploymentSpec_Replicas ::= fun r => if r <=? 0 then old.(DeploymentSpec_Replicas) else r |>
       <| DeploymentSpec_Resources ::=
            set Resource_MilliCPU (or_else old.(DeploymentSpec_Resources).(Resource_MilliCPU)) |>
       <| DeploymentSpec_Resources ::=
            set Resource_MemoryMB (or_else old.(DeploymentSpec_Resources).(Resource_MemoryMB)) |>
       <| DeploymentSpec_Labels ::=
            fun l => match l with None => old.(DeploymentSpec_Labels) | Some _ => l end |>
       <| DeploymentSpec_Tolerations ::=
            fun t => match t with None => old.(DeploymentSpec_Tolerations) | Some _ => t end |>.

(** ** Quotas *)

Record Usage : Type := MkUsage { Usage_count : Z; Usage_cpu : Z; Usage_mem : Z }.

Definition add_usage (u : Usage) (spec : DeploymentSpec) : Usage :=
  MkUsage (u.(Usage_count) +! 1)
    (u.(Usage_cpu) +! (spec.(DeploymentSpec_Replicas)
                         *! spec.(DeploymentSpec_Resources).(Resource_MilliCPU)))
    (u.(Usage_mem) +! (spec.(DeploymentSpec_Replicas)
                         *! spec.(DeploymentSpec_Resources).(Resource_MemoryMB))).

(** The loop over the deployments of the namespace. *)
Definition usage_of (namespace : string) (deps : list Deployment) : Usage :=
  foldl (fun u d => if String.eqb d.(Deployment_Spec).(DeploymentSpec_Namespace) namespace
                    then add_usage u d.(Deployment_Spec) else u) (MkUsage 0 0 0) deps.

Definition check_quota (quota : NamespaceQuota) (u : Usage) : Res unit :=
  if (0 <? quota.(NamespaceQuota_MaxDeployments))
     && (quota.(NamespaceQuota_MaxDeployments) <? u.(Usage_count))
  then Err (Errorf ("namespace quota exceeded: max deployments "
              +:+ fmt_d quota.(NamespaceQuota_MaxDeployments)))
  else if (0 <? quota.(NamespaceQuota_MaxMilliCPU))
          && (quota.(NamespaceQuota_MaxMilliCPU) <? u.(Usage_cpu))
  then Err (Errorf ("namespace quota exceeded: max milliCPU "
              +:+ fmt_d quota.(NamespaceQuota_MaxMilliCPU)))
  else if (0 <? quota.(NamespaceQuota_MaxMemoryMB))
          && (quota.(NamespaceQuota_MaxMemoryMB) <? u.(Usage_mem))
  then Err (Errorf ("namespace quota exceeded: max memoryMB "
              +:+ fmt_d quota.(NamespaceQuota_MaxMemoryMB)))
  else Ok tt.

Section Deployments.
Context {DB : Type} `{!Badger Blob DB} {E : Env}.

Abbreviation IO := (M (World DB)).

(** ** Checks *)

Definition runAdmissionCheck (request : AdmissionRequest) : IO unit :=
  if blank env_admissionCmd then mret tt else
  outcome ← ask env_admission;
  match outcome request with
  | AdmissionFailed e => throw (Wrapf "admission plugin failed: " e)
  | AdmissionInvalid e => throw (Wrapf "admission plugin invalid response: " e)
  | AdmissionResponse allowed reason =>
      if allowed then mret tt
      else throw (Errorf (or_default "admission denied by plugin" reason))
  end.

Definition ensureNamespaceExists (namespace : string) : IO unit :=
  let namespace := TrimSpace namespace in
  let namespace := if String.eqb namespace "" then "default" else namespace in
  r ← attempt (GetNamespace namespace);
  match r with
  | Ok _ => mret tt
  | Err _ =>
      created ← now; updated ← now;
      c ← attempt (Store.CreateNamespace (MkNamespace namespace "default" created updated));
      match c with
      | Ok _ => mret tt
      | Err err =>
          g ← attempt (GetNamespace namespace);
          match g with Ok _ => mret tt | Err _ => throw err end
      end
  end.

Definition enforceNamespaceQuota (spec : DeploymentSpec) : IO unit :=
  r ← attempt (GetNamespaceQuota spec.(DeploymentSpec_Namespace));
  match r with
  | Err err => if is_not_found err then mret tt else throw err
  | Ok quota =>
      if (quota.(NamespaceQuota_MaxDeployments) =? 0) && (quota.(NamespaceQuota_MaxMilliCPU) =? 0)
         && (quota.(NamespaceQuota_MaxMemoryMB) =? 0)
      then mret tt else
      deps ← ListDeployments;
      of_res (check_quota quota (add_usage (usage_of spec.(DeploymentSpec_Namespace) deps) spec))
  end.

Definition check_claim (namespace claim : string) : IO unit :=
  r ← attempt (GetPersistentVolumeClaim namespace claim);
  match r with
  | Err err => throw (Wrapf ("volume claim " +:+ claim +:+ " lookup failed: ") err)
  | Ok pvc =>
      if String.eqb pvc.(PersistentVolumeClaim_Phase) PersistentVolumeClaimBound then mret tt
      else throw (Errorf ("volume claim " +:+ claim +:+ " is not bound"))
  end.

(** ** Deployments *)

Definition CreateDeployment (spec : DeploymentSpec) : IO Deployment :=
  if blank spec.(DeploymentSpec_Name) then throw (Errorf "name is required") else
  if blank spec.(DeploymentSpec_Image) then throw (Errorf "image is required") else
  let spec := default_spec spec in
  runAdmissionCheck (AdmitDeployment spec) ;;
  ensureNamespaceExists spec.(DeploymentSpec_Namespace) ;;
  for_each (default [] spec.(DeploymentSpec_VolumeClaims))
    (check_claim spec.(DeploymentSpec_Namespace)) ;;
  enforceNamespaceQuota spec ;;
  let spec := complete_spec spec in
  t ← now; r ← rand_Intn;
  let dep := new_deployment ("dep-" +:+ fmt_d (UnixNano t) +:+ "-" +:+ fmt_04d r) spec t in
  Store.CreateDeployment dep ;;
  reconcileDeployment dep.(Deployment_ID) ;;
  ignore (emitEvent (event EventInfo "reconcile" "DeploymentCreated"
    "Deployment reconciled after creation" dep.(Deployment_ID) "" "")) ;;
  let dep := dep <| Deployment_Status := DeploymentRunning |> in
  dep ← with_condition ConditionAvailable true "ReplicasScheduled"
          "Deployment has scheduled replicas" dep;
  dep ← with_condition ConditionProgressing false "ReconciliationComplete"
          "Initial reconciliation completed" dep;
  dep ← touch dep;
  ignore (Store.UpdateDeployment dep) ;;
  mret dep.

Definition DeleteDeployment (deploymentID : string) : IO unit :=
  dep ← GetDeployment deploymentID;
  t ← now;
  let dep := dep <| Deployment_DeletionTimestamp := Some t |>
    <| Deployment_Status := DeploymentPending |>
    <| Deployment_Conditions ::= fun c => setCondition c
         (MkDeploymentCondition ConditionProgressing true "DeletionInProgress"
            "Deployment marked for deletion" t) |> in
  Store.UpdateDeployment dep ;;
  ignore (emitEvent (event EventInfo "reconcile" "DeploymentMarkedForDeletion"
    "Deployment marked for deletion" dep.(Deployment_ID) "" "")).

(** [dep.CurrentRevision++] and the new entry of the history *)
Definition new_revision (dep : Deployment) (t : Time) : Deployment :=
  let revision := dep.(Deployment_CurrentRevision) +! 1 in
  dep <| Deployment_CurrentRevision := revision |>
      <| Deployment_RevisionHistory ::= fun h =>
           h ++ [MkDeploymentRevision revision dep.(Deployment_Spec) t] |>.

(** [dep.RolloutStatus.StartedAt = time.Now().UTC()] *)
Definition start_rollout (dep : Deployment) : IO Deployment :=
  t ← now;
  mret (dep <| Deployment_RolloutStatus ::= set DeploymentRolloutStatus_StartedAt (fun _ => t) |>).

Definition UpdateDeployment (deploymentID : string) (nextSpec : DeploymentSpec) : IO Deployment :=
  dep ← GetDeployment deploymentID;
  let nextSpec := merge_spec dep.(Deployment_Spec) nextSpec in
  let specChanged := negb (DeepEqual dep.(Deployment_Spec) nextSpec) in
  let dep := set_phase "Progressing" "Deployment spec updated"
    (dep <| Deployment_Spec := nextSpec |>
         <| Deployment_Generation ::= fun g => g +! 1 |>
         <| Deployment_Status := DeploymentPending |>) in
  dep ← start_rollout dep;
  dep ← touch_rollout dep;
  dep ← with_condition ConditionProgressing true "RolloutStarted" "Deployment rollout started" dep;
  dep ← (if specChanged then t ← now; mret (new_revision dep t) else mret dep);
  dep ← touch dep;
  Store.UpdateDeployment dep ;;
  ignore (emitEvent (event EventInfo "rollout" "DeploymentUpdated"
    "Deployment spec updated for rollout" dep.(Deployment_ID) "" "")) ;;
  mret dep.

Definition RollbackDeployment (deploymentID : string) (targetRevision : Z) : IO Deployment :=
  dep ← GetDeployment deploymentID;
  if lenZ dep.(Deployment_RevisionHistory) =? 0
  then throw (Errorf "no revision history available") else
  let targetRevision := if targetRevision <=? 0
    then dep.(Deployment_CurrentRevision) -! 1 else targetRevision in
  match List.find (fun r => r.(DeploymentRevision_Revision) =? targetRevision)
          dep.(Deployment_RevisionHistory) with
  | None => throw (Errorf ("target revision " +:+ fmt_d targetRevision +:+ " not found"))
  | Some target =>
      let started := "Rollback to revision " +:+ fmt_d targetRevision +:+ " started" in
      let dep := dep <| Deployment_Spec := target.(DeploymentRevision_Spec)
                          <| DeploymentSpec_Rollout ::= normalizeRolloutSpec |> |>
                     <| Deployment_Generation ::= fun g => g +! 1 |> in
      t ← now;
      let dep := set_phase "Progressing" started
        (new_revision dep t <| Deployment_Status := DeploymentPending |>) in
      dep ← start_rollout dep;
      dep ← touch_rollout dep;
      dep ← with_condition ConditionProgressing true "RollbackStarted"
              ("Rollback started from revision " +:+ fmt_d targetRevision) dep;
      dep ← touch dep;
      Store.UpdateDeployment dep ;;
      ignore (emitEvent (event EventWarn "rollout" "RollbackStarted" started
        dep.(Deployment_ID) "" "")) ;;
      mret dep
  end.

(** ** Namespaces, quotas, secrets *)

Definition CreateNamespace (ns : Namespace) : IO Namespace :=
  if blank ns.(Namespace_Name) then throw (Errorf "namespace name is required") else
  t ← now;
  let ns := ns <| Namespace_Name ::= TrimSpace |>
    <| Namespace_Tenant ::= or_default "default" |>
    <| Namespace_CreatedAt ::= fun c => if IsZero c then t else c |>
    <| Namespace_UpdatedAt := t |> in
  Store.CreateNamespace ns ;;
  ignore (emitEvent (event EventInfo "namespace" "NamespaceCreated" "Namespace created"
    ns.(Namespace_Name) "" "")) ;;
  mret ns.

Definition UpsertNamespaceQuota (quota : NamespaceQuota) : IO NamespaceQuota :=
  if blank quota.(NamespaceQuota_Namespace) then throw (Errorf "quota namespace is required") else
  ensureNamespaceExists quota.(NamespaceQuota_Namespace) ;;
  if (quota.(NamespaceQuota_MaxDeployments) <? 0) || (quota.(NamespaceQuota_MaxMilliCPU) <? 0)
     || (quota.(NamespaceQuota_MaxMemoryMB) <? 0)
  then throw (Errorf "quota values cannot be negative") else
  Store.UpsertNamespaceQuota quota ;;
  GetNamespaceQuota quota.(NamespaceQuota_Namespace).

Definition UpsertSecret (secret : Secret) : IO Secret :=
  let secret := secret <| Secret_Namespace ::= or_default "default" |> in
  if blank secret.(Secret_Name) then throw (Errorf "secret name is required") else
  ensureNamespaceExists secret.(Secret_Namespace) ;;
  enc ← encryptSecretData (default ∅ secret.(Secret_Data));
  Store.UpsertSecret (secret <| Secret_Data := Some enc |>) ;;
  out ← GetSecret secret.(Secret_Namespace) secret.(Secret_Name);
  mret (out <| Secret_Data ::= decryptSecretData |>).

Definition ListSecrets (namespace : string) : IO (list Secret) :=
  items ← Store.ListSecrets (or_default "default" namespace);
  mret (List.map (set Secret_Data decryptSecretData) items).

Definition IngestDeploymentMetric (sample : DeploymentMetricSample) : IO unit :=
  if blank sample.(DeploymentMetricSample_DeploymentID)
  then throw (Errorf "deployment id is required") else
  GetDeployment sample.(DeploymentMetricSample_DeploymentID) ;;
  ts ← or_now sample.(DeploymentMetricSample_Timestamp);
  id ← (if String.eqb sample.(DeploymentMetricSample_ID) ""
        then r ← rand_Intn; mret ("ms-" +:+ fmt_d (UnixNano ts) +:+ "-" +:+ fmt_04d r)
        else mret sample.(DeploymentMetricSample_ID));
  AppendDeploymentMetric
    (sample <| DeploymentMetricSample_Custom ::= fun c => Some (default ∅ c) |>
            <| DeploymentMetricSample_Timestamp := ts |> <| DeploymentMetricSample_ID := id |>).

(** ** The agents' calls *)

Definition PollAssignments (nodeID : string) (max : Z) : IO (list Assignment) :=
  PopAssignments nodeID (if max <=? 0 then 10 else max).

(** The resources of a terminated workload go back to its node. *)
Definition release_node (w : Workload) : IO unit :=
  r ← attempt (GetNode w.(Workload_NodeID));
  match r with
  | Ok node => ignore (UpsertNode
      (node <| Node_Used ::= fun u => give_back u w.(Workload_Resources) |>))
  | Err _ => mret tt
  end.

(** The deployment of a terminated workload, when few enough are left. *)
Definition settle_deployment (deploymentID : string) : IO unit :=
  r ← attempt (GetDeployment deploymentID);
  match r with
  | Err _ => mret tt
  | Ok dep =>
      l ← attempt (ListWorkloadsByDeployment dep.(Deployment_ID));
      match l with
      | Err _ => mret tt
      | Ok workloads =>
          let ready := runningCount workloads in
          let active := runningOrPendingCount workloads in
          let replicas := dep.(Deployment_Spec).(DeploymentSpec_Replicas) in
          if active <=? replicas then
            let dep := mark_stable dep <| Deployment_RolloutStatus ::= fun s =>
              s <| DeploymentRolloutStatus_ReadyReplicas := ready |>
                <| DeploymentRolloutStatus_UpdatedReplicas := active |>
                <| DeploymentRolloutStatus_UnavailableReplicas := maxInt 0 (replicas -! ready) |> |> in
            dep ← touch_rollout dep;
            dep ← with_condition ConditionAvailable true "DesiredReplicasPlaced"
                    "Desired replica count has been placed" dep;
            dep ← with_condition ConditionProgressing false "ReconciliationStable"
                    "Reconciliation reached stable state" dep;
            dep ← with_condition ConditionDegraded false "Healthy" "Deployment is healthy" dep;
            dep ← touch (dep <| Deployment_ObservedGeneration := dep.(Deployment_Generation) |>);
            ignore (Store.UpdateDeployment dep)
          else mret tt
      end
  end.

Definition ReportWorkloadStatus (workloadID status containerID : string) : IO unit :=
  r ← attempt (GetWorkload workloadID);
  match r with
  | Err err => if is_not_found err then mret tt else throw err
  | Ok w =>
      if String.eqb status WorkloadTerminated then
        release_node w ;;
        DeleteWorkload w.(Workload_ID) ;;
        settle_deployment w.(Workload_DeploymentID) ;;
        ignore (emitEvent (event EventInfo "workload" "WorkloadTerminated"
          "Workload terminated and resources released"
          w.(Workload_DeploymentID) w.(Workload_ID) w.(Workload_NodeID)))
      else
        UpsertWorkload (w <| Workload_Status := status |> <| Workload_ContainerID := containerID |>
          <| Workload_RestartCount ::= fun n =>
               if String.eqb status WorkloadFailed then n +! 1 else n |>)
  end.

(** Roll back when too many workloads of the current revision have failed. *)
Definition maybeAutoRollbackForFailures (dep : Deployment) : IO unit :=
  let rollout := dep.(Deployment_Spec).(DeploymentSpec_Rollout) in
  if negb rollout.(RolloutSpec_AutoRollbackOnFailure) || (dep.(Deployment_CurrentRevision) <=? 1)
  then mret tt else
  let threshold := if rollout.(RolloutSpec_MaxFailedWorkloads) <=? 0
    then 1 else rollout.(RolloutSpec_MaxFailedWorkloads) in
  l ← attempt (ListWorkloadsByDeployment dep.(Deployment_ID));
  match l with
  | Err _ => mret tt
  | Ok workloads =>
      let failed := lenZ (List.filter (fun w =>
        (w.(Workload_Version) =? dep.(Deployment_CurrentRevision))
        && String.eqb w.(Workload_Status) WorkloadFailed) workloads) in
      if failed <? threshold then mret tt else
      r ← attempt (RollbackDeployment dep.(Deployment_ID) (dep.(Deployment_CurrentRevision) -! 1));
      match r with
      | Ok _ => ignore (emitEvent (event EventWarn "rollout" "AutoRollbackTriggered"
          ("Automatic rollback triggered after " +:+ fmt_d failed +:+ " failed workload(s)")
          dep.(Deployment_ID) "" ""))
      | Err _ => mret tt
      end
  end.

End Deployments.

#[export] Hint Unfold runAdmissionCheck ensureNamespaceExists enforceNamespaceQuota check_claim
  DeleteDeployment start_rollout CreateNamespace
  UpsertNamespaceQuota UpsertSecret ListSecrets IngestDeploymentMetric PollAssignments release_node
  settle_deployment ReportWorkloadStatus maybeAutoRollbackForFailures : store.
