(* ===== verification/Nodes.v ===== *)
(** * Nodes

    Registration, heartbeats, health evaluation, remediation, draining,
    removal and rebalancing of nodes ([internal/service/orchestrator.go] and
    [features.go]), and the health trends computed from the samples the
    orchestrator keeps in memory. *)

From Stdlib Require Import Ascii String.
From Corelib Require Import SpecFloat.
From S2P Require Import Prelude GoLang GoFloat GoSort GoTime Effects Model Scheduler Badger World.
From S2P Require Import Store StoreFacts Events Secrets Rollout Placement Reconcile Deployments.

Definition safeUtilization (used alloc : Z) : float64 :=
  if alloc <=? 0 then f_zero else
  let v := f_div (f_of_Z used) (f_of_Z alloc) in
  if f_ltb v f_zero then f_zero else
  if f_ltb (f_of_Z 1) v then f_of_Z 1 else v.

(** [int64(d.Seconds())]: whole seconds plus the fraction, as a float. *)
Definition whole_seconds (d : Duration) : Z :=
  f_to_int (f_add (f_of_Z (Z.quot d Second)) (f_div (f_of_Z (Z.rem d Second)) (f_of_Z Second))).

Definition pressure : float64 := f_lit 9 10.

(** The health of a node after an evaluation at [t] with heartbeat age [age]
    and [missed] whole TTL intervals. *)
Definition evaluate_node (t : Time) (age : Duration) (missed : Z) (n : Node) : Node :=
  let cpuUtil := safeUtilization n.(Node_Used).(Resource_MilliCPU)
                   n.(Node_Allocatable).(Resource_MilliCPU) in
  let memUtil := safeUtilization n.(Node_Used).(Resource_MemoryMB)
                   n.(Node_Allocatable).(Resource_MemoryMB) in
  let n := n <| Node_Health ::= fun h =>
    h <| NodeHealth_CPUUtilization := cpuUtil |>
      <| NodeHealth_MemoryUtilization := memUtil |>
      <| NodeHealth_LastHeartbeatAgeSec := whole_seconds age |>
      <| NodeHealth_ConsecutiveMissedTTL := missed |>
      <| NodeHealth_LastEvaluatedAt := t |> |> in
  if 2 <=? missed then
    n <| Node_Health ::= fun h =>
          h <| NodeHealth_FailureClass := NodeFailureCritical |>
            <| NodeHealth_Reason := "heartbeat missed for multiple TTL intervals" |>
            <| NodeHealth_Isolated := true |> <| NodeHealth_Draining := true |> |>
      <| Node_Status := NodeDown |>
  else if (1 <=? missed) || f_ltb pressure cpuUtil || f_ltb pressure memUtil then
    let n := n <| Node_Health ::= set NodeHealth_FailureClass (fun _ => NodeFailureWarning) |> in
    if 1 <=? missed
    then n <| Node_Health ::= set NodeHealth_Reason (fun _ => "heartbeat delay exceeds TTL") |>
           <| Node_Status := NodeUnknown |>
    else n <| Node_Health ::=
                set NodeHealth_Reason (fun _ => "node resource pressure above threshold") |>
           <| Node_Status := NodeReady |>
  else
    n <| Node_Health ::= fun h =>
          h <| NodeHealth_FailureClass := NodeFailureHealthy |> <| NodeHealth_Reason := "" |>
            <| NodeHealth_Isolated := false |> <| NodeHealth_Draining := false |> |>
      <| Node_Status := NodeReady |>.

Definition health_sample (node : Node) : NodeHealthSample :=
  MkNodeHealthSample node.(Node_ID) node.(Node_Health).(NodeHealth_LastEvaluatedAt)
    node.(Node_Health).(NodeHealth_CPUUtilization) node.(Node_Health).(NodeHealth_MemoryUtilization)
    node.(Node_Health).(NodeHealth_FailureClass).

(** [samples[len(samples)-limit:]] when there are more than [limit] *)
Definition add_sample (s : NodeHealthSample) (samples : gmap string (list NodeHealthSample))
    (nodeID : string) : gmap string (list NodeHealthSample) :=
  <[nodeID := last_items 256 (default [] (samples !! nodeID) ++ [s])]> samples.

(** ** Trends *)

Definition max_seen (m x : float64) : float64 := if f_ltb m x then x else m.

Definition spike (latest avg : float64) : bool :=
  f_ltb pressure latest && f_ltb (f_mul avg (f_lit 135 100)) latest.

Definition node_trend (window : Z) (samples : gmap string (list NodeHealthSample)) (n : Node)
    : NodeHealthTrend :=
  let history := last_items window (default [] (samples !! n.(Node_ID))) in
  let class := n.(Node_Health).(NodeHealth_FailureClass) in
  let at_ := n.(Node_Health).(NodeHealth_LastEvaluatedAt) in
  match last history with
  | None => MkNodeHealthTrend n.(Node_ID) 0 f_zero f_zero f_zero f_zero class false "" at_
  | Some latest =>
      let cpuSum := foldl (fun acc s => f_add acc s.(NodeHealthSample_CPUUtilization)) f_zero history in
      let memSum := foldl (fun acc s => f_add acc s.(NodeHealthSample_MemoryUtilization)) f_zero history in
      let maxCPU := foldl (fun m s => max_seen m s.(NodeHealthSample_CPUUtilization)) f_zero history in
      let maxMem := foldl (fun m s => max_seen m s.(NodeHealthSample_MemoryUtilization)) f_zero history in
      let avgCPU := f_div cpuSum (f_of_Z (lenZ history)) in
      let avgMem := f_div memSum (f_of_Z (lenZ history)) in
      let '(anomaly, reason) :=
        if String.eqb class NodeFailureCritical then (true, "critical node health state")
        else if spike latest.(NodeHealthSample_CPUUtilization) avgCPU
                || spike latest.(NodeHealthSample_MemoryUtilization) avgMem
        then (true, "resource utilization spike detected") else (false, "") in
      MkNodeHealthTrend n.(Node_ID) (lenZ history) avgCPU avgMem maxCPU maxMem class anomaly reason at_
  end.

(** ** Rebalancing *)

Definition node_load (n : Node) : float64 :=
  safeUtilization (n.(Node_Used).(Resource_MilliCPU) +! n.(Node_Used).(Resource_MemoryMB))
    (n.(Node_Allocatable).(Resource_MilliCPU) +! n.(Node_Allocatable).(Resource_MemoryMB)).

(** The most and the least loaded node, when they are a quarter apart. *)
Definition imbalance (nodes : list Node) : option (Node * Node) :=
  match SliceStable (fun a b => f_ltb (node_load b) (node_load a)) nodes with
  | heavy :: (_ :: _) as sorted =>
      match last sorted with
      | Some light =>
          if f_ltb (f_sub (node_load heavy) (node_load light)) (f_lit 1 4) then None
          else Some (heavy, light)
      | None => None
      end
  | _ => None
  end.

Section Nodes.
Context {DB : Type} `{!Badger Blob DB} {E : Env}.

Abbreviation IO := (M (World DB)).

(** Mark a workload as terminating and tell its node. *)
Definition evict (w : Workload) : IO unit :=
  UpsertWorkload (w <| Workload_Status := WorkloadTerminating |>) ;;
  EnqueueAssignment (delete_assignment w).

Definition rebalanceWorkloads : IO unit :=
  nodes ← ListNodes;
  match imbalance nodes with
  | None => mret tt
  | Some (heavy, _) =>
      workloads ← ListWorkloads;
      match List.find (fun w => String.eqb w.(Workload_NodeID) heavy.(Node_ID) && is_running w) workloads with
      | None => mret tt
      | Some w =>
          evict w ;;
          ignore (emitEvent (event EventInfo "rebalance" "WorkloadEvicted"
            "Workload evicted for node rebalance"
            w.(Workload_DeploymentID) w.(Workload_ID) w.(Workload_NodeID)))
      end
  end.

Definition zero_health (class : string) (evaluated : Time) : NodeHealth :=
  MkNodeHealth f_zero f_zero 0 0 class "" false false evaluated.

Definition RegisterNode (node : Node) : IO unit :=
  if blank node.(Node_ID) then throw (Errorf "node id is required") else
  let node := node <| Node_Capacity ::= set Resource_MilliCPU (or_else 2000) |>
                   <| Node_Capacity ::= set Resource_MemoryMB (or_else 4096) |> in
  let node := node
    <| Node_Allocatable ::= set Resource_MilliCPU (or_else node.(Node_Capacity).(Resource_MilliCPU)) |>
    <| Node_Allocatable ::= set Resource_MemoryMB (or_else node.(Node_Capacity).(Resource_MemoryMB)) |>
    <| Node_Labels ::= fun l => Some (default ∅ l) |>
    <| Node_Status := NodeReady |> in
  evaluated ← now;
  seen ← now;
  UpsertNode (node <| Node_Health := zero_health NodeFailureHealthy evaluated |>
                   <| Node_LastSeen := seen |>) ;;
  ignore rebalanceWorkloads.

Definition HeartbeatNode (nodeID : string) (used : Resource) : IO unit :=
  node ← GetNode nodeID;
  seen ← now;
  evaluated ← now;
  UpsertNode (node <| Node_Used := used |> <| Node_Status := NodeReady |> <| Node_LastSeen := seen |>
    <| Node_Health ::= fun h =>
         h <| NodeHealth_LastHeartbeatAgeSec := 0 |> <| NodeHealth_ConsecutiveMissedTTL := 0 |>
           <| NodeHealth_Isolated := false |> <| NodeHealth_Draining := false |>
           <| NodeHealth_FailureClass := NodeFailureHealthy |> <| NodeHealth_Reason := "" |>
           <| NodeHealth_LastEvaluatedAt := evaluated |> |>).

Definition remediate_workload (nodeID reason : string) (w : Workload) : IO unit :=
  if negb (String.eqb w.(Workload_NodeID) nodeID) then mret tt else
  if negb (is_active w) then mret tt else
  evict w ;;
  ignore (emitEvent (event EventWarn "health" "NodeRemediationTriggered"
    ("Workload marked terminating due to node remediation: " +:+ reason)
    w.(Workload_DeploymentID) w.(Workload_ID) w.(Workload_NodeID))).

Definition remediateUnhealthyNode (nodeID reason : string) : IO unit :=
  workloads ← ListWorkloads;
  for_each workloads (remediate_workload nodeID reason).

Definition recordNodeHealthSample (node : Node) : IO unit :=
  modify (set w_healthSamples (fun samples => add_sample (health_sample node) samples node.(Node_ID))).

(** One round of the loop of [updateNodeHealth]. *)
Definition update_node (t : Time) (n : Node) : IO unit :=
  let age := time_Sub t n.(Node_LastSeen) in
  if env_nodeTTL =? 0 then throw (Panic "runtime error: integer divide by zero") else
  let missed := go_div age env_nodeTTL in
  let prevClass := n.(Node_Health).(NodeHealth_FailureClass) in
  let n := evaluate_node t age missed n in
  UpsertNode n ;;
  recordNodeHealthSample n ;;
  let class := n.(Node_Health).(NodeHealth_FailureClass) in
  if String.eqb class NodeFailureCritical && negb (String.eqb prevClass NodeFailureCritical) then
    remediateUnhealthyNode n.(Node_ID) n.(Node_Health).(NodeHealth_Reason) ;;
    ignore (emitEvent (event EventWarn "node" "NodeIsolatedAndDraining"
      "Node isolated and draining started" "" "" n.(Node_ID)))
  else if String.eqb class NodeFailureWarning then
    ignore (emitEvent (event EventWarn "node" "NodeWarning"
      n.(Node_Health).(NodeHealth_Reason) "" "" n.(Node_ID)))
  else mret tt.

Definition updateNodeHealth : IO unit :=
  nodes ← ListNodes;
  t ← now;
  for_each nodes (update_node t).

Definition DrainNode (nodeID : string) : IO unit :=
  node ← GetNode nodeID;
  UpsertNode (node <| Node_Health ::= fun h =>
                h <| NodeHealth_Draining := true |> <| NodeHealth_Isolated := true |> |>
              <| Node_Status := NodeUnknown |>) ;;
  remediateUnhealthyNode nodeID "manual drain".

Definition RemoveNode (nodeID : string) : IO unit :=
  DrainNode nodeID ;;
  node ← GetNode nodeID;
  UpsertNode (node <| Node_Status := NodeDown |>
                   <| Node_Health ::= set NodeHealth_Reason (fun _ => "node removed") |>).

Definition ListNodeWorkloads (nodeID : string) : IO (list Workload) :=
  all ← ListWorkloads;
  mret (List.filter (fun w => String.eqb w.(Workload_NodeID) nodeID
    && (is_active w || String.eqb w.(Workload_Status) WorkloadTerminating)) all).

Definition ListNodeHealthTrends (window : Z) : IO (list NodeHealthTrend) :=
  let window := if window <=? 0 then 20 else window in
  nodes ← ListNodes;
  w ← get_state;
  mret (List.map (node_trend window w.(w_healthSamples)) nodes).

End Nodes.

#[export] Hint Unfold evict rebalanceWorkloads RegisterNode HeartbeatNode remediate_workload
  remediateUnhealthyNode update_node updateNodeHealth DrainNode RemoveNode
  ListNodeWorkloads ListNodeHealthTrends : store.

Lemma steps_recordNodeHealthSample {DB : Type} `{!Badger Blob DB} {E : Env} (P : relation DB)
    `{!PreOrder P} n : steps (dbrel P) (recordNodeHealthSample n).
Proof. intros w. unfold dbrel. cbn. reflexivity. Qed.

#[export] Hint Extern 1 (steps _ (recordNodeHealthSample _)) =>
  apply steps_recordNodeHealthSample; typeclasses eauto : steps.
