(* ===== verification/Services.v ===== *)
(** * Services

    Service creation, endpoint reconciliation, name resolution, endpoint
    selection and traffic routing, and the liveness evaluation of workloads
    ([internal/service/orchestrator.go]). *)

From Stdlib Require Import Ascii String.
From Corelib Require Import SpecFloat.
From S2P Require Import Prelude GoLang GoFloat GoSort GoTime Effects Model Scheduler Badger.
From S2P Require Import Balancer World Store StoreFacts Events Secrets Rollout Placement Reconcile.
From S2P Require Import Deployments.

Definition allocateClusterIP (seed : Z) : string :=
  let v := go_mod seed 65534 in
  let octet3 := go_mod (go_div v 254) 254 in
  let octet4 := go_mod v 254 +! 1 in
  "10.96." +:+ fmt_d (octet3 +! 1) +:+ "." +:+ fmt_d octet4.

Definition labelsMatchSelector (labels : option (gmap string string)) (selector : gmap string string)
    : bool :=
  if bool_decide (selector = ∅) then false
  else map_forallb (fun key value => String.eqb (map_index labels key) value) selector.

(** [strings.EqualFold(strings.TrimSpace(svc.Spec.Name), strings.TrimSpace(name))] *)
Definition named (name : string) (svc : Service) : bool :=
  EqualFold (TrimSpace svc.(Service_Spec).(ServiceSpec_Name)) (TrimSpace name).

(** [nodeAddress] and [depByID] *)
Definition node_addresses (nodes : list Node) : gmap string string :=
  foldl (fun m n => <[n.(Node_ID) := n.(Node_Address)]> m) ∅ nodes.

Definition dep_by_id (deps : list Deployment) : gmap string Deployment :=
  foldl (fun m d => <[d.(Deployment_ID) := d]> m) ∅ deps.

(** The deployment whose workload [w] backs the service, if it does. *)
Definition backing (svc : Service) (deps : gmap string Deployment) (w : Workload)
    : option Deployment :=
  if negb (is_active w) then None else
  match deps !! w.(Workload_DeploymentID) with
  | None => None
  | Some dep =>
      if String.eqb (TrimSpace dep.(Deployment_Spec).(DeploymentSpec_Namespace))
                    (TrimSpace svc.(Service_Spec).(ServiceSpec_Namespace))
         && labelsMatchSelector dep.(Deployment_Spec).(DeploymentSpec_Labels)
              svc.(Service_Spec).(ServiceSpec_Selector)
      then Some dep else None
  end.

Definition endpoint_address (addresses : gmap string string) (nodeID : string) : string :=
  or_default nodeID (default "" (addresses !! nodeID)).

(** The endpoints on healthy nodes. *)
Definition healthy_nodes (nodes : list Node) : gmap string bool :=
  foldl (fun m n => <[n.(Node_ID) := String.eqb n.(Node_Status) NodeReady]> m) ∅ nodes.

Definition on_healthy_node (nodes : list Node) (ep : ServiceEndpoint) : bool :=
  default false (healthy_nodes nodes !! ep.(ServiceEndpoint_NodeID)).

Section Services.
Context {DB : Type} `{!Badger Blob DB} {E : Env}.

Abbreviation IO := (M (World DB)).

(** The workload runs and, when the deployment has a readiness probe, its
    initial delay is over. *)
Definition endpoint_ready (dep : Deployment) (w : Workload) : IO bool :=
  let ready := is_running w in
  let probe := dep.(Deployment_Spec).(DeploymentSpec_ReadinessProbe) in
  if probe.(ProbeSpec_Enabled) && ready then
    t ← now;
    mret (seconds probe.(ProbeSpec_InitialDelaySeconds) <=? time_Sub t w.(Workload_CreatedAt))
  else mret ready.

Definition make_endpoint (svc : Service) (dep : Deployment) (addresses : gmap string string)
    (t : Time) (w : Workload) (p : ServicePort) : IO ServiceEndpoint :=
  ready ← endpoint_ready dep w;
  mret (MkServiceEndpoint
    (svc.(Service_ID) +:+ "-" +:+ w.(Workload_ID) +:+ "-" +:+ fmt_d p.(ServicePort_TargetPort))
    svc.(Service_ID) w.(Workload_ID) w.(Workload_NodeID)
    (endpoint_address addresses w.(Workload_NodeID)) p.(ServicePort_TargetPort)
    p.(ServicePort_Protocol) ready t).

(** The nested loop over workloads and ports. *)
Definition collect_endpoints (svc : Service) (deps : gmap string Deployment)
    (addresses : gmap string string) (t : Time) (workloads : list Workload)
    : IO (list ServiceEndpoint) :=
  fold_m workloads [] (fun acc w =>
    match backing svc deps w with
    | None => mret acc
    | Some dep =>
        fold_m svc.(Service_Spec).(ServiceSpec_Ports) acc (fun acc p =>
          ep ← make_endpoint svc dep addresses t w p; mret (acc ++ [ep]))
    end).

Definition reconcileServiceEndpoints (serviceID : string) : IO unit :=
  svc ← GetService serviceID;
  deployments ← ListDeployments;
  workloads ← ListWorkloads;
  nodes ← ListNodes;
  t ← now;
  endpoints ← collect_endpoints svc (dep_by_id deployments) (node_addresses nodes) t workloads;
  ReplaceServiceEndpoints svc.(Service_ID) endpoints ;;
  ignore (emitEvent (event EventInfo "service" "EndpointsUpdated" "Service endpoints updated"
    "" svc.(Service_ID) "")).

Definition reconcileAllServiceEndpoints : IO unit :=
  services ← ListServices;
  for_each services (fun svc => reconcileServiceEndpoints svc.(Service_ID)).

Definition CreateService (spec : ServiceSpec) : IO Service :=
  if blank spec.(ServiceSpec_Name) then throw (Errorf "service name is required") else
  if bool_decide (spec.(ServiceSpec_Selector) = ∅)
  then throw (Errorf "service selector is required") else
  if lenZ spec.(ServiceSpec_Ports) =? 0 then throw (Errorf "service ports are required") else
  let spec := spec
    <| ServiceSpec_Type ::= fun ty => if String.eqb ty "" then ServiceTypeClusterIP else ty |>
    <| ServiceSpec_Namespace ::= or_default "default" |> in
  runAdmissionCheck (AdmitService spec) ;;
  ensureNamespaceExists spec.(ServiceSpec_Namespace) ;;
  t ← now; r ← rand_Intn;
  let svc := MkService ("svc-" +:+ fmt_d (UnixNano t) +:+ "-" +:+ fmt_04d r) spec
    (allocateClusterIP (UnixNano t)) 30 t t in
  Store.CreateService svc ;;
  reconcileServiceEndpoints svc.(Service_ID) ;;
  ignore (emitEvent (event EventInfo "service" "ServiceCreated" "Service created"
    svc.(Service_ID) "" "")) ;;
  mret svc.

Definition ListServiceEndpoints (serviceID : string) : IO (list ServiceEndpoint) :=
  GetService serviceID ;; Store.ListServiceEndpoints serviceID.

Definition findServiceByName (name : string) : IO Service :=
  services ← ListServices;
  match List.find (named name) services with
  | Some svc => mret svc
  | None => throw ErrNotFound
  end.

Definition ResolveServiceDNS (name : string) : IO (string * list ServiceEndpoint * Z) :=
  services ← ListServices;
  match List.find (named name) services with
  | None => throw ErrNotFound
  | Some svc =>
      endpoints ← Store.ListServiceEndpoints svc.(Service_ID);
      let ttl := svc.(Service_DNSRecordTTLSeconds) in
      mret (svc.(Service_Spec).(ServiceSpec_Name) +:+ ".default.svc.cluster.local", endpoints,
            if ttl <=? 0 then 30 else ttl)
  end.

Definition ResolveServiceName (name : string) : IO (string * list ServiceEndpoint) :=
  r ← ResolveServiceDNS name; mret (r.1.1, r.1.2).

(** [o.balance.Select] *)
Definition balance_Select (serviceID strategy : string) (eps : list ServiceEndpoint)
    : IO ServiceEndpoint := fun w =>
  let '(r, b) := Select w.(w_balance) serviceID strategy eps in (r, w <| w_balance := b |>).

Definition SelectServiceEndpoint (serviceID strategy : string) : IO ServiceEndpoint :=
  GetService serviceID ;;
  endpoints ← Store.ListServiceEndpoints serviceID;
  nodes ← ListNodes;
  balance_Select serviceID strategy (List.filter (on_healthy_node nodes) endpoints).

Definition ReleaseServiceEndpoint (endpointID : string) : IO unit :=
  modify (set w_balance (fun b => Release b endpointID)).

Definition RouteServiceTraffic (serviceName strategy : string)
    : IO (Service * ServiceEndpoint * string * Z) :=
  svc ← findServiceByName serviceName;
  target ← SelectServiceEndpoint svc.(Service_ID) strategy;
  match svc.(Service_Spec).(ServiceSpec_Ports) with
  | [] => throw (Errorf "service has no ports")
  | servicePort :: _ =>
      if String.eqb svc.(Service_Spec).(ServiceSpec_Type) ServiceTypeNodePort then
        if servicePort.(ServicePort_NodePort) =? 0
        then throw (Errorf "nodeport service missing nodePort")
        else mret (svc, target, target.(ServiceEndpoint_Address), servicePort.(ServicePort_NodePort))
      else mret (svc, target, svc.(Service_ClusterIP), servicePort.(ServicePort_Port))
  end.

(** ** Liveness *)

Definition probe_failed (dep : Deployment) (t : Time) (w : Workload) : bool :=
  let probe := dep.(Deployment_Spec).(DeploymentSpec_LivenessProbe) in
  probe.(ProbeSpec_Enabled) && is_running w
  && (seconds probe.(ProbeSpec_InitialDelaySeconds) <=? time_Sub t w.(Workload_CreatedAt))
  && blank w.(Workload_ContainerID).

Definition evaluate_workload (deps : gmap string Deployment) (t : Time) (w : Workload) : IO unit :=
  match deps !! w.(Workload_DeploymentID) with
  | None => mret tt
  | Some dep =>
      if probe_failed dep t w then
        UpsertWorkload (w <| Workload_Status := WorkloadFailed |>
                          <| Workload_RestartCount ::= fun n => n +! 1 |>) ;;
        ignore (emitEvent (event EventWarn "health" "LivenessProbeFailed"
          "Workload failed liveness probe"
          w.(Workload_DeploymentID) w.(Workload_ID) w.(Workload_NodeID))) ;;
        maybeAutoRollbackForFailures dep
      else mret tt
  end.

Definition evaluateWorkloadHealth : IO unit :=
  workloads ← ListWorkloads;
  deployments ← ListDeployments;
  t ← now;
  for_each workloads (evaluate_workload (dep_by_id deployments) t).

End Services.

#[export] Hint Unfold endpoint_ready make_endpoint collect_endpoints reconcileServiceEndpoints
  reconcileAllServiceEndpoints CreateService ListServiceEndpoints findServiceByName ResolveServiceDNS
  ResolveServiceName SelectServiceEndpoint RouteServiceTraffic evaluate_workload
  evaluateWorkloadHealth : store.
