(* ===== verification/Autoscaler.v ===== *)
(** * The autoscaler

    Policies and their reconciliation ([UpsertAutoscalerPolicy],
    [reconcileAutoscaling], [aggregateMetrics], [predictMetrics] of
    [internal/service/orchestrator.go]).  Metrics are floats that come from
    outside: NaN and infinities are possible values throughout. *)

From Stdlib Require Import Ascii String.
From Corelib Require Import SpecFloat.
From S2P Require Import Prelude GoLang GoFloat GoSort GoTime Effects Model Scheduler Badger World.
From S2P Require Import Store StoreFacts Events Secrets Rollout Placement Reconcile Deployments.

(** CPU, memory and custom metric. *)
Record Metrics : Type := MkMetrics {
  Metrics_CPU : float64;
  Metrics_Memory : float64;
  Metrics_Custom : float64
}.

(** [s.Custom[customMetric]] *)
Definition custom_value (s : DeploymentMetricSample) (name : string) : float64 :=
  default f_zero (s.(DeploymentMetricSample_Custom) ≫= fun m => m !! name).

Definition aggregateMetrics (samples : list DeploymentMetricSample) (customMetric : string) : Metrics :=
  if lenZ samples =? 0 then MkMetrics f_zero f_zero f_zero else
  let cpu := foldl (fun a s => f_add a s.(DeploymentMetricSample_CPUUsage)) f_zero samples in
  let mem := foldl (fun a s => f_add a s.(DeploymentMetricSample_MemoryUsage)) f_zero samples in
  let custom := foldl (fun a s => if negb (String.eqb customMetric "")
    then f_add a (custom_value s customMetric) else a) f_zero samples in
  let count := f_of_Z (lenZ samples) in
  MkMetrics (f_div cpu count) (f_div mem count) (f_div custom count).

Definition not_negative (x : float64) : float64 := if f_ltb x f_zero then f_zero else x.

(** Linear extrapolation from the first to the last of the latest samples. *)
Definition predictMetrics (samples : list DeploymentMetricSample) (customMetric : string)
    (lookback : Z) (factor : float64) : Metrics :=
  let samples := SliceStable (fun a b => Before a.(DeploymentMetricSample_Timestamp)
                                                b.(DeploymentMetricSample_Timestamp)) samples in
  let lookback := if lookback <=? 1 then 2 else lookback in
  let factor := if f_leb factor f_zero then f_of_Z 1 else factor in
  let samples := last_items lookback samples in
  match samples, last samples with
  | first :: _ :: _, Some latest =>
      let steps := f_of_Z (lenZ samples - 1) in
      let predict (x y : float64) := f_add y (f_mul (f_div (f_sub y x) steps) factor) in
      MkMetrics
        (not_negative (predict first.(DeploymentMetricSample_CPUUsage)
                               latest.(DeploymentMetricSample_CPUUsage)))
        (not_negative (predict first.(DeploymentMetricSample_MemoryUsage)
                               latest.(DeploymentMetricSample_MemoryUsage)))
        (not_negative (if negb (String.eqb customMetric "")
           then predict (custom_value first customMetric) (custom_value latest customMetric)
           else f_zero))
  | _, _ => MkMetrics f_zero f_zero f_zero
  end.

(** The samples of the stabilization window, or all when it has none. *)
Definition window_samples (p : AutoscalerPolicy) (t : Time) (samples : list DeploymentMetricSample)
    : list DeploymentMetricSample :=
  let windowStart := time_Add t (wrap64 (- p.(AutoscalerPolicy_StabilizationWindowSec)) *! Second) in
  let inside := List.filter (fun s =>
    After s.(DeploymentMetricSample_Timestamp) windowStart
    || (s.(DeploymentMetricSample_Timestamp) =? windowStart)) samples in
  if lenZ inside =? 0 then samples else inside.

Definition larger (predicted avg : float64) : float64 := if f_ltb avg predicted then predicted else avg.

Definition observed_metrics (p : AutoscalerPolicy) (samples : list DeploymentMetricSample) : Metrics :=
  let avg := aggregateMetrics samples p.(AutoscalerPolicy_CustomMetricName) in
  if p.(AutoscalerPolicy_PredictiveScalingEnabled) then
    let pred := predictMetrics samples p.(AutoscalerPolicy_CustomMetricName)
      p.(AutoscalerPolicy_PredictiveLookbackSamples) p.(AutoscalerPolicy_PredictiveScaleFactor) in
    MkMetrics (larger pred.(Metrics_CPU) avg.(Metrics_CPU))
      (larger pred.(Metrics_Memory) avg.(Metrics_Memory))
      (larger pred.(Metrics_Custom) avg.(Metrics_Custom))
  else avg.

(** [int(math.Ceil(float64(current) * (avg / target)))] *)
Definition scale_candidate (current : Z) (avg target : float64) : Z :=
  f_to_int (math_Ceil (f_mul (f_of_Z current) (f_div avg target))).

(** One utilization target: raise to the candidate; below 65% of the target,
    cap at one replica less than the current count. *)
Definition apply_target (current : Z) (avg target : float64) (recommended : Z) : Z :=
  if f_ltb f_zero target && f_ltb f_zero avg then
    let recommended := maxInt recommended (scale_candidate current avg target) in
    if f_ltb avg (f_mul target (f_lit 65 100)) then minInt recommended (current -! 1)
    else recommended
  else recommended.

Definition recommend (p : AutoscalerPolicy) (current : Z) (m : Metrics) : Z :=
  let recommended := apply_target current m.(Metrics_CPU)
    p.(AutoscalerPolicy_TargetCPUUtilization) current in
  let recommended := apply_target current m.(Metrics_Memory)
    p.(AutoscalerPolicy_TargetMemoryUtilization) recommended in
  let recommended :=
    if negb (blank p.(AutoscalerPolicy_CustomMetricName))
       && f_ltb f_zero p.(AutoscalerPolicy_TargetCustomMetricValue)
       && f_ltb f_zero m.(Metrics_Custom)
    then maxInt recommended (scale_candidate current m.(Metrics_Custom)
                               p.(AutoscalerPolicy_TargetCustomMetricValue))
    else recommended in
  maxInt p.(AutoscalerPolicy_MinReplicas) (minInt p.(AutoscalerPolicy_MaxReplicas) recommended).

(** The last scaling is too recent for another one in this direction. *)
Definition cooling_down (p : AutoscalerPolicy) (t : Time) (up : bool) : bool :=
  let cooldown := seconds (if up then p.(AutoscalerPolicy_ScaleUpCooldownSec)
                           else p.(AutoscalerPolicy_ScaleDownCooldownSec)) in
  negb (IsZero p.(AutoscalerPolicy_LastScaleAt))
  && (time_Sub t p.(AutoscalerPolicy_LastScaleAt) <? cooldown).

Definition scaled_deployment (dep : Deployment) (recommended : Z) (t : Time) : Deployment :=
  let message := "autoscaler adjusted replicas from "
    +:+ fmt_d dep.(Deployment_Spec).(DeploymentSpec_Replicas) +:+ " to " +:+ fmt_d recommended in
  dep <| Deployment_Spec ::= set DeploymentSpec_Replicas (fun _ => recommended) |>
      <| Deployment_Generation ::= fun g => g +! 1 |>
      <| Deployment_Status := DeploymentPending |>
      <| Deployment_RolloutStatus ::= fun s =>
           s <| DeploymentRolloutStatus_Phase := "Autoscaling" |>
             <| DeploymentRolloutStatus_Message := message |>
             <| DeploymentRolloutStatus_StartedAt ::= fun st => if IsZero st then t else st |>
             <| DeploymentRolloutStatus_LastUpdatedAt := t |> |>
      <| Deployment_Conditions ::= fun c => setCondition c
           (MkDeploymentCondition ConditionProgressing true "AutoscalerAdjusting" message t) |>
      <| Deployment_UpdatedAt := t |>.

(** The policy's defaults. *)
Definition default_policy (policy : AutoscalerPolicy) : AutoscalerPolicy :=
  let policy := policy
    <| AutoscalerPolicy_MinReplicas ::= fun n => if n <=? 0 then 1 else n |> in
  let policy := policy
    <| AutoscalerPolicy_MaxReplicas ::= fun n =>
         if (n <=? 0) || (n <? policy.(AutoscalerPolicy_MinReplicas))
         then policy.(AutoscalerPolicy_MinReplicas) else n |>
    <| AutoscalerPolicy_StabilizationWindowSec ::= fun n => if n <=? 0 then 30 else n |>
    <| AutoscalerPolicy_ScaleUpCooldownSec ::= fun n => if n <=? 0 then 20 else n |>
    <| AutoscalerPolicy_ScaleDownCooldownSec ::= fun n => if n <=? 0 then 40 else n |> in
  if policy.(AutoscalerPolicy_PredictiveScalingEnabled) then
    policy <| AutoscalerPolicy_PredictiveLookbackSamples ::= fun n => if n <=? 1 then 6 else n |>
           <| AutoscalerPolicy_PredictiveScaleFactor ::= fun x => if f_leb x f_zero then f_of_Z 2 else x |>
  else policy.

Section Autoscaler.
Context {DB : Type} `{!Badger Blob DB} {E : Env}.

Abbreviation IO := (M (World DB)).

(** The part of [UpsertAutoscalerPolicy] after the defaults. *)
Definition save_policy (policy : AutoscalerPolicy) : IO AutoscalerPolicy :=
  id ← (if blank policy.(AutoscalerPolicy_ID)
        then t ← now; r ← rand_Intn; mret ("as-" +:+ fmt_d (UnixNano t) +:+ "-" +:+ fmt_04d r)
        else mret policy.(AutoscalerPolicy_ID));
  created ← or_now policy.(AutoscalerPolicy_CreatedAt);
  updated ← now;
  let policy := policy <| AutoscalerPolicy_ID := id |> <| AutoscalerPolicy_CreatedAt := created |>
                       <| AutoscalerPolicy_UpdatedAt := updated |> in
  Store.UpsertAutoscalerPolicy policy ;;
  ignore (emitEvent (event EventInfo "autoscaler" "AutoscalerPolicyUpserted"
    "Autoscaler policy configured" policy.(AutoscalerPolicy_DeploymentID) "" "")) ;;
  mret policy.

Definition UpsertAutoscalerPolicy (policy : AutoscalerPolicy) : IO AutoscalerPolicy :=
  if blank policy.(AutoscalerPolicy_DeploymentID)
  then throw (Errorf "deployment id is required") else
  GetDeployment policy.(AutoscalerPolicy_DeploymentID) ;;
  save_policy (default_policy policy).

(** The deployment and the policy after a scaling decision. *)
Definition apply_scaling (p : AutoscalerPolicy) (dep : Deployment) (m : Metrics)
    (recommended : Z) (t : Time) : IO unit :=
  let current := dep.(Deployment_Spec).(DeploymentSpec_Replicas) in
  let up := current <? recommended in
  Store.UpdateDeployment (scaled_deployment dep recommended t) ;;
  Store.UpsertAutoscalerPolicy (p <| AutoscalerPolicy_LastScaleAt := t |>
    <| AutoscalerPolicy_LastScaleDirection := (if up then "up" else "down") |>
    <| AutoscalerPolicy_UpdatedAt := t |>) ;;
  ignore (emitEvent (event EventInfo "autoscaler"
    (if up then "AutoscalerScaleUp" else "AutoscalerScaleDown")
    ("autoscaler adjusted replicas " +:+ fmt_d current +:+ " -> " +:+ fmt_d recommended
       +:+ " (cpu=" +:+ fmt_2f m.(Metrics_CPU) +:+ " mem=" +:+ fmt_2f m.(Metrics_Memory)
       +:+ " custom=" +:+ fmt_2f m.(Metrics_Custom) +:+ ")")
    dep.(Deployment_ID) "" "")).

(** One policy of the loop. *)
Definition autoscale (t : Time) (p : AutoscalerPolicy) : IO unit :=
  d ← attempt (GetDeployment p.(AutoscalerPolicy_DeploymentID));
  match d with
  | Err _ => mret tt
  | Ok dep =>
      s ← attempt (ListDeploymentMetrics dep.(Deployment_ID) 200);
      match s with
      | Err _ | Ok [] => mret tt
      | Ok samples =>
          let m := observed_metrics p (window_samples p t samples) in
          let current := dep.(Deployment_Spec).(DeploymentSpec_Replicas) in
          let recommended := recommend p current m in
          if recommended =? current then mret tt else
          if cooling_down p t (current <? recommended) then mret tt else
          apply_scaling p dep m recommended t
      end
  end.

Definition reconcileAutoscaling : IO unit :=
  policies ← ListAutoscalerPolicies;
  t ← now;
  for_each policies (autoscale t).

End Autoscaler.

#[export] Hint Unfold save_policy UpsertAutoscalerPolicy apply_scaling autoscale reconcileAutoscaling : store.
