(* ===== verification/RBAC.v ===== *)
(** * Role bindings

    [UpsertRoleBinding] and [EffectiveRolesForSubject] of
    [internal/service/features.go].  The roles of a subject are collected by a
    recursive walk over inherited bindings; the walk keeps no record of the
    bindings it has visited, so that its recursion is bounded only by the
    stack of the process, a parameter here. *)

From Stdlib Require Import Ascii String.
From Corelib Require Import SpecFloat.
From S2P Require Import Prelude GoLang GoSort Effects Model Badger World Store StoreFacts.
From S2P Require Import StoreTheorems.

(** [byName]: a later binding of the same name replaces an earlier one. *)
Definition by_name (all : list RoleBinding) : gmap string RoleBinding :=
  foldl (fun m rb => <[rb.(RoleBinding_Name) := rb]> m) ∅ all.

Definition add_role (acc : gset string) (r : string) : gset string :=
  if blank r then acc else {[ ToLower (TrimSpace r) ]} ∪ acc.

(** [visit]; [None] when the stack is exhausted. *)
Fixpoint visit (stack : nat) (byName : gmap string RoleBinding) (name : string) (acc : gset string)
    : option (gset string) :=
  match stack with
  | O => None
  | S stack' =>
      match byName !! name with
      | None => Some acc
      | Some rb =>
          foldl (fun o parent => o ≫= visit stack' byName parent)
            (Some (foldl add_role acc rb.(RoleBinding_Roles))) rb.(RoleBinding_Inherits)
      end
  end.

Definition is_subject (subject : string) (rb : RoleBinding) : bool :=
  EqualFold (TrimSpace rb.(RoleBinding_Subject)) (TrimSpace subject).

Definition collect_roles (stack : nat) (all : list RoleBinding) (subject : string)
    : option (gset string) :=
  foldl (fun o rb => o ≫= fun acc =>
      if is_subject subject rb then visit stack (by_name all) rb.(RoleBinding_Name) acc else Some acc)
    (Some ∅) all.

(** [sort.Strings] of the keys of the set *)
Definition sorted_roles (roles : gset string) : list string :=
  SliceStable (fun a b => string_ltb a b) (elements roles).

Section RBAC.
Context {DB : Type} `{!Badger Blob DB} {E : Env}.

Abbreviation IO := (M (World DB)).

Definition UpsertRoleBinding (b : RoleBinding) : IO RoleBinding :=
  if blank b.(RoleBinding_Name) then throw (Errorf "role binding name is required") else
  if blank b.(RoleBinding_Subject) then throw (Errorf "role binding subject is required") else
  if lenZ b.(RoleBinding_Roles) =? 0 then throw (Errorf "role binding roles are required") else
  Store.UpsertRoleBinding b ;;
  GetRoleBinding b.(RoleBinding_Namespace) b.(RoleBinding_Name).

Definition bindings_for (namespace : string) : IO (list RoleBinding) :=
  all ← ListRoleBindings "";
  if blank namespace then mret all else
  r ← attempt (ListRoleBindings namespace);
  mret (match r with Ok items => all ++ items | Err _ => all end).

Definition EffectiveRolesForSubject (stack : nat) (subject namespace : string) : IO (list string) :=
  all ← bindings_for namespace;
  match collect_roles stack all subject with
  | Some roles => mret (sorted_roles roles)
  | None => throw (Panic "stack overflow")
  end.

End RBAC.

#[export] Hint Unfold UpsertRoleBinding bindings_for EffectiveRolesForSubject : store.

(** ** The roles a subject should have *)

(** [name] is reached from [root] along inherited bindings that exist. *)
Inductive inherits (byName : gmap string RoleBinding) (root : string) : string -> Prop :=
| inherits_root : inherits byName root root
| inherits_step name rb parent :
    inherits byName root name -> byName !! name = Some rb ->
    parent ∈ rb.(RoleBinding_Inherits) -> inherits byName root parent.

Definition carries (byName : gmap string RoleBinding) (name role : string) : Prop :=
  exists rb r, byName !! name = Some rb /\ r ∈ rb.(RoleBinding_Roles)
    /\ blank r = false /\ role = ToLower (TrimSpace r).

Definition granted (all : list RoleBinding) (subject role : string) : Prop :=
  exists rb name, rb ∈ all /\ is_subject subject rb = true
    /\ inherits (by_name all) rb.(RoleBinding_Name) name /\ carries (by_name all) name role.

(** Inheritance is acyclic: a rank decreases from every binding to the ones it
    inherits. *)
Definition ranked (byName : gmap string RoleBinding) (rank : string -> nat) : Prop :=
  forall name rb parent, byName !! name = Some rb -> parent ∈ rb.(RoleBinding_Inherits) ->
    (rank parent < rank name)%nat.

(** ** Lemmas *)

Lemma elem_of_add_role acc r role :
  role ∈ add_role acc r <-> role ∈ acc \/ blank r = false /\ role = ToLower (TrimSpace r).
Proof. unfold add_role. destruct (blank r); set_solver. Qed.

Lemma elem_of_add_roles rs acc role :
  role ∈ foldl add_role acc rs
  <-> role ∈ acc \/ exists r, r ∈ rs /\ blank r = false /\ role = ToLower (TrimSpace r).
Proof.
  revert acc. induction rs as [|r rs IH]; intros acc; simpl; [set_solver|].
  rewrite IH, elem_of_add_role. set_solver.
Qed.

Lemma inherits_trans byName a b c : inherits byName a b -> inherits byName b c -> inherits byName a c.
Proof. intros Hab. induction 1 as [|n rb p _ IH Hn Hp]; [done|]. by eapply inherits_step. Qed.

(** A non-trivial walk starts with one of the parents. *)
Lemma inherits_inv byName a c :
  inherits byName a c <->
  c = a \/ exists rb p, byName !! a = Some rb /\ p ∈ rb.(RoleBinding_Inherits) /\ inherits byName p c.
Proof.
  split.
  - induction 1 as [|n rb p _ IH Hn Hp]; [by left|]. right.
    destruct IH as [->|(rb' & p' & H1 & H2 & H3)].
    + exists rb, p. split; [done|]. split; [done|]. constructor.
    + exists rb', p'. split; [done|]. split; [done|]. by eapply inherits_step.
  - intros [->|(rb & p & H1 & H2 & H3)]; [constructor|].
    eapply inherits_trans; [|exact H3]. eapply inherits_step; [constructor|done|done].
Qed.

Definition reaches (byName : gmap string RoleBinding) (root role : string) : Prop :=
  exists name, inherits byName root name /\ carries byName name role.

Lemma fold_visit byName stack parents acc :
  (forall p acc, p ∈ parents -> exists out, visit stack byName p acc = Some out
     /\ forall role, role ∈ out <-> role ∈ acc \/ reaches byName p role) ->
  exists out, foldl (fun o parent => o ≫= visit stack byName parent) (Some acc) parents = Some out
    /\ forall role, role ∈ out <-> role ∈ acc \/ exists p, p ∈ parents /\ reaches byName p role.
Proof.
  revert acc. induction parents as [|p parents IH]; intros acc H; simpl.
  { exists acc. split; [done|]. set_solver. }
  destruct (H p acc ltac:(left)) as (out & Ho & Hout). rewrite Ho.
  destruct (IH out) as (out' & Ho' & Hout'); [intros q a Hq; apply H; by right|].
  exists out'. split; [done|]. intros role. rewrite Hout', Hout. set_solver.
Qed.

(** On an acyclic hierarchy the walk terminates, within a stack as deep as the
    rank, and adds exactly the roles reachable from its root. *)
Lemma visit_ranked byName rank stack name acc :
  ranked byName rank -> (rank name < stack)%nat ->
  exists out, visit stack byName name acc = Some out
    /\ forall role, role ∈ out <-> role ∈ acc \/ reaches byName name role.
Proof.
  intros Hr. revert name acc. induction stack as [|stack IH]; intros name acc Hs; [lia|]. simpl.
  assert (Hreach : forall role, reaches byName name role <-> carries byName name role
    \/ exists rb p, byName !! name = Some rb /\ p ∈ rb.(RoleBinding_Inherits) /\ reaches byName p role).
  { intros role. split.
    - intros (n & [->|(rb & p & Hb & Hp & Hn)]%inherits_inv & Hc); [by left|].
      right. exists rb, p. repeat split; try done. by exists n.
    - intros [Hc|(rb & p & Hb & Hp & n & Hn & Hc)]; [exists name; split; [constructor|done]|].
      exists n. split; [|done]. apply inherits_inv. right. by exists rb, p. }
  destruct (byName !! name) as [rb|] eqn:Hb.
  2: { exists acc. split; [done|]. intros role. rewrite Hreach. unfold carries. naive_solver. }
  destruct (fold_visit byName stack (RoleBinding_Inherits rb)
    (foldl add_role acc (RoleBinding_Roles rb))) as (out & Ho & Hout).
  { intros p a Hp. apply IH. pose proof (Hr name rb p Hb Hp). lia. }
  exists out. split; [done|]. intros role. rewrite Hout, elem_of_add_roles, Hreach.
  unfold carries. rewrite Hb. naive_solver.
Qed.

Lemma collect_roles_ranked all rank stack subject :
  ranked (by_name all) rank -> (forall name, rank name < stack)%nat ->
  exists roles, collect_roles stack all subject = Some roles
    /\ forall role, role ∈ roles <-> granted all subject role.
Proof.
  intros Hr Hs. unfold collect_roles, granted. set (byName := by_name all) in *.
  assert (H : forall l acc, exists roles,
    foldl (fun o rb => o ≫= fun acc =>
      if is_subject subject rb then visit stack byName rb.(RoleBinding_Name) acc else Some acc)
      (Some acc) l = Some roles
    /\ forall role, role ∈ roles <-> role ∈ acc \/ exists rb name, rb ∈ l /\ is_subject subject rb = true
         /\ inherits byName rb.(RoleBinding_Name) name /\ carries byName name role).
  { induction l as [|rb l IH]; intros acc; simpl.
    - exists acc. split; [done|]. intros role. split; [by left|]. intros [?|(rb & n & Hin & _)]; [done|].
      by apply not_elem_of_nil in Hin.
    - destruct (is_subject subject rb) eqn:Hsub.
      + destruct (visit_ranked byName rank stack rb.(RoleBinding_Name) acc Hr (Hs _)) as (out & -> & Hout).
        destruct (IH out) as (roles & -> & Hroles). exists roles. split; [done|]. intros role.
        rewrite Hroles, Hout. unfold reaches. set_solver.
      + destruct (IH acc) as (roles & -> & Hroles). exists roles. split; [done|]. intros role.
        rewrite Hroles. split; [intros [?|?]; [by left|right; set_solver]|].
        intros [?|(rb' & n & [->|Hin]%elem_of_cons & Hsub' & Hrest)]; [by left|congruence|].
        right. by exists rb', n. }
  destruct (H all ∅) as (roles & Hc & Hroles). exists roles. split; [done|]. intros role.
  rewrite Hroles. set_solver.
Qed.

(** A binding on a cycle exhausts every stack. *)
Lemma visit_cycle byName stack name rb acc :
  byName !! name = Some rb -> name ∈ rb.(RoleBinding_Inherits) ->
  visit stack byName name acc = None.
Proof.
  intros Hb Hin. revert acc. induction stack as [|stack IH]; intros acc; [done|]. simpl. rewrite Hb.
  apply list_elem_of_split in Hin as (pre & post & ->). rewrite foldl_app. simpl.
  assert (Hnone : forall l, foldl (fun o parent => o ≫= visit stack byName parent) None l = None).
  { induction l; simpl; [done|]. done. }
  destruct (foldl _ _ pre) as [a|]; simpl; [rewrite IH|]; apply Hnone.
Qed.

(** ** Theorems *)

Section RBACTheorems.
Context {DB : Type} `{!Badger Blob DB, !BadgerLaws Blob DB} {E : Env}.
Implicit Types (w : World DB).

(** C25: where inheritance between role bindings is acyclic and the stack is as
    deep as the hierarchy, [EffectiveRolesForSubject] terminates and returns
    the subject's roles, sorted and without repetition: exactly those of its
    global bindings, of its bindings in the namespace, and of every binding
    these inherit from, directly or not. *)
Theorem EffectiveRoles_spec stack subject namespace w all w1 rank :
  bindings_for namespace w = (Ok all, w1) ->
  ranked (by_name all) rank -> (forall name, rank name < stack)%nat ->
  exists roles, EffectiveRolesForSubject stack subject namespace w = (Ok roles, w1)
    /\ NoDup roles
    /\ StronglySorted (not_after (fun a b => string_ltb a b)) roles
    /\ forall role, role ∈ roles <-> granted all subject role.
Proof.
  intros Hall Hr Hs. destruct (collect_roles_ranked all rank stack subject Hr Hs) as (roles & Hc & Hroles).
  exists (sorted_roles roles). unfold EffectiveRolesForSubject. rewrite (bind_Ok _ _ _ _ _ Hall), Hc.
  split; [done|]. unfold sorted_roles. split; [|split].
  - rewrite SliceStable_perm. apply NoDup_elements.
  - pose proof (string_key_StrictWeak (A := string) id) as Hsw.
    apply (SliceStable_sorted (fun _ => True)); [exact Hsw|]. by apply Forall_true.
  - intros role. by rewrite SliceStable_perm, elem_of_elements, Hroles.
Qed.

(** C29: a subject bound to a role binding that inherits from itself makes
    [EffectiveRolesForSubject] recurse until the stack is exhausted, however
    large the stack: no roles are ever returned. *)
Theorem EffectiveRoles_cycle stack subject namespace w all w1 rb rb' :
  bindings_for namespace w = (Ok all, w1) ->
  rb ∈ all -> is_subject subject rb = true ->
  by_name all !! rb.(RoleBinding_Name) = Some rb' ->
  rb.(RoleBinding_Name) ∈ rb'.(RoleBinding_Inherits) ->
  EffectiveRolesForSubject stack subject namespace w = (Err (Panic "stack overflow"), w1).
Proof.
  intros Hall Hin Hsub Hb Hcyc. unfold EffectiveRolesForSubject.
  rewrite (bind_Ok _ _ _ _ _ Hall). unfold collect_roles.
  set (byName := by_name all) in *. clearbody byName.
  apply list_elem_of_split in Hin as (pre & post & ->). rewrite foldl_app. simpl.
  set (f := fun (o : option (gset string)) rb => _).
  assert (Hnone : forall l, foldl f None l = None) by (induction l; simpl; done).
  replace (foldl f (foldl f (Some ∅) pre ≫= _) post) with (@None (gset string)); [done|].
  destruct (foldl f (Some ∅) pre) as [acc|]; cbn [mbind option_bind]; [|by rewrite Hnone].
  rewrite Hsub, (visit_cycle _ _ _ rb'); [by rewrite Hnone|done|done].
Qed.

End RBACTheorems.
