(* ===== verification/Volumes.v ===== *)
(** * Persistent volumes and claims, network policies

    [UpsertPersistentVolume], [UpsertPersistentVolumeClaim],
    [reconcilePVCBindings], [UpsertNetworkPolicy] and
    [IsNetworkAccessAllowed] of [internal/service/features.go]. *)

From Stdlib Require Import Ascii String.
From Corelib Require Import SpecFloat.
From S2P Require Import Prelude GoLang GoFloat GoSort GoTime Effects Model Scheduler Badger World.
From S2P Require Import Store StoreFacts Events Secrets Rollout Placement Reconcile Deployments.
From S2P Require Import Services.

(** Two optional attributes agree when one is blank or both are equal. *)
Definition compatible (a b : string) : bool := blank a || blank b || String.eqb a b.

(** The guards of the inner loop. *)
Definition can_bind (pvc : PersistentVolumeClaim) (pv : PersistentVolume) : bool :=
  String.eqb pv.(PersistentVolume_Phase) PersistentVolumeAvailable
  && negb (pv.(PersistentVolume_CapacityMB) <? pvc.(PersistentVolumeClaim_RequestedCapacity))
  && compatible pvc.(PersistentVolumeClaim_StorageClass) pv.(PersistentVolume_StorageClass)
  && compatible pvc.(PersistentVolumeClaim_AccessMode) pv.(PersistentVolume_AccessMode).

Definition is_bound (pvc : PersistentVolumeClaim) : bool :=
  String.eqb pvc.(PersistentVolumeClaim_Phase) PersistentVolumeClaimBound
  && negb (blank pvc.(PersistentVolumeClaim_VolumeName)).

(** The smallest volumes first. *)
Definition by_capacity (pvs : list PersistentVolume) : list PersistentVolume :=
  SliceStable (fun a b => a.(PersistentVolume_CapacityMB) <? b.(PersistentVolume_CapacityMB)) pvs.

Definition bind_volume (pvc : PersistentVolumeClaim) (pv : PersistentVolume) : PersistentVolume :=
  pv <| PersistentVolume_Phase := PersistentVolumeBound |>
     <| PersistentVolume_ClaimNamespace := pvc.(PersistentVolumeClaim_Namespace) |>
     <| PersistentVolume_ClaimName := pvc.(PersistentVolumeClaim_Name) |>.

Definition bind_claim (pv : PersistentVolume) (pvc : PersistentVolumeClaim) : PersistentVolumeClaim :=
  pvc <| PersistentVolumeClaim_VolumeName := pv.(PersistentVolume_Name) |>
      <| PersistentVolumeClaim_Phase := PersistentVolumeClaimBound |>.

(** ** Network access *)

Definition peer_allows (group : string) (sourceNamespace : string)
    (sourceLabels : option (gmap string string)) (peer : NetworkPolicyPeer) : bool :=
  (blank peer.(NetworkPolicyPeer_Namespace)
   || EqualFold peer.(NetworkPolicyPeer_Namespace) sourceNamespace)
  && (bool_decide (peer.(NetworkPolicyPeer_Labels) = ∅)
      || labelsMatchSelector sourceLabels peer.(NetworkPolicyPeer_Labels))
  && (blank group || String.eqb (map_index sourceLabels "group") group).

(** What one ingress rule says: a verdict, or nothing. *)
Definition rule_verdict (group sourceNamespace : string) (sourceLabels : option (gmap string string))
    (port : Z) (rule : NetworkPolicyRule) : option string :=
  if (0 <? rule.(NetworkPolicyRule_Port)) && negb (rule.(NetworkPolicyRule_Port) =? port) then None
  else if lenZ rule.(NetworkPolicyRule_From) =? 0 then Some "allow_empty_from"
  else if existsb (peer_allows group sourceNamespace sourceLabels) rule.(NetworkPolicyRule_From)
  then Some "allow_matched_rule" else None.

(** The rules of the applicable policies, each with its policy's group. *)
Definition ingress_rules (policies : list NetworkPolicy) : list (string * NetworkPolicyRule) :=
  List.flat_map (fun p => List.map (pair p.(NetworkPolicy_Group)) p.(NetworkPolicy_Ingress)) policies.

Definition access_verdict (policies : list NetworkPolicy) (sourceNamespace : string)
    (sourceLabels : option (gmap string string)) (svc : Service) (port : Z) : bool * string :=
  let applicable := List.filter (fun p =>
    labelsMatchSelector (Some svc.(Service_Spec).(ServiceSpec_Selector)) p.(NetworkPolicy_PodSelector))
    policies in
  if lenZ applicable =? 0 then (true, "no_applicable_policy") else
  match head (omap (fun gr => rule_verdict gr.1 sourceNamespace sourceLabels port gr.2)
                (ingress_rules applicable)) with
  | Some reason => (true, reason)
  | None => (false, "denied_by_network_policy")
  end.

Section Volumes.
Context {DB : Type} `{!Badger Blob DB} {E : Env}.

Abbreviation IO := (M (World DB)).

(** [if lerr == nil { items = append(items, ...) }] over the namespaces *)
Definition collect_namespaces {A} (list_ns : string -> IO (list A)) (namespaces : list Namespace)
    (acc : list A) : IO (list A) :=
  fold_m namespaces acc (fun acc ns =>
    r ← attempt (list_ns ns.(Namespace_Name));
    mret (match r with Ok items => acc ++ items | Err _ => acc end)).

(** [pvs] is the listing made before the loop: binding a volume does not
    change the copy that the next claim sees. *)
Definition bind_one (pvs : list PersistentVolume) (pvc : PersistentVolumeClaim) : IO unit :=
  if is_bound pvc then mret tt else
  match List.find (can_bind pvc) pvs with
  | None => mret tt
  | Some pv =>
      Store.UpsertPersistentVolume (bind_volume pvc pv) ;;
      Store.UpsertPersistentVolumeClaim (bind_claim pv pvc)
  end.

Definition reconcilePVCBindings : IO unit :=
  pvs ← ListPersistentVolumes;
  pvcs ← Store.ListPersistentVolumeClaims "default";
  namespaces ← ListNamespaces;
  pvcs ← collect_namespaces Store.ListPersistentVolumeClaims namespaces pvcs;
  for_each pvcs (bind_one (by_capacity pvs)).

Definition UpsertPersistentVolume (pv : PersistentVolume) : IO PersistentVolume :=
  if blank pv.(PersistentVolume_Name) then throw (Errorf "persistent volume name is required") else
  if pv.(PersistentVolume_CapacityMB) <=? 0
  then throw (Errorf "persistent volume capacityMb must be > 0") else
  let pv := if String.eqb pv.(PersistentVolume_Phase) ""
    then pv <| PersistentVolume_Phase := PersistentVolumeAvailable |> else pv in
  Store.UpsertPersistentVolume pv ;;
  GetPersistentVolume pv.(PersistentVolume_Name).

Definition UpsertPersistentVolumeClaim (pvc : PersistentVolumeClaim) : IO PersistentVolumeClaim :=
  let pvc := pvc <| PersistentVolumeClaim_Namespace ::= or_default "default" |> in
  if blank pvc.(PersistentVolumeClaim_Name)
  then throw (Errorf "persistent volume claim name is required") else
  if pvc.(PersistentVolumeClaim_RequestedCapacity) <=? 0
  then throw (Errorf "persistent volume claim requestedCapacityMb must be > 0") else
  ensureNamespaceExists pvc.(PersistentVolumeClaim_Namespace) ;;
  let pvc := if String.eqb pvc.(PersistentVolumeClaim_Phase) ""
    then pvc <| PersistentVolumeClaim_Phase := PersistentVolumeClaimPending |> else pvc in
  Store.UpsertPersistentVolumeClaim pvc ;;
  reconcilePVCBindings ;;
  GetPersistentVolumeClaim pvc.(PersistentVolumeClaim_Namespace) pvc.(PersistentVolumeClaim_Name).

Definition ListPersistentVolumeClaims (namespace : string) : IO (list PersistentVolumeClaim) :=
  Store.ListPersistentVolumeClaims (or_default "default" namespace).

Definition UpsertNetworkPolicy (policy : NetworkPolicy) : IO NetworkPolicy :=
  let policy := policy <| NetworkPolicy_Namespace ::= or_default "default" |> in
  if blank policy.(NetworkPolicy_Name) then throw (Errorf "network policy name is required") else
  if bool_decide (policy.(NetworkPolicy_PodSelector) = ∅)
  then throw (Errorf "network policy podSelector is required") else
  ensureNamespaceExists policy.(NetworkPolicy_Namespace) ;;
  Store.UpsertNetworkPolicy policy ;;
  GetNetworkPolicy policy.(NetworkPolicy_Namespace) policy.(NetworkPolicy_Name).

Definition ListNetworkPolicies (namespace : string) : IO (list NetworkPolicy) :=
  Store.ListNetworkPolicies (or_default "default" namespace).

Definition IsNetworkAccessAllowed (sourceNamespace : string)
    (sourceLabels : option (gmap string string)) (svc : Service) (port : Z) : IO (bool * string) :=
  policies ← Store.ListNetworkPolicies svc.(Service_Spec).(ServiceSpec_Namespace);
  mret (access_verdict policies (or_default "default" sourceNamespace) sourceLabels svc port).

End Volumes.

#[export] Hint Unfold collect_namespaces bind_one reconcilePVCBindings UpsertPersistentVolume
  UpsertPersistentVolumeClaim ListPersistentVolumeClaims UpsertNetworkPolicy ListNetworkPolicies
  IsNetworkAccessAllowed : store.

(** ** What the policies mean *)

(** A peer admits a source: namespace, labels and the policy's group. *)
Definition admits (p : NetworkPolicy) (sourceNamespace : string)
    (sourceLabels : option (gmap string string)) (peer : NetworkPolicyPeer) : Prop :=
  (blank peer.(NetworkPolicyPeer_Namespace) = true
   \/ EqualFold peer.(NetworkPolicyPeer_Namespace) sourceNamespace = true)
  /\ (forall k v, peer.(NetworkPolicyPeer_Labels) !! k = Some v -> map_index sourceLabels k = v)
  /\ (blank p.(NetworkPolicy_Group) = true \/ map_index sourceLabels "group" = p.(NetworkPolicy_Group)).

(** The policy selects the pods behind the service. *)
Definition selects_service (p : NetworkPolicy) (svc : Service) : Prop :=
  p.(NetworkPolicy_PodSelector) <> ∅
  /\ forall k v, p.(NetworkPolicy_PodSelector) !! k = Some v ->
       map_index (Some svc.(Service_Spec).(ServiceSpec_Selector)) k = v.

Lemma labelsMatchSelector_spec labels selector :
  labelsMatchSelector labels selector = true
  <-> selector <> ∅ /\ forall k v, selector !! k = Some v -> map_index labels k = v.
Proof.
  unfold labelsMatchSelector. case_bool_decide as He; [split; [done|tauto]|].
  rewrite map_forallb_spec. setoid_rewrite String.eqb_eq. tauto.
Qed.

Lemma peer_allows_spec p ns labels peer :
  peer_allows p.(NetworkPolicy_Group) ns labels peer = true <-> admits p ns labels peer.
Proof.
  unfold peer_allows, admits. rewrite !andb_true_iff, !orb_true_iff, bool_decide_eq_true,
    String.eqb_eq, labelsMatchSelector_spec.
  destruct (decide (NetworkPolicyPeer_Labels peer = ∅)) as [He|He]; [|tauto].
  rewrite He. assert (forall k v, (∅ : gmap string string) !! k = Some v -> map_index labels k = v)
    by (intros k v; rewrite lookup_empty; discriminate). tauto.
Qed.

Lemma head_omap_is_Some {A B} (f : A -> option B) l :
  is_Some (head (omap f l)) <-> exists x, x ∈ l /\ is_Some (f x).
Proof.
  induction l as [|x l IH]; cbn.
  { split; [by intros [? ?]|]. intros (x & Hx & _). by apply not_elem_of_nil in Hx. }
  destruct (f x) as [y|] eqn:Hf; cbn.
  - split; [|by eauto]. intros _. exists x. split; [left|by rewrite Hf].
  - rewrite IH. split; intros (z & Hz & Hs); exists z; (split; [|done]).
    + by right.
    + apply elem_of_cons in Hz as [->|Hz]; [|done]. rewrite Hf in Hs. by destruct Hs.
Qed.

Lemma elem_of_ingress_rules g r ps :
  (g, r) ∈ ingress_rules ps
  <-> exists p, p ∈ ps /\ g = p.(NetworkPolicy_Group) /\ r ∈ p.(NetworkPolicy_Ingress).
Proof.
  unfold ingress_rules. rewrite list_elem_of_In, in_flat_map.
  setoid_rewrite in_map_iff. setoid_rewrite list_elem_of_In. naive_solver.
Qed.

Lemma rule_verdict_spec p ns labels port rule :
  is_Some (rule_verdict p.(NetworkPolicy_Group) ns labels port rule) <->
  (rule.(NetworkPolicyRule_Port) <= 0 \/ rule.(NetworkPolicyRule_Port) = port)
  /\ (rule.(NetworkPolicyRule_From) = []
      \/ exists peer, peer ∈ rule.(NetworkPolicyRule_From) /\ admits p ns labels peer).
Proof.
  unfold rule_verdict. set (P := NetworkPolicyRule_Port rule).
  destruct (Z.ltb_spec 0 P), (Z.eqb_spec P port); cbn [negb andb];
    try (split; [by intros [? ?]|lia]);
    (destruct (NetworkPolicyRule_From rule) as [|peer0 from]; [split; [intros _; split; [lia|by left]|by eauto]|]);
    set (l := peer0 :: from); change (lenZ l =? 0) with false;
    (destruct (existsb _ l) eqn:He;
      [apply existsb_exists in He as (peer & Hin & Hp); rewrite <- list_elem_of_In in Hin;
       apply peer_allows_spec in Hp; split; [intros _; split; [lia|by eauto]|by eauto]
      |split; [by intros [? ?]|]; intros [_ [?|(peer & Hin & Hp)]]; [done|];
       apply peer_allows_spec in Hp; rewrite list_elem_of_In in Hin;
       assert (existsb (peer_allows (NetworkPolicy_Group p) ns labels) l = true)
         by (apply existsb_exists; eauto); congruence]).
Qed.

(** Access to a service is allowed exactly when no policy of its namespace
    selects it, or some selecting policy has an ingress rule for the port (or
    for every port) that names no peer or names one admitting the source. *)
Theorem access_verdict_spec policies ns labels svc port :
  (access_verdict policies ns labels svc port).1 = true <->
  (forall p, p ∈ policies -> ~ selects_service p svc)
  \/ exists p rule, p ∈ policies /\ selects_service p svc /\ rule ∈ p.(NetworkPolicy_Ingress)
     /\ (rule.(NetworkPolicyRule_Port) <= 0 \/ rule.(NetworkPolicyRule_Port) = port)
     /\ (rule.(NetworkPolicyRule_From) = []
         \/ exists peer, peer ∈ rule.(NetworkPolicyRule_From) /\ admits p ns labels peer).
Proof.
  unfold access_verdict. set (sel := fun p => labelsMatchSelector _ _).
  assert (Hsel : forall p, sel p = true <-> selects_service p svc).
  { intros p. apply labelsMatchSelector_spec. }
  assert (Hin : forall p, p ∈ List.filter sel policies <-> p ∈ policies /\ selects_service p svc).
  { intros p. by rewrite list_elem_of_In, List.filter_In, <- list_elem_of_In, Hsel. }
  destruct (List.filter sel policies) as [|p0 ps] eqn:Hf.
  { split; [|done]. intros _. left. intros p Hp Hs. pose proof (proj2 (Hin p) (conj Hp Hs)) as Hn.
    by apply not_elem_of_nil in Hn. }
  change (lenZ (p0 :: ps) =? 0) with false.
  assert (Hp0 : p0 ∈ p0 :: ps) by left. rewrite <- Hf in *. clear Hf ps.
  set (f := fun gr : string * NetworkPolicyRule => _).
  pose proof (head_omap_is_Some f (ingress_rules (List.filter sel policies))) as Hv.
  assert (Hex : (exists x, x ∈ ingress_rules (List.filter sel policies) /\ is_Some (f x)) <->
    exists p rule, p ∈ policies /\ selects_service p svc /\ rule ∈ p.(NetworkPolicy_Ingress)
      /\ is_Some (rule_verdict p.(NetworkPolicy_Group) ns labels port rule)).
  { split.
    - intros ([g r] & (p & Hp & -> & Hr)%elem_of_ingress_rules & Hs). apply Hin in Hp as [? ?]. by exists p, r.
    - intros (p & r & ? & ? & Hr & Hs). exists (p.(NetworkPolicy_Group), r). split; [|done].
      apply elem_of_ingress_rules. exists p. by rewrite Hin. }
  rewrite Hex in Hv. setoid_rewrite rule_verdict_spec in Hv.
  destruct (head _) as [reason|]; cbn [fst].
  - split; [|done]. intros _. right. apply Hv. by eexists.
  - split; [done|]. intros [Hno|Hyes]; [|by apply Hv in Hyes as [? ?]].
    exfalso. apply Hin in Hp0 as [Hp Hs]. by apply (Hno p0).
Qed.
