(* ===== verification/Lease.v ===== *)
(** * Controller leadership and shards

    [TryAcquireControllerLeadership], [ReleaseControllerLeadership] and
    [belongsToShard] of [internal/service/features.go].  The lease is read and
    written in two separate transactions; [acquire_read] and [acquire_write]
    are the two halves of a call, so that calls of several controllers can be
    interleaved. *)

From Stdlib Require Import Ascii String.
From Corelib Require Import SpecFloat.
From S2P Require Import Prelude GoLang GoTime Effects Model Badger World Store StoreFacts.
From S2P Require Import StoreTheorems.

Definition zero_lease : ControllerLease := MkControllerLease "" 0 0 0.

(** What a call has learnt from the store: the time it began and the lease. *)
Record LeaseView : Type := MkLeaseView {
  LeaseView_now : Time;
  LeaseView_found : bool;
  LeaseView_lease : ControllerLease
}.

(** The condition under which the lease is taken or renewed. *)
Definition may_lead (controllerID : string) (v : LeaseView) : bool :=
  negb v.(LeaseView_found)
  || blank v.(LeaseView_lease).(ControllerLease_LeaderID)
  || After v.(LeaseView_now) v.(LeaseView_lease).(ControllerLease_ExpiresAt)
  || String.eqb v.(LeaseView_lease).(ControllerLease_LeaderID) controllerID.

Definition next_lease (controllerID : string) (leaseDuration : Duration) (v : LeaseView)
    : ControllerLease :=
  let old := v.(LeaseView_lease) in
  let term := if String.eqb old.(ControllerLease_LeaderID) controllerID
    then old.(ControllerLease_Term) else old.(ControllerLease_Term) +! 1 in
  MkControllerLease controllerID (time_Add v.(LeaseView_now) leaseDuration) term v.(LeaseView_now).

Definition default_lease_duration (d : Duration) : Duration :=
  if d <=? 0 then 10 *! Second else d.

Section Lease.
Context {DB : Type} `{!Badger Blob DB} {E : Env}.

Abbreviation IO := (M (World DB)).

Definition acquire_read : IO LeaseView :=
  t ← now;
  r ← attempt GetControllerLease;
  match r with
  | Ok lease => mret (MkLeaseView t true lease)
  | Err err => if is_not_found err then mret (MkLeaseView t false zero_lease) else throw err
  end.

Definition acquire_write (controllerID : string) (leaseDuration : Duration) (v : LeaseView)
    : IO (bool * ControllerLease) :=
  if may_lead controllerID v then
    let lease := next_lease controllerID leaseDuration v in
    UpsertControllerLease lease ;;
    let action := if (0 <? lease.(ControllerLease_Term))
                     && String.eqb lease.(ControllerLease_LeaderID) controllerID
      then "LeaderAcquired" else "LeaderRenewed" in
    ignore (AppendControlPlaneTransition (MkControlPlaneTransition "" controllerID
      lease.(ControllerLease_Term) action "controller leadership updated" v.(LeaseView_now))) ;;
    mret (true, lease)
  else
    mret (String.eqb v.(LeaseView_lease).(ControllerLease_LeaderID) controllerID, v.(LeaseView_lease)).

Definition TryAcquireControllerLeadership (controllerID : string) (leaseDuration : Duration)
    : IO (bool * ControllerLease) :=
  if blank controllerID then throw (Errorf "controller id is required") else
  v ← acquire_read;
  acquire_write controllerID (default_lease_duration leaseDuration) v.

Definition ReleaseControllerLeadership (controllerID : string) : IO unit :=
  r ← attempt GetControllerLease;
  match r with
  | Err err => if is_not_found err then mret tt else throw err
  | Ok lease =>
      if negb (String.eqb lease.(ControllerLease_LeaderID) controllerID) then mret tt else
      DeleteControllerLease ;;
      t ← now;
      AppendControlPlaneTransition (MkControlPlaneTransition "" controllerID
        lease.(ControllerLease_Term) "LeaderReleased" "controller released lease" t)
  end.

End Lease.

#[export] Hint Unfold acquire_read acquire_write TryAcquireControllerLeadership
  ReleaseControllerLeadership : store.

(** ** Shards *)

(** FNV-1a on 32 bits: [hash/fnv]. *)
Definition fnv_offset : Z := 2166136261.
Definition fnv_prime : Z := 16777619.

Definition fnv32a (s : string) : Z :=
  foldl (fun h c => (Z.lxor h (Z.of_N (byte_of c)) * fnv_prime) mod 2 ^ 32) fnv_offset
    (list_ascii_of_string s).

(** [uint32(shardCount)] keeps the low 32 bits; a zero divisor panics. *)
Definition belongsToShard (id : string) (shardIndex shardCount : Z) : Res bool :=
  let n := shardCount mod 2 ^ 32 in
  if n =? 0 then Err (Panic "runtime error: integer divide by zero")
  else Ok (fnv32a id mod n =? shardIndex).

(** ** Theorems *)

(** For every shard count up to 2^32 - 1, each deployment belongs to
    exactly one of the shards 0, ..., [shardCount] - 1: no deployment is
    reconciled by two shards and none by no shard. *)
Theorem shards_partition id shardCount :
  0 < shardCount < 2 ^ 32 ->
  exists i, 0 <= i < shardCount
    /\ forall j, belongsToShard id j shardCount = Ok (bool_decide (j = i)).
Proof.
  intros H. exists (fnv32a id mod shardCount).
  split; [apply Z.mod_pos_bound; lia|]. intros j. unfold belongsToShard.
  rewrite (Z.mod_small shardCount) by lia. destruct (Z.eqb_spec shardCount 0); [lia|].
  f_equal. destruct (Z.eqb_spec (fnv32a id mod shardCount) j); case_bool_decide; congruence.
Qed.

Section LeaseTheorems.
Context {DB : Type} `{!Badger Blob DB, !BadgerLaws Blob DB} {E : Env}.
Implicit Types (w : World DB).

Definition lease_in w : option Blob := db_get w.(w_db) keyControllerLease.

Lemma orb_rotate (a b c : bool) : a || b || c = c || a || b.
Proof. by destruct a, b, c. Qed.

Lemma transition_keeps_lease {A} (m : M (World DB) A) w :
  steps (dbrel (same_under keyControllerLease)) m -> lease_in (m w).2 = lease_in w.
Proof. intros H. apply (H w). reflexivity. Qed.

Lemma acquire_read_run w lease :
  lease_in w = Some (BControllerLease lease) -> (forall t, env_dberr t = None) ->
  acquire_read w = (Ok (MkLeaseView (env_now w.(w_tick)) true lease), w <| w_tick := S (S w.(w_tick)) |>).
Proof.
  intros Hl He. unfold acquire_read, GetControllerLease, get, attempt, now, ask, mbind, M_bind, db_View.
  cbn. rewrite He. unfold get_in. unfold lease_in in Hl. cbn. by rewrite Hl.
Qed.

(** Writing a lease that carries a time is one transaction. *)
Lemma UpsertControllerLease_run lease w :
  IsZero lease.(ControllerLease_UpdatedAt) = false -> (forall t, env_dberr t = None) ->
  UpsertControllerLease lease w
  = (Ok tt, w <| w_tick ::= S |> <| w_db := db_set w.(w_db) keyControllerLease (BControllerLease lease) |>).
Proof.
  intros Hz He. unfold UpsertControllerLease, or_now. rewrite Hz. unfold mbind, M_bind, mret, M_ret, put.
  destruct lease. cbn. unfold db_Update. by rewrite He.
Qed.

(** C23: while a lease is valid no other controller obtains leadership: its
    call returns [false] with the current lease and writes nothing.  When a
    call does obtain leadership, the stored lease names the caller, lasts
    until the asked duration after the call, and its term is the old one plus
    one exactly when the leader changes. *)
Theorem lease_exclusive controllerID d lease w :
  blank controllerID = false ->
  lease_in w = Some (BControllerLease lease) ->
  (forall t, env_dberr t = None) -> IsZero (env_now w.(w_tick)) = false ->
  let t := env_now w.(w_tick) in
  let '(r, w') := TryAcquireControllerLeadership controllerID d w in
  if String.eqb lease.(ControllerLease_LeaderID) controllerID
     || blank lease.(ControllerLease_LeaderID) || After t lease.(ControllerLease_ExpiresAt)
  then exists new, r = Ok (true, new) /\ lease_in w' = Some (BControllerLease new)
    /\ new.(ControllerLease_LeaderID) = controllerID
    /\ new.(ControllerLease_ExpiresAt) = t + default_lease_duration d
    /\ new.(ControllerLease_Term)
       = if String.eqb lease.(ControllerLease_LeaderID) controllerID
         then lease.(ControllerLease_Term) else lease.(ControllerLease_Term) +! 1
  else r = Ok (false, lease) /\ w'.(w_db) = w.(w_db).
Proof.
  intros Hid Hl He Hz. cbv zeta. unfold TryAcquireControllerLeadership. rewrite Hid.
  rewrite (bind_Ok _ _ _ _ _ (acquire_read_run w lease Hl He)). unfold acquire_write.
  set (v := MkLeaseView _ _ _). set (t := env_now (w_tick w)) in *. unfold may_lead.
  cbn [negb LeaseView_found orb].
  change (LeaseView_lease v) with lease. change (LeaseView_now v) with t.
  rewrite orb_rotate.
  destruct (_ || _) eqn:Hlead.
  2: { cbn. split; [|done]. rewrite !orb_false_iff in Hlead. by destruct Hlead as [[-> _] _]. }
  set (new := next_lease controllerID (default_lease_duration d) v).
  rewrite (bind_Ok _ _ _ _ _ (UpsertControllerLease_run new _ Hz He)).
  cbv zeta. set (m := AppendControlPlaneTransition _). set (w1 := _ <| w_db := _ |>).
  exists new. split; [done|].
  assert (Hkeep : lease_in (m w1).2 = lease_in w1) by (apply transition_keeps_lease; subst m; store_steps).
  split; [|done]. change (lease_in (m w1).2 = Some (BControllerLease new)). rewrite Hkeep.
  unfold lease_in, w1. cbn -[keyControllerLease]. by rewrite db_get_set, decide_True.
Qed.

Lemma acquire_read_none w :
  lease_in w = None -> (forall t, env_dberr t = None) ->
  acquire_read w = (Ok (MkLeaseView (env_now w.(w_tick)) false zero_lease),
                    w <| w_tick := S (S w.(w_tick)) |>).
Proof.
  intros Hl He. unfold acquire_read, GetControllerLease, get, attempt, now, ask, mbind, M_bind, db_View.
  cbn. rewrite He. unfold get_in. unfold lease_in in Hl. cbn. by rewrite Hl.
Qed.

Lemma acquire_write_run controllerID d v w :
  may_lead controllerID v = true -> IsZero v.(LeaseView_now) = false ->
  (forall t, env_dberr t = None) ->
  (acquire_write controllerID d v w).1 = Ok (true, next_lease controllerID d v).
Proof.
  intros Hl Hz He. unfold acquire_write. rewrite Hl.
  by rewrite (bind_Ok _ _ _ _ _ (UpsertControllerLease_run (next_lease controllerID d v) w Hz He)).
Qed.

(** C28: reading and writing the lease are separate transactions, so that two
    controllers that both read before either writes both obtain leadership,
    with valid leases of the same term. *)
Theorem lease_race a b d w :
  lease_in w = None -> (forall t, env_dberr t = None) -> (forall t, IsZero (env_now t) = false) ->
  a <> "" -> b <> "" ->
  exists va vb w1 w2, acquire_read w = (Ok va, w1) /\ acquire_read w1 = (Ok vb, w2)
    /\ let '(ra, w3) := acquire_write a d va w2 in
       let '(rb, _) := acquire_write b d vb w3 in
       ra = Ok (true, MkControllerLease a (env_now w.(w_tick) + d) 1 (env_now w.(w_tick)))
       /\ rb = Ok (true, MkControllerLease b (env_now (S (S w.(w_tick))) + d) 1
                           (env_now (S (S w.(w_tick))))).
Proof.
  intros Hl He Hz Ha Hb. pose proof (acquire_read_none w Hl He) as H1.
  set (w1 := w <| w_tick := S (S (w_tick w)) |>) in *.
  pose proof (acquire_read_none w1 Hl He) as H2. do 4 eexists. split; [exact H1|]. split; [exact H2|].
  match goal with |- context [acquire_write a d ?v ?w] =>
    pose proof (acquire_write_run a d v w eq_refl (Hz _) He) as Hwa;
    destruct (acquire_write a d v w) as [ra w3] end.
  match goal with |- context [acquire_write b d ?v ?w] =>
    pose proof (acquire_write_run b d v w eq_refl (Hz _) He) as Hwb;
    destruct (acquire_write b d v w) as [rb w4] end.
  cbn [fst] in Hwa, Hwb. subst ra rb. apply String.eqb_neq in Ha, Hb.
  rewrite String.eqb_sym in Ha, Hb. unfold next_lease. cbn -[String.eqb]. rewrite Ha, Hb. done.
Qed.

End LeaseTheorems.
