(* ===== verification/Jobs.v ===== *)
(** * Jobs and cron jobs

    [UpsertJob], [UpsertCronJob] and [reconcileJobsAndCron] of
    [internal/service/features.go]. *)

From Stdlib Require Import Ascii String.
From Corelib Require Import SpecFloat.
From S2P Require Import Prelude GoLang GoFloat GoSort GoTime Effects Model Scheduler Badger World.
From S2P Require Import Store StoreFacts Events Secrets Rollout Placement Reconcile Deployments.
From S2P Require Import Services Volumes.

Definition cron_due (t : Time) (cj : CronJob) : bool :=
  IsZero cj.(CronJob_LastRunAt)
  || (seconds cj.(CronJob_ScheduleEveryS) <=? time_Sub t cj.(CronJob_LastRunAt)).

(** The job a cron job starts at [t]. *)
Definition cron_instance (t : Time) (cj : CronJob) : Job :=
  MkJob "" (cj.(CronJob_Template)
      <| JobSpec_Namespace := cj.(CronJob_Namespace) |>
      <| JobSpec_Name := cj.(CronJob_Name) +:+ "-" +:+ fmt_d (Unix t) |>
      <| JobSpec_ScheduleReason := "cron" |>)
    JobPending "" 0 0 0 0 0 0 0.

(** The deployment specification of a job. *)
Definition job_deployment (job : Job) : DeploymentSpec :=
  job.(Job_Spec).(JobSpec_Template)
    <| DeploymentSpec_Namespace := job.(Job_Spec).(JobSpec_Namespace) |>
    <| DeploymentSpec_Name := "job-" +:+ job.(Job_ID) |>
    <| DeploymentSpec_Replicas := 1 |>.

(** The first workload that decides a running job. *)
Definition deciding (workloads : list Workload) : option Workload :=
  List.find (fun w => is_running w || String.eqb w.(Workload_Status) WorkloadFailed) workloads.

Definition job_succeeded (t : Time) (job : Job) : Job :=
  job <| Job_Succeeded ::= fun n => n +! 1 |> <| Job_RunCount ::= fun n => n +! 1 |>
      <| Job_Status := JobSucceeded |> <| Job_CompletedAt := t |>.

Definition job_failed (t : Time) (job : Job) : Job :=
  let job := job <| Job_Failed ::= fun n => n +! 1 |> in
  if job.(Job_Spec).(JobSpec_BackoffLimit) <? job.(Job_Failed)
  then job <| Job_Status := JobFailed |> <| Job_CompletedAt := t |>
  else job <| Job_Status := JobPending |> <| Job_Deployment := "" |>.

Definition job_expired (t : Time) (job : Job) : bool :=
  (0 <? job.(Job_Spec).(JobSpec_TTLSeconds)) && negb (IsZero job.(Job_CompletedAt))
  && (seconds job.(Job_Spec).(JobSpec_TTLSeconds) <=? time_Sub t job.(Job_CompletedAt)).

Section Jobs.
Context {DB : Type} `{!Badger Blob DB} {E : Env}.

Abbreviation IO := (M (World DB)).

Definition UpsertJob (job : Job) : IO Job :=
  let job := job <| Job_Spec ::= set JobSpec_Namespace (or_default "default") |> in
  if blank job.(Job_Spec).(JobSpec_Name) then throw (Errorf "job name is required") else
  let job := job
    <| Job_Spec ::= set JobSpec_Completions (fun n => if n <=? 0 then 1 else n) |>
    <| Job_Spec ::= set JobSpec_BackoffLimit clamp0 |> in
  id ← (if blank job.(Job_ID) then t ← now; mret ("job-" +:+ fmt_d (UnixNano t))
        else mret job.(Job_ID));
  let job := job <| Job_ID := id |>
    <| Job_Status ::= fun s => if String.eqb s "" then JobPending else s |> in
  Store.UpsertJob job ;;
  GetJob job.(Job_ID).

Definition ListJobs (namespace : string) : IO (list Job) :=
  Store.ListJobs (or_default "default" namespace).

Definition UpsertCronJob (cj : CronJob) : IO CronJob :=
  let cj := cj <| CronJob_Namespace ::= or_default "default" |> in
  if blank cj.(CronJob_Name) then throw (Errorf "cronjob name is required") else
  if cj.(CronJob_ScheduleEveryS) <=? 0
  then throw (Errorf "cronjob scheduleEverySeconds must be > 0") else
  let cj := cj <| CronJob_HistoryLimit ::= fun n => if n <=? 0 then 5 else n |> in
  Store.UpsertCronJob cj ;;
  GetCronJob cj.(CronJob_Namespace) cj.(CronJob_Name).

Definition ListCronJobs (namespace : string) : IO (list CronJob) :=
  Store.ListCronJobs (or_default "default" namespace).

(** One round of the cron loop. *)
Definition run_cron (t : Time) (cj : CronJob) : IO unit :=
  if cj.(CronJob_Suspend) then mret tt else
  if cron_due t cj then
    r ← attempt (UpsertJob (cron_instance t cj));
    match r with
    | Ok _ => ignore (Store.UpsertCronJob (cj <| CronJob_LastRunAt := t |>))
    | Err _ => mret tt
    end
  else mret tt.

(** One round of the job loop. *)
Definition run_job (t : Time) (job : Job) : IO unit :=
  if String.eqb job.(Job_Status) JobPending then
    if blank job.(Job_Deployment) then
      r ← attempt (CreateDeployment (job_deployment job));
      match r with
      | Ok dep => ignore (Store.UpsertJob (job <| Job_Deployment := dep.(Deployment_ID) |>
                                             <| Job_Status := JobRunning |>))
      | Err _ => mret tt
      end
    else mret tt
  else if String.eqb job.(Job_Status) JobRunning then
    if blank job.(Job_Deployment) then mret tt else
    r ← attempt (ListWorkloadsByDeployment job.(Job_Deployment));
    match r with
    | Err _ => mret tt
    | Ok workloads =>
        match deciding workloads with
        | None => mret tt
        | Some w =>
            let job := if is_running w then job_succeeded t job else job_failed t job in
            ignore (Store.UpsertJob job) ;;
            ignore (DeleteDeployment job.(Job_Deployment))
        end
    end
  else if String.eqb job.(Job_Status) JobSucceeded || String.eqb job.(Job_Status) JobFailed then
    if job_expired t job then ignore (DeleteJob job.(Job_ID)) else mret tt
  else mret tt.

Definition reconcileJobsAndCron : IO unit :=
  cronJobs ← Store.ListCronJobs "default";
  namespaces ← ListNamespaces;
  cronJobs ← collect_namespaces Store.ListCronJobs namespaces cronJobs;
  t ← now;
  for_each cronJobs (run_cron t) ;;
  jobs ← Store.ListJobs "default";
  jobs ← collect_namespaces Store.ListJobs namespaces jobs;
  for_each jobs (run_job t).

End Jobs.

#[export] Hint Unfold UpsertJob ListJobs UpsertCronJob ListCronJobs run_cron run_job
  reconcileJobsAndCron : store.
