(* ===== verification/Control.v ===== *)
(** * The control loop

    [ReconcileAll], [ReconcileShard] and [RecoverCluster]: the passes that the
    controllers run ([internal/service/orchestrator.go], [features.go]). *)

From Stdlib Require Import Ascii String.
From Corelib Require Import SpecFloat.
From S2P Require Import Prelude GoLang GoFloat GoSort GoTime Effects Model Scheduler Badger World.
From S2P Require Import Store StoreFacts Events Secrets Rollout Placement Reconcile Deployments.
From S2P Require Import Services Volumes Lease Autoscaler Nodes Jobs.

Section Control.
Context {DB : Type} `{!Badger Blob DB} {E : Env}.

Abbreviation IO := (M (World DB)).

(** [if err := m; err != nil { _ = o.emitEvent(...) }] *)
Definition report (type reason deploymentID : string) (m : IO unit) : IO unit :=
  r ← attempt m;
  match r with
  | Ok _ => mret tt
  | Err err => ignore (emitEvent (event EventError type reason (Error err) deploymentID "" ""))
  end.

Definition reconcile_one (dep : Deployment) : IO unit :=
  match dep.(Deployment_DeletionTimestamp) with
  | Some _ => report "reconcile" "ReconcileDeletionFailed" dep.(Deployment_ID)
                (reconcileDeletion dep.(Deployment_ID))
  | None => report "reconcile" "ReconcileFailed" dep.(Deployment_ID)
              (reconcileDeployment dep.(Deployment_ID))
  end.

Definition ReconcileAll : IO unit :=
  l ← attempt ListDeployments;
  match l with
  | Err err =>
      ignore (emitEvent (event EventError "reconcile" "ListDeploymentsFailed" (Error err) "" "" "")) ;;
      throw err
  | Ok deps =>
      for_each deps reconcile_one ;;
      report "autoscaler" "AutoscalerReconcileFailed" "" reconcileAutoscaling ;;
      report "health" "WorkloadHealthCheckFailed" "" evaluateWorkloadHealth ;;
      report "service" "ServiceEndpointReconcileFailed" "" reconcileAllServiceEndpoints ;;
      report "storage" "PVCBindingReconcileFailed" "" reconcilePVCBindings ;;
      report "job" "JobReconcileFailed" "" reconcileJobsAndCron ;;
      updateNodeHealth
  end.

Definition reconcile_shard_one (shardIndex shardCount : Z) (dep : Deployment) : IO unit :=
  mine ← of_res (belongsToShard dep.(Deployment_ID) shardIndex shardCount);
  if mine : bool then
    match dep.(Deployment_DeletionTimestamp) with
    | Some _ => ignore (reconcileDeletion dep.(Deployment_ID))
    | None => ignore (reconcileDeployment dep.(Deployment_ID))
    end
  else mret tt.

Definition ReconcileShard (shardIndex shardCount : Z) : IO unit :=
  if shardCount <=? 1 then ReconcileAll else
  deps ← ListDeployments;
  for_each deps (reconcile_shard_one shardIndex shardCount) ;;
  (if shardIndex =? 0 then
     reconcileAutoscaling ;; evaluateWorkloadHealth ;; reconcileAllServiceEndpoints ;;
     reconcilePVCBindings ;; reconcileJobsAndCron
   else mret tt) ;;
  updateNodeHealth.

Definition RecoverCluster : IO unit :=
  reconcilePVCBindings ;; reconcileJobsAndCron ;; ReconcileAll.

End Control.

#[export] Hint Unfold report reconcile_one ReconcileAll reconcile_shard_one ReconcileShard
  RecoverCluster : store.
