(* ===== verification/Metrics.v ===== *)
(** * The metrics text

    [PrometheusMetrics] of [internal/service/orchestrator.go]: counts over a
    snapshot of the store in the text exposition format. *)

From Stdlib Require Import Ascii String.
From S2P Require Import Prelude GoLang Effects Model Badger World Store.

Definition newline : string := String (ascii_of_nat 10) "".

(** The three lines of one gauge. *)
Definition gauge (name help : string) (value : Z) : string :=
  "# HELP " +:+ name +:+ " " +:+ help +:+ newline
  +:+ "# TYPE " +:+ name +:+ " gauge" +:+ newline
  +:+ name +:+ " " +:+ fmt_d value +:+ newline.

(** [for _, x := range l { if p(x) { n++ } }] *)
Definition count_if {A} (p : A -> bool) (l : list A) : Z :=
  foldl (fun n x => if p x then n +! 1 else n) 0 l.

Definition metrics_text (state : ClusterState) (policies : list AutoscalerPolicy) : string :=
  let with_status st := count_if (fun w => String.eqb w.(Workload_Status) st)
                          state.(ClusterState_Workloads) in
  gauge "orch_nodes_total" "Total number of registered nodes" (lenZ state.(ClusterState_Nodes))
  +:+ gauge "orch_nodes_ready" "Number of nodes in Ready state"
        (count_if (fun n => String.eqb n.(Node_Status) NodeReady) state.(ClusterState_Nodes))
  +:+ gauge "orch_deployments_total" "Total number of deployments"
        (lenZ state.(ClusterState_Deployments))
  +:+ gauge "orch_workloads_running" "Number of running workloads" (with_status WorkloadRunning)
  +:+ gauge "orch_workloads_pending" "Number of pending workloads" (with_status WorkloadPending)
  +:+ gauge "orch_workloads_failed" "Number of failed workloads" (with_status WorkloadFailed)
  +:+ gauge "orch_autoscaler_policies_total" "Total number of autoscaler policies" (lenZ policies).

Section Metrics.
Context {DB : Type} `{!Badger Blob DB} {E : Env}.

Definition PrometheusMetrics : M (World DB) string :=
  state ← Snapshot;
  policies ← ListAutoscalerPolicies;
  mret (metrics_text state policies).

End Metrics.
