(* ===== verification/Validation.v ===== *)
(** * Request validation

    [internal/api/validation.go]: what the HTTP handlers check of a decoded
    request before they call the orchestrator.  A check returns nil
    ([Ok tt]) or the first error it meets.

    The second half states each check declaratively, and what a validated
    value guarantees to the orchestrator's own checks and normalisation. *)

From Stdlib Require Import Ascii String.
From Corelib Require Import SpecFloat.
From S2P Require Import Prelude GoLang GoFloat Effects Model World Rollout.

Definition invalid (m : string) : Res unit := Err (Errorf m).

(** [for _, x := range l { if bad { return err } }] *)
Fixpoint check_each {A} (l : list A) (check : A -> Res unit) : Res unit :=
  match l with
  | [] => Ok tt
  | x :: l' => match check x with Ok _ => check_each l' check | Err e => Err e end
  end.

Definition validateNode (inp : Node) : Res unit :=
  if blank inp.(Node_ID) then invalid "node id is required"
  else if (inp.(Node_Capacity).(Resource_MilliCPU) <? 0)
          || (inp.(Node_Capacity).(Resource_MemoryMB) <? 0)
  then invalid "node capacity cannot be negative"
  else if (inp.(Node_Allocatable).(Resource_MilliCPU) <? 0)
          || (inp.(Node_Allocatable).(Resource_MemoryMB) <? 0)
  then invalid "node allocatable cannot be negative"
  else Ok tt.

Definition validateToleration (t : Toleration) : Res unit :=
  if blank t.(Toleration_Key) then invalid "toleration key is required" else Ok tt.

(** The checks on the probes and on the rollout. *)
Definition validateProbes (l r : ProbeSpec) : Res unit :=
  if (l.(ProbeSpec_InitialDelaySeconds) <? 0) || (r.(ProbeSpec_InitialDelaySeconds) <? 0)
  then invalid "probe initialDelaySeconds cannot be negative"
  else if (l.(ProbeSpec_FailureThreshold) <? 0) || (r.(ProbeSpec_FailureThreshold) <? 0)
  then invalid "probe failureThreshold cannot be negative"
  else Ok tt.

Definition validateRollout (r : RolloutSpec) : Res unit :=
  if negb (String.eqb r.(RolloutSpec_Strategy) "")
     && negb (String.eqb r.(RolloutSpec_Strategy) RolloutStrategyRollingUpdate)
     && negb (String.eqb r.(RolloutSpec_Strategy) RolloutStrategyCanary)
  then invalid "rollout strategy must be RollingUpdate or Canary"
  else if (r.(RolloutSpec_RollingUpdate).(RollingUpdateSpec_MaxUnavailable) <? 0)
          || (r.(RolloutSpec_RollingUpdate).(RollingUpdateSpec_MaxSurge) <? 0)
  then invalid "rollout maxUnavailable and maxSurge cannot be negative"
  else if r.(RolloutSpec_Canary).(CanarySpec_Enabled)
          && ((r.(RolloutSpec_Canary).(CanarySpec_Percentage) <=? 0)
              || (100 <? r.(RolloutSpec_Canary).(CanarySpec_Percentage)))
  then invalid "canary percentage must be between 1 and 100"
  else if r.(RolloutSpec_ProgressDeadlineSeconds) <? 0
  then invalid "rollout progressDeadlineSeconds cannot be negative"
  else if r.(RolloutSpec_MaxFailedWorkloads) <? 0
  then invalid "rollout maxFailedWorkloads cannot be negative"
  else Ok tt.

Definition validateDeploymentSpec (inp : DeploymentSpec) : Res unit :=
  if blank inp.(DeploymentSpec_Name) then invalid "deployment name is required"
  else if blank inp.(DeploymentSpec_Image) then invalid "deployment image is required"
  else if inp.(DeploymentSpec_Replicas) <? 0 then invalid "replicas cannot be negative"
  else if inp.(DeploymentSpec_Priority) <? 0 then invalid "priority cannot be negative"
  else if (inp.(DeploymentSpec_Resources).(Resource_MilliCPU) <? 0)
          || (inp.(DeploymentSpec_Resources).(Resource_MemoryMB) <? 0)
  then invalid "resource requests cannot be negative"
  else match check_each (default [] inp.(DeploymentSpec_Tolerations)) validateToleration with
       | Err e => Err e
       | Ok _ =>
           match validateProbes inp.(DeploymentSpec_LivenessProbe)
                   inp.(DeploymentSpec_ReadinessProbe) with
           | Err e => Err e
           | Ok _ => validateRollout inp.(DeploymentSpec_Rollout)
           end
       end.

Definition validatePort (p : ServicePort) : Res unit :=
  if (p.(ServicePort_Port) <=? 0) || (65535 <? p.(ServicePort_Port))
  then invalid "service port must be between 1 and 65535"
  else if (p.(ServicePort_TargetPort) <=? 0) || (65535 <? p.(ServicePort_TargetPort))
  then invalid "service targetPort must be between 1 and 65535"
  else if negb (String.eqb p.(ServicePort_Protocol) ServiceProtocolTCP)
          && negb (String.eqb p.(ServicePort_Protocol) ServiceProtocolUDP)
  then invalid "service protocol must be TCP or UDP"
  else if negb (p.(ServicePort_NodePort) =? 0)
          && ((p.(ServicePort_NodePort) <? 30000) || (32767 <? p.(ServicePort_NodePort)))
  then invalid "service nodePort must be between 30000 and 32767"
  else Ok tt.

Definition requireNodePort (p : ServicePort) : Res unit :=
  if p.(ServicePort_NodePort) =? 0 then invalid "nodePort is required for NodePort services"
  else Ok tt.

Definition validateServiceSpec (inp : ServiceSpec) : Res unit :=
  if blank inp.(ServiceSpec_Name) then invalid "service name is required"
  else if bool_decide (inp.(ServiceSpec_Selector) = ∅) then invalid "service selector is required"
  else if lenZ inp.(ServiceSpec_Ports) =? 0 then invalid "service ports are required"
  else match check_each inp.(ServiceSpec_Ports) validatePort with
       | Err e => Err e
       | Ok _ =>
           if negb (String.eqb inp.(ServiceSpec_Type) "")
              && negb (String.eqb inp.(ServiceSpec_Type) ServiceTypeClusterIP)
              && negb (String.eqb inp.(ServiceSpec_Type) ServiceTypeNodePort)
           then invalid "service type must be ClusterIP or NodePort"
           else if String.eqb inp.(ServiceSpec_Type) ServiceTypeNodePort
           then check_each inp.(ServiceSpec_Ports) requireNodePort
           else Ok tt
       end.

Definition validateAutoscalerPolicy (inp : AutoscalerPolicy) : Res unit :=
  if blank inp.(AutoscalerPolicy_DeploymentID) then invalid "deploymentId is required"
  else if inp.(AutoscalerPolicy_MinReplicas) <? 1 then invalid "minReplicas must be >= 1"
  else if inp.(AutoscalerPolicy_MaxReplicas) <? inp.(AutoscalerPolicy_MinReplicas)
  then invalid "maxReplicas must be >= minReplicas"
  else if f_ltb inp.(AutoscalerPolicy_TargetCPUUtilization) f_zero
          || f_ltb inp.(AutoscalerPolicy_TargetMemoryUtilization) f_zero
          || f_ltb inp.(AutoscalerPolicy_TargetCustomMetricValue) f_zero
  then invalid "target utilization values cannot be negative"
  else if negb (String.eqb inp.(AutoscalerPolicy_CustomMetricName) "")
          && f_leb inp.(AutoscalerPolicy_TargetCustomMetricValue) f_zero
  then invalid "targetCustomMetricValue must be > 0 when customMetricName is set"
  else if (inp.(AutoscalerPolicy_StabilizationWindowSec) <? 0)
          || (inp.(AutoscalerPolicy_ScaleUpCooldownSec) <? 0)
          || (inp.(AutoscalerPolicy_ScaleDownCooldownSec) <? 0)
  then invalid "stabilization and cooldown values cannot be negative"
  else if inp.(AutoscalerPolicy_PredictiveLookbackSamples) <? 0
  then invalid "predictiveLookbackSamples cannot be negative"
  else if f_ltb inp.(AutoscalerPolicy_PredictiveScaleFactor) f_zero
  then invalid "predictiveScaleFactor cannot be negative"
  else if inp.(AutoscalerPolicy_PredictiveScalingEnabled)
          && (inp.(AutoscalerPolicy_PredictiveLookbackSamples) =? 1)
  then invalid "predictiveLookbackSamples must be >= 2 when predictiveScalingEnabled is true"
  else Ok tt.

Definition validateCustomMetric (kv : string * float64) : Res unit :=
  if blank kv.1 then invalid "custom metric name cannot be empty"
  else if f_ltb kv.2 f_zero then invalid "custom metric value cannot be negative"
  else Ok tt.

(** The custom metrics are visited in an order Go leaves open; it only chooses
    which of several errors is reported. *)
Definition validateDeploymentMetricSample (inp : DeploymentMetricSample) : Res unit :=
  if blank inp.(DeploymentMetricSample_DeploymentID) then invalid "deploymentId is required"
  else if f_ltb inp.(DeploymentMetricSample_CPUUsage) f_zero
          || f_ltb inp.(DeploymentMetricSample_MemoryUsage) f_zero
  then invalid "cpuUsage and memoryUsage cannot be negative"
  else check_each (map_to_list (default ∅ inp.(DeploymentMetricSample_Custom))) validateCustomMetric.

(** ** What the checks mean *)

Definition tolerable (r : Resource) : Prop :=
  0 <= r.(Resource_MilliCPU) /\ 0 <= r.(Resource_MemoryMB).

Definition probe_wf (p : ProbeSpec) : Prop :=
  0 <= p.(ProbeSpec_InitialDelaySeconds) /\ 0 <= p.(ProbeSpec_FailureThreshold).

Definition rollout_wf (r : RolloutSpec) : Prop :=
  r.(RolloutSpec_Strategy) ∈ [""; RolloutStrategyRollingUpdate; RolloutStrategyCanary]
  /\ 0 <= r.(RolloutSpec_RollingUpdate).(RollingUpdateSpec_MaxUnavailable)
  /\ 0 <= r.(RolloutSpec_RollingUpdate).(RollingUpdateSpec_MaxSurge)
  /\ (r.(RolloutSpec_Canary).(CanarySpec_Enabled) = true ->
      1 <= r.(RolloutSpec_Canary).(CanarySpec_Percentage) <= 100)
  /\ 0 <= r.(RolloutSpec_ProgressDeadlineSeconds)
  /\ 0 <= r.(RolloutSpec_MaxFailedWorkloads).

Definition deployment_spec_wf (s : DeploymentSpec) : Prop :=
  blank s.(DeploymentSpec_Name) = false
  /\ blank s.(DeploymentSpec_Image) = false
  /\ 0 <= s.(DeploymentSpec_Replicas)
  /\ 0 <= s.(DeploymentSpec_Priority)
  /\ tolerable s.(DeploymentSpec_Resources)
  /\ Forall (fun t => blank t.(Toleration_Key) = false) (default [] s.(DeploymentSpec_Tolerations))
  /\ probe_wf s.(DeploymentSpec_LivenessProbe)
  /\ probe_wf s.(DeploymentSpec_ReadinessProbe)
  /\ rollout_wf s.(DeploymentSpec_Rollout).

Definition port_wf (p : ServicePort) : Prop :=
  1 <= p.(ServicePort_Port) <= 65535
  /\ 1 <= p.(ServicePort_TargetPort) <= 65535
  /\ p.(ServicePort_Protocol) ∈ [ServiceProtocolTCP; ServiceProtocolUDP]
  /\ (p.(ServicePort_NodePort) = 0 \/ 30000 <= p.(ServicePort_NodePort) <= 32767).

Definition service_spec_wf (s : ServiceSpec) : Prop :=
  blank s.(ServiceSpec_Name) = false
  /\ s.(ServiceSpec_Selector) <> ∅
  /\ s.(ServiceSpec_Ports) <> []
  /\ Forall port_wf s.(ServiceSpec_Ports)
  /\ s.(ServiceSpec_Type) ∈ [""; ServiceTypeClusterIP; ServiceTypeNodePort]
  /\ (s.(ServiceSpec_Type) = ServiceTypeNodePort ->
      Forall (fun p => p.(ServicePort_NodePort) <> 0) s.(ServiceSpec_Ports)).

(** The rollout settings a validated spec may leave to the defaults. *)
Definition rollout_explicit (r : RolloutSpec) : Prop :=
  r.(RolloutSpec_Strategy) <> ""
  /\ (r.(RolloutSpec_Strategy) = RolloutStrategyCanary ->
      r.(RolloutSpec_Canary).(CanarySpec_Enabled) = true)
  /\ f_ltb r.(RolloutSpec_SLOErrorRateThreshold) f_zero = false
  /\ 0 <= r.(RolloutSpec_SLOWindowSeconds).

(** ** Lemmas *)

(** A check is an [if] that returns an error: its success is the negation of
    the condition and the success of the rest. *)
Lemma guard_ok (b : bool) m r P Q :
  (b = false <-> P) -> (r = Ok tt <-> Q) -> (if b then invalid m else r) = Ok tt <-> P /\ Q.
Proof. intros HP HQ. destruct b; [split; [done|intros [H _]; by apply HP in H]|tauto]. Qed.

Lemma both_ok (a b : Res unit) (P Q : Prop) :
  (a = Ok tt <-> P) -> (b = Ok tt <-> Q) ->
  (match a with Err e => Err e | Ok _ => b end) = Ok tt <-> P /\ Q.
Proof. intros HP HQ. destruct a as [[]|e]; [tauto|]. split; [done|]. intros [H _]. by apply HP in H. Qed.

Lemma check_each_ok {A} (l : list A) check P :
  (forall x, check x = Ok tt <-> P x) -> check_each l check = Ok tt <-> Forall P l.
Proof.
  intros H. induction l as [|x l IH]; simpl; [split; [constructor|done]|].
  rewrite Forall_cons, <- IH, <- H. destruct (check x) as [[]|e]; [tauto|]. split; [done|]. by intros [? _].
Qed.

Lemma eqb_neq_iff (a b : string) : String.eqb a b = false <-> a <> b.
Proof. apply String.eqb_neq. Qed.

Lemma not_in2 (s a b : string) :
  negb (String.eqb s a) && negb (String.eqb s b) = false <-> s ∈ [a; b].
Proof.
  rewrite andb_false_iff, !negb_false_iff, !String.eqb_eq, !elem_of_cons, elem_of_nil. tauto.
Qed.

Lemma not_in3 (s a b c : string) :
  negb (String.eqb s a) && negb (String.eqb s b) && negb (String.eqb s c) = false <-> s ∈ [a; b; c].
Proof.
  rewrite !andb_false_iff, !negb_false_iff, !String.eqb_eq, !elem_of_cons, elem_of_nil. tauto.
Qed.

(** Decide an arithmetic condition. *)
Ltac bool_lia :=
  rewrite ?orb_false_iff, ?andb_false_iff, ?negb_false_iff, ?Z.ltb_ge, ?Z.leb_gt, ?Z.eqb_eq, ?Z.eqb_neq;
  lia.

Ltac check_lia := apply guard_ok; [bool_lia|].

Lemma nil_ok : Ok tt = Ok tt <-> True.
Proof. tauto. Qed.

Lemma validateToleration_ok t :
  validateToleration t = Ok tt <-> blank t.(Toleration_Key) = false.
Proof.
  unfold validateToleration. destruct (blank _); split; done.
Qed.

Lemma validateProbes_ok l r : validateProbes l r = Ok tt <-> probe_wf l /\ probe_wf r.
Proof.
  unfold validateProbes, probe_wf. etrans; [apply guard_ok; [reflexivity|]; apply guard_ok; [reflexivity|];
    apply nil_ok|]. rewrite !orb_false_iff, !Z.ltb_ge. tauto.
Qed.

Lemma validateRollout_ok r : validateRollout r = Ok tt <-> rollout_wf r.
Proof.
  unfold validateRollout, rollout_wf.
  etrans; [repeat (apply guard_ok; [reflexivity|]); apply nil_ok|].
  rewrite not_in3, !orb_false_iff, !Z.ltb_ge.
  destruct (CanarySpec_Enabled _); simpl; rewrite ?orb_false_iff, ?Z.leb_gt, ?Z.ltb_ge;
    intuition (try lia; try done).
Qed.

Lemma validatePort_ok p : validatePort p = Ok tt <-> port_wf p.
Proof.
  unfold validatePort, port_wf.
  etrans; [repeat (apply guard_ok; [reflexivity|]); apply nil_ok|].
  rewrite not_in2, !orb_false_iff, !Z.leb_gt, !Z.ltb_ge, andb_false_iff, negb_false_iff, Z.eqb_eq,
    orb_false_iff, !Z.ltb_ge. intuition lia.
Qed.

Lemma requireNodePort_ok p : requireNodePort p = Ok tt <-> p.(ServicePort_NodePort) <> 0.
Proof. unfold requireNodePort. destruct (Z.eqb_spec (ServicePort_NodePort p) 0); split; done. Qed.

Lemma validateDeploymentSpec_ok s : validateDeploymentSpec s = Ok tt <-> deployment_spec_wf s.
Proof.
  unfold validateDeploymentSpec, deployment_spec_wf, tolerable.
  etrans; [repeat (apply guard_ok; [reflexivity|]); apply both_ok;
    [apply check_each_ok, validateToleration_ok|apply both_ok; [apply validateProbes_ok|apply validateRollout_ok]]|].
  rewrite !orb_false_iff, !Z.ltb_ge. tauto.
Qed.

Lemma validateServiceSpec_ok s : validateServiceSpec s = Ok tt <-> service_spec_wf s.
Proof.
  unfold validateServiceSpec, service_spec_wf.
  etrans; [repeat (apply guard_ok; [reflexivity|]); apply both_ok;
    [apply check_each_ok, validatePort_ok|apply guard_ok; [reflexivity|reflexivity]]|].
  rewrite not_in3, bool_decide_eq_false, Z.eqb_neq.
  assert (Hlen : lenZ (ServiceSpec_Ports s) <> 0 <-> ServiceSpec_Ports s <> []).
  { unfold lenZ. destruct (ServiceSpec_Ports s); simpl; split; intros; done || lia. }
  rewrite Hlen. destruct (String.eqb_spec (ServiceSpec_Type s) ServiceTypeNodePort) as [->|Hne].
  - rewrite (check_each_ok _ _ _ requireNodePort_ok). tauto.
  - tauto.
Qed.

Lemma normalize_explicit r : rollout_wf r -> rollout_explicit r -> normalizeRolloutSpec r = r.
Proof.
  destruct r as [strategy [mu ms] [en pct] dl auto mf slo win].
  intros (_ & Hmu & Hms & Hpct & Hdl & Hmf) (Hs & Hc & Hslo & Hwin). simpl in *.
  apply String.eqb_neq in Hs. rewrite normalizeRolloutSpec_fields. cbv zeta. rewrite Hs.
  unfold clamp_slo. rewrite !clamp0_id, Hslo by done.
  destruct (String.eqb_spec strategy RolloutStrategyCanary) as [->|Hne]; [|done].
  rewrite (Hc eq_refl) in *. specialize (Hpct eq_refl). unfold clamp_pct. cbv zeta.
  destruct (Z.leb_spec pct 0); [lia|]. destruct (Z.ltb_spec 100 pct); [lia|]. done.
Qed.

(** C31: request validation is a type check.  [validateDeploymentSpec] accepts
    exactly the specs with a name, an image, non-negative replicas, priority
    and resources, keyed tolerations, well-formed probes and a well-formed
    rollout; [validateServiceSpec] exactly the services with a name, a
    selector, at least one port, every port in range with a known protocol,
    and node ports where the type needs them.  An accepted rollout that spells
    its settings out is stored as it was sent: normalisation leaves it
    alone. *)
Theorem validation_typed (d : DeploymentSpec) (s : ServiceSpec) :
  (validateDeploymentSpec d = Ok tt <-> deployment_spec_wf d)
  /\ (validateServiceSpec s = Ok tt <-> service_spec_wf s)
  /\ (validateDeploymentSpec d = Ok tt -> rollout_explicit d.(DeploymentSpec_Rollout) ->
      normalizeRolloutSpec d.(DeploymentSpec_Rollout) = d.(DeploymentSpec_Rollout)).
Proof.
  split; [apply validateDeploymentSpec_ok|]. split; [apply validateServiceSpec_ok|].
  intros H. apply normalize_explicit. apply validateDeploymentSpec_ok in H. apply H.
Qed.
