(* ===== verification/Auth.v ===== *)
(** * Authentication

    [internal/auth/auth.go]: the verifier of bearer tokens, with its four
    modes.  The JWT package is a parameter [JWT]: it splits a token into a
    header and claims, and checks a token under a key.  The key set of an OIDC
    provider is fetched over the network ([env_jwks]) and cached in the
    verifier, which therefore is part of the state: an operation runs in the
    state [Verifier * World DB], the world giving the clock. *)

From Stdlib Require Import Ascii String.
From Corelib Require Import SpecFloat.
From S2P Require Import Prelude GoLang GoText Effects Model Badger World Base64.

Definition ModeStatic : string := "static".
Definition ModeJWT : string := "jwt".
Definition ModeHybrid : string := "hybrid".
Definition ModeOIDC : string := "oidc".

Record Principal : Type := MkPrincipal {
  Principal_Subject : string;
  Principal_Roles : list string;
  Principal_Source : string
}.

#[export] Instance eta_Principal : Eta Principal := fun r =>
  MkPrincipal r.(Principal_Subject) r.(Principal_Roles) r.(Principal_Source).

(** [rsa.PublicKey] *)
Record PublicKey : Type := MkPublicKey { PublicKey_N : Z; PublicKey_E : Z }.

#[export] Instance PublicKey_eq_dec : EqDecision PublicKey.
Proof. solve_decision. Defined.

Record Verifier : Type := MkVerifier {
  v_mode : string;
  v_staticTok : string;
  v_jwtSecret : string;
  v_issuer : string;
  v_audience : string;
  v_jwksURL : string;
  v_resolvedJWKKeys : gmap string PublicKey;
  v_lastJWKSRefresh : Time;
  v_jwksRefreshAfter : Duration
}.

#[export] Instance eta_Verifier : Eta Verifier := fun r =>
  MkVerifier r.(v_mode) r.(v_staticTok) r.(v_jwtSecret) r.(v_issuer) r.(v_audience)
    r.(v_jwksURL) r.(v_resolvedJWKKeys) r.(v_lastJWKSRefresh) r.(v_jwksRefreshAfter).

Definition NewVerifier (mode staticTok jwtSecret issuer audience jwksURL : string) : Verifier :=
  let m := ToLower (TrimSpace mode) in
  let m := if String.eqb m "" then ModeStatic else m in
  MkVerifier m (TrimSpace staticTok) (TrimSpace jwtSecret) (TrimSpace issuer) (TrimSpace audience)
    (TrimSpace jwksURL) ∅ 0 (5 * 60 * Second).

(** ** Tokens *)

(** A claim: a string, a JSON array, or another JSON value.  [ClaimStrings] is
    a Go slice of strings, which the code also accepts. *)
Inductive Claim : Type :=
| ClaimString (s : string)
| ClaimList (items : list Claim)
| ClaimStrings (items : list string)
| ClaimOther.

Abbreviation Claims := (gmap string Claim) (only parsing).

(** [got, _ := v.(string)] *)
Definition as_string (c : option Claim) : string :=
  match c with Some (ClaimString s) => s | _ => "" end.

Record JWTHeader : Type := MkJWTHeader { jwt_Alg : string; jwt_kid : option Claim }.

(** A key as the key function returns it: a secret or an RSA key. *)
Inductive Key : Type :=
| SecretKey (secret : string)
| RSAKey (k : PublicKey).

(** The JWT package: [jwt_header] reads a token before its signature is
    checked ([None] when it is malformed or names an unknown signing method);
    [jwt_check] checks the signature with the key and the time claims at a
    time, and returns the claims of a valid token. *)
Class JWT := {
  jwt_header : string -> option JWTHeader;
  jwt_check : string -> Key -> Time -> option Claims
}.

(** One key of a JWKS document, and the answer of a JWKS endpoint. *)
Record JWK : Type := MkJWK { jwk_Kty : string; jwk_Kid : string; jwk_N : string; jwk_E : string }.

Record JWKSResponse : Type := MkJWKSResponse {
  jwks_StatusCode : Z;
  jwks_payload : Res (list JWK)
}.

Class AuthEnv := { env_jwks : nat -> string -> Res JWKSResponse }.

(** ** Pure parts *)

Definition exponent (bytes : list ascii) : Z :=
  foldl (fun e b => e *! 256 +! Z.of_N (byte_of b)) 0 bytes.

Definition modulus (bytes : list ascii) : Z :=
  foldl (fun n b => n * 256 + Z.of_N (byte_of b)) 0 bytes.

Definition jwkRSAToPublicKey (nRaw eRaw : string) : Res PublicKey :=
  match RawURLDecodeString (TrimSpace nRaw) with
  | None => Err (Errorf "illegal base64 data")
  | Some nBytes =>
      match RawURLDecodeString (TrimSpace eRaw) with
      | None => Err (Errorf "illegal base64 data")
      | Some eBytes =>
          let e := exponent (list_ascii_of_string eBytes) in
          if e <=? 0 then Err (Errorf "invalid rsa exponent")
          else Ok (MkPublicKey (modulus (list_ascii_of_string nBytes)) e)
      end
  end.

(** One key of the document added to the map. *)
Definition add_jwk (keys : gmap string PublicKey) (k : JWK) : gmap string PublicKey :=
  if negb (String.eqb (ToUpper (TrimSpace k.(jwk_Kty))) "RSA") || blank k.(jwk_Kid) then keys
  else match jwkRSAToPublicKey k.(jwk_N) k.(jwk_E) with
       | Err _ => keys
       | Ok pub => <[k.(jwk_Kid) := pub]> keys
       end.

Definition usable_keys (payload : list JWK) : gmap string PublicKey := foldl add_jwk ∅ payload.

Definition claimHasAudience (raw : option Claim) (expected : string) : bool :=
  let expected := TrimSpace expected in
  if String.eqb expected "" then true
  else match raw with
       | Some (ClaimString v) => String.eqb (TrimSpace v) expected
       | Some (ClaimList items) =>
           existsb (fun item => match item with
             | ClaimString s => String.eqb (TrimSpace s) expected
             | _ => false
             end) items
       | _ => false
       end.

(** [if strings.TrimSpace(s) != "" { roles = append(roles, strings.TrimSpace(s)) }] *)
Definition role_of (s : string) : list string := if blank s then [] else [TrimSpace s].

Definition extractRoles (claims : Claims) : list string :=
  match claims !! "roles" with
  | Some (ClaimList items) =>
      mjoin ((fun item => match item with ClaimString s => role_of s | _ => [] end) <$> items)
  | Some (ClaimStrings items) => mjoin (role_of <$> items)
  | Some (ClaimString s) => role_of s
  | _ => []
  end.

(** The principal of valid claims; a token without roles is a viewer's. *)
Definition principal_of (claims : Claims) (source : string) : Principal :=
  let roles := extractRoles claims in
  MkPrincipal (as_string (claims !! "sub")) (if lenZ roles =? 0 then ["viewer"] else roles) source.

Definition wrong_issuer (v : Verifier) (claims : Claims) : bool :=
  negb (String.eqb v.(v_issuer) "")
  && negb (String.eqb (as_string (claims !! "iss")) v.(v_issuer)).

Definition verifyStatic (v : Verifier) (token : string) : Res Principal :=
  if String.eqb v.(v_staticTok) "" || negb (String.eqb token v.(v_staticTok))
  then Err (Errorf "invalid static token")
  else Ok (MkPrincipal "static-token" ["admin"] "static").

(** The key in the cache, while it is fresh. *)
Definition cached_key (v : Verifier) (t : Time) (kid : string) : option PublicKey :=
  key ← v.(v_resolvedJWKKeys) !! kid;
  if time_Sub t v.(v_lastJWKSRefresh) <? v.(v_jwksRefreshAfter) then Some key else None.

(** ** Operations *)

Section Auth.
Context {DB : Type} `{!Badger Blob DB} {E : Env} {J : JWT} {AE : AuthEnv}.

Abbreviation AuthIO := (M (Verifier * World DB)).

Definition with_world {A} (m : M (World DB) A) : AuthIO A := fun s =>
  let '(r, w) := m s.2 in (r, (s.1, w)).

Definition the_verifier : AuthIO Verifier := fun s => (Ok s.1, s).
Definition update_verifier (f : Verifier -> Verifier) : AuthIO unit := fun s => (Ok tt, (f s.1, s.2)).

Definition refreshJWKSLocked : AuthIO unit :=
  v ← the_verifier;
  resp ← with_world (ask (fun n => env_jwks n v.(v_jwksURL)));
  resp ← of_res resp;
  if (resp.(jwks_StatusCode) <? 200) || (300 <=? resp.(jwks_StatusCode))
  then throw (Errorf ("jwks endpoint returned status " +:+ fmt_d resp.(jwks_StatusCode))) else
  payload ← of_res resp.(jwks_payload);
  let keys := usable_keys payload in
  update_verifier (set v_resolvedJWKKeys (fun _ => keys)) ;;
  t ← with_world now;
  update_verifier (set v_lastJWKSRefresh (fun _ => t)) ;;
  if bool_decide (keys = ∅) then throw (Errorf "no usable rsa keys found in jwks") else mret tt.

(** The cache is looked at under the read lock and again under the write
    lock. *)
Definition resolveJWKKeyByKID (kid : string) : AuthIO PublicKey :=
  t ← with_world now;
  v ← the_verifier;
  match cached_key v t kid with
  | Some key => mret key
  | None =>
      v ← the_verifier;
      match cached_key v t kid with
      | Some key => mret key
      | None =>
          refreshJWKSLocked ;;
          v ← the_verifier;
          match v.(v_resolvedJWKKeys) !! kid with
          | Some key => mret key
          | None => throw (Errorf ("kid not found in jwks: " +:+ kid))
          end
      end
  end.

(** [jwt.ParseWithClaims]: the key function sees the unverified header, the
    token is checked with the key it returns. *)
Definition ParseWithClaims (token : string) (keyFunc : JWTHeader -> AuthIO Key) : AuthIO Claims :=
  match jwt_header token with
  | None => throw (Errorf "token is malformed")
  | Some h =>
      key ← keyFunc h;
      t ← with_world now;
      match jwt_check token key t with
      | Some claims => mret claims
      | None => throw (Errorf "token is invalid")
      end
  end.

Definition jwt_keyFunc (v : Verifier) (h : JWTHeader) : AuthIO Key :=
  if negb (String.eqb h.(jwt_Alg) "HS256")
  then throw (Errorf ("unexpected signing method: " +:+ h.(jwt_Alg)))
  else mret (SecretKey v.(v_jwtSecret)).

Definition oidc_keyFunc (h : JWTHeader) : AuthIO Key :=
  if negb (String.eqb h.(jwt_Alg) "RS256")
  then throw (Errorf ("unexpected signing method: " +:+ h.(jwt_Alg)))
  else
    let kid := as_string h.(jwt_kid) in
    if blank kid then throw (Errorf "missing kid in jwt header")
    else key ← resolveJWKKeyByKID kid; mret (RSAKey key).

Definition verifyJWT (token : string) : AuthIO Principal :=
  v ← the_verifier;
  if String.eqb v.(v_jwtSecret) "" then throw (Errorf "jwt secret not configured") else
  parsed ← attempt (ParseWithClaims token (jwt_keyFunc v));
  match parsed with
  | Err _ => throw (Errorf "invalid jwt token")
  | Ok claims =>
      if wrong_issuer v claims then throw (Errorf "invalid issuer")
      else if negb (String.eqb v.(v_audience) "")
              && negb (String.eqb (as_string (claims !! "aud")) v.(v_audience))
      then throw (Errorf "invalid audience")
      else mret (principal_of claims "jwt")
  end.

Definition verifyOIDC (token : string) : AuthIO Principal :=
  v ← the_verifier;
  if String.eqb v.(v_jwksURL) "" then throw (Errorf "jwks url not configured") else
  parsed ← attempt (ParseWithClaims token oidc_keyFunc);
  match parsed with
  | Err _ => throw (Errorf "invalid oidc jwt token")
  | Ok claims =>
      if wrong_issuer v claims then throw (Errorf "invalid issuer")
      else if negb (String.eqb v.(v_audience) "")
              && negb (claimHasAudience (claims !! "aud") v.(v_audience))
      then throw (Errorf "invalid audience")
      else mret (principal_of claims "oidc")
  end.

Definition VerifyBearer (authz : string) : AuthIO Principal :=
  let authz := TrimSpace authz in
  if negb (HasPrefix authz "Bearer ") then throw (Errorf "missing bearer token") else
  let token := TrimSpace (TrimPrefix authz "Bearer ") in
  if String.eqb token "" then throw (Errorf "empty bearer token") else
  v ← the_verifier;
  if String.eqb v.(v_mode) ModeStatic then of_res (verifyStatic v token)
  else if String.eqb v.(v_mode) ModeJWT then verifyJWT token
  else if String.eqb v.(v_mode) ModeOIDC then verifyOIDC token
  else if String.eqb v.(v_mode) ModeHybrid then
    match verifyStatic v token with
    | Ok p => mret p
    | Err _ =>
        p ← attempt (verifyJWT token);
        match p with
        | Ok p => mret p
        | Err _ => verifyOIDC token
        end
    end
  else throw (Errorf ("unsupported auth mode: " +:+ v.(v_mode))).

End Auth.
