(* ===== verification/Http.v ===== *)
(** * The HTTP server: requests, state, middleware

    [internal/api/httpserver.go] and [internal/api/errors.go]: the state of the
    server, what a handler may do with a response, the middleware chain of
    [Handler], authorization, the circuit breakers and the request multiplexer
    of [net/http] with the server's routing table.  The handlers themselves
    are in Handlers.

    A handler runs in [M (HTTPServer DB)]: it may change the orchestrator
    ([s_orch]), the verifier's key cache, the breakers, the event streams, the
    audit log and the response being written ([s_w]).  An error of the monad
    is a panic of the handler; an error value of a call is an ordinary result
    ([call]).

    A request's path is one that needs no percent-encoding, so that
    [URL.EscapedPath] and [URL.Path] agree. *)

From Stdlib Require Import Ascii String.
From Corelib Require Import SpecFloat.
From S2P Require Import Prelude GoLang GoText GoFloat Effects Model Badger Balancer World Store.
From S2P Require Import RBAC Auth.

(** ** Requests *)

Record Request : Type := MkRequest {
  r_Method : string;
  r_Path : string;
  r_RawQuery : string;
  r_Header : gmap string (list string);
  r_Body : string;
  (** the value of [principalContextKey] in the request's context *)
  r_principal : option Principal
}.

#[export] Instance eta_Request : Eta Request := fun r =>
  MkRequest r.(r_Method) r.(r_Path) r.(r_RawQuery) r.(r_Header) r.(r_Body) r.(r_principal).

(** [r.URL.Query().Get(key)] *)
Definition query (r : Request) (key : string) : string := query_Get (ParseQuery r.(r_RawQuery)) key.

(** ** Responses *)

Record APIError : Type := MkAPIError {
  APIError_Code : string;
  APIError_Message : string;
  APIError_Details : string
}.

(** The values the handlers encode.  A document stands for its JSON text. *)
Inductive Json : Type :=
| JBool (b : bool)
| JNumber (n : Z)
| JString (s : string)
| JDoc (d : Blob)
| JDocs (l : list Blob)
| JTrends (l : list NodeHealthTrend)
| JCluster (c : ClusterState)
| JObject (fields : list (string * Json)).

(** What is written to a response's body: text, or the output of
    [json.Encoder] (nothing, if the value cannot be encoded). *)
Inductive Chunk : Type :=
| CText (s : string)
| CJson (v : Json)
| CError (e : APIError)
(** the HTML note of a redirect to a GET request *)
| CRedirect (url : string)
(** the data line of an event in a stream *)
| CEvent (e : Event).

(** [http.ResponseWriter]: the headers, the final status once it is written,
    the body, whether it is an [http.Flusher], and the status that a
    [statusRecorder] around it remembers. *)
Record ResponseWriter : Type := MkResponseWriter {
  rw_header : gmap string (list string);
  rw_status : option Z;
  rw_body : list Chunk;
  rw_flusher : bool;
  rw_recorded : Z
}.

#[export] Instance eta_ResponseWriter : Eta ResponseWriter := fun r =>
  MkResponseWriter r.(rw_header) r.(rw_status) r.(rw_body) r.(rw_flusher) r.(rw_recorded).

(** The writer [net/http] hands to the outermost handler. *)
Definition new_writer : ResponseWriter := MkResponseWriter ∅ None [] true 200.

(** Responses with these statuses have no body: a [Write] fails. *)
Definition bodyAllowedForStatus (status : Z) : bool :=
  negb ((100 <=? status) && (status <=? 199) || (status =? 204) || (status =? 304)).

(** A [Write] before the status is written means status 200. *)
Definition Write (c : Chunk) (w : ResponseWriter) : ResponseWriter :=
  let status := default 200 w.(rw_status) in
  w <| rw_status := Some status |>
    <| rw_body ::= fun b => if bodyAllowedForStatus status then b ++ [c] else b |>.

(** The status codes [net/http] takes, and those among them that announce a
    later response. *)
Definition valid_code (code : Z) : bool := (100 <=? code) && (code <=? 999).
Definition informational (code : Z) : bool := (code <=? 199) && negb (code =? 101).

(** ** The server *)

Record breakerState : Type := MkbreakerState {
  breakerState_Failures : Z;
  breakerState_OpenUntil : Time;
  breakerState_LastReason : string
}.

#[export] Instance eta_breakerState : Eta breakerState := fun r =>
  MkbreakerState r.(breakerState_Failures) r.(breakerState_OpenUntil) r.(breakerState_LastReason).

(** The zero value, read for a service without an entry. *)
Definition zero_breaker : breakerState := MkbreakerState 0 0 "".

(** The audit lines of the log, without addresses and latencies. *)
Inductive AuditEntry : Type :=
| AuthFailed (method path reason : string)
| AuthorizationDenied (method path actor : string) (roles : list string)
| SensitiveRequest (method path : string) (status : Z) (actor roles : string).

Record HTTPServer (DB : Type) : Type := MkHTTPServer {
  s_orch : World DB;
  s_verifier : Verifier;
  s_breakers : gmap string breakerState;
  (** the responses of the open event streams, by subscription *)
  s_streams : gmap nat ResponseWriter;
  s_log : list AuditEntry;
  (** the response of the request being served *)
  s_w : ResponseWriter
}.

Arguments MkHTTPServer {DB}.
Arguments s_orch {DB}.
Arguments s_verifier {DB}.
Arguments s_breakers {DB}.
Arguments s_streams {DB}.
Arguments s_log {DB}.
Arguments s_w {DB}.

#[export] Instance eta_HTTPServer {DB} : Eta (HTTPServer DB) := fun r =>
  MkHTTPServer r.(s_orch) r.(s_verifier) r.(s_breakers) r.(s_streams) r.(s_log) r.(s_w).

Definition NewHTTPServer {DB} (orch : World DB) (verifier : Verifier) : HTTPServer DB :=
  MkHTTPServer orch verifier ∅ ∅ [] new_writer.

(** The answer of an upstream server, and the outside of the HTTP server:
    the depth of the call stack, the upstream of a proxied service (asked with
    a URL and a timeout), [http.NewRequest]'s verdict on a URL, and the JSON
    decoder at each request type, which the theorems leave arbitrary. *)
Record Upstream : Type := MkUpstream {
  up_StatusCode : Z;
  up_Header : gmap string (list string);
  up_Body : string
}.

Class HttpEnv := {
  env_stack : nat;
  env_upstream : nat -> string -> Duration -> Res Upstream;
  env_request_error : string -> option string;
  decode_Node : string -> Res Node;
  decode_Used : string -> Res Resource;
  decode_DeploymentSpec : string -> Res DeploymentSpec;
  (** the revision field after a decoding whose error is ignored *)
  decode_Revision : string -> Z;
  decode_AutoscalerPolicy : string -> Res AutoscalerPolicy;
  decode_DeploymentMetricSample : string -> Res DeploymentMetricSample;
  decode_StatusReport : string -> Res (string * string);
  decode_ServiceSpec : string -> Res ServiceSpec;
  decode_Namespace : string -> Res Namespace;
  decode_NamespaceQuota : string -> Res NamespaceQuota;
  decode_Secret : string -> Res Secret;
  decode_PersistentVolume : string -> Res PersistentVolume;
  decode_PersistentVolumeClaim : string -> Res PersistentVolumeClaim;
  decode_NetworkPolicy : string -> Res NetworkPolicy;
  decode_Job : string -> Res Job;
  decode_CronJob : string -> Res CronJob;
  decode_RoleBinding : string -> Res RoleBinding
}.

(** ** Authorization *)

Definition MethodGet : string := "GET".
Definition MethodPost : string := "POST".
Definition MethodPut : string := "PUT".
Definition MethodPatch : string := "PATCH".
Definition MethodDelete : string := "DELETE".

(** [x == a || x == b || ...] *)
Definition one_of (x : string) (l : list string) : bool := existsb (String.eqb x) l.

Definition viewers : list string := ["viewer"; "operator"; "admin"].
Definition operators : list string := ["operator"; "admin"].
Definition admins : list string := ["admin"].

Definition requiredRoles (method path : string) : list string :=
  let get := String.eqb method MethodGet in
  let post := String.eqb method MethodPost in
  let put := String.eqb method MethodPut in
  let delete := String.eqb method MethodDelete in
  if get && (one_of path ["/v1/cluster"; "/v1/deployments"] || HasPrefix path "/v1/workers/"
             || HasPrefix path "/v1/services" || HasPrefix path "/v1/dns/"
             || HasPrefix path "/v1/network/services/")
  then viewers
  else if get && one_of path ["/v1/namespaces"; "/v1/quotas"; "/v1/secrets"] then viewers
  else if get && one_of path ["/v1/persistent-volumes"; "/v1/persistent-volume-claims";
                              "/v1/network-policies"; "/v1/jobs"; "/v1/cronjobs";
                              "/v1/rbac/rolebindings"]
  then viewers
  else if post && one_of path ["/v1/namespaces"; "/v1/quotas"; "/v1/secrets"] then operators
  else if post && one_of path ["/v1/persistent-volumes"; "/v1/persistent-volume-claims";
                               "/v1/network-policies"; "/v1/jobs"; "/v1/cronjobs";
                               "/v1/rbac/rolebindings"]
  then operators
  else if post && String.eqb path "/v1/recovery/run" then admins
  else if get && one_of path ["/v1/metrics/prometheus"; "/v1/health/nodes/trends"] then viewers
  else if post && HasSuffix path "/drain" then operators
  else if post && HasSuffix path "/remove" then admins
  else if post && String.eqb path "/v1/services" then operators
  else if get && String.eqb path "/v1/autoscalers" then viewers
  else if post && one_of path ["/v1/autoscalers"; "/v1/metrics/deployments"] then operators
  else if delete && HasPrefix path "/v1/autoscalers/" then admins
  else if put && HasPrefix path "/v1/deployments/" then operators
  else if post && HasSuffix path "/rollback" then operators
  else if get && one_of path ["/v1/events"; "/v1/events/stream"] then viewers
  else if post && (one_of path ["/v1/deployments"; "/v1/nodes/register"]
                   || Contains path "/heartbeat" || Contains path "/status")
  then operators
  else if delete && HasPrefix path "/v1/deployments/" then admins
  else admins.

Definition role_key (r : string) : string := ToLower (TrimSpace r).

Definition isAuthorized (p : Principal) (method path : string) : bool :=
  let required := requiredRoles method path in
  if lenZ required =? 0 then true
  else
    let roleSet : gset string := list_to_set (role_key <$> p.(Principal_Roles)) in
    existsb (fun rr => bool_decide (rr ∈ roleSet)) required.

Definition requestNamespace (r : Request) : string :=
  let ns := TrimSpace (query r "namespace") in
  if negb (String.eqb ns "") then ns
  else
    let ns := TrimSpace (header_Get r.(r_Header) "X-Namespace") in
    if negb (String.eqb ns "") then ns else "default".

(** One of the two loops of [mergeRoles]: roles seen before and blank ones are
    left out. *)
Fixpoint merge_loop (seen : gset string) (out roles : list string) : gset string * list string :=
  match roles with
  | [] => (seen, out)
  | r :: roles' =>
      let k := role_key r in
      if String.eqb k "" then merge_loop seen out roles'
      else if bool_decide (k ∈ seen) then merge_loop seen out roles'
      else merge_loop ({[k]} ∪ seen) (out ++ [r]) roles'
  end.

Definition mergeRoles (existing incoming : list string) : list string :=
  let '(seen, out) := merge_loop ∅ [] existing in
  (merge_loop seen out incoming).2.

Definition shouldAuditRequest (method path : string) : bool :=
  if String.eqb path "/healthz" || String.eqb path "/metrics" || HasPrefix path "/v1/metrics/"
  then false
  else if HasPrefix path "/v1/secrets" then true
  else if one_of method [MethodPost; MethodPut; MethodPatch; MethodDelete]
  then HasPrefix path "/v1/"
  else false.

(** ** Small parsers *)

Definition parsePositiveIntOrDefault (raw : string) (fallback : Z) : Z :=
  match Atoi (TrimSpace raw) with
  | Some v => if v <=? 0 then fallback else v
  | None => fallback
  end.

Definition label_pair (seg : string) : option (string * string) :=
  '(k, v) ← SplitN2 (TrimSpace seg) "=";
  let k := TrimSpace k in
  let v := TrimSpace v in
  if negb (String.eqb k "") && negb (String.eqb v "") then Some (k, v) else None.

Definition parseLabelQuery (raw : string) : gmap string string :=
  let raw := TrimSpace raw in
  if String.eqb raw "" then ∅
  else foldl (fun out seg => match label_pair seg with
         | Some (k, v) => <[k := v]> out
         | None => out
         end) ∅ (Split raw ",").

(** ** The multiplexer

    Every pattern of the table is literal: one that ends in a slash matches
    the paths below it, another one itself. *)

Inductive Route : Type :=
| RHealthz | RPrometheusMetrics | RRegisterNode | RNodeSubroutes | RDeployments | RDeploymentByID
| RAutoscalers | RAutoscalerByID | RDeploymentMetrics | RNodeHealthTrends | RCluster
| RWorkerSubroutes | RWorkloadSubroutes | RServices | RServiceSubroutes | RNamespaces | RQuotas
| RSecrets | RPersistentVolumes | RPersistentVolumeClaims | RNetworkPolicies | RJobs | RCronJobs
| RRoleBindings | RRecoveryRun | RDNSResolve | RDNSSidecarResolve | RNetworkServiceSubroutes
| REvents | REventStream.

#[export] Instance Route_eq_dec : EqDecision Route.
Proof. solve_decision. Defined.

Definition routes : list (string * Route) := [
  ("/healthz", RHealthz);
  ("/metrics", RPrometheusMetrics);
  ("/v1/nodes/register", RRegisterNode);
  ("/v1/nodes/", RNodeSubroutes);
  ("/v1/deployments", RDeployments);
  ("/v1/deployments/", RDeploymentByID);
  ("/v1/autoscalers", RAutoscalers);
  ("/v1/autoscalers/", RAutoscalerByID);
  ("/v1/metrics/deployments", RDeploymentMetrics);
  ("/v1/metrics/prometheus", RPrometheusMetrics);
  ("/v1/health/nodes/trends", RNodeHealthTrends);
  ("/v1/cluster", RCluster);
  ("/v1/workers/", RWorkerSubroutes);
  ("/v1/workloads/", RWorkloadSubroutes);
  ("/v1/services", RServices);
  ("/v1/services/", RServiceSubroutes);
  ("/v1/namespaces", RNamespaces);
  ("/v1/quotas", RQuotas);
  ("/v1/secrets", RSecrets);
  ("/v1/persistent-volumes", RPersistentVolumes);
  ("/v1/persistent-volume-claims", RPersistentVolumeClaims);
  ("/v1/network-policies", RNetworkPolicies);
  ("/v1/jobs", RJobs);
  ("/v1/cronjobs", RCronJobs);
  ("/v1/rbac/rolebindings", RRoleBindings);
  ("/v1/recovery/run", RRecoveryRun);
  ("/v1/dns/resolve", RDNSResolve);
  ("/v1/dns/sidecar/resolve", RDNSSidecarResolve);
  ("/v1/network/services/", RNetworkServiceSubroutes);
  ("/v1/events", REvents);
  ("/v1/events/stream", REventStream)].

Definition matches (pattern path : string) : bool :=
  if HasSuffix pattern "/" then HasPrefix path pattern else String.eqb path pattern.

Definition longer (best : option (string * Route)) (r : string * Route) : option (string * Route) :=
  match best with
  | Some b => if Nat.ltb (String.length b.1) (String.length r.1) then Some r else Some b
  | None => Some r
  end.

(** The most specific pattern that matches. *)
Definition match_route (path : string) : option (string * Route) :=
  foldl longer None (List.filter (fun r => matches r.1 path) routes).

Definition registered (pattern : string) : bool := existsb (fun r => String.eqb r.1 pattern) routes.

Inductive Destination : Type :=
| ToRoute (r : Route)
| ToRedirect (path : string)
| ToNotFound.

(** [ServeMux.findHandler]: a path is cleaned (unless the method is CONNECT);
    a path that only its slashed form would serve is redirected, so is one
    that changed when it was cleaned. *)
Definition findHandler (method path : string) : Destination :=
  let cleaned := if String.eqb method "CONNECT" then path else cleanPath path in
  if negb (registered cleaned) && negb (HasSuffix cleaned "/") && negb (String.eqb cleaned "")
     && registered (cleaned +:+ "/")
  then ToRedirect (cleanPath path +:+ "/")
  else if negb (String.eqb cleaned path) then ToRedirect cleaned
  else match match_route cleaned with
       | Some r => ToRoute r.2
       | None => ToNotFound
       end.

(** ** Effects of the handlers *)

Section Server.
Context {DB : Type} `{!Badger Blob DB} {E : Env} {J : JWT} {AE : AuthEnv} {HE : HttpEnv}.

Abbreviation HIO := (M (HTTPServer DB)).

(** A computation of the orchestrator, and one of the verifier. *)
Definition orch {A} (m : M (World DB) A) : HIO A := fun s =>
  let '(r, w) := m s.(s_orch) in (r, s <| s_orch := w |>).

Definition verifier {A} (m : M (Verifier * World DB) A) : HIO A := fun s =>
  let '(r, (v, w)) := m (s.(s_verifier), s.(s_orch)) in
  (r, s <| s_verifier := v |> <| s_orch := w |>).

(** [x, err := m]: an error is a value, a panic goes on. *)
Definition unless_panic {A} (m : HIO A) : HIO (Res A) :=
  r ← attempt m;
  match r with
  | Err (Panic msg) => throw (Panic msg)
  | _ => mret r
  end.

Definition call {A} (m : M (World DB) A) : HIO (Res A) := unless_panic (orch m).

(** [defer d]: [d] runs when [m] has ended, however it ended. *)
Definition with_defer {A} (d : HIO unit) (m : HIO A) : HIO A := fun s =>
  let '(r, s1) := m s in (r, (d s1).2).

Definition respond (f : ResponseWriter -> ResponseWriter) : HIO unit := modify (set s_w f).
Definition set_header (key value : string) : HIO unit := respond (set rw_header (header_Set key value)).
Definition audit (e : AuditEntry) : HIO unit := modify (set s_log (fun l => l ++ [e])).

(** [w.WriteHeader(code)]: a [statusRecorder] remembers the code and passes it
    on to [net/http], which ignores it once a status is written, panics on a
    code outside of 100 to 999, and sends an informational response without
    writing the final status. *)
Definition WriteHeader (code : Z) : HIO unit :=
  respond (set rw_recorded (fun _ => code)) ;;
  s ← get_state;
  match s.(s_w).(rw_status) with
  | Some _ => mret tt
  | None =>
      if negb (valid_code code) then throw (Panic ("invalid WriteHeader code " +:+ fmt_d code))
      else if informational code then mret tt
      else respond (set rw_status (fun _ => Some code))
  end.

Definition writeAPIError (status : Z) (code message details : string) : HIO unit :=
  set_header "Content-Type" "application/json" ;;
  WriteHeader status ;;
  respond (Write (CError (MkAPIError code message details))).

Definition writeJSON (code : Z) (payload : Json) : HIO unit :=
  set_header "Content-Type" "application/json" ;;
  WriteHeader code ;;
  respond (Write (CJson payload)).

(** ** Circuit breakers *)

Definition breaker (serviceName : string) (s : HTTPServer DB) : breakerState :=
  default zero_breaker (s.(s_breakers) !! serviceName).

Definition set_breaker (serviceName : string) (b : breakerState) : HIO unit :=
  modify (set s_breakers (insert serviceName b)).

Definition circuitOpen (serviceName : string) : HIO (bool * string) :=
  s ← get_state;
  let b := breaker serviceName s in
  t ← orch now;
  mret (if After b.(breakerState_OpenUntil) t then (true, b.(breakerState_LastReason)) else (false, "")).

Definition recordCircuitFailure (serviceName : string) (threshold openSec : Z) (reason : string) : HIO unit :=
  s ← get_state;
  let b := breaker serviceName s in
  let b := b <| breakerState_Failures ::= fun n => n +! 1 |> <| breakerState_LastReason := reason |> in
  b ← (if threshold <=? b.(breakerState_Failures)
       then t ← orch now;
            mret (b <| breakerState_OpenUntil := time_Add t (seconds openSec) |>
                    <| breakerState_Failures := 0 |>)
       else mret b);
  set_breaker serviceName b.

Definition recordCircuitSuccess (serviceName : string) : HIO unit :=
  s ← get_state;
  let b := breaker serviceName s in
  set_breaker serviceName
    (b <| breakerState_Failures := 0 |> <| breakerState_OpenUntil := 0 |>
       <| breakerState_LastReason := "" |>).

(** ** Middleware *)

Abbreviation Handler := (Request -> HIO unit) (only parsing).

Definition principalFromContext (r : Request) : option Principal := r.(r_principal).

(** [/healthz] and [/metrics], which need no token *)
Definition is_open (path : string) : bool := String.eqb path "/healthz" || String.eqb path "/metrics".

Definition versionMiddleware (next : Handler) (r : Request) : HIO unit :=
  let r := r <| r_Path ::= fun p =>
    if HasPrefix p "/api/v1/" then TrimPrefix p "/api"
    else if String.eqb p "/api/v1" then "/v1" else p |> in
  let v := TrimSpace (header_Get r.(r_Header) "X-API-Version") in
  if negb (String.eqb v "") && negb (String.eqb v "v1") && negb (String.eqb v "1")
  then writeAPIError 400 "unsupported_api_version" "Unsupported API version" "supported version: v1"
  else set_header "X-API-Version" "v1" ;; next r.

Definition traceMiddleware (next : Handler) (r : Request) : HIO unit :=
  let traceID := TrimSpace (header_Get r.(r_Header) "X-Trace-ID") in
  traceID ← (if String.eqb traceID ""
             then t ← orch now; mret ("trace-local-" +:+ fmt_d (UnixNano t))
             else mret traceID);
  set_header "X-Trace-ID" traceID ;;
  next r.

(** The principal with the roles its bindings add. *)
Definition bind_roles (r : Request) (principal : Principal) : HIO Principal :=
  if blank principal.(Principal_Subject) then mret principal else
  boundRoles ← call (EffectiveRolesForSubject env_stack principal.(Principal_Subject)
                       (requestNamespace r));
  mret (match boundRoles with
        | Ok (b :: bs) => principal <| Principal_Roles ::= fun roles => mergeRoles roles (b :: bs) |>
        | _ => principal
        end).

Definition authMiddleware (next : Handler) (r : Request) : HIO unit :=
  if is_open r.(r_Path) then next r else
  res ← unless_panic (verifier (VerifyBearer (header_Get r.(r_Header) "Authorization")));
  match res with
  | Err e =>
      audit (AuthFailed r.(r_Method) r.(r_Path) (Error e)) ;;
      writeAPIError 401 "unauthorized" "Authorization failed" (Error e)
  | Ok principal =>
      principal ← bind_roles r principal;
      next (r <| r_principal := Some principal |>)
  end.

(** [statusRecorder] passes the status on and remembers it; it is not a
    flusher. *)
Definition auditMiddleware (next : Handler) (r : Request) : HIO unit :=
  if negb (shouldAuditRequest r.(r_Method) r.(r_Path)) then next r else
  respond (fun w => w <| rw_flusher := false |> <| rw_recorded := 200 |>) ;;
  next r ;;
  s ← get_state;
  let '(actor, roles) :=
    match principalFromContext r with
    | Some p => (if blank p.(Principal_Subject) then "anonymous" else p.(Principal_Subject),
                 Join p.(Principal_Roles) ",")
    | None => ("anonymous", "")
    end in
  audit (SensitiveRequest r.(r_Method) r.(r_Path) s.(s_w).(rw_recorded) actor roles).

Definition authorizationMiddleware (next : Handler) (r : Request) : HIO unit :=
  if is_open r.(r_Path) then next r else
  match principalFromContext r with
  | None => writeAPIError 401 "unauthorized" "Authorization failed" "missing principal"
  | Some p =>
      if negb (isAuthorized p r.(r_Method) r.(r_Path))
      then audit (AuthorizationDenied r.(r_Method) r.(r_Path) p.(Principal_Subject) p.(Principal_Roles)) ;;
           writeAPIError 403 "forbidden" "Insufficient role for endpoint" "required role mismatch"
      else next r
  end.

(** [http.Redirect] with status 301 and [http.NotFound] *)
Definition redirect (path : string) (r : Request) : HIO unit :=
  let url := if String.eqb r.(r_RawQuery) "" then path else path +:+ "?" +:+ r.(r_RawQuery) in
  s ← get_state;
  set_header "Location" url ;;
  (if one_of r.(r_Method) [MethodGet; "HEAD"]
      && bool_decide (s.(s_w).(rw_header) !! CanonicalHeaderKey "Content-Type" = None)
   then set_header "Content-Type" "text/html; charset=utf-8" else mret tt) ;;
  WriteHeader 301 ;;
  if String.eqb r.(r_Method) MethodGet then respond (Write (CRedirect url)) else mret tt.

Definition not_found : HIO unit :=
  set_header "Content-Type" "text/plain; charset=utf-8" ;;
  set_header "X-Content-Type-Options" "nosniff" ;;
  WriteHeader 404 ;;
  respond (Write (CText "404 page not found
")).

(** [mux.ServeHTTP], given the handler of each route *)
Definition mux (handle : Route -> Handler) (r : Request) : HIO unit :=
  match findHandler r.(r_Method) r.(r_Path) with
  | ToRoute route => handle route r
  | ToRedirect path => redirect path r
  | ToNotFound => not_found
  end.

End Server.
