(* ===== verification/Handlers.v ===== *)
(** * The HTTP handlers

    The handlers of [internal/api/httpserver.go], one definition per function,
    the retry loop of the service proxy, and [Handler], the whole server.  An
    event stream stays open after its handler has been entered: opening it is
    [handleEventStream], and each turn of its loop is a [stream_step]. *)

From Stdlib Require Import Ascii String.
From Corelib Require Import SpecFloat.
From S2P Require Import Prelude GoLang GoText GoFloat Effects Model Scheduler Badger Balancer World.
From S2P Require Import Store Events Deployments Nodes Services Autoscaler RBAC Volumes Jobs.
From S2P Require Import Control.
From S2P Require Import Metrics Validation Auth Http.

(** [map[string]any{"ok": true}] *)
Definition ok_json : Json := JObject [("ok", JBool true)].

Definition docs {T} `{!Entity T} (key : string) (l : list T) : Json :=
  JObject [(key, JDocs (inject <$> l))].

(** A target of the proxy, [url.URL{Scheme: "http", Host: ...}]. *)
Definition target_url (ep : ServiceEndpoint) : string :=
  "http://" +:+ ep.(ServiceEndpoint_Address) +:+ ":" +:+ fmt_d ep.(ServiceEndpoint_Port).

(** The variables of the retry loop: the last response, its body closed or
    not, and the last error. *)
Inductive ProxyOutcome : Type :=
| ProxyNone
| ProxyError (e : error)
| ProxyResponse (resp : Upstream) (closed : bool)
| ProxyBadRequest (msg : string).

Section Handlers.
Context {DB : Type} `{!Badger Blob DB} {E : Env} {J : JWT} {AE : AuthEnv} {HE : HttpEnv}.

Abbreviation HIO := (M (HTTPServer DB)).
Abbreviation Handler := (Request -> HIO unit) (only parsing).

Definition method_not_allowed (details : string) : HIO unit :=
  writeAPIError 405 "method_not_allowed" "Method not allowed" details.

Definition route_not_found (details : string) : HIO unit :=
  writeAPIError 404 "not_found" "Route not found" details.

Definition is_method (m : string) (r : Request) : bool := String.eqb r.(r_Method) m.

(** [if r.Method != m { ...; return }] *)
Definition require_method (m details : string) (r : Request) (k : HIO unit) : HIO unit :=
  if negb (is_method m r) then method_not_allowed details else k.

(** [if err := json.NewDecoder(r.Body).Decode(&req); err != nil { ...; return }] *)
Definition decoded {A} (x : Res A) (k : A -> HIO unit) : HIO unit :=
  match x with
  | Err e => writeAPIError 400 "invalid_payload" "Invalid payload" (Error e)
  | Ok a => k a
  end.

(** [if err := validate(x); err != nil { ...; return }] *)
Definition validated (x : Res unit) (message : string) (k : HIO unit) : HIO unit :=
  match x with
  | Err e => writeAPIError 400 "validation_failed" message (Error e)
  | Ok _ => k
  end.

(** A call of the orchestrator: its error is reported with the given status and
    texts. *)
Definition on_success {A} (m : M (World DB) A) (status : Z) (code message : string)
    (k : A -> HIO unit) : HIO unit :=
  r ← call m;
  match r with
  | Err e => writeAPIError status code message (Error e)
  | Ok a => k a
  end.

(** The same where the store's sentinel [ErrNotFound] is reported apart. *)
Definition on_success_or_404 {A} (m : M (World DB) A) (nf_code nf_message nf_details : string)
    (status : Z) (code message : string) (k : A -> HIO unit) : HIO unit :=
  r ← call m;
  match r with
  | Err e => if is_not_found e then writeAPIError 404 nf_code nf_message nf_details
             else writeAPIError status code message (Error e)
  | Ok a => k a
  end.

Definition handleHealthz (_ : Request) : HIO unit :=
  WriteHeader 200 ;; respond (Write (CText "ok")).

Definition handleRegisterNode (r : Request) : HIO unit :=
  require_method MethodPost "use POST" r
  (decoded (decode_Node r.(r_Body)) (fun node =>
   validated (validateNode node) "Node validation failed"
   (on_success (RegisterNode node) 400 "register_failed" "Failed to register node" (fun _ =>
    writeJSON 201 ok_json)))).

Definition handleNodeSubroutes (r : Request) : HIO unit :=
  match Split (TrimPrefix r.(r_Path) "/v1/nodes/") "/" with
  | [id; sub] =>
      if String.eqb sub "drain" then
        require_method MethodPost "use POST" r
        (on_success (DrainNode id) 400 "drain_failed" "Node drain failed" (fun _ =>
         writeJSON 200 ok_json))
      else if String.eqb sub "remove" then
        require_method MethodPost "use POST" r
        (on_success (RemoveNode id) 400 "remove_failed" "Node remove failed" (fun _ =>
         writeJSON 200 ok_json))
      else if negb (String.eqb sub "heartbeat") then route_not_found "unknown node subroute"
      else
        require_method MethodPost "use POST" r
        (decoded (decode_Used r.(r_Body)) (fun used =>
         on_success_or_404 (HeartbeatNode id used) "node_not_found" "Node not found" id
           400 "heartbeat_failed" "Heartbeat failed" (fun _ =>
         writeJSON 200 ok_json)))
  | _ => route_not_found "unknown node subroute"
  end.

Definition handleDeployments (r : Request) : HIO unit :=
  if is_method MethodPost r then
    decoded (decode_DeploymentSpec r.(r_Body)) (fun spec =>
    validated (validateDeploymentSpec spec) "Deployment spec validation failed"
    (on_success (CreateDeployment spec) 400 "create_failed" "Create deployment failed" (fun dep =>
     writeJSON 201 (JDoc (inject dep)))))
  else if is_method MethodGet r then
    on_success ListDeployments 500 "list_failed" "List deployments failed" (fun deps =>
    writeJSON 200 (docs "deployments" deps))
  else method_not_allowed "use GET or POST".

Definition handleDeploymentByID (r : Request) : HIO unit :=
  let parts := Split (TrimPrefix r.(r_Path) "/v1/deployments/") "/" in
  let id := default "" (head parts) in
  if blank id then route_not_found "deployment id is empty"
  else if match parts with [_; sub] => String.eqb sub "rollback" | _ => false end then
    require_method MethodPost "use POST" r
    (on_success (RollbackDeployment id (decode_Revision r.(r_Body))) 400 "rollback_failed"
       "Rollback deployment failed" (fun updated =>
     writeJSON 200 (JDoc (inject updated))))
  else if negb (Nat.eqb (length parts) 1) then route_not_found "unknown deployment subroute"
  else if is_method MethodDelete r then
    on_success (DeleteDeployment id) 400 "delete_failed" "Delete deployment failed" (fun _ =>
    writeJSON 200 ok_json)
  else if is_method MethodPut r then
    decoded (decode_DeploymentSpec r.(r_Body)) (fun spec =>
    validated (validateDeploymentSpec spec) "Deployment spec validation failed"
    (on_success (UpdateDeployment id spec) 400 "update_failed" "Update deployment failed"
       (fun updated => writeJSON 200 (JDoc (inject updated)))))
  else method_not_allowed "use DELETE, PUT, or POST /rollback".

Definition handleAutoscalers (r : Request) : HIO unit :=
  if is_method MethodPost r then
    decoded (decode_AutoscalerPolicy r.(r_Body)) (fun policy =>
    validated (validateAutoscalerPolicy policy) "Autoscaler policy validation failed"
    (on_success (Autoscaler.UpsertAutoscalerPolicy policy) 400 "autoscaler_upsert_failed"
       "Failed to upsert autoscaler policy" (fun created =>
     writeJSON 201 (JDoc (inject created)))))
  else if is_method MethodGet r then
    on_success ListAutoscalerPolicies 500 "autoscaler_list_failed"
      "Failed to list autoscaler policies" (fun items =>
    writeJSON 200 (docs "policies" items))
  else method_not_allowed "use GET or POST".

Definition handleAutoscalerByID (r : Request) : HIO unit :=
  match Split (TrimPrefix r.(r_Path) "/v1/autoscalers/") "/" with
  | [id] =>
      if blank id then route_not_found "autoscaler id is required" else
      require_method MethodDelete "use DELETE" r
      (on_success (DeleteAutoscalerPolicy id) 400 "autoscaler_delete_failed"
         "Failed to delete autoscaler policy" (fun _ =>
       writeJSON 200 ok_json))
  | _ => route_not_found "autoscaler id is required"
  end.

Definition handleDeploymentMetrics (r : Request) : HIO unit :=
  require_method MethodPost "use POST" r
  (decoded (decode_DeploymentMetricSample r.(r_Body)) (fun metric =>
   validated (validateDeploymentMetricSample metric) "Deployment metric validation failed"
   (on_success (IngestDeploymentMetric metric) 400 "metric_ingest_failed"
      "Failed to ingest deployment metric" (fun _ =>
    writeJSON 202 ok_json)))).

Definition handlePrometheusMetrics (r : Request) : HIO unit :=
  require_method MethodGet "use GET" r
  (on_success PrometheusMetrics 500 "metrics_failed" "Failed to render metrics" (fun metrics =>
   set_header "Content-Type" "text/plain; version=0.0.4" ;;
   WriteHeader 200 ;;
   respond (Write (CText metrics)))).

(** A query parameter that is a positive integer, or a default.  [raw] is the
    parameter, trimmed or not as the handler has it. *)
Definition positive_or (d : Z) (raw : string) : Z :=
  if negb (String.eqb raw "") then
    match Atoi raw with
    | Some v => if 0 <? v then v else d
    | None => d
    end
  else d.

Definition handleNodeHealthTrends (r : Request) : HIO unit :=
  require_method MethodGet "use GET" r
  (on_success (ListNodeHealthTrends (positive_or 20 (TrimSpace (query r "window")))) 500
     "node_health_trends_failed" "Failed to list node health trends" (fun trends =>
   writeJSON 200 (JObject [("trends", JTrends trends)]))).

Definition handleCluster (r : Request) : HIO unit :=
  require_method MethodGet "use GET" r
  (on_success Snapshot 500 "cluster_failed" "Failed to read cluster state" (fun state =>
   writeJSON 200 (JCluster state))).

Definition handleWorkerSubroutes (r : Request) : HIO unit :=
  match Split (TrimPrefix r.(r_Path) "/v1/workers/") "/" with
  | [id; sub] =>
      require_method MethodGet "use GET" r
      (if String.eqb sub "assignments" then
         on_success (PollAssignments id (positive_or 10 (query r "max"))) 500 "poll_failed"
           "Failed to poll assignments" (fun items =>
         writeJSON 200 (docs "assignments" items))
       else if String.eqb sub "workloads" then
         on_success (ListNodeWorkloads id) 500 "workloads_failed"
           "Failed to list desired node workloads" (fun items =>
         writeJSON 200 (docs "workloads" items))
       else route_not_found "unknown worker subroute")
  | _ => route_not_found "unknown worker subroute"
  end.

Definition handleWorkloadSubroutes (r : Request) : HIO unit :=
  match Split (TrimPrefix r.(r_Path) "/v1/workloads/") "/" with
  | [id; "status"] =>
      require_method MethodPost "use POST" r
      (decoded (decode_StatusReport r.(r_Body)) (fun '(status, containerID) =>
       on_success (ReportWorkloadStatus id status containerID) 400 "status_update_failed"
         "Workload status update failed" (fun _ =>
       writeJSON 200 ok_json)))
  | _ => route_not_found "unknown workload subroute"
  end.

(** The collections with a POST to create or replace and a GET to list: [post]
    is the branch of POST, [list] that of GET. *)
Definition collection (r : Request) (post get : HIO unit) : HIO unit :=
  if is_method MethodPost r then post
  else if is_method MethodGet r then get
  else method_not_allowed "use GET or POST".

(** The namespace parameter of the listings. *)
Definition namespace_param (r : Request) : string := TrimSpace (query r "namespace").

Definition handleServices (r : Request) : HIO unit :=
  collection r
    (decoded (decode_ServiceSpec r.(r_Body)) (fun spec =>
     validated (validateServiceSpec spec) "Service spec validation failed"
     (on_success (Services.CreateService spec) 400 "create_service_failed" "Create service failed"
        (fun svc => writeJSON 201 (JDoc (inject svc))))))
    (on_success ListServices 500 "list_services_failed" "List services failed" (fun items =>
     writeJSON 200 (docs "services" items))).

Definition handleNamespaces (r : Request) : HIO unit :=
  collection r
    (decoded (decode_Namespace r.(r_Body)) (fun ns =>
     if blank ns.(Namespace_Name)
     then writeAPIError 400 "validation_failed" "Namespace validation failed" "namespace name is required"
     else on_success (Deployments.CreateNamespace ns) 400 "namespace_create_failed"
            "Create namespace failed" (fun ns => writeJSON 201 (JDoc (inject ns)))))
    (on_success ListNamespaces 500 "namespace_list_failed" "List namespaces failed" (fun items =>
     writeJSON 200 (docs "namespaces" items))).

Definition handleQuotas (r : Request) : HIO unit :=
  collection r
    (decoded (decode_NamespaceQuota r.(r_Body)) (fun quota =>
     if blank quota.(NamespaceQuota_Namespace)
     then writeAPIError 400 "validation_failed" "Quota validation failed" "namespace is required"
     else on_success (Deployments.UpsertNamespaceQuota quota) 400 "quota_upsert_failed"
            "Upsert quota failed" (fun quota => writeJSON 201 (JDoc (inject quota)))))
    (on_success ListNamespaceQuotas 500 "quota_list_failed" "List quotas failed" (fun items =>
     writeJSON 200 (docs "quotas" items))).

Definition handleSecrets (r : Request) : HIO unit :=
  collection r
    (decoded (decode_Secret r.(r_Body)) (fun secret =>
     if blank secret.(Secret_Name)
     then writeAPIError 400 "validation_failed" "Secret validation failed" "secret name is required"
     else on_success (Deployments.UpsertSecret secret) 400 "secret_upsert_failed"
            "Upsert secret failed" (fun secret => writeJSON 201 (JDoc (inject secret)))))
    (on_success (Deployments.ListSecrets (namespace_param r)) 500 "secret_list_failed"
       "List secrets failed" (fun items => writeJSON 200 (docs "secrets" items))).

Definition handlePersistentVolumes (r : Request) : HIO unit :=
  collection r
    (decoded (decode_PersistentVolume r.(r_Body)) (fun volume =>
     on_success (Volumes.UpsertPersistentVolume volume) 400 "pv_upsert_failed"
       "Upsert persistent volume failed" (fun pv => writeJSON 201 (JDoc (inject pv)))))
    (on_success ListPersistentVolumes 500 "pv_list_failed" "List persistent volumes failed"
       (fun items => writeJSON 200 (docs "volumes" items))).

Definition handlePersistentVolumeClaims (r : Request) : HIO unit :=
  collection r
    (decoded (decode_PersistentVolumeClaim r.(r_Body)) (fun claim =>
     on_success (Volumes.UpsertPersistentVolumeClaim claim) 400 "pvc_upsert_failed"
       "Upsert persistent volume claim failed" (fun pvc => writeJSON 201 (JDoc (inject pvc)))))
    (on_success (Volumes.ListPersistentVolumeClaims (namespace_param r)) 500 "pvc_list_failed"
       "List persistent volume claims failed" (fun items => writeJSON 200 (docs "claims" items))).

Definition handleNetworkPolicies (r : Request) : HIO unit :=
  collection r
    (decoded (decode_NetworkPolicy r.(r_Body)) (fun policy =>
     on_success (Volumes.UpsertNetworkPolicy policy) 400 "network_policy_upsert_failed"
       "Upsert network policy failed" (fun policy => writeJSON 201 (JDoc (inject policy)))))
    (on_success (Volumes.ListNetworkPolicies (namespace_param r)) 500 "network_policy_list_failed"
       "List network policies failed" (fun items => writeJSON 200 (docs "policies" items))).

Definition handleJobs (r : Request) : HIO unit :=
  collection r
    (decoded (decode_Job r.(r_Body)) (fun job =>
     on_success (Jobs.UpsertJob job) 400 "job_upsert_failed" "Upsert job failed"
       (fun job => writeJSON 201 (JDoc (inject job)))))
    (on_success (Jobs.ListJobs (namespace_param r)) 500 "job_list_failed" "List jobs failed"
       (fun items => writeJSON 200 (docs "jobs" items))).

Definition handleCronJobs (r : Request) : HIO unit :=
  collection r
    (decoded (decode_CronJob r.(r_Body)) (fun cj =>
     on_success (Jobs.UpsertCronJob cj) 400 "cronjob_upsert_failed" "Upsert cronjob failed"
       (fun cj => writeJSON 201 (JDoc (inject cj)))))
    (on_success (Jobs.ListCronJobs (namespace_param r)) 500 "cronjob_list_failed" "List cronjobs failed"
       (fun items => writeJSON 200 (docs "cronJobs" items))).

Definition handleRoleBindings (r : Request) : HIO unit :=
  collection r
    (decoded (decode_RoleBinding r.(r_Body)) (fun binding =>
     on_success (RBAC.UpsertRoleBinding binding) 400 "role_binding_upsert_failed"
       "Upsert role binding failed" (fun binding => writeJSON 201 (JDoc (inject binding)))))
    (on_success (ListRoleBindings (namespace_param r)) 500 "role_binding_list_failed"
       "List role bindings failed" (fun items => writeJSON 200 (docs "bindings" items))).

Definition handleRecoveryRun (r : Request) : HIO unit :=
  require_method MethodPost "use POST" r
  (on_success RecoverCluster 500 "recovery_failed" "Cluster recovery run failed" (fun _ =>
   writeJSON 200 ok_json)).

(** [defer s.orch.ReleaseServiceEndpoint(...)] *)
Definition release (ep : ServiceEndpoint) : HIO unit :=
  orch (ReleaseServiceEndpoint ep.(ServiceEndpoint_ID)).

Definition handleServiceSubroutes (r : Request) : HIO unit :=
  match Split (TrimPrefix r.(r_Path) "/v1/services/") "/" with
  | [serviceID; subroute] =>
      if String.eqb subroute "endpoints" then
        require_method MethodGet "use GET" r
        (on_success_or_404 (Services.ListServiceEndpoints serviceID) "service_not_found"
           "Service not found" serviceID 500 "list_endpoints_failed" "List service endpoints failed"
           (fun items => writeJSON 200 (docs "endpoints" items)))
      else if String.eqb subroute "proxy-target" then
        require_method MethodGet "use GET" r
        (on_success_or_404 (SelectServiceEndpoint serviceID (TrimSpace (query r "strategy")))
           "service_not_found" "Service not found" serviceID
           400 "select_target_failed" "Failed to select service endpoint" (fun ep =>
         with_defer (release ep) (writeJSON 200 (JObject [("endpoint", JDoc (inject ep))]))))
      else route_not_found "unknown service subroute"
  | _ => route_not_found "unknown service subroute"
  end.

Definition handleDNSResolve (r : Request) : HIO unit :=
  require_method MethodGet "use GET" r
  (let name := TrimSpace (query r "name") in
   if String.eqb name "" then writeAPIError 400 "invalid_query" "Invalid query" "name is required"
   else on_success_or_404 (ResolveServiceName name) "service_not_found" "Service not found" name
          500 "resolve_failed" "Service resolve failed" (fun '(dnsName, endpoints) =>
        writeJSON 200 (JObject [("name", JString dnsName); ("endpoints", JDocs (inject <$> endpoints))]))).

Definition handleDNSSidecarResolve (r : Request) : HIO unit :=
  require_method MethodGet "use GET" r
  (let name := TrimSpace (query r "name") in
   if String.eqb name "" then writeAPIError 400 "invalid_query" "Invalid query" "name is required"
   else on_success_or_404 (ResolveServiceDNS name) "service_not_found" "Service not found" name
          500 "resolve_failed" "Service resolve failed" (fun '(dnsName, endpoints, ttl) =>
        writeJSON 200 (JObject [("name", JString dnsName); ("endpoints", JDocs (inject <$> endpoints));
          ("ttlSeconds", JNumber ttl); ("cacheStrategy", JString "sidecar-refresh-before-expiry")]))).

(** ** Traffic *)

(** The network policies' verdict on the source the query names; [k] goes on
    when the traffic is allowed. *)
Definition check_access (r : Request) (svc : Service) (ep : ServiceEndpoint) (k : HIO unit) : HIO unit :=
  let sourceNamespace := TrimSpace (query r "sourceNamespace") in
  let sourceLabels := parseLabelQuery (query r "sourceLabels") in
  on_success (IsNetworkAccessAllowed sourceNamespace (Some sourceLabels) svc ep.(ServiceEndpoint_Port))
    500 "network_policy_check_failed" "Network policy check failed" (fun '(allowed, reason) =>
  if negb allowed
  then writeAPIError 403 "network_policy_denied" "Network policy denied traffic" reason
  else k).

Definition handleConnect (name : string) (r : Request) : HIO unit :=
  on_success_or_404 (RouteServiceTraffic name (TrimSpace (query r "strategy")))
    "service_not_found" "Service not found" name 400 "connect_failed" "Service connect failed"
    (fun '(svc, endpoint, routedHost, routedPort) =>
  with_defer (release endpoint)
  (check_access r svc endpoint
   (writeJSON 200 (JObject [("service", JDoc (inject svc)); ("endpoint", JDoc (inject endpoint));
      ("routedHost", JString routedHost); ("routedPort", JNumber routedPort)])))).

(** [for attempt := 0; attempt < attempts; attempt++ { ... }]; [n] iterations
    are left, [last] is the outcome of the one before. *)
Fixpoint proxy_loop (n : nat) (url : string) (timeout : Duration) (last : ProxyOutcome)
    : HIO ProxyOutcome :=
  match n with
  | O => mret last
  | S n' =>
      match env_request_error url with
      | Some msg => mret (ProxyBadRequest msg)
      | None =>
          r ← orch (ask (fun k => env_upstream k url timeout));
          match r with
          | Err e => proxy_loop n' url timeout (ProxyError e)
          | Ok resp =>
              if resp.(up_StatusCode) <? 500 then mret (ProxyResponse resp false)
              else proxy_loop n' url timeout (ProxyResponse resp true)
          end
      end
  end.

(** The headers of the upstream response, added to those of the answer. *)
Definition copy_headers (from h : gmap string (list string)) : gmap string (list string) :=
  foldl (fun h kv => foldl (fun h v => header_Add kv.1 v h) h kv.2) h (map_to_list from).

(** A body that was closed cannot be copied. *)
Definition forward (name : string) (retries : Z) (resp : Upstream) (closed : bool) : HIO unit :=
  respond (set rw_header (copy_headers resp.(up_Header))) ;;
  set_header "X-Orch-Proxied-Service" name ;;
  set_header "X-Orch-Proxy-Retries" (fmt_d retries) ;;
  WriteHeader resp.(up_StatusCode) ;;
  if closed || String.eqb resp.(up_Body) "" then mret tt
  else respond (Write (CText resp.(up_Body))).

Definition attempts_of (retries : Z) : nat := Z.to_nat (retries +! 1).

(** What the handler does with the outcome of the loop. *)
Definition proxy_answer (name : string) (retries cbThreshold cbOpenSec : Z) (out : ProxyOutcome) : HIO unit :=
  match out with
  | ProxyBadRequest msg =>
      writeAPIError 500 "proxy_request_failed" "Proxy request build failed" msg
  | ProxyError e =>
      recordCircuitFailure name cbThreshold cbOpenSec (Error e) ;;
      writeAPIError 502 "proxy_upstream_failed" "Upstream request failed" (Error e)
  | ProxyNone =>
      recordCircuitFailure name cbThreshold cbOpenSec "empty upstream response" ;;
      writeAPIError 502 "proxy_upstream_failed" "Upstream request failed" "empty upstream response"
  | ProxyResponse resp closed =>
      (if 500 <=? resp.(up_StatusCode)
       then recordCircuitFailure name cbThreshold cbOpenSec "upstream 5xx"
       else recordCircuitSuccess name) ;;
      forward name retries resp closed
  end.

Definition handleProxy (name : string) (r : Request) : HIO unit :=
  let strategy := TrimSpace (query r "strategy") in
  let retries := parsePositiveIntOrDefault (query r "retries") 1 in
  let timeoutMs := parsePositiveIntOrDefault (query r "timeoutMs") 1500 in
  let cbThreshold := parsePositiveIntOrDefault (query r "cbThreshold") 3 in
  let cbOpenSec := parsePositiveIntOrDefault (query r "cbOpenSec") 15 in
  '(is_open, reason) ← circuitOpen name;
  if is_open : bool then writeAPIError 503 "circuit_open" "Circuit breaker open" reason else
  res ← call (RouteServiceTraffic name strategy);
  match res with
  | Err e =>
      if is_not_found e then writeAPIError 404 "service_not_found" "Service not found" name
      else recordCircuitFailure name cbThreshold cbOpenSec (Error e) ;;
           writeAPIError 400 "proxy_failed" "Service proxy failed" (Error e)
  | Ok (svc, endpoint, _, _) =>
      with_defer (release endpoint)
      (check_access r svc endpoint
       (out ← proxy_loop (attempts_of retries) (target_url endpoint) (timeoutMs *! 1000000) ProxyNone;
        proxy_answer name retries cbThreshold cbOpenSec out))
  end.

Definition handleNetworkServiceSubroutes (r : Request) : HIO unit :=
  match Split (TrimPrefix r.(r_Path) "/v1/network/services/") "/" with
  | name :: sub :: _ =>
      require_method MethodGet "use GET" r
      (if String.eqb sub "connect" then handleConnect name r
       else if String.eqb sub "proxy" then handleProxy name r
       else route_not_found "unknown network service route")
  | _ => route_not_found "unknown network service route"
  end.

(** ** Events *)

Definition handleEvents (r : Request) : HIO unit :=
  require_method MethodGet "use GET" r
  (on_success (ListEvents (positive_or 100 (TrimSpace (query r "limit")))) 500 "events_failed"
     "Failed to list events" (fun events =>
   writeJSON 200 (docs "events" events))).

(** The stream is opened: its response goes on in [s_streams]. *)
Definition handleEventStream (r : Request) : HIO unit :=
  require_method MethodGet "use GET" r
  (s ← get_state;
   if negb s.(s_w).(rw_flusher)
   then writeAPIError 500 "stream_unsupported" "Streaming unsupported" "http flusher unavailable"
   else
     set_header "Content-Type" "text/event-stream" ;;
     set_header "Cache-Control" "no-cache" ;;
     set_header "Connection" "keep-alive" ;;
     ch ← orch (SubscribeEvents 64);
     modify (fun s => s <| s_streams ::= <[ch := s.(s_w)]> |>)).

(** A turn of the loop: the client is gone, the ticker fires, or the channel
    is read. *)
Inductive StreamTurn : Type := StreamDone | StreamKeepAlive | StreamReceive.

Definition write_stream (ch : nat) (chunks : list Chunk) : HIO unit :=
  modify (set s_streams (alter (fun w => foldl (fun w c => Write c w) w chunks) ch)).

(** The deferred [unsubscribe] runs when the loop returns. *)
Definition close_stream (ch : nat) : HIO unit :=
  orch (Unsubscribe ch) ;; modify (set s_streams (delete ch)).

Definition stream_step (ch : nat) (turn : StreamTurn) : HIO unit :=
  match turn with
  | StreamDone => close_stream ch
  | StreamKeepAlive => write_stream ch [CText (": keepalive" +:+ newline +:+ newline)]
  | StreamReceive =>
      s ← get_state;
      match s.(s_orch).(w_subscribers) !! ch with
      | None => close_stream ch
      | Some sub =>
          match sub.(Subscriber_queue) with
          | [] => mret tt
          | evt :: rest =>
              orch (modify (set w_subscribers
                (insert ch (sub <| Subscriber_queue := rest |>)))) ;;
              match json evt with
              | None => mret tt
              | Some _ => write_stream ch [CText ("event: orchestration" +:+ newline); CEvent evt]
              end
          end
      end
  end.

(** ** The whole server *)

Definition handle (route : Route) : Handler :=
  match route with
  | RHealthz => handleHealthz
  | RPrometheusMetrics => handlePrometheusMetrics
  | RRegisterNode => handleRegisterNode
  | RNodeSubroutes => handleNodeSubroutes
  | RDeployments => handleDeployments
  | RDeploymentByID => handleDeploymentByID
  | RAutoscalers => handleAutoscalers
  | RAutoscalerByID => handleAutoscalerByID
  | RDeploymentMetrics => handleDeploymentMetrics
  | RNodeHealthTrends => handleNodeHealthTrends
  | RCluster => handleCluster
  | RWorkerSubroutes => handleWorkerSubroutes
  | RWorkloadSubroutes => handleWorkloadSubroutes
  | RServices => handleServices
  | RServiceSubroutes => handleServiceSubroutes
  | RNamespaces => handleNamespaces
  | RQuotas => handleQuotas
  | RSecrets => handleSecrets
  | RPersistentVolumes => handlePersistentVolumes
  | RPersistentVolumeClaims => handlePersistentVolumeClaims
  | RNetworkPolicies => handleNetworkPolicies
  | RJobs => handleJobs
  | RCronJobs => handleCronJobs
  | RRoleBindings => handleRoleBindings
  | RRecoveryRun => handleRecoveryRun
  | RDNSResolve => handleDNSResolve
  | RDNSSidecarResolve => handleDNSSidecarResolve
  | RNetworkServiceSubroutes => handleNetworkServiceSubroutes
  | REvents => handleEvents
  | REventStream => handleEventStream
  end.

(** [Handler()]: the last wrapper is the first to run. *)
Definition Handler_chain : Handler :=
  versionMiddleware (traceMiddleware (authMiddleware (auditMiddleware
    (authorizationMiddleware (mux handle))))).

(** One request, from a fresh response to the end of the handler. *)
Definition serve (r : Request) : HIO unit :=
  respond (fun _ => new_writer) ;; Handler_chain (r <| r_principal := None |>).

End Handlers.
