(* ===== verification/Worker.v ===== *)
(** * The node agent

    [internal/worker/runner.go]: the runner that polls assignments, starts and
    stops containers, keeps count of the resources in use, materialises secret
    files and reconciles the containers of the node with the workloads that
    the control plane wants.  The two Go interfaces it is built on, the client
    of the control plane and the container runtime, are classes of oracles:
    at interaction [n] they give the answer of a call.  The file system is a
    map from paths to contents whose operations may fail.  Every call is
    recorded in [wk_calls] with the number of its interaction, so that theorems
    can speak about the calls made and the answers they got. *)

From Stdlib Require Import Ascii String.
From S2P Require Import Prelude GoLang GoText Effects Model.

(** ** The outside *)

Class AssignmentClient := {
  client_RegisterNode : nat -> Node -> Res unit;
  client_Heartbeat : nat -> string -> Resource -> Res unit;
  client_PollAssignments : nat -> string -> Z -> Res (list Assignment);
  client_ListNodeWorkloads : nat -> string -> Res (list Workload);
  client_ReportWorkloadStatus : nat -> string -> string -> string -> Res unit
}.

Class Runtime := {
  runtime_RunWorkload : nat -> string -> string -> string -> Res string;
  runtime_StopWorkload : nat -> string -> string -> Res unit;
  runtime_ListManagedWorkloads : nat -> Res (gmap string string)
}.

(** [os.TempDir()], the error of a file operation, and whether the context is
    cancelled while the runner waits. *)
Class Host := {
  host_TempDir : string;
  host_error : nat -> option string;
  host_cancelled : nat -> bool
}.

(** ** State *)

Record Runner : Type := MkRunner {
  rn_nodeID : string;
  rn_used : Resource;
  rn_restartMaxRetries : Z;
  rn_restartBackoff : Duration;
  rn_secretFiles : gmap string (list string)
}.

#[export] Instance eta_Runner : Eta Runner := fun r =>
  MkRunner r.(rn_nodeID) r.(rn_used) r.(rn_restartMaxRetries) r.(rn_restartBackoff)
    r.(rn_secretFiles).

Inductive Call : Type :=
| CallRegister (node : Node)
| CallHeartbeat (nodeID : string) (used : Resource)
| CallPoll (nodeID : string) (max : Z)
| CallListWorkloads (nodeID : string)
| CallReport (workloadID status containerID : string)
| CallRun (workloadID image imagePullSecret : string)
| CallStop (workloadID containerID : string)
| CallListManaged
| CallWait (d : Duration)
| CallMkdirAll (path : string)
| CallWriteFile (path : string)
| CallRemove (path : string).

Record Worker : Type := MkWorker {
  wk_runner : Runner;
  wk_files : gmap string string;
  wk_calls : list (nat * Call);
  wk_tick : nat
}.

#[export] Instance eta_Worker : Eta Worker := fun r =>
  MkWorker r.(wk_runner) r.(wk_files) r.(wk_calls) r.(wk_tick).

Definition NewRunner (nodeID : string) (restartMaxRetries : Z) (restartBackoff : Duration) : Runner :=
  MkRunner nodeID (MkResource 0 0)
    (if restartMaxRetries <=? 0 then 3 else restartMaxRetries)
    (if restartBackoff <=? 0 then 250 * 1000000 else restartBackoff) ∅.

(** ** Paths *)

(** [filepath.Join(dir, name)] under a rooted [dir] *)
Definition filepath_Join (dir name : string) : string := path_Clean (dir +:+ "/" +:+ name).

(** [filepath.Base]: what follows the last slash, trailing slashes removed *)
Definition filepath_Base (p : string) : string :=
  if String.eqb p "" then "."
  else
    let p := TrimRight p "/" in
    if String.eqb p "" then "/" else default "" (last (Split p "/")).

(** [filepath.Dir] of a clean rooted path *)
Definition filepath_Dir (p : string) : string := path_Clean (p +:+ "/..").

(** ** Accounting *)

Definition charge (used r : Resource) : Resource :=
  MkResource (used.(Resource_MilliCPU) +! r.(Resource_MilliCPU))
    (used.(Resource_MemoryMB) +! r.(Resource_MemoryMB)).

Definition at_least_0 (z : Z) : Z := if z <? 0 then 0 else z.

Definition discharge (used r : Resource) : Resource :=
  MkResource (at_least_0 (used.(Resource_MilliCPU) -! r.(Resource_MilliCPU)))
    (at_least_0 (used.(Resource_MemoryMB) -! r.(Resource_MemoryMB))).

(** [r.restartBackoff * time.Duration(1<<attempt)]: the shift is of a 64-bit
    integer *)
Definition backoff (base : Duration) (attempt : Z) : Duration := base *! wrap64 (Z.shiftl 1 attempt).

(** ** Operations *)

Section Worker.
Context {C : AssignmentClient} {R : Runtime} {H : Host}.

Abbreviation WIO := (M Worker).

Definition interact {A} (c : Call) (f : nat -> Res A) : WIO A := fun w =>
  (f w.(wk_tick), w <| wk_calls ::= fun l => l ++ [(w.(wk_tick), c)] |> <| wk_tick ::= S |>).

Definition runner : WIO Runner := fun w => (Ok w.(wk_runner), w).
Definition set_runner (f : Runner -> Runner) : WIO unit := modify (set wk_runner f).

Definition file_op (c : Call) (f : gmap string string -> gmap string string) : WIO unit := fun w =>
  let w1 := w <| wk_calls ::= fun l => l ++ [(w.(wk_tick), c)] |> <| wk_tick ::= S |> in
  match host_error w.(wk_tick) with
  | Some m => (Err (ErrIO m), w1)
  | None => (Ok tt, w1 <| wk_files ::= f |>)
  end.

Definition os_MkdirAll (path : string) : WIO unit := file_op (CallMkdirAll path) (fun fs => fs).
Definition os_WriteFile (path content : string) : WIO unit := file_op (CallWriteFile path) (insert path content).
Definition os_Remove (path : string) : WIO unit := file_op (CallRemove path) (delete path).

Definition RegisterNode (node : Node) : WIO unit :=
  interact (CallRegister node) (fun n => client_RegisterNode n node).

Definition ReportWorkloadStatus (workloadID status containerID : string) : WIO unit :=
  interact (CallReport workloadID status containerID)
    (fun n => client_ReportWorkloadStatus n workloadID status containerID).

Definition StopWorkload (workloadID containerID : string) : WIO unit :=
  interact (CallStop workloadID containerID)
    (fun n => runtime_StopWorkload n workloadID containerID).

Definition Heartbeat : WIO unit :=
  r ← runner;
  interact (CallHeartbeat r.(rn_nodeID) r.(rn_used))
    (fun n => client_Heartbeat n r.(rn_nodeID) r.(rn_used)).

Definition UsedResource : WIO Resource := r ← runner; mret r.(rn_used).
Definition NodeID : WIO string := r ← runner; mret r.(rn_nodeID).

(** [select] between the context and the timer *)
Definition wait (d : Duration) : WIO bool := fun w =>
  (Ok (host_cancelled w.(wk_tick)),
   w <| wk_calls ::= fun l => l ++ [(w.(wk_tick), CallWait d)] |> <| wk_tick ::= S |>).

Definition RunWorkload (a : Assignment) : WIO string :=
  interact (CallRun a.(Assignment_WorkloadID) a.(Assignment_Image) a.(Assignment_ImagePullSecret))
    (fun n => runtime_RunWorkload n a.(Assignment_WorkloadID) a.(Assignment_Image)
                a.(Assignment_ImagePullSecret)).

(** The loop of [runWithBackoff]: [n] iterations are left, [att] is the number
    of the next one; without any iteration the result is [("", nil)]. *)
Fixpoint run_loop (n : nat) (att : Z) (a : Assignment) (lastErr : option error) : WIO string :=
  match n with
  | O => match lastErr with Some e => throw e | None => mret "" end
  | S n' =>
      res ← attempt (RunWorkload a);
      match res with
      | Ok containerID => mret containerID
      | Err e =>
          r ← runner;
          if att =? r.(rn_restartMaxRetries) -! 1 then throw e
          else
            cancelled ← wait (backoff r.(rn_restartBackoff) att);
            if cancelled : bool then throw (Errorf "context canceled")
            else run_loop n' (att +! 1) a (Some e)
      end
  end.

Definition runWithBackoff (a : Assignment) : WIO string :=
  r ← runner; run_loop (Z.to_nat r.(rn_restartMaxRetries)) 0 a None.

Definition secret_dir (workloadID : string) : string :=
  path_Clean (host_TempDir +:+ "/orch-secrets/" +:+ workloadID).

(** One file of the loop: it is written unless its name is empty. *)
Definition write_secret (dir : string) (created : list string) (f : SecretFile) : WIO (list string) :=
  let name := filepath_Base (TrimSpace f.(SecretFile_Path)) in
  if String.eqb name "" || String.eqb name "." then mret created
  else
    let target := filepath_Join dir name in
    os_WriteFile target f.(SecretFile_Content) ;;
    mret (created ++ [target]).

Definition materializeSecretFiles (workloadID : string) (files : list SecretFile) : WIO unit :=
  if lenZ files =? 0 then mret tt else
  let dir := secret_dir workloadID in
  os_MkdirAll dir ;;
  created ← fold_m files [] (write_secret dir);
  set_runner (set rn_secretFiles (insert workloadID created)).

Definition cleanupSecretFiles (workloadID : string) : WIO unit :=
  r ← runner;
  let paths := default [] (r.(rn_secretFiles) !! workloadID) in
  set_runner (set rn_secretFiles (delete workloadID)) ;;
  for_each paths (fun p => ignore (os_Remove p)) ;;
  match paths with
  | [] => mret tt
  | p :: _ => ignore (os_Remove (filepath_Dir p))
  end.

Definition report (workloadID status containerID : string) : WIO unit :=
  ignore (ReportWorkloadStatus workloadID status containerID).

Definition process_delete (a : Assignment) : WIO unit :=
  cleanupSecretFiles a.(Assignment_WorkloadID) ;;
  err ← attempt (StopWorkload a.(Assignment_WorkloadID) a.(Assignment_ContainerID));
  match err with
  | Err _ => report a.(Assignment_WorkloadID) WorkloadFailed ""
  | Ok _ =>
      set_runner (set rn_used (fun used => discharge used a.(Assignment_Resources))) ;;
      report a.(Assignment_WorkloadID) WorkloadTerminated ""
  end.

Definition process_create (a : Assignment) : WIO unit :=
  err ← attempt (materializeSecretFiles a.(Assignment_WorkloadID) a.(Assignment_SecretFiles));
  match err with
  | Err _ => report a.(Assignment_WorkloadID) WorkloadFailed ""
  | Ok _ =>
      res ← attempt (runWithBackoff a);
      match res with
      | Err _ =>
          cleanupSecretFiles a.(Assignment_WorkloadID) ;;
          report a.(Assignment_WorkloadID) WorkloadFailed ""
      | Ok containerID =>
          set_runner (set rn_used (fun used => charge used a.(Assignment_Resources))) ;;
          report a.(Assignment_WorkloadID) WorkloadRunning containerID
      end
  end.

Definition action_of (a : Assignment) : string :=
  if String.eqb a.(Assignment_Action) "" then "create" else a.(Assignment_Action).

(** One turn of the loop; every branch counts the assignment as processed. *)
Definition process (processed : Z) (a : Assignment) : WIO Z :=
  (if String.eqb (action_of a) "delete" then process_delete a
   else if String.eqb (action_of a) "create" then process_create a
   else mret tt) ;;
  mret (processed +! 1).

Definition ProcessAssignments (max : Z) : WIO Z :=
  r ← runner;
  assignments ← interact (CallPoll r.(rn_nodeID) max)
                  (fun n => client_PollAssignments n r.(rn_nodeID) max);
  fold_m assignments 0 process.

Definition desired_map (desired : list Workload) : gmap string Workload :=
  foldl (fun m w => <[w.(Workload_ID) := w]> m) ∅ desired.

(** The two loops range over maps, in an order that Go leaves open. *)
Definition ReconcileRuntime : WIO unit :=
  r ← runner;
  desired ← interact (CallListWorkloads r.(rn_nodeID))
              (fun n => client_ListNodeWorkloads n r.(rn_nodeID));
  let desiredMap := desired_map desired in
  actual ← interact CallListManaged runtime_ListManagedWorkloads;
  for_each (map_to_list desiredMap) (fun kv =>
    if bool_decide (actual !! kv.1 = None) then report kv.1 WorkloadFailed "" else mret tt) ;;
  for_each (map_to_list actual) (fun kv =>
    if bool_decide (desiredMap !! kv.1 = None) then ignore (StopWorkload kv.1 kv.2) else mret tt).

End Worker.
