(* ===== verification/Grpc.v ===== *)
(** * The gRPC server

    [internal/api/grpcserver.go]: the four methods of the service and the
    conversions between the generated messages and the data model.  The
    messages are those of [api/proto/orchestrator.proto]; a nil message reads
    as the zero values, as the generated getters do.  [int32] fields wrap. *)

From Stdlib Require Import Ascii String.
From S2P Require Import Prelude GoLang GoFloat Effects Model Badger World Store Deployments.

(** [int32(n)] *)
Definition wrap32 (z : Z) : Z := (z + 2 ^ 31) mod 2 ^ 32 - 2 ^ 31.

Record PBResourceRequest : Type := MkPBResourceRequest { pb_MilliCpu : Z; pb_MemoryMb : Z }.

Record PBToleration : Type := MkPBToleration {
  pb_Key : string;
  pb_Value : string;
  pb_Effect : string;
  pb_Operator : string
}.

Record PBDeploymentSpec : Type := MkPBDeploymentSpec {
  pb_Name : string;
  pb_Image : string;
  pb_ImagePullSecret : string;
  pb_Replicas : Z;
  pb_Resources : option PBResourceRequest;
  pb_Labels : gmap string string;
  pb_Tolerations : list PBToleration;
  pb_Priority : Z
}.

Record PBDeployment : Type := MkPBDeployment {
  pb_Id : string;
  pb_Spec : option PBDeploymentSpec;
  pb_Status : string
}.

Record PBClusterNode : Type := MkPBClusterNode {
  pb_NodeId : string;
  pb_NodeStatus : string;
  pb_AllocatableMilliCpu : Z;
  pb_AllocatableMemoryMb : Z;
  pb_UsedMilliCpu : Z;
  pb_UsedMemoryMb : Z
}.

(** The zero value of [model.DeploymentSpec] *)
Definition zero_spec : DeploymentSpec :=
  MkDeploymentSpec "" "" "" "" None None 0 0 (MkResource 0 0) None None
    (MkProbeSpec false 0 0) (MkProbeSpec false 0 0)
    (MkRolloutSpec "" (MkRollingUpdateSpec 0 0) (MkCanarySpec false 0) 0 false 0 f_zero 0).

Definition fromPBToleration (t : PBToleration) : Toleration :=
  MkToleration t.(pb_Key) t.(pb_Value) t.(pb_Effect) t.(pb_Operator).

Definition fromPBDeploymentSpec (spec : option PBDeploymentSpec) : DeploymentSpec :=
  match spec with
  | None => zero_spec
  | Some spec =>
      let resources := match spec.(pb_Resources) with
        | Some r => MkResource r.(pb_MilliCpu) r.(pb_MemoryMb)
        | None => MkResource 0 0
        end in
      zero_spec
        <| DeploymentSpec_Name := spec.(pb_Name) |>
        <| DeploymentSpec_Image := spec.(pb_Image) |>
        <| DeploymentSpec_ImagePullSecret := spec.(pb_ImagePullSecret) |>
        <| DeploymentSpec_Replicas := spec.(pb_Replicas) |>
        <| DeploymentSpec_Priority := spec.(pb_Priority) |>
        <| DeploymentSpec_Resources := resources |>
        <| DeploymentSpec_Labels := Some spec.(pb_Labels) |>
        <| DeploymentSpec_Tolerations := Some (fromPBToleration <$> spec.(pb_Tolerations)) |>
  end.

Definition toPBToleration (t : Toleration) : PBToleration :=
  MkPBToleration t.(Toleration_Key) t.(Toleration_Value) t.(Toleration_Effect) t.(Toleration_Operator).

Definition toPBDeployment (dep : Deployment) : PBDeployment :=
  let spec := dep.(Deployment_Spec) in
  MkPBDeployment dep.(Deployment_ID)
    (Some (MkPBDeploymentSpec spec.(DeploymentSpec_Name) spec.(DeploymentSpec_Image)
       spec.(DeploymentSpec_ImagePullSecret) (wrap32 spec.(DeploymentSpec_Replicas))
       (Some (MkPBResourceRequest spec.(DeploymentSpec_Resources).(Resource_MilliCPU)
          spec.(DeploymentSpec_Resources).(Resource_MemoryMB)))
       (default ∅ spec.(DeploymentSpec_Labels))
       (toPBToleration <$> default [] spec.(DeploymentSpec_Tolerations))
       (wrap32 spec.(DeploymentSpec_Priority))))
    dep.(Deployment_Status).

Definition toPBClusterNode (n : Node) : PBClusterNode :=
  MkPBClusterNode n.(Node_ID) n.(Node_Status)
    n.(Node_Allocatable).(Resource_MilliCPU) n.(Node_Allocatable).(Resource_MemoryMB)
    n.(Node_Used).(Resource_MilliCPU) n.(Node_Used).(Resource_MemoryMB).

Section Grpc.
Context {DB : Type} `{!Badger Blob DB} {E : Env}.

Abbreviation IO := (M (World DB)).

Definition GRPC_CreateDeployment (spec : option PBDeploymentSpec) : IO PBDeployment :=
  dep ← CreateDeployment (fromPBDeploymentSpec spec); mret (toPBDeployment dep).

Definition GRPC_DeleteDeployment (id : string) : IO bool := DeleteDeployment id ;; mret true.

Definition GRPC_ListDeployments : IO (list PBDeployment) :=
  items ← ListDeployments; mret (toPBDeployment <$> items).

Definition GRPC_GetClusterState : IO (list PBClusterNode) :=
  state ← Snapshot; mret (toPBClusterNode <$> state.(ClusterState_Nodes)).

End Grpc.

(** ** What a round trip keeps *)

Lemma wrap32_id z : - 2 ^ 31 <= z < 2 ^ 31 -> wrap32 z = z.
Proof. intros H. unfold wrap32. rewrite Z.mod_small; lia. Qed.

(** A spec as it comes back from a message: the fields the messages do not
    have are reset. *)
Definition pb_fields (s : DeploymentSpec) : DeploymentSpec :=
  zero_spec
    <| DeploymentSpec_Name := s.(DeploymentSpec_Name) |>
    <| DeploymentSpec_Image := s.(DeploymentSpec_Image) |>
    <| DeploymentSpec_ImagePullSecret := s.(DeploymentSpec_ImagePullSecret) |>
    <| DeploymentSpec_Replicas := s.(DeploymentSpec_Replicas) |>
    <| DeploymentSpec_Priority := s.(DeploymentSpec_Priority) |>
    <| DeploymentSpec_Resources := s.(DeploymentSpec_Resources) |>
    <| DeploymentSpec_Labels := Some (default ∅ s.(DeploymentSpec_Labels)) |>
    <| DeploymentSpec_Tolerations := Some (default [] s.(DeploymentSpec_Tolerations)) |>.

Lemma tolerations_round_trip (l : list Toleration) : fromPBToleration <$> (toPBToleration <$> l) = l.
Proof. induction l as [|[] l IH]; [done|]. cbn. by rewrite IH. Qed.

(** A deployment sent as a message and read back keeps its name, image, pull
    secret, resources, labels and tolerations, and its replicas and priority
    when they fit into 32 bits; namespace, mounts, claims, probes and rollout
    are lost. *)
Lemma grpc_round_trip (d : Deployment) :
  - 2 ^ 31 <= d.(Deployment_Spec).(DeploymentSpec_Replicas) < 2 ^ 31 ->
  - 2 ^ 31 <= d.(Deployment_Spec).(DeploymentSpec_Priority) < 2 ^ 31 ->
  fromPBDeploymentSpec (toPBDeployment d).(pb_Spec) = pb_fields d.(Deployment_Spec).
Proof.
  intros Hr Hp. unfold toPBDeployment, fromPBDeploymentSpec, pb_fields. cbv zeta.
  cbn [pb_Spec pb_Name pb_Image pb_ImagePullSecret pb_Replicas pb_Resources pb_Labels pb_Tolerations
    pb_Priority pb_MilliCpu pb_MemoryMb].
  rewrite (wrap32_id _ Hr), (wrap32_id _ Hp), tolerations_round_trip.
  by destruct (DeploymentSpec_Resources _).
Qed.
