(* ===== verification/Dns.v ===== *)
(** * The DNS server

    [handleQuery] of [internal/dnsserver/server.go]: A questions under the
    cluster domain are answered with the ready IPv4 endpoints of the service.
    The message type is that of the DNS package, reduced to the fields the
    handler reads and writes; [ParseIP4] is [net.ParseIP] followed by [To4], a
    parameter. *)

From Stdlib Require Import Ascii String.
From S2P Require Import Prelude GoLang GoText GoFloat Effects Model Badger World Store Services.

Definition TypeA : Z := 1.
Definition ClassINET : Z := 1.
Definition cluster_suffix : string := ".default.svc.cluster.local".

Record Question : Type := MkQuestion { q_Name : string; q_Qtype : Z }.

(** [dns.A] with its header *)
Record ARecord : Type := MkARecord {
  a_Name : string;
  a_Class : Z;
  a_Ttl : Z;
  a_A : string
}.

Record DnsReply : Type := MkDnsReply { reply_Authoritative : bool; reply_Answer : list ARecord }.

(** [uint32(ttl)] *)
Definition uint32 (z : Z) : Z := z mod 2 ^ 32.

Section Dns.
Context {DB : Type} `{!Badger Blob DB} {E : Env} (ParseIP4 : string -> option string).

Abbreviation IO := (M (World DB)).

Definition answer_records (q : Question) (ttl : Z) (endpoints : list ServiceEndpoint) : list ARecord :=
  omap (fun ep =>
    if negb ep.(ServiceEndpoint_Ready) then None
    else match ParseIP4 ep.(ServiceEndpoint_Address) with
         | Some ip => Some (MkARecord q.(q_Name) ClassINET (uint32 ttl) ip)
         | None => None
         end) endpoints.

(** One question of the loop. *)
Definition answer_question (answers : list ARecord) (q : Question) : IO (list ARecord) :=
  if negb (q.(q_Qtype) =? TypeA) then mret answers else
  let name := TrimSuffix q.(q_Name) "." in
  if negb (HasSuffix (ToLower name) cluster_suffix) then mret answers else
  let svcName := TrimSuffix name cluster_suffix in
  r ← attempt (ResolveServiceDNS svcName);
  mret (match r with
        | Err _ => answers
        | Ok (_, endpoints, ttl) =>
            let ttl := if ttl <=? 0 then 30 else ttl in
            answers ++ answer_records q ttl endpoints
        end).

Definition handleQuery (questions : list Question) : IO DnsReply :=
  answers ← fold_m questions [] answer_question;
  mret (MkDnsReply true answers).

(** Every answer is the address of a ready endpoint. *)
Lemma answer_records_ready q ttl endpoints a :
  a ∈ answer_records q ttl endpoints ->
  exists ep, ep ∈ endpoints /\ ep.(ServiceEndpoint_Ready) = true
    /\ ParseIP4 ep.(ServiceEndpoint_Address) = Some a.(a_A) /\ a.(a_Name) = q.(q_Name).
Proof.
  unfold answer_records. rewrite list_elem_of_omap. intros (ep & Hin & Ha). exists ep. split; [done|].
  destruct (ServiceEndpoint_Ready ep); [|done]. cbn in Ha.
  destruct (ParseIP4 _) as [ip|] eqn:Hip; [|done]. injection Ha as <-. done.
Qed.

End Dns.

(** The suffix is recognised in any case but removed only in lower case: a
    question that differs in the case of the domain, which DNS does not
    distinguish, is looked up under the whole name. *)
Example suffix_case :
  let name := "web.DEFAULT.svc.cluster.local" in
  HasSuffix (ToLower name) cluster_suffix = true /\ TrimSuffix name cluster_suffix = name.
Proof. split; reflexivity. Qed.
