(* ===== verification/Managers.v ===== *)
(** * The controller manager and the plugin manager

    [internal/controller/manager.go]: the loop that tries to lead and, when it
    does, reconciles its shard.  A turn of the loop is a step; the loop ends
    when the context is done.  [internal/plugin/manager.go]: the registry of
    plugins. *)

From Stdlib Require Import Ascii String.
From S2P Require Import Prelude GoLang GoFloat Effects Model Badger World Store StoreFacts Events.
From S2P Require Import Deployments Nodes Services Autoscaler Volumes Lease Jobs Control.

(** ** Controller manager *)

Record Manager : Type := MkManager {
  m_interval : Duration;
  m_controllerID : string;
  m_shardIndex : Z;
  m_shardTotal : Z;
  m_lease : Duration
}.

Definition NewManager (interval : Duration) (controllerID : string) (shardIndex shardTotal : Z)
    (lease : Duration) : Manager :=
  let shardTotal := if shardTotal <=? 0 then 1 else shardTotal in
  let shardIndex := if shardIndex <? 0 then 0 else shardIndex in
  let shardIndex := if shardTotal <=? shardIndex then go_mod shardIndex shardTotal else shardIndex in
  let lease := if lease <=? 0 then seconds 10 else lease in
  MkManager interval controllerID shardIndex shardTotal lease.

(** A turn of the loop: the context is done, or the ticker fires. *)
Inductive ManagerTurn : Type := ManagerDone | ManagerTick.

Section Manager.
Context {DB : Type} `{!Badger Blob DB} {E : Env}.

Abbreviation IO := (M (World DB)).

(** The result says whether the loop goes on.  A panic of the pass ends the
    process and is passed on. *)
Definition Run_turn (m : Manager) (turn : ManagerTurn) : IO bool :=
  match turn with
  | ManagerDone =>
      ignore (ReleaseControllerLeadership m.(m_controllerID)) ;; mret false
  | ManagerTick =>
      r ← attempt (TryAcquireControllerLeadership m.(m_controllerID) m.(m_lease));
      match r with
      | Err _ => mret true
      | Ok (leader, _) =>
          if negb leader then mret true else
          err ← attempt (ReconcileShard m.(m_shardIndex) m.(m_shardTotal));
          match err with
          | Err (Panic msg) => throw (Panic msg)
          | _ => mret true
          end
      end
  end.

End Manager.

(** The shard a manager works on exists, whatever it was configured with. *)
Lemma NewManager_shard interval id index total lease :
  let m := NewManager interval id index total lease in
  0 <= m.(m_shardIndex) < m.(m_shardTotal) /\ 0 < m.(m_lease).
Proof.
  unfold NewManager, go_mod. cbv zeta. cbn [m_shardIndex m_shardTotal m_lease].
  split; [|destruct (Z.leb_spec lease 0); [done|lia]].
  destruct (Z.leb_spec total 0), (Z.ltb_spec index 0).
  - cbn. lia.
  - destruct (Z.leb_spec 1 index); [rewrite Z.rem_1_r; lia|lia].
  - destruct (Z.leb_spec total 0); lia.
  - destruct (Z.leb_spec total index); [|lia]. apply Z.rem_bound_pos; lia.
Qed.

Section ManagerFacts.
Context {DB : Type} `{!Badger Blob DB, !BadgerLaws Blob DB} {E : Env}.

(** A controller that does not lead changes nothing. *)
Lemma standby_idle m w w' lease :
  TryAcquireControllerLeadership m.(m_controllerID) m.(m_lease) w = (Ok (false, lease), w') ->
  Run_turn m ManagerTick w = (Ok true, w') /\ w_db w' = w_db w.
Proof.
  intros H. split.
  - unfold Run_turn, mbind, M_bind, attempt. by rewrite H.
  - unfold TryAcquireControllerLeadership in H. destruct (blank _); [done|].
    apply bind_inv in H as [(v & w1 & Hr & H)|(e & _ & [=])].
    assert (Hdb : w_db w1 = w_db w).
    { assert (Hs : steps (dbrel (@eq DB)) (acquire_read : M (World DB) LeaseView)) by store_steps.
      specialize (Hs w). by rewrite Hr in Hs. }
    unfold acquire_write in H. destruct (may_lead _ _); [|injection H as _ _ <-; exact Hdb].
    apply bind_inv in H as [(u & w2 & _ & H)|(e & _ & [=])].
    apply bind_inv in H as [(u' & w3 & _ & H)|(e & _ & [=])]. done.
Qed.

End ManagerFacts.

(** ** Plugin manager *)

Record RuntimeIsolationPolicy : Type := MkRuntimeIsolationPolicy {
  ExecTimeoutSeconds : Z;
  ReadOnlyFS : bool;
  DropNetwork : bool
}.

Record Registration : Type := MkRegistration {
  reg_Name : string;
  reg_Type : string;
  reg_Path : string;
  reg_Isolation : RuntimeIsolationPolicy;
  reg_Enabled : bool
}.

#[export] Instance eta_Registration : Eta Registration := fun r =>
  MkRegistration r.(reg_Name) r.(reg_Type) r.(reg_Path) r.(reg_Isolation) r.(reg_Enabled).

Abbreviation Registry := (gmap string Registration) (only parsing).

Definition Register (r : Registration) : M Registry unit :=
  if String.eqb r.(reg_Name) "" then throw (Errorf "plugin name is required") else
  if String.eqb r.(reg_Type) "" then throw (Errorf "plugin type is required") else
  modify (insert r.(reg_Name) r).

(** In an order that Go leaves open. *)
Definition List_registrations : M Registry (list Registration) := fun m => (Ok (map_to_list m).*2, m).

Definition Enable (name : string) (enabled : bool) : M Registry unit := fun m =>
  match m !! name with
  | None => (Err (Errorf "plugin not found"), m)
  | Some r => (Ok tt, <[name := r <| reg_Enabled := enabled |>]> m)
  end.

(** Every plugin is listed under its own name. *)
Definition registry_ok (m : Registry) : Prop :=
  forall name r, m !! name = Some r -> r.(reg_Name) = name /\ name <> "" /\ r.(reg_Type) <> "".

Lemma registry_Register r : steps (keeps registry_ok) (Register r).
Proof.
  unfold Register. destruct (String.eqb_spec (reg_Name r) ""); [apply steps_throw, _|].
  destruct (String.eqb_spec (reg_Type r) ""); [apply steps_throw, _|].
  intros m Hm name r'. cbn. rewrite lookup_insert_Some. intros [[<- <-]|[_ Hr]]; [done|by apply Hm].
Qed.

Lemma registry_Enable name b : steps (keeps registry_ok) (Enable name b).
Proof.
  intros m Hm. unfold Enable. destruct (m !! name) as [r|] eqn:Hr; [|exact Hm].
  intros name' r'. cbn. rewrite lookup_insert_Some. intros [[<- <-]|[_ Hr']]; [|by apply Hm].
  exact (Hm name r Hr).
Qed.
