(* ===== verification/Config.v ===== *)
(** * Configuration

    [internal/config/config.go]: the settings of the API server and of the
    worker, read from the environment.  [getenv] is [os.Getenv], [""] for a
    variable that is not set. *)

From Stdlib Require Import Ascii String.
From S2P Require Import Prelude GoLang GoText Effects Model.

Record APIServerConfig : Type := MkAPIServerConfig {
  HTTPAddr : string;
  HTTPSEnabled : bool;
  HTTPSAddr : string;
  TLSCertFile : string;
  TLSKeyFile : string;
  TLSClientCAFile : string;
  GRPCAddr : string;
  DNSAddr : string;
  EnableDNSServer : bool;
  DBPath : string;
  APIToken : string;
  AuthMode : string;
  JWTSecret : string;
  JWTIssuer : string;
  JWTAudience : string;
  JWKSURL : string;
  SchedulerPolicy : string;
  ControllerID : string;
  ControllerShard : Z;
  ControllerTotal : Z;
  ControllerLeaseSeconds : Z;
  DNSExtraAddrs : list string
}.

Record WorkerConfig : Type := MkWorkerConfig {
  WorkerID : string;
  ServerURL : string;
  TLSServerName : string;
  TLSCACertFile : string;
  TLSClientCertFile : string;
  TLSClientKeyFile : string;
  NodeLabels : gmap string string;
  NodeTaints : list Taint;
  HeartbeatInterval : Duration;
  AgentToken : string;
  RuntimeDriver : string;
  RestartMaxRetries : Z;
  RestartBackoffMS : Z;
  MetricsAddr : string
}.

Definition parsePositiveInt (raw : string) (fallback : Z) : Z :=
  match Atoi (TrimSpace raw) with
  | Some v => if v <=? 0 then fallback else v
  | None => fallback
  end.

Definition parseNonNegativeInt (raw : string) (fallback : Z) : Z :=
  match Atoi (TrimSpace raw) with
  | Some v => if v <? 0 then fallback else v
  | None => fallback
  end.

Definition parseCSV (raw : string) : list string :=
  let raw := TrimSpace raw in
  if String.eqb raw "" then []
  else List.filter (fun v => negb (String.eqb v "")) (TrimSpace <$> Split raw ",").

Definition parse_label (segment : string) : option (string * string) :=
  '(k, v) ← SplitN2 (TrimSpace segment) "=";
  let k := TrimSpace k in
  let v := TrimSpace v in
  if String.eqb k "" || String.eqb v "" then None else Some (k, v).

Definition parseLabels (raw : string) : gmap string string :=
  if blank raw then ∅
  else foldl (fun labels segment => match parse_label segment with
         | Some (k, v) => <[k := v]> labels
         | None => labels
         end) ∅ (Split raw ",").

Definition parse_taint (seg : string) : option Taint :=
  match Split (TrimSpace seg) ":" with
  | [head; effect] =>
      '(k, v) ← SplitN2 (TrimSpace head) "=";
      let key := TrimSpace k in
      let val := TrimSpace v in
      let effect := TrimSpace effect in
      if String.eqb key "" || String.eqb effect "" then None else Some (MkTaint key val effect)
  | _ => None
  end.

Definition parseTaints (raw : string) : list Taint :=
  if blank raw then [] else omap parse_taint (Split raw ",").

Section Config.
Context (getenv : string -> string).

Definition envOrDefault (key fallback : string) : string :=
  let v := TrimSpace (getenv key) in if negb (String.eqb v "") then v else fallback.

Definition LoadAPIServerConfig : APIServerConfig := {|
  HTTPAddr := envOrDefault "ORCH_HTTP_ADDR" ":8080";
  HTTPSEnabled := EqualFold (envOrDefault "ORCH_HTTPS_ENABLED" "false") "true";
  HTTPSAddr := envOrDefault "ORCH_HTTPS_ADDR" ":8443";
  TLSCertFile := envOrDefault "ORCH_TLS_CERT_FILE" "";
  TLSKeyFile := envOrDefault "ORCH_TLS_KEY_FILE" "";
  TLSClientCAFile := envOrDefault "ORCH_TLS_CLIENT_CA_FILE" "";
  GRPCAddr := envOrDefault "ORCH_GRPC_ADDR" ":9090";
  DNSAddr := envOrDefault "ORCH_DNS_ADDR" ":1053";
  EnableDNSServer := EqualFold (envOrDefault "ORCH_ENABLE_DNS_SERVER" "true") "true";
  DBPath := envOrDefault "ORCH_DB_PATH" "./badger";
  APIToken := envOrDefault "ORCH_API_TOKEN" "dev-token";
  AuthMode := envOrDefault "ORCH_AUTH_MODE" "static";
  JWTSecret := envOrDefault "ORCH_JWT_SECRET" "";
  JWTIssuer := envOrDefault "ORCH_JWT_ISSUER" "";
  JWTAudience := envOrDefault "ORCH_JWT_AUDIENCE" "";
  JWKSURL := envOrDefault "ORCH_JWKS_URL" "";
  SchedulerPolicy := envOrDefault "ORCH_SCHEDULER_POLICY" "least-loaded";
  ControllerID := envOrDefault "ORCH_CONTROLLER_ID" "controller-1";
  ControllerShard := parseNonNegativeInt (envOrDefault "ORCH_CONTROLLER_SHARD_INDEX" "0") 0;
  ControllerTotal := parsePositiveInt (envOrDefault "ORCH_CONTROLLER_SHARD_TOTAL" "1") 1;
  ControllerLeaseSeconds := parsePositiveInt (envOrDefault "ORCH_CONTROLLER_LEASE_SECONDS" "10") 10;
  DNSExtraAddrs := parseCSV (envOrDefault "ORCH_DNS_EXTRA_ADDRS" "")
|}.

Definition heartbeat_seconds : Z :=
  match Atoi (envOrDefault "ORCH_HEARTBEAT_SECONDS" "5") with
  | Some v => if v <=? 0 then 5 else v
  | None => 5
  end.

Definition LoadWorkerConfig : WorkerConfig := {|
  WorkerID := envOrDefault "ORCH_WORKER_ID" "worker-local";
  ServerURL := TrimRight (envOrDefault "ORCH_SERVER_URL" "http://localhost:8080") "/";
  TLSServerName := envOrDefault "ORCH_TLS_SERVER_NAME" "";
  TLSCACertFile := envOrDefault "ORCH_TLS_CA_CERT_FILE" "";
  TLSClientCertFile := envOrDefault "ORCH_TLS_CLIENT_CERT_FILE" "";
  TLSClientKeyFile := envOrDefault "ORCH_TLS_CLIENT_KEY_FILE" "";
  NodeLabels := parseLabels (envOrDefault "ORCH_NODE_LABELS" "");
  NodeTaints := parseTaints (envOrDefault "ORCH_NODE_TAINTS" "");
  HeartbeatInterval := seconds heartbeat_seconds;
  AgentToken := envOrDefault "ORCH_AGENT_TOKEN" "dev-token";
  RuntimeDriver := envOrDefault "ORCH_RUNTIME_DRIVER" "docker";
  RestartMaxRetries := parsePositiveInt (envOrDefault "ORCH_RESTART_MAX_RETRIES" "3") 3;
  RestartBackoffMS := parsePositiveInt (envOrDefault "ORCH_RESTART_BACKOFF_MS" "250") 250;
  MetricsAddr := envOrDefault "ORCH_WORKER_METRICS_ADDR" ":8081"
|}.

(** Numbers are in range whatever the environment holds. *)
Lemma config_numbers :
  0 <= ControllerShard LoadAPIServerConfig /\ 0 < ControllerTotal LoadAPIServerConfig
  /\ 0 < ControllerLeaseSeconds LoadAPIServerConfig
  /\ 0 < RestartMaxRetries LoadWorkerConfig /\ 0 < RestartBackoffMS LoadWorkerConfig.
Proof.
  assert (Hp : forall raw d, 0 < d -> 0 < parsePositiveInt raw d).
  { intros raw d Hd. unfold parsePositiveInt. destruct (Atoi _) as [v|]; [|done].
    by destruct (Z.leb_spec v 0). }
  assert (Hn : forall raw, 0 <= parseNonNegativeInt raw 0).
  { intros raw. unfold parseNonNegativeInt. destruct (Atoi _) as [v|]; [|done].
    by destruct (Z.ltb_spec v 0). }
  cbn. split; [apply Hn|]. repeat split; by apply Hp.
Qed.

End Config.
