(* ===== verification/Runtimes.v ===== *)
(** * Container runtimes

    [internal/runtime/factory.go]: the registry of drivers and the in-memory
    runtime.  [internal/runtime/docker.go] and [internal/runtime/remote_http.go]:
    the drivers that call the Docker client and a remote HTTP runtime, which
    are classes of oracles. *)

From Stdlib Require Import Ascii String.
From S2P Require Import Prelude GoLang GoText Effects Model Base64 Worker.

(** ** Drivers *)

Section Drivers.
Context {Factory : Type}.

Abbreviation Drivers := (gmap string Factory) (only parsing).

Definition RegisterDriver (name : string) (factory : Factory) (drivers : Drivers) : Drivers :=
  <[ToLower (TrimSpace name) := factory]> drivers.

(** The factory a name selects. *)
Definition NewRuntimeFromDriver (name : string) (drivers : Drivers) : Res Factory :=
  let name := ToLower (TrimSpace name) in
  let name := if String.eqb name "" then "docker" else name in
  match drivers !! name with
  | None => Err (Errorf ("runtime driver not found: " +:+ name))
  | Some factory => Ok factory
  end.

(** A driver is found under every spelling of its name. *)
Lemma driver_found name name' (f : Factory) drivers :
  ToLower (TrimSpace name') = ToLower (TrimSpace name) -> ToLower (TrimSpace name) <> "" ->
  NewRuntimeFromDriver name' (RegisterDriver name f drivers) = Ok f.
Proof.
  intros Hn Hne. unfold NewRuntimeFromDriver, RegisterDriver. cbv zeta. rewrite Hn.
  apply String.eqb_neq in Hne. by rewrite Hne, lookup_insert_eq.
Qed.

End Drivers.

(** ** The in-memory runtime *)

Abbreviation InMemoryRuntime := (gmap string string) (only parsing).

Definition Mem_RunWorkload (workloadID : string) : M InMemoryRuntime string :=
  let containerID := "mem-" +:+ workloadID in
  modify (insert workloadID containerID) ;; mret containerID.

(** The first entry with this container; map order decides when there are
    several. *)
Definition mem_by_container (containerID : string) (workloads : gmap string string) : option string :=
  fst <$> List.find (fun kv => String.eqb kv.2 containerID) (map_to_list workloads).

Definition Mem_StopWorkload (workloadID containerID : string) : M InMemoryRuntime unit :=
  if negb (String.eqb workloadID "") then modify (delete workloadID)
  else modify (fun m => match mem_by_container containerID m with Some k => delete k m | None => m end).

Definition Mem_ListManagedWorkloads : M InMemoryRuntime (gmap string string) := fun m => (Ok m, m).

(** A workload that was started is managed until it is stopped. *)
Lemma mem_run_stop workloadID containerID m : workloadID <> "" ->
  let m1 := (Mem_RunWorkload workloadID m).2 in
  m1 !! workloadID = Some ("mem-" +:+ workloadID)
  /\ (Mem_StopWorkload workloadID containerID m1).2 = delete workloadID m.
Proof.
  intros Hne. cbn. split; [apply lookup_insert_eq|]. unfold Mem_StopWorkload.
  apply String.eqb_neq in Hne. rewrite Hne. cbn. apply delete_insert_eq.
Qed.

(** ** Docker *)

Definition workload_label : string := "orchestrator.workload".

(** A container to create: its image, command, labels and name. *)
Record ContainerConfig : Type := MkContainerConfig {
  cc_Image : string;
  cc_Cmd : list string;
  cc_Labels : gmap string string;
  cc_name : string
}.

(** The calls of the Docker client. *)
Inductive DockerCall : Type :=
| ImagePull (image registryAuth : string)
| ContainerCreate (cfg : ContainerConfig)
| ContainerStart (id : string)
| ContainerStop (id : string) (timeout : Z)
| ContainerRemove (id : string) (force : bool)
| ContainerList (all : bool) (label : string).

(** Its answer to the [n]-th call; the answers to stopping and removing are
    ignored by the driver. *)
Class DockerAPI := {
  docker_ImagePull : nat -> string -> string -> Res unit;
  docker_ContainerCreate : nat -> ContainerConfig -> Res string;
  docker_ContainerStart : nat -> string -> Res unit;
  docker_ContainerList : nat -> bool -> string -> Res (list (string * gmap string string))
}.

(** The calls made so far. *)
Abbreviation Docker := (list DockerCall) (only parsing).

Section Docker.
Context {D : DockerAPI}.

Definition docker {A} (c : DockerCall) (answer : nat -> Res A) : M Docker A := fun calls =>
  (answer (length calls), calls ++ [c]).

(** [if err != nil { return "", fmt.Errorf(msg, err) }] *)
Definition wrap_error {A} (msg : string) (m : M Docker A) : M Docker A :=
  r ← attempt m;
  match r with Err e => throw (Wrapf msg e) | Ok a => mret a end.

Definition container_for (workloadID imageRef : string) : ContainerConfig :=
  MkContainerConfig imageRef ["sleep"; "3600"] {[workload_label := workloadID]} ("orch-" +:+ workloadID).

Definition registry_auth (imagePullSecret : string) : string :=
  if blank imagePullSecret then "" else EncodeToString imagePullSecret.

Definition Docker_RunWorkload (workloadID imageRef imagePullSecret : string) : M Docker string :=
  let auth := registry_auth imagePullSecret in
  wrap_error "image pull: "
    (docker (ImagePull imageRef auth) (fun n => docker_ImagePull n imageRef auth)) ;;
  let cfg := container_for workloadID imageRef in
  id ← wrap_error "container create: "
         (docker (ContainerCreate cfg) (fun n => docker_ContainerCreate n cfg));
  wrap_error "container start: " (docker (ContainerStart id) (fun n => docker_ContainerStart n id)) ;;
  mret id.

Definition add_container (out : gmap string string) (c : string * gmap string string) : gmap string string :=
  match c.2 !! workload_label with
  | Some workloadID => if blank workloadID then out else <[workloadID := c.1]> out
  | None => out
  end.

Definition Docker_ListManagedWorkloads : M Docker (gmap string string) :=
  containers ← docker (ContainerList true workload_label)
                 (fun n => docker_ContainerList n true workload_label);
  mret (foldl add_container ∅ containers).

Definition docker_discard (containerID : string) : M Docker unit :=
  docker (ContainerStop containerID 10) (fun _ => Ok tt) ;;
  docker (ContainerRemove containerID true) (fun _ => Ok tt).

Definition Docker_StopWorkload (workloadID containerID : string) : M Docker unit :=
  if blank containerID then
    managed ← Docker_ListManagedWorkloads;
    let containerID := default "" (managed !! workloadID) in
    if blank containerID then mret tt else docker_discard containerID
  else docker_discard containerID.

Lemma wrap_error_log {A} msg c (f : nat -> Res A) calls a calls' :
  wrap_error msg (docker c f) calls = (Ok a, calls') -> calls' = calls ++ [c].
Proof.
  unfold wrap_error, docker, attempt, mbind, M_bind. destruct (f _); [|done]. by intros [= <- <-].
Qed.

(** A workload that was started carries its label, so that it is found again
    when the containers are listed. *)
Lemma docker_run_found workloadID imageRef secret calls id calls' rest : blank workloadID = false ->
  Docker_RunWorkload workloadID imageRef secret calls = (Ok id, calls') ->
  calls' = calls ++ [ImagePull imageRef (registry_auth secret);
                     ContainerCreate (container_for workloadID imageRef); ContainerStart id]
  /\ add_container rest (id, cc_Labels (container_for workloadID imageRef)) = <[workloadID := id]> rest.
Proof.
  intros Hb H. split.
  - unfold Docker_RunWorkload in H. cbv zeta in H.
    apply bind_inv in H as [([] & s1 & H1 & H)|(? & _ & ?)]; [|done].
    apply bind_inv in H as [(cid & s2 & H2 & H)|(? & _ & ?)]; [|done].
    apply bind_inv in H as [([] & s3 & H3 & H)|(? & _ & ?)]; [|done].
    apply wrap_error_log in H1 as ->, H2 as ->, H3 as ->. injection H as -> <-. by rewrite <- !app_assoc.
  - unfold add_container, container_for. cbn [fst snd cc_Labels].
    by rewrite lookup_singleton_eq, Hb.
Qed.

End Docker.

(** ** The remote runtime *)

Record RemoteHTTPRuntime : Type := MkRemoteHTTPRuntime { rr_baseURL : string; rr_token : string }.

Definition NewRemoteHTTPRuntime (baseURL token : string) : RemoteHTTPRuntime :=
  MkRemoteHTTPRuntime (TrimRight (TrimSpace baseURL) "/") (TrimSpace token).

(** The factory [init] registers; [getenv] is [os.Getenv]. *)
Definition remote_http_factory (getenv : string -> string) : RemoteHTTPRuntime :=
  let base := TrimSpace (getenv "ORCH_REMOTE_RUNTIME_URL") in
  let base := if String.eqb base "" then "http://localhost:18080" else base in
  NewRemoteHTTPRuntime base (TrimSpace (getenv "ORCH_REMOTE_RUNTIME_TOKEN")).

(** The body of a request: the fields of a JSON object, or none. *)
Record RemoteRequest : Type := MkRemoteRequest {
  rq_method : string;
  rq_url : string;
  rq_header : gmap string (list string);
  rq_fields : option (list (string * string))
}.

(** [http.Client.Do] at the [n]-th request, with the status and the body; and
    the JSON decoder at the two answers ([None] is a map that is absent). *)
Class RemoteAPI := {
  remote_Do : nat -> RemoteRequest -> Res (Z * string);
  decode_containerId : string -> Res string;
  decode_workloads : string -> Res (option (gmap string string))
}.

Section Remote.
Context {A : RemoteAPI} (r : RemoteHTTPRuntime).

Definition remote_header : gmap string (list string) :=
  let h := header_Set "Content-Type" "application/json" ∅ in
  if negb (String.eqb r.(rr_token) "") then header_Set "Authorization" ("Bearer " +:+ r.(rr_token)) h
  else h.

(** [doJSON]; [decode] is what becomes of the body of a success *)
Definition doJSON {T} (n : nat) (method path : string) (fields : option (list (string * string)))
    (decode : string -> Res T) : Res T :=
  match remote_Do n (MkRemoteRequest method (r.(rr_baseURL) +:+ path) remote_header fields) with
  | Err e => Err e
  | Ok (status, body) =>
      if (status <? 200) || (300 <=? status)
      then Err (Errorf ("remote runtime status " +:+ fmt_d status))
      else decode body
  end.

Definition Remote_RunWorkload (n : nat) (workloadID imageRef imagePullSecret : string) : Res string :=
  match doJSON n "POST" "/v1/runtime/workloads"
          (Some [("workloadId", workloadID); ("image", imageRef); ("imagePullSecret", imagePullSecret)])
          decode_containerId with
  | Err e => Err e
  | Ok containerID =>
      if blank containerID then Err (Errorf "remote runtime returned empty container id")
      else Ok containerID
  end.

Definition Remote_StopWorkload (n : nat) (workloadID containerID : string) : Res unit :=
  doJSON n "POST" "/v1/runtime/workloads/stop"
    (Some [("workloadId", workloadID); ("containerId", containerID)]) (fun _ => Ok tt).

Definition Remote_ListManagedWorkloads (n : nat) : Res (gmap string string) :=
  match doJSON n "GET" "/v1/runtime/workloads" None decode_workloads with
  | Err e => Err e
  | Ok workloads => Ok (default ∅ workloads)
  end.

(** The remote runtime is one the worker can be built on. *)
#[export] Instance remote_Runtime : Runtime := {|
  runtime_RunWorkload := Remote_RunWorkload;
  runtime_StopWorkload := Remote_StopWorkload;
  runtime_ListManagedWorkloads := Remote_ListManagedWorkloads
|}.

(** A workload counts as started only with a container to stop it by. *)
Lemma remote_run_named n workloadID imageRef secret id :
  Remote_RunWorkload n workloadID imageRef secret = Ok id -> blank id = false.
Proof. unfold Remote_RunWorkload. destruct (doJSON _ _ _ _ _); [|done]. case_match; [done|]. by intros [= <-]. Qed.

End Remote.
