(* ===== verification/Kms.v ===== *)
(** * The key-management key and TLS certificates

    [getKMSKey] of [internal/service/features.go]: the key under which secrets
    are sealed ([env_kmsKey] of the environment), taken from a variable, a file
    or a URL.  SHA-256 is a parameter.  And the certificate reloader of
    [cmd/apiserver/main.go]. *)

From Stdlib Require Import Ascii String.
From S2P Require Import Prelude GoLang Effects Base64.

(** ** The key *)

Section KMS.
(** [os.Getenv], [os.ReadFile], [http.Get] with the body read to its end, and
    [sha256.Sum256]. *)
Context (getenv : string -> string) (readFile httpGet : string -> option string) (sha256 : string -> string).

Definition from_source (variable : string) (read : string -> option string) : string :=
  let source := TrimSpace (getenv variable) in
  if negb (String.eqb source "") then
    match read source with Some blob => TrimSpace blob | None => "" end
  else "".

Definition raw_key : string :=
  let raw := TrimSpace (getenv "ORCH_KMS_KEY") in
  let raw := if String.eqb raw "" then from_source "ORCH_KMS_KEY_FILE" readFile else raw in
  if String.eqb raw "" then from_source "ORCH_KMS_KEY_ENDPOINT" httpGet else raw.

(** The value of [kmsKeyValue] after [kmsKeyOnce]; [""] is nil. *)
Definition getKMSKey : string :=
  let raw := raw_key in
  if String.eqb raw "" then ""
  else match DecodeString raw with
       | Some decoded =>
           if Nat.leb 32 (String.length decoded) then String.substring 0 32 decoded
           else if Nat.ltb 0 (String.length decoded) then sha256 decoded
           else sha256 raw
       | None => sha256 raw
       end.

Lemma substring_length (s : string) n : (n <= String.length s)%nat -> String.length (String.substring 0 n s) = n.
Proof.
  revert n. induction s as [|c s IH]; intros [|n] H; cbn in *; [done|lia|done|]. f_equal. apply IH. lia.
Qed.

(** The key is absent or has 32 bytes, which AES-256 needs and
    [encryptStringAESGCM] checks. *)
Lemma getKMSKey_length :
  (forall s, String.length (sha256 s) = 32%nat) ->
  getKMSKey = "" \/ String.length getKMSKey = 32%nat.
Proof.
  intros Hsha. unfold getKMSKey. destruct (String.eqb _ ""); [by left|right].
  destruct (DecodeString raw_key) as [decoded|]; [|apply Hsha].
  destruct (Nat.leb_spec 32 (String.length decoded)); [by apply substring_length|].
  destruct (Nat.ltb _ _); apply Hsha.
Qed.

End KMS.

(** ** Certificates *)

Section Certs.
Context {Certificate : Type}.

Record certReloader : Type := MkcertReloader {
  cr_cert : option Certificate;
  cr_certModTime : Time;
  cr_keyModTime : Time;
  cr_lastChecked : Time;
  cr_checkInterval : Duration
}.

#[local] Instance eta_certReloader : Eta certReloader := fun r =>
  MkcertReloader r.(cr_cert) r.(cr_certModTime) r.(cr_keyModTime) r.(cr_lastChecked) r.(cr_checkInterval).

(** The file system at one call: the modification times of the two files and
    the key pair they hold. *)
Record CertFiles : Type := MkCertFiles {
  stat_cert : Res Time;
  stat_key : Res Time;
  key_pair : Res Certificate
}.

Definition reload (t : Time) (fs : CertFiles) (force : bool) : M certReloader unit := fun r =>
  if negb force && (time_Sub t r.(cr_lastChecked) <? r.(cr_checkInterval)) then (Ok tt, r)
  else
    let r := r <| cr_lastChecked := t |> in
    match fs.(stat_cert), fs.(stat_key) with
    | Err e, _ => (Err (Wrapf "stat cert file: " e), r)
    | Ok _, Err e => (Err (Wrapf "stat key file: " e), r)
    | Ok c, Ok k =>
        if negb force && negb (After c r.(cr_certModTime)) && negb (After k r.(cr_keyModTime))
        then (Ok tt, r)
        else match fs.(key_pair) with
             | Err e => (Err (Wrapf "load tls key pair: " e), r)
             | Ok loaded =>
                 (Ok tt, r <| cr_cert := Some loaded |> <| cr_certModTime := c |> <| cr_keyModTime := k |>)
             end
    end.

Definition newCertReloader (certPath keyPath : string) (t : Time) (fs : CertFiles) : Res certReloader :=
  if String.eqb certPath "" || String.eqb keyPath ""
  then Err (Errorf "ORCH_TLS_CERT_FILE and ORCH_TLS_KEY_FILE are required when ORCH_HTTPS_ENABLED=true")
  else
    let '(err, r) := reload t fs true (MkcertReloader None 0 0 0 (seconds 5)) in
    match err with Err e => Err e | Ok _ => Ok r end.

Definition GetCertificate (t : Time) (fs : CertFiles) : M certReloader Certificate :=
  reload t fs false ;;
  r ← get_state;
  match r.(cr_cert) with
  | None => throw (Errorf "tls certificate is not loaded")
  | Some c => mret c
  end.

(** A reloader that was created always holds a certificate, and a failed
    reload keeps it. *)
Lemma newCertReloader_loaded certPath keyPath t fs r :
  newCertReloader certPath keyPath t fs = Ok r -> is_Some r.(cr_cert).
Proof.
  unfold newCertReloader, reload. destruct (_ || _); [done|]. cbn.
  destruct (stat_cert fs), (stat_key fs); try done. cbn. destruct (key_pair fs); [|done].
  intros [= <-]. by eexists.
Qed.

Lemma reload_keeps_cert t fs force : steps (keeps (fun r => is_Some r.(cr_cert))) (reload t fs force).
Proof.
  intros r Hr. unfold reload. destruct (_ && _); [done|]. cbv zeta.
  destruct (stat_cert fs), (stat_key fs); try done. destruct (_ && _); [done|].
  destruct (key_pair fs); [by eexists|done].
Qed.

End Certs.
