(* ===== verification/Url.v ===== *)
(** * URLs

    The part of [net/url] and [net/http] that stands between the text of a URL
    in a client and the path and query a server sees: [url.Parse], the request
    line ([URL.RequestURI]) and [url.ParseRequestURI].  The verdict on the
    authority of a URL (its host and user) is a parameter. *)

From Stdlib Require Import Ascii String.
From S2P Require Import Prelude GoLang GoText.

(** The fields of [url.URL] that matter to a request. *)
Record URL : Type := MkURL {
  u_Scheme : string;
  u_Opaque : string;
  u_Host : string;
  u_Path : string;
  u_RawPath : string;
  u_ForceQuery : bool;
  u_RawQuery : string
}.

(** [parseAuthority]: the host of an authority without user information *)
Class NetURL := { url_parseAuthority : string -> Res string }.

Definition bytes_all (f : ascii -> bool) (s : string) : bool := forallb f (list_ascii_of_string s).

(** [stringContainsCTLByte] *)
Definition ctl_byte (c : ascii) : bool := ((byte_of c <? 32) || (byte_of c =? 127))%N.

(** [strings.Cut] *)
Definition Cut (s : string) (c : ascii) : string * string := default (s, "") (SplitN2 s c).

Definition letter (c : ascii) : bool :=
  let n := byte_of c in ((97 <=? n) && (n <=? 122) || (65 <=? n) && (n <=? 90))%N.

(** Digits and the signs that may follow in a scheme. *)
Definition scheme_sign (c : ascii) : bool :=
  let n := byte_of c in ((48 <=? n) && (n <=? 57) || (n =? 43) || (n =? 45) || (n =? 46))%N.

(** [getScheme] after its first byte: the rest of the scheme and what follows
    the colon, or [None] when there is no scheme. *)
Fixpoint scheme_rest (s : string) : option (string * string) :=
  match s with
  | EmptyString => None
  | String c s' =>
      if letter c || scheme_sign c then '(scheme, rest) ← scheme_rest s'; Some (String c scheme, rest)
      else if Ascii.eqb c ":" then Some ("", s') else None
  end.

Definition getScheme (s : string) : Res (string * string) :=
  match s with
  | EmptyString => Ok ("", s)
  | String c s' =>
      if letter c then
        Ok (match scheme_rest s' with Some (scheme, rest) => (String c scheme, rest) | None => ("", s) end)
      else if Ascii.eqb c ":" then Err (Errorf "missing protocol scheme") else Ok ("", s)
  end.

(** ** Paths *)

(** [unescape] in the modes of paths and fragments: [%XX] is decoded, every
    other byte stands for itself. *)
Fixpoint unescape_path (s : list ascii) : option (list ascii) :=
  match s with
  | [] => Some []
  | "%"%char :: s1 =>
      match s1 with
      | a :: b :: s2 =>
          x ← hex_value a; y ← hex_value b; t ← unescape_path s2;
          Some (ascii_of_N (16 * x + y) :: t)
      | _ => None
      end
  | c :: s1 => t ← unescape_path s1; Some (c :: t)
  end.

Definition PathUnescape (s : string) : option string :=
  string_of_list_ascii <$> unescape_path (list_ascii_of_string s).

(** [shouldEscape(c, encodePath)] *)
Definition shouldEscape (c : ascii) : bool :=
  negb (unreserved c)
  && negb (existsb (Ascii.eqb c) ["$"; "&"; "+"; ","; "/"; ":"; ";"; "="; "@"]%char).

(** [escape(s, encodePath)] *)
Definition escape_path_byte (c : ascii) : list ascii :=
  if shouldEscape c then ["%"%char; hex_digit (byte_of c / 16); hex_digit (byte_of c mod 16)] else [c].

Definition escape_path (s : string) : string :=
  string_of_list_ascii (mjoin (escape_path_byte <$> list_ascii_of_string s)).

(** [validEncoded(s, encodePath)] *)
Definition valid_encoded_byte (c : ascii) : bool :=
  existsb (Ascii.eqb c) ["!"; "$"; "&"; "'"; "("; ")"; "*"; "+"; ","; ";"; "="; ":"; "@"; "["; "]"; "%"]%char
  || negb (shouldEscape c).

(** [URL.setPath] *)
Definition setPath (u : URL) (p : string) : Res URL :=
  match PathUnescape p with
  | None => Err (Errorf "invalid URL escape")
  | Some path =>
      Ok (MkURL u.(u_Scheme) u.(u_Opaque) u.(u_Host) path
            (if String.eqb p (escape_path path) then "" else p) u.(u_ForceQuery) u.(u_RawQuery))
  end.

(** [URL.EscapedPath] *)
Definition EscapedPath (u : URL) : string :=
  if negb (String.eqb u.(u_RawPath) "") && bytes_all valid_encoded_byte u.(u_RawPath)
     && bool_decide (PathUnescape u.(u_RawPath) = Some u.(u_Path))
  then u.(u_RawPath)
  else if String.eqb u.(u_Path) "*" then "*" else escape_path u.(u_Path).

(** [URL.RequestURI]: what the client writes on the request line *)
Definition RequestURI (u : URL) : string :=
  let result :=
    if String.eqb u.(u_Opaque) "" then
      let p := EscapedPath u in if String.eqb p "" then "/" else p
    else if HasPrefix u.(u_Opaque) "//" then u.(u_Scheme) +:+ ":" +:+ u.(u_Opaque) else u.(u_Opaque) in
  if u.(u_ForceQuery) || negb (String.eqb u.(u_RawQuery) "") then result +:+ "?" +:+ u.(u_RawQuery) else result.

(** ** Parsing *)

Section Parse.
Context {U : NetURL}.

(** What follows the scheme, the query cut off. *)
Definition parse_rest (viaRequest : bool) (scheme rest rawQuery : string) (force : bool) : Res URL :=
  let url host := MkURL scheme "" host "" "" force rawQuery in
  if negb (HasPrefix rest "/") && negb (String.eqb scheme "")
  then Ok (MkURL scheme rest "" "" "" force rawQuery)
  else if negb (HasPrefix rest "/") && viaRequest then Err (Errorf "invalid URI for request")
  else if negb (HasPrefix rest "/") && Contains (Cut rest "/").1 ":"
  then Err (Errorf "first path segment in URL cannot contain colon")
  else if (negb (String.eqb scheme "") || negb viaRequest && negb (HasPrefix rest "///")) && HasPrefix rest "//"
  then
    let text := TrimPrefix rest "//" in
    let '(authority, path) :=
      match SplitN2 text "/" with Some (a, p) => (a, "/" +:+ p) | None => (text, "") end in
    match url_parseAuthority authority with
    | Err e => Err e
    | Ok host => setPath (url host) path
    end
  else setPath (url "") rest.

(** [parse(rawURL, viaRequest)]; a query of no text is remembered as
    [ForceQuery]. *)
Definition parse (viaRequest : bool) (raw : string) : Res URL :=
  if negb (bytes_all (fun c => negb (ctl_byte c)) raw) then Err (Errorf "invalid control character in URL")
  else if String.eqb raw "" && viaRequest then Err (Errorf "empty url")
  else if String.eqb raw "*" then Ok (MkURL "" "" "" "*" "" false "")
  else match getScheme raw with
       | Err e => Err e
       | Ok (scheme, rest) =>
           let '(rest, rawQuery, force) :=
             match SplitN2 rest "?" with
             | Some (r, q) => (r, q, String.eqb q "")
             | None => (rest, "", false)
             end in
           parse_rest viaRequest (ToLower scheme) rest rawQuery force
       end.

(** [url.Parse]: the fragment must be well formed, but is not sent. *)
Definition Parse (raw : string) : Res URL :=
  let '(u, frag) := Cut raw "#" in
  match parse false u with
  | Err e => Err e
  | Ok url => if bool_decide (PathUnescape frag = None) then Err (Errorf "invalid URL escape") else Ok url
  end.

Definition ParseRequestURI (raw : string) : Res URL := parse true raw.

End Parse.

(** ** Texts that stand for themselves *)

(** A byte of a path that is sent and read as it is. *)
Definition path_byte (c : ascii) : bool := valid_encoded_byte c && negb (Ascii.eqb c "%").

(** A byte that may stand in a query. *)
Definition query_byte (c : ascii) : bool :=
  negb (ctl_byte c) && negb (Ascii.eqb c "#") && negb (Ascii.eqb c " ").

Lemma bytes_all_app f a b : bytes_all f (a +:+ b) = bytes_all f a && bytes_all f b.
Proof. unfold bytes_all. by rewrite list_ascii_app, forallb_app. Qed.

Lemma bytes_all_weaken (f g : ascii -> bool) s :
  (forall c, f c = true -> g c = true) -> bytes_all f s = true -> bytes_all g s = true.
Proof. unfold bytes_all. rewrite !forallb_forall. auto. Qed.

Lemma bytes_all_lacks f s c : bytes_all f s = true -> f c = false -> lacks s c.
Proof.
  unfold bytes_all, lacks. rewrite forallb_forall. intros H Hc Hin. apply list_elem_of_In, H in Hin. congruence.
Qed.

Lemma path_query_byte c : path_byte c = true -> query_byte c = true.
Proof. by destruct c as [[] [] [] [] [] [] [] []]. Qed.

Lemma query_no_ctl c : query_byte c = true -> negb (ctl_byte c) = true.
Proof. unfold query_byte. by destruct (negb (ctl_byte c)). Qed.

(** A path of such bytes. *)
Definition plain_path (p : string) : Prop := bytes_all path_byte p = true /\ exists q, p = String "/" q.

Lemma unescape_path_plain l : forallb path_byte l = true -> unescape_path l = Some l.
Proof.
  induction l as [|c l IH]; cbn [forallb]; [done|]. intros H. apply andb_true_iff in H as [Hc Hl].
  cbn [unescape_path]. rewrite (IH Hl). cbn. by destruct c as [[] [] [] [] [] [] [] []].
Qed.

Lemma PathUnescape_plain p : plain_path p -> PathUnescape p = Some p.
Proof.
  intros [Hp _]. unfold PathUnescape. rewrite unescape_path_plain by done. cbn.
  by rewrite string_of_list_ascii_of_string.
Qed.

(** The URL of a plain path is printed as that path. *)
Definition plain_url (scheme host p : string) (force : bool) (q : string) : URL :=
  MkURL scheme "" host p (if String.eqb p (escape_path p) then "" else p) force q.

Lemma setPath_plain scheme host p force q : plain_path p ->
  setPath (MkURL scheme "" host "" "" force q) p = Ok (plain_url scheme host p force q).
Proof. intros Hp. unfold setPath. by rewrite PathUnescape_plain by done. Qed.

Lemma EscapedPath_plain scheme host p force q : plain_path p ->
  EscapedPath (plain_url scheme host p force q) = p.
Proof.
  intros Hp. pose proof (PathUnescape_plain p Hp) as Hu. destruct Hp as [Hb [p' ->]].
  unfold EscapedPath, plain_url. cbn [u_RawPath u_Path].
  destruct (String.eqb_spec (String "/" p') (escape_path (String "/" p'))) as [He|He].
  { cbn [String.eqb negb andb]. change (String.eqb (String "/" p') "*") with false. by symmetry. }
  change (String.eqb (String "/" p') "") with false. rewrite Hu, bool_decide_eq_true_2 by done.
  rewrite (bytes_all_weaken path_byte); [done| |done].
  intros c. unfold path_byte. by destruct (valid_encoded_byte c).
Qed.

Definition with_query (p q : string) : string := if String.eqb q "" then p else p +:+ "?" +:+ q.

Lemma RequestURI_plain scheme host p q : plain_path p ->
  RequestURI (plain_url scheme host p false q) = with_query p q.
Proof.
  intros Hp. unfold RequestURI, with_query. rewrite EscapedPath_plain by done.
  cbn [u_Opaque u_ForceQuery u_RawQuery plain_url]. destruct Hp as [_ [p' ->]].
  cbn [orb]. by destruct (String.eqb q "").
Qed.

(** The query is cut off at the first question mark. *)
Lemma SplitN2_lacks s c : lacks s c -> SplitN2 s c = None.
Proof.
  unfold lacks, SplitN2. intros H. assert (cut_bytes c (list_ascii_of_string s) = None) as ->; [|done].
  induction (list_ascii_of_string s) as [|x l IH]; [done|]. apply not_elem_of_cons in H as [Hx Hl]. cbn.
  destruct (Ascii.eqb_spec x c); [congruence|]. by rewrite IH.
Qed.

Lemma cut_query p q : lacks p "?" ->
  match SplitN2 (with_query p q) "?" with
  | Some (r, q') => (r, q', String.eqb q' "")
  | None => (with_query p q, "", false)
  end = (p, q, false).
Proof.
  intros Hp. unfold with_query. destruct (String.eqb_spec q "") as [->|Hq]; [by rewrite SplitN2_lacks|].
  rewrite (SplitN2_app p q "?") by done. apply String.eqb_neq in Hq. by rewrite Hq.
Qed.

Lemma with_query_bytes f p q : f "?"%char = true -> bytes_all f p = true -> bytes_all f q = true ->
  bytes_all f (with_query p q) = true.
Proof.
  intros Hf Hp Hq. unfold with_query. destruct (String.eqb q ""); [done|].
  rewrite !bytes_all_app, Hp, Hq. cbn. by rewrite Hf.
Qed.

Section ParsePlain.
Context {U : NetURL}.

(** A server reads the request line of a plain URL as its path and query. *)
Lemma ParseRequestURI_plain p q : plain_path p -> bytes_all query_byte q = true ->
  ParseRequestURI (with_query p q) = Ok (plain_url "" "" p false q).
Proof.
  intros Hp Hq. unfold ParseRequestURI, parse.
  assert (Hc : bytes_all (fun c => negb (ctl_byte c)) (with_query p q) = true).
  { apply with_query_bytes; [done| |by eapply bytes_all_weaken, Hq; apply query_no_ctl].
    eapply bytes_all_weaken, (proj1 Hp). intros c Hb. by apply query_no_ctl, path_query_byte. }
  rewrite Hc. cbn [negb]. pose proof (cut_query p q) as Hcut.
  assert (Hl : lacks p "?") by (by eapply bytes_all_lacks; [apply Hp|]).
  specialize (Hcut Hl). destruct Hp as [Hb [p' ->]].
  assert (Hw : exists s, with_query (String "/" p') q = String "/" s).
  { unfold with_query. destruct (String.eqb q ""); eauto. }
  destruct Hw as [s Hs]. rewrite Hs in Hcut |- *.
  change (String.eqb (String "/" s) "" && true) with false. change (String.eqb (String "/" s) "*") with false.
  change (getScheme (String "/" s)) with (Ok ("", String "/" s) : Res (string * string)). cbv iota beta.
  rewrite Hcut. cbv iota beta. unfold parse_rest.
  rewrite (HasPrefix_app "/" p' : HasPrefix (String "/" p') "/" = true). cbn [negb andb orb].
  change (ToLower "") with "". cbn [String.eqb negb andb orb]. apply setPath_plain. split; [done|by exists p'].
Qed.

(** A client parses the text [scheme://authority/path?query] into these
    parts. *)
Lemma Parse_plain scheme authority host p q :
  scheme ∈ ["http"; "https"] -> bytes_all query_byte authority = true ->
  lacks authority "/" -> lacks authority "?" -> url_parseAuthority authority = Ok host ->
  plain_path p -> bytes_all query_byte q = true ->
  Parse (scheme +:+ "://" +:+ authority +:+ with_query p q) = Ok (plain_url scheme host p false q).
Proof.
  intros Hsch Ha Hslash Hquest Hhost Hp Hq.
  set (raw := scheme +:+ "://" +:+ authority +:+ with_query p q).
  assert (Hraw : bytes_all query_byte raw = true).
  { unfold raw. rewrite !bytes_all_app, Ha, with_query_bytes; [|done| |done].
    - rewrite !elem_of_cons, elem_of_nil in Hsch. by destruct Hsch as [->|[->|[]]].
    - eapply bytes_all_weaken, (proj1 Hp). apply path_query_byte. }
  unfold Parse, Cut. rewrite SplitN2_lacks by (by eapply bytes_all_lacks; [exact Hraw|]).
  cbn [default]. unfold parse. rewrite (bytes_all_weaken query_byte) by (done || apply query_no_ctl).
  cbn [negb].
  assert (Hg : getScheme raw = Ok (scheme, "//" +:+ authority +:+ with_query p q)
    /\ String.eqb raw "" = false /\ String.eqb raw "*" = false /\ ToLower scheme = scheme
    /\ String.eqb scheme "" = false).
  { unfold raw. rewrite !elem_of_cons, elem_of_nil in Hsch. by destruct Hsch as [->|[->|[]]]. }
  destruct Hg as (-> & -> & -> & Hlow & Hne). cbn [andb]. cbv iota beta.
  assert (Hpq : lacks p "?") by (by eapply bytes_all_lacks; [apply Hp|]).
  assert (Hcut : match SplitN2 ("//" +:+ authority +:+ with_query p q) "?" with
    | Some (r, q') => (r, q', String.eqb q' "")
    | None => ("//" +:+ authority +:+ with_query p q, "", false)
    end = ("//" +:+ authority +:+ p, q, false)).
  { replace ("//" +:+ authority +:+ with_query p q) with (with_query ("//" +:+ authority +:+ p) q).
    - apply cut_query. unfold lacks in *. rewrite !list_ascii_app, !elem_of_app. cbn.
      rewrite !elem_of_cons, elem_of_nil. naive_solver.
    - unfold with_query. destruct (String.eqb q ""); [done|]. by rewrite <- !string_app_assoc. }
  rewrite Hcut. cbv iota beta. unfold parse_rest.
  rewrite (HasPrefix_app "/" ("/" +:+ authority +:+ p) : HasPrefix ("//" +:+ authority +:+ p) "/" = true).
  cbn [negb andb].
  rewrite Hlow, Hne. cbn [negb orb andb]. rewrite HasPrefix_app, TrimPrefix_app.
  pose proof Hp as [_ [p' Hp']]. rewrite Hp'. change (String "/" p') with (String "/" "" +:+ p') at 1.
  rewrite (SplitN2_app authority p' "/") by done. cbv iota beta. rewrite Hhost.
  change ("/" +:+ p') with (String "/" p'). rewrite <- Hp'. rewrite setPath_plain by done.
  by rewrite bool_decide_eq_false_2.
Qed.

End ParsePlain.
