(* ===== verification/Agent.v ===== *)
(** * The agent's client

    [internal/agent/client.go] and [internal/agent/sidecar_resolver.go]: the
    requests the node agent sends to the HTTP API and what it makes of the
    responses.  The client implements the interface [AssignmentClient] of the
    worker.  A request is made from the text of its URL, as the client
    concatenates it.  The theorem shows that the client and the server agree:
    every request of the client, printed, sent and parsed, reaches the
    operation it means, with the arguments it means. *)

From Stdlib Require Import Ascii String.
From Corelib Require Import SpecFloat.
From S2P Require Import Prelude GoLang GoText Effects Model Worker.
From S2P Require Import GoFloat Scheduler Badger Balancer World.
From S2P Require Import Store Events Secrets Deployments Nodes Services Autoscaler RBAC Volumes.
From S2P Require Import Jobs.
From S2P Require Import Control Metrics Validation Auth Http Handlers Url.

Record Client : Type := MkClient { c_baseURL : string; c_token : string }.

Definition NewClient (baseURL token : string) : Client := MkClient (TrimRight baseURL "/") token.

(** [attachAuth], with the trace identifier drawn for the request *)
Definition attachAuth (c : Client) (trace : string) (h : gmap string (list string))
    : gmap string (list string) :=
  let h := if negb (String.eqb c.(c_token) "")
           then header_Set "Authorization" ("Bearer " +:+ c.(c_token)) h else h in
  header_Set "X-Trace-ID" trace h.

(** An [http.Request] as the client makes it. *)
Record Outgoing : Type := MkOutgoing {
  out_Method : string;
  out_URL : URL;
  out_Header : gmap string (list string);
  out_Body : string
}.

Section Requests.
Context {U : NetURL}.

(** [http.NewRequest], and the headers set afterwards *)
Definition NewRequest (method url body : string) (h : gmap string (list string)) : Res Outgoing :=
  match Parse url with
  | Err e => Err e
  | Ok u => Ok (MkOutgoing method u h body)
  end.

Definition get (c : Client) (url trace : string) : Res Outgoing :=
  NewRequest MethodGet url "" (attachAuth c trace ∅).

Definition post (c : Client) (path body trace : string) : Res Outgoing :=
  NewRequest MethodPost (c.(c_baseURL) +:+ path) body
    (attachAuth c trace (header_Set "Content-Type" "application/json" ∅)).

Definition RegisterNode_request (c : Client) (body trace : string) : Res Outgoing :=
  post c "/v1/nodes/register" body trace.

Definition Heartbeat_request (c : Client) (nodeID body trace : string) : Res Outgoing :=
  post c ("/v1/nodes/" +:+ nodeID +:+ "/heartbeat") body trace.

Definition PollAssignments_request (c : Client) (nodeID : string) (max : Z) (trace : string) : Res Outgoing :=
  get c (c.(c_baseURL) +:+ "/v1/workers/" +:+ nodeID +:+ "/assignments?max=" +:+ fmt_d max) trace.

Definition ListNodeWorkloads_request (c : Client) (nodeID trace : string) : Res Outgoing :=
  get c (c.(c_baseURL) +:+ "/v1/workers/" +:+ nodeID +:+ "/workloads") trace.

Definition ReportWorkloadStatus_request (c : Client) (workloadID body trace : string) : Res Outgoing :=
  post c ("/v1/workloads/" +:+ workloadID +:+ "/status") body trace.

Definition ResolveForSidecar_request (c : Client) (serviceName trace : string) : Res Outgoing :=
  get c (c.(c_baseURL) +:+ "/v1/dns/sidecar/resolve?name=" +:+ QueryEscape serviceName) trace.

(** The server reads the request line up to the next space, and parses it into
    the URL of the request. *)
Definition arrives (o : Outgoing) (u : URL) : Prop :=
  lacks (RequestURI o.(out_URL)) " " /\ ParseRequestURI (RequestURI o.(out_URL)) = Ok u.

(** The request of the server; [h] are the headers that arrive. *)
Definition server_request (o : Outgoing) (u : URL) (h : gmap string (list string)) : Request :=
  MkRequest o.(out_Method) u.(u_Path) u.(u_RawQuery) h o.(out_Body) None.

End Requests.

(** ** Operations *)

Record SidecarDNSRecord : Type := MkSidecarDNSRecord {
  SidecarDNSRecord_Name : string;
  SidecarDNSRecord_TTLSeconds : Z;
  SidecarDNSRecord_Endpoints : list ServiceEndpoint;
  SidecarDNSRecord_CacheStrategy : string
}.

(** The outside of the client: [newTraceID] and [http.Client.Do] at the [n]-th
    request, and the JSON package at the types of the messages. *)
Class Wire := {
  wire_trace : nat -> string;
  wire_Do : nat -> Outgoing -> Res (Z * string);
  encode_Node : Node -> Res string;
  encode_Used : Resource -> Res string;
  encode_StatusReport : string -> string -> Res string;
  decode_Assignments : string -> Res (list Assignment);
  decode_Workloads : string -> Res (list Workload);
  decode_SidecarDNSRecord : string -> Res SidecarDNSRecord
}.

Section Client.
Context {U : NetURL} {W : Wire} (c : Client).

(** A GET request: a status from 300 on is an error with the text [failed]
    makes of the body, another body is decoded. *)
Definition do_get {A} (n : nat) (req : Res Outgoing) (failed : string -> string)
    (decode : string -> Res A) : Res A :=
  match req with
  | Err e => Err e
  | Ok req =>
      match wire_Do n req with
      | Err e => Err e
      | Ok (status, body) => if 300 <=? status then Err (Errorf (failed body)) else decode body
      end
  end.

(** [post], with no value to decode *)
Definition do_post (n : nat) (path : string) (blob : Res string) : Res unit :=
  match blob with
  | Err e => Err e
  | Ok blob =>
      match post c path blob (wire_trace n) with
      | Err e => Err e
      | Ok req =>
          match wire_Do n req with
          | Err e => Err e
          | Ok (status, body) =>
              if 300 <=? status
              then Err (Errorf ("request failed (" +:+ fmt_d status +:+ "): " +:+ TrimSpace body))
              else Ok tt
          end
      end
  end.

Definition Agent_RegisterNode (n : nat) (node : Node) : Res unit :=
  do_post n "/v1/nodes/register" (encode_Node node).

Definition Agent_Heartbeat (n : nat) (nodeID : string) (used : Resource) : Res unit :=
  do_post n ("/v1/nodes/" +:+ nodeID +:+ "/heartbeat") (encode_Used used).

Definition Agent_PollAssignments (n : nat) (nodeID : string) (max : Z) : Res (list Assignment) :=
  do_get n (PollAssignments_request c nodeID max (wire_trace n))
    (fun blob => "poll assignments failed: " +:+ TrimSpace blob) decode_Assignments.

Definition Agent_ListNodeWorkloads (n : nat) (nodeID : string) : Res (list Workload) :=
  do_get n (ListNodeWorkloads_request c nodeID (wire_trace n))
    (fun blob => "list node workloads failed: " +:+ TrimSpace blob) decode_Workloads.

Definition Agent_ReportWorkloadStatus (n : nat) (workloadID status containerID : string) : Res unit :=
  do_post n ("/v1/workloads/" +:+ workloadID +:+ "/status") (encode_StatusReport status containerID).

Definition ResolveForSidecar (n : nat) (serviceName : string) : Res SidecarDNSRecord :=
  do_get n (ResolveForSidecar_request c serviceName (wire_trace n))
    (fun blob => "sidecar resolve failed: " +:+ blob) decode_SidecarDNSRecord.

(** The client is what the worker's runner is built on. *)
#[export] Instance agent_AssignmentClient : AssignmentClient := {|
  client_RegisterNode := Agent_RegisterNode;
  client_Heartbeat := Agent_Heartbeat;
  client_PollAssignments := Agent_PollAssignments;
  client_ListNodeWorkloads := Agent_ListNodeWorkloads;
  client_ReportWorkloadStatus := Agent_ReportWorkloadStatus
|}.

End Client.

(** ** Paths *)

(** A path segment that the multiplexer leaves alone. *)
Definition segment (s : string) : Prop := s <> "" /\ s <> "." /\ s <> ".." /\ lacks s "/".

#[export] Instance segment_Decision s : Decision (segment s).
Proof. unfold segment, lacks. apply _. Defined.

Definition path_of (segs : list string) : string := "/" +:+ Join segs "/".

Lemma Join_cons (s : string) segs : segs <> [] -> Join (s :: segs) "/" = s +:+ "/" +:+ Join segs "/".
Proof. destruct segs; [done|]. done. Qed.

Lemma Split_Join segs : segs <> [] -> Forall (fun s => lacks s "/") segs -> Split (Join segs "/") "/" = segs.
Proof.
  induction segs as [|s segs IH]; intros Hne Hs; [done|]. apply Forall_cons in Hs as [Hs Hsegs].
  destruct (decide (segs = [])) as [->|Hn]; [by apply Split_lacks|].
  rewrite Join_cons by done. change ("/" +:+ Join segs "/") with (String "/" "" +:+ Join segs "/").
  rewrite Split_app, Split_lacks by done. cbn. by rewrite IH.
Qed.

Lemma Split_path_of segs : segs <> [] -> Forall segment segs -> Split (path_of segs) "/" = "" :: segs.
Proof.
  intros Hne Hs. unfold path_of. change ("/" +:+ Join segs "/") with ("" +:+ String "/" "" +:+ Join segs "/").
  rewrite Split_app, Split_Join; [done|done|]. eapply Forall_impl; [exact Hs|]. by intros s (_ & _ & _ & ?).
Qed.

Lemma clean_segments_id stack segs : Forall segment segs -> clean_segments stack segs = rev stack ++ segs.
Proof.
  revert stack. induction segs as [|s segs IH]; intros stack Hs; cbn [clean_segments]; [by rewrite app_nil_r|].
  apply Forall_cons in Hs as [(H1 & H2 & H3 & _) Hs]. apply String.eqb_neq in H1, H2, H3.
  rewrite H1, H2, H3. cbn [orb]. rewrite IH by done. cbn [rev]. by rewrite <- app_assoc.
Qed.

Lemma path_of_no_slash segs : segs <> [] -> Forall segment segs -> HasSuffix (path_of segs) "/" = false.
Proof.
  intros Hne Hs. apply not_true_iff_false. unfold HasSuffix. intros H.
  apply HasPrefix_spec in H as [t Ht].
  assert (Hp : path_of segs = rev_string t +:+ "/").
  { assert (Hrev : forall x, rev_string (rev_string x) = x).
    { intros x. unfold rev_string. by rewrite list_ascii_of_string_of_list_ascii, rev_involutive,
        string_of_list_ascii_of_string. }
    rewrite <- (Hrev (path_of segs)), Ht. unfold rev_string. rewrite list_ascii_app, rev_app_distr.
    by rewrite string_of_list_app. }
  pose proof (Split_path_of segs Hne Hs) as Hsplit. rewrite Hp in Hsplit.
  change "/" with (String "/" "" +:+ "") in Hsplit. rewrite Split_app in Hsplit.
  assert (Hl : last segs = Some "").
  { destruct segs; [done|].
    change (last (s :: segs)) with (last ("" :: s :: segs)). rewrite <- Hsplit. cbn. by rewrite last_snoc. }
  apply last_Some_elem_of in Hl. rewrite Forall_forall in Hs. by destruct (Hs "" Hl).
Qed.

Lemma cleanPath_path_of segs : segs <> [] -> Forall segment segs -> cleanPath (path_of segs) = path_of segs.
Proof.
  intros Hne Hs. unfold cleanPath. cbv zeta.
  change (String.eqb (path_of segs) "") with false.
  assert (HasPrefix (path_of segs) "/" = true) as -> by apply HasPrefix_app. cbv iota. rewrite (path_of_no_slash segs) by done. cbn [andb].
  unfold path_Clean. rewrite Split_path_of by done. cbn [clean_segments String.eqb orb].
  rewrite clean_segments_id by done. done.
Qed.

Lemma path_of_inj segs segs' : segs <> [] -> segs' <> [] -> Forall segment segs -> Forall segment segs' ->
  path_of segs = path_of segs' -> segs = segs'.
Proof.
  intros Hn Hn' Hs Hs' H. pose proof (Split_path_of segs Hn Hs) as Hsplit.
  rewrite H, Split_path_of in Hsplit by done. by injection Hsplit.
Qed.

(** ** Client and server agree *)

Section Agreement.
Context {DB : Type} `{!Badger Blob DB} {E : Env} {J : JWT} {AE : AuthEnv} {HE : HttpEnv}.

(** The paths of the client are clean, and reach the subtree they start with. *)
Lemma find_clean method segs : method <> "CONNECT" -> segs <> [] -> Forall segment segs ->
  registered (path_of segs) = false -> registered (path_of segs +:+ "/") = false ->
  findHandler method (path_of segs)
  = match match_route (path_of segs) with Some r => ToRoute r.2 | None => ToNotFound end.
Proof.
  intros Hm Hne Hs H1 H2. unfold findHandler. apply String.eqb_neq in Hm.
  rewrite Hm, cleanPath_path_of, H1, H2, andb_false_r, String.eqb_refl by done. done.
Qed.

Lemma segments4 a b id sub :
  segment a -> segment b -> segment id -> segment sub -> Forall segment [a; b; id; sub].
Proof. intros Ha Hb Hid Hsub. do 3 (constructor; [done|]). by constructor. Qed.

Lemma find_workers id sub : segment id -> segment sub ->
  findHandler MethodGet ("/v1/workers/" +:+ id +:+ "/" +:+ sub) = ToRoute RWorkerSubroutes.
Proof.
  intros Hid Hsub. change (_ +:+ _) with (path_of ["v1"; "workers"; id; sub]).
  assert (Hne : id <> "") by apply Hid. pose proof (segments4 "v1" "workers" id sub) as Hs.
  destruct id as [|c id']; [done|].
  rewrite find_clean; [done|done|done|apply Hs; try done; by apply (bool_decide_unpack _)|done|done].
Qed.

Lemma find_workloads id sub : segment id -> segment sub ->
  findHandler MethodPost ("/v1/workloads/" +:+ id +:+ "/" +:+ sub) = ToRoute RWorkloadSubroutes.
Proof.
  intros Hid Hsub. change (_ +:+ _) with (path_of ["v1"; "workloads"; id; sub]).
  assert (Hne : id <> "") by apply Hid. pose proof (segments4 "v1" "workloads" id sub) as Hs.
  destruct id as [|c id']; [done|].
  rewrite find_clean; [done|done|done|apply Hs; try done; by apply (bool_decide_unpack _)|done|done].
Qed.

(** Below [/v1/nodes/] there is also an exact pattern, of fewer segments. *)
Lemma find_nodes id sub : segment id -> segment sub ->
  findHandler MethodPost ("/v1/nodes/" +:+ id +:+ "/" +:+ sub) = ToRoute RNodeSubroutes.
Proof.
  intros Hid Hsub. set (p := path_of ["v1"; "nodes"; id; sub]). change (_ +:+ _) with p.
  assert (Hs : Forall segment ["v1"; "nodes"; id; sub])
    by (apply segments4; try done; by apply (bool_decide_unpack _)).
  assert (Hr : String.eqb p "/v1/nodes/register" = false).
  { apply String.eqb_neq. change "/v1/nodes/register" with (path_of ["v1"; "nodes"; "register"]).
    intros H. apply path_of_inj in H; [done|done|done|done|]. by apply (bool_decide_unpack _). }
  assert (Hr' : String.eqb (p +:+ "/") "/v1/nodes/register" = false).
  { apply String.eqb_neq. intros H. pose proof (HasSuffix_app p "/") as Hsuf. by rewrite H in Hsuf. }
  assert (Hne : id <> "") by apply Hid.
  assert (Hm : match_route p = Some ("/v1/nodes/", RNodeSubroutes)).
  { unfold match_route.
    change routes with (take 2 routes ++ [("/v1/nodes/register", RRegisterNode)] ++ drop 3 routes).
    rewrite !List.filter_app. cbn [List.filter fst].
    change (matches "/v1/nodes/register" p) with (String.eqb p "/v1/nodes/register"). rewrite Hr.
    clear Hr Hr'. subst p. destruct id as [|c id']; [done|]. vm_compute. reflexivity. }
  etrans; [apply (find_clean MethodPost ["v1"; "nodes"; id; sub]); [done|done|done| |]|]; fold p;
    [| |by rewrite Hm].
  - unfold registered, routes. cbn [existsb fst]. rewrite (String.eqb_sym "/v1/nodes/register" p), Hr. clear Hr Hr' Hm. subst p.
    destruct id as [|c id']; [done|]. vm_compute. reflexivity.
  - unfold registered, routes. cbn [existsb fst]. rewrite (String.eqb_sym "/v1/nodes/register" (p +:+ "/")), Hr'. clear Hr Hr' Hm. subst p.
    destruct id as [|c id']; [done|]. vm_compute. reflexivity.
Qed.

(** The query of a poll. *)
Lemma unescape_digits s : (forall c, c ∈ list_ascii_of_string s -> digit_value c <> None) ->
  QueryUnescape s = Some s.
Proof.
  intros H. unfold QueryUnescape. rewrite <- (string_of_list_ascii_of_string s) at 2.
  assert (Hu : unescape (list_ascii_of_string s) = Some (list_ascii_of_string s)); [|by rewrite Hu].
  induction (list_ascii_of_string s) as [|c l IH]; [done|].
  assert (Hl : unescape l = Some l) by (apply IH; intros; apply H; by right).
  assert (Hc : digit_value c <> None) by (apply H; by left).
  cbn [unescape]. rewrite Hl. cbn.
  destruct c as [[] [] [] [] [] [] [] []]; done.
Qed.

Lemma parse_digits_all acc s v : parse_digits acc s = Some v ->
  forall c, c ∈ list_ascii_of_string s -> digit_value c <> None.
Proof.
  revert acc. induction s as [|x s IH]; intros acc H c Hc; [by apply elem_of_nil in Hc|].
  cbn in H. destruct (digit_value x) as [d|] eqn:Hd; [|done]. cbn in H.
  apply elem_of_cons in Hc as [->|Hc]; [by rewrite Hd|]. by eapply IH.
Qed.

Lemma fmt_d_digits n : 0 < n -> forall c, c ∈ list_ascii_of_string (fmt_d n) -> digit_value c <> None.
Proof.
  intros Hn. destruct n as [|p|p]; [lia| |lia]. change (fmt_d (Z.pos p)) with (pretty (N.pos p)).
  eapply parse_digits_all, parse_digits_pretty.
Qed.

(** The queries of the client, as the server reads them. *)
Lemma query_max n r : 0 < n -> r.(r_RawQuery) = "max=" +:+ fmt_d n -> query r "max" = fmt_d n.
Proof.
  intros Hn Hr. unfold query. rewrite Hr. pose proof (fmt_d_digits n Hn) as Hd.
  change ("max=" +:+ fmt_d n) with ("max" +:+ "=" +:+ fmt_d n). apply query_Get_single.
  - intros c Hc. rewrite !elem_of_cons, elem_of_nil in Hc.
    by destruct_or! Hc; subst c; apply (bool_decide_unpack _).
  - done.
  - intros c Hc H. apply Hd in H. rewrite !elem_of_cons, elem_of_nil in Hc. by destruct_or! Hc; subst c.
  - by apply unescape_digits.
Qed.

Lemma query_name name r : r.(r_RawQuery) = "name=" +:+ QueryEscape name -> query r "name" = name.
Proof.
  intros Hr. unfold query. rewrite Hr.
  change ("name=" +:+ ?x) with ("name" +:+ "=" +:+ x). apply query_Get_single.
  - intros c Hc. rewrite !elem_of_cons, elem_of_nil in Hc.
    by destruct_or! Hc; subst c; apply (bool_decide_unpack _).
  - done.
  - intros c Hc. apply QueryEscape_lacks. set_solver.
  - apply QueryUnescape_Escape.
Qed.

Lemma positive_or_fmt_d d n : 0 < n <= i64_max -> positive_or d (fmt_d n) = n.
Proof.
  intros Hn. unfold positive_or.
  assert (Ha : Atoi (fmt_d n) = Some n) by (apply Atoi_fmt_d; unfold in_i64, i64_min, i64_max in *; lia).
  destruct (String.eqb_spec (fmt_d n) "") as [He|_]; [by rewrite He in Ha|]. cbn [negb]. rewrite Ha.
  destruct (Z.ltb_spec 0 n); [done|lia].
Qed.

Lemma Split_two id sub : segment id -> segment sub -> Split (id +:+ "/" +:+ sub) "/" = [id; sub].
Proof.
  intros (_ & _ & _ & Hid) (_ & _ & _ & Hsub).
  rewrite (Split_app id sub "/"), !Split_lacks by done. done.
Qed.

(** An identifier that is sent and read as it is. *)
Definition plain_segment (s : string) : Prop := segment s /\ bytes_all path_byte s = true.

#[export] Instance plain_segment_Decision s : Decision (plain_segment s).
Proof. unfold plain_segment. apply _. Defined.

Context {U : NetURL}.

(** The base URL of the client is that of a server. *)
Definition served_at (c : Client) (scheme authority host : string) : Prop :=
  c.(c_baseURL) = scheme +:+ "://" +:+ authority /\ scheme ∈ ["http"; "https"]
  /\ bytes_all query_byte authority = true /\ lacks authority "/" /\ lacks authority "?"
  /\ url_parseAuthority authority = Ok host.

(** The request goes to this server under the client's token, and what the
    server makes of it, whatever headers arrive with it, is to run [m]. *)
Definition reaches (c : Client) (scheme host : string) (req : Res Outgoing) (m : M (HTTPServer DB) unit) : Prop :=
  exists o u, req = Ok o /\ o.(out_URL).(u_Scheme) = scheme /\ o.(out_URL).(u_Host) = host
    /\ header_Get o.(out_Header) "Authorization" = "Bearer " +:+ c.(c_token)
    /\ arrives o u /\ EscapedPath u = u.(u_Path)
    /\ forall h, mux handle (server_request o u h) = m.

Lemma attachAuth_token c trace h : c.(c_token) <> "" ->
  header_Get (attachAuth c trace h) "Authorization" = "Bearer " +:+ c.(c_token).
Proof.
  intros Htok. unfold attachAuth, header_Get, header_Set. apply String.eqb_neq in Htok. rewrite Htok.
  cbn [negb]. rewrite lookup_insert_ne by done. by rewrite lookup_insert_eq.
Qed.

(** A request for a plain path, with a query. *)
Lemma reaches_plain c scheme authority host method text p q body trace h0 m :
  served_at c scheme authority host -> c.(c_token) <> "" ->
  text = c.(c_baseURL) +:+ with_query p q -> plain_path p -> bytes_all query_byte q = true ->
  (forall h, mux handle (MkRequest method p q h body None) = m) ->
  reaches c scheme host (NewRequest method text body (attachAuth c trace h0)) m.
Proof.
  intros (Hb & Hs & Ha & Hl1 & Hl2 & Hh) Htok -> Hp Hq Hm. unfold NewRequest.
  rewrite Hb, !string_app_assoc, (Parse_plain scheme authority host p q) by done.
  eexists _, (plain_url "" "" p false q). split; [reflexivity|]. do 2 (split; [done|]).
  split; [by apply attachAuth_token|]. split; [|split; [by rewrite EscapedPath_plain|done]].
  unfold arrives. cbn [out_URL]. rewrite RequestURI_plain by done.
  split; [|by apply ParseRequestURI_plain]. eapply (bytes_all_lacks query_byte); [|done].
  apply with_query_bytes; [done| |done]. eapply bytes_all_weaken, (proj1 Hp). apply path_query_byte.
Qed.

(** The paths below one of the server's patterns. *)
Lemma plain_below prefix id sub :
  bytes_all path_byte prefix = true -> bytes_all path_byte sub = true -> plain_segment id ->
  plain_path (String "/" prefix +:+ id +:+ "/" +:+ sub).
Proof.
  intros Hp Hs [_ Hid]. split; [|eexists; apply string_app_cons].
  rewrite !bytes_all_app, Hid, Hs. change (bytes_all path_byte (String "/" prefix)) with (bytes_all path_byte prefix).
  by rewrite Hp.
Qed.

Lemma query_byte_digits n : 0 < n -> bytes_all query_byte ("max=" +:+ fmt_d n) = true.
Proof.
  intros Hn. rewrite bytes_all_app. change (bytes_all query_byte "max=") with true. cbn [andb].
  unfold bytes_all. rewrite forallb_forall. intros c Hc.
  apply list_elem_of_In, (fmt_d_digits n Hn) in Hc. by destruct c as [[] [] [] [] [] [] [] []].
Qed.

Lemma query_byte_escaped name : bytes_all query_byte ("name=" +:+ QueryEscape name) = true.
Proof.
  rewrite bytes_all_app. change (bytes_all query_byte "name=") with true. cbn [andb].
  unfold bytes_all, QueryEscape.
  rewrite list_ascii_of_string_of_list_ascii, forallb_forall. intros c Hc.
  apply list_elem_of_In, list_elem_of_join in Hc as (l & Hl & Hc). apply list_elem_of_fmap in Hc as (x & -> & _).
  assert (Hx : forallb query_byte (escape_byte x) = true) by (by destruct x as [[] [] [] [] [] [] [] []]).
  rewrite forallb_forall in Hx. by apply Hx, list_elem_of_In.
Qed.

Lemma with_some_query p q : q <> "" -> with_query p q = p +:+ "?" +:+ q.
Proof. intros Hq. unfold with_query. by destruct (String.eqb_spec q ""). Qed.

(** C35: the agent and the server speak the same language.  The client
    concatenates the text of a URL, parses it, sends path and query on the
    request line, and the server parses that line again.  For a base URL of
    the form [scheme://authority], a node or workload identifier that is a path
    segment of bytes that stand for themselves in a path ([path_byte]: letters,
    digits and most signs, but not the question mark, the number sign and the
    percent sign), and a positive limit, the request is sent to that server
    under the client's token and runs the operation the agent means with the
    identifier and the limit it means: registration, heartbeats, polling,
    listing the desired workloads and status reports.  A name that a sidecar
    asks for arrives unchanged, whatever bytes it has. *)
Theorem agent_server_agree c scheme authority host id max name body trace :
  served_at c scheme authority host -> c.(c_token) <> "" -> plain_segment id -> 0 < max <= i64_max ->
  reaches c scheme host (PollAssignments_request c id max trace)
    (on_success (PollAssignments id max) 500 "poll_failed" "Failed to poll assignments"
       (fun items => writeJSON 200 (docs "assignments" items)))
  /\ reaches c scheme host (ListNodeWorkloads_request c id trace)
    (on_success (ListNodeWorkloads id) 500 "workloads_failed" "Failed to list desired node workloads"
       (fun items => writeJSON 200 (docs "workloads" items)))
  /\ reaches c scheme host (Heartbeat_request c id body trace)
    (decoded (decode_Used body) (fun used =>
       on_success_or_404 (HeartbeatNode id used) "node_not_found" "Node not found" id
         400 "heartbeat_failed" "Heartbeat failed" (fun _ => writeJSON 200 ok_json)))
  /\ reaches c scheme host (ReportWorkloadStatus_request c id body trace)
    (decoded (decode_StatusReport body) (fun '(status, containerID) =>
       on_success (ReportWorkloadStatus id status containerID) 400 "status_update_failed"
         "Workload status update failed" (fun _ => writeJSON 200 ok_json)))
  /\ reaches c scheme host (RegisterNode_request c body trace)
    (decoded (decode_Node body) (fun node =>
       validated (validateNode node) "Node validation failed"
       (on_success (RegisterNode node) 400 "register_failed" "Failed to register node" (fun _ =>
          writeJSON 201 ok_json))))
  /\ reaches c scheme host (ResolveForSidecar_request c name trace)
    (let name := TrimSpace name in
     if String.eqb name "" then writeAPIError 400 "invalid_query" "Invalid query" "name is required"
     else on_success_or_404 (ResolveServiceDNS name) "service_not_found" "Service not found" name
            500 "resolve_failed" "Service resolve failed" (fun '(dnsName, endpoints, ttl) =>
          writeJSON 200 (JObject [("name", JString dnsName); ("endpoints", JDocs (inject <$> endpoints));
            ("ttlSeconds", JNumber ttl); ("cacheStrategy", JString "sidecar-refresh-before-expiry")]))).
Proof.
  intros Hc Htok Hid Hmax. pose proof (proj1 Hid) as Hseg.
  assert (Hw : forall s, bool_decide (segment s) = true -> segment s) by (intros s; apply bool_decide_eq_true).
  split; [|split; [|split; [|split; [|split]]]].
  - apply (reaches_plain _ _ authority _ _ _ ("/v1/workers/" +:+ id +:+ "/" +:+ "assignments") ("max=" +:+ fmt_d max));
      [done|done| |by apply plain_below|apply query_byte_digits; lia|].
    { rewrite with_some_query by done. by rewrite !string_app_assoc. }
    intros h. unfold mux. cbn [r_Method r_Path]. rewrite find_workers by auto. cbn [handle].
    unfold handleWorkerSubroutes. cbn [r_Path]. rewrite TrimPrefix_app, Split_two by auto.
    unfold require_method. rewrite (query_max max) by (done || lia). by rewrite positive_or_fmt_d.
  - apply (reaches_plain _ _ authority _ _ _ ("/v1/workers/" +:+ id +:+ "/" +:+ "workloads") "");
      [done|done|done|by apply plain_below|done|].
    intros h. unfold mux. cbn [r_Method r_Path]. rewrite find_workers by auto. cbn [handle].
    unfold handleWorkerSubroutes. cbn [r_Path]. by rewrite TrimPrefix_app, Split_two by auto.
  - apply (reaches_plain _ _ authority _ _ _ ("/v1/nodes/" +:+ id +:+ "/" +:+ "heartbeat") "");
      [done|done|done|by apply plain_below|done|].
    intros h. unfold mux. cbn [r_Method r_Path]. rewrite find_nodes by auto. cbn [handle].
    unfold handleNodeSubroutes. cbn [r_Path]. by rewrite TrimPrefix_app, Split_two by auto.
  - apply (reaches_plain _ _ authority _ _ _ ("/v1/workloads/" +:+ id +:+ "/" +:+ "status") "");
      [done|done|done|by apply plain_below|done|].
    intros h. unfold mux. cbn [r_Method r_Path]. rewrite find_workloads by auto. cbn [handle].
    unfold handleWorkloadSubroutes. cbn [r_Path]. by rewrite TrimPrefix_app, Split_two by auto.
  - apply (reaches_plain _ _ authority _ _ _ "/v1/nodes/register" ""); [done|done|done| |done|done].
    split; [done|by eexists].
  - apply (reaches_plain _ _ authority _ _ _ "/v1/dns/sidecar/resolve" ("name=" +:+ QueryEscape name));
      [done|done| |split; [done|by eexists]|apply query_byte_escaped|].
    { by rewrite with_some_query. }
    intros h. change (mux handle ?r) with (handleDNSSidecarResolve r). unfold handleDNSSidecarResolve.
    by rewrite (query_name name) by done.
Qed.

End Agreement.
