(* ===== verification/Commands.v ===== *)
(** * The two commands

    [cmd/worker/main.go]: the node the worker registers, the loop of the
    worker, its metrics page and the TLS settings of its client.
    [cmd/apiserver/main.go]: what the API server makes of its configuration.
    A turn of the worker's loop is a step; the loop ends when the context is
    done. *)

From Stdlib Require Import Ascii String.
From S2P Require Import Prelude GoLang GoText GoFloat Effects Model Worker Scheduler Auth Managers.
From S2P Require Import Metrics Config Kms.

(** ** The worker *)

Definition worker_node (cfg : WorkerConfig) : Node :=
  MkNode cfg.(WorkerID) cfg.(WorkerID) (Some cfg.(NodeLabels)) cfg.(NodeTaints)
    (MkResource 4000 8192) (MkResource 3500 7168) (MkResource 0 0) ""
    (MkNodeHealth f_zero f_zero 0 0 "" "" false false 0) 0.

Definition worker_runner (cfg : WorkerConfig) : Runner :=
  NewRunner cfg.(WorkerID) cfg.(RestartMaxRetries) (cfg.(RestartBackoffMS) *! 1000000).

(** The page of the metrics server. *)
Definition worker_metrics (r : Runner) : string :=
  gauge "worker_used_millicpu" "Current worker used CPU in millicores" r.(rn_used).(Resource_MilliCPU)
  +:+ gauge "worker_used_memory_mb" "Current worker used memory in MB" r.(rn_used).(Resource_MemoryMB)
  +:+ "# HELP worker_identity Worker identity label" +:+ newline
  +:+ "# TYPE worker_identity gauge" +:+ newline
  +:+ "worker_identity{node_id=" +:+ String (ascii_of_nat 34) "" +:+ r.(rn_nodeID)
  +:+ String (ascii_of_nat 34) "" +:+ "} 1" +:+ newline.

(** A turn of the loop: the context is done, or one of the tickers fires. *)
Inductive WorkerTurn : Type := WorkerDone | HeartbeatTick | PollTick.

Section WorkerMain.
Context {C : AssignmentClient} {R : Runtime} {H : Host}.

(** Registration, whose failure ends the process, and the first heartbeat. *)
Definition worker_start (cfg : WorkerConfig) : M Worker unit :=
  RegisterNode (worker_node cfg) ;;
  ignore Heartbeat.

(** The result says whether the loop goes on. *)
Definition worker_turn (turn : WorkerTurn) : M Worker bool :=
  match turn with
  | WorkerDone => mret false
  | HeartbeatTick => ignore Heartbeat ;; mret true
  | PollTick => ignore (ProcessAssignments 5) ;; ignore ReconcileRuntime ;; mret true
  end.

(** No failure of a call ends the worker: its loop ends exactly when it is
    told to. *)
Lemma worker_goes_on turn w :
  (worker_turn turn w).1 = Ok (match turn with WorkerDone => false | _ => true end).
Proof. by destruct turn. Qed.

End WorkerMain.

(** ** The worker's client *)

Record TLSConfig (Pool Cert : Type) : Type := MkTLSConfig {
  tls_ServerName : string;
  tls_RootCAs : option Pool;
  tls_Certificates : list Cert
}.

Arguments MkTLSConfig {Pool Cert}.
Arguments tls_ServerName {Pool Cert}.
Arguments tls_RootCAs {Pool Cert}.
Arguments tls_Certificates {Pool Cert}.

Section TLS.
(** [os.ReadFile] followed by [AppendCertsFromPEM] on an empty pool, which
    refuses a text without certificates, and [tls.LoadX509KeyPair]. *)
Context {Pool Cert : Type} (readFile : string -> Res string) (pool_of : string -> option Pool)
  (loadKeyPair : string -> string -> Res Cert).

Definition load_pool (file : string) : Res (option Pool) :=
  if String.eqb file "" then Ok None
  else match readFile file with
       | Err e => Err (Wrapf "read CA cert file: " e)
       | Ok pem =>
           match pool_of pem with
           | None => Err (Errorf "append CA cert PEM failed")
           | Some pool => Ok (Some pool)
           end
       end.

Definition load_client_cert (cert key : string) : Res (list Cert) :=
  if negb (Bool.eqb (String.eqb cert "") (String.eqb key ""))
  then Err (Errorf "ORCH_TLS_CLIENT_CERT_FILE and ORCH_TLS_CLIENT_KEY_FILE must both be set")
  else if negb (String.eqb cert "") && negb (String.eqb key "")
  then match loadKeyPair cert key with
       | Err e => Err (Wrapf "load client keypair: " e)
       | Ok c => Ok [c]
       end
  else Ok [].

(** The TLS settings of the transport; [None] for a server without TLS. *)
Definition buildWorkerHTTPClient (cfg : WorkerConfig) : Res (option (TLSConfig Pool Cert)) :=
  if HasPrefix (ToLower cfg.(ServerURL)) "https://" then
    match load_pool cfg.(TLSCACertFile) with
    | Err e => Err e
    | Ok pool =>
        match load_client_cert cfg.(TLSClientCertFile) cfg.(TLSClientKeyFile) with
        | Err e => Err e
        | Ok certs => Ok (Some (MkTLSConfig cfg.(TLSServerName) pool certs))
        end
    end
  else Ok None.

(** A configured authority is the one the server's certificate is checked
    against: no error in its file is passed over. *)
Lemma client_trusts_configured cfg tls : cfg.(TLSCACertFile) <> "" ->
  buildWorkerHTTPClient cfg = Ok (Some tls) ->
  exists pem pool, readFile cfg.(TLSCACertFile) = Ok pem /\ pool_of pem = Some pool
    /\ tls.(tls_RootCAs) = Some pool.
Proof.
  intros Hne. unfold buildWorkerHTTPClient, load_pool. apply String.eqb_neq in Hne. rewrite Hne.
  destruct (HasPrefix _ _); [|done]. destruct (readFile _) as [pem|]; [|done].
  destruct (pool_of pem) as [pool|] eqn:Hp; [|done]. destruct (load_client_cert _ _); [|done].
  intros [= <-]. by exists pem, pool.
Qed.

End TLS.

(** ** The API server *)

Definition apiserver_planner (cfg : APIServerConfig) : Planner := NewPlanner cfg.(SchedulerPolicy).

Definition apiserver_nodeTTL : Duration := seconds 20.

Definition apiserver_manager (cfg : APIServerConfig) : Manager :=
  NewManager (seconds 3) cfg.(ControllerID) cfg.(ControllerShard) cfg.(ControllerTotal)
    (seconds cfg.(ControllerLeaseSeconds)).

Definition apiserver_verifier (cfg : APIServerConfig) : Verifier :=
  NewVerifier cfg.(AuthMode) cfg.(APIToken) cfg.(JWTSecret) cfg.(JWTIssuer) cfg.(JWTAudience)
    cfg.(JWKSURL).

(** The addresses the DNS server listens on. *)
Definition apiserver_dns_addrs (cfg : APIServerConfig) : list string :=
  if cfg.(EnableDNSServer) then cfg.(DNSAddr) :: cfg.(DNSExtraAddrs) else [].

(** Whatever the environment holds, the manager works on a shard that
    exists, and its lease has a positive length. *)
Lemma apiserver_manager_shard getenv :
  let m := apiserver_manager (LoadAPIServerConfig getenv) in
  0 <= m.(m_shardIndex) < m.(m_shardTotal) /\ 0 < m.(m_lease).
Proof. apply NewManager_shard. Qed.

(** ** Its listener *)

(** [tls.Config] of the server: a certificate comes from the reloader, and
    [ClientAuth] is [RequireAndVerifyClientCert] or the zero value, under which
    no client certificate is asked for. *)
Record ServerTLS (Pool : Type) : Type := MkServerTLS {
  stls_MinVersion : Z;
  stls_ClientCAs : option Pool;
  stls_RequireClientCert : bool
}.

Arguments MkServerTLS {Pool}.
Arguments stls_MinVersion {Pool}.
Arguments stls_ClientCAs {Pool}.
Arguments stls_RequireClientCert {Pool}.

(** [tls.VersionTLS12] *)
Definition VersionTLS12 : Z := 771.

(** What [serveFn] listens on. *)
Inductive Listener (Pool Cert : Type) : Type :=
| ListenAndServe (addr : string)
| ListenAndServeTLS (addr : string) (reloader : @certReloader Cert) (tls : ServerTLS Pool).

Arguments ListenAndServe {Pool Cert}.
Arguments ListenAndServeTLS {Pool Cert}.

Section Serve.
Context {Pool Cert : Type} (readFile : string -> Res string) (pool_of : string -> option Pool).

(** The beginning of [serveFn] for HTTPS: client certificates. *)
Definition client_auth (file : string) (tls : ServerTLS Pool) : Res (ServerTLS Pool) :=
  if String.eqb file "" then Ok tls
  else match readFile file with
       | Err e => Err (Wrapf "read client CA file: " e)
       | Ok pem =>
           match pool_of pem with
           | None => Err (Errorf "parse client CA PEM failed")
           | Some pool => Ok (MkServerTLS tls.(stls_MinVersion) (Some pool) true)
           end
       end.

(** The listener of the process, or the error it ends with. *)
Definition apiserver_listener (cfg : APIServerConfig) (t : Time) (fs : @CertFiles Cert)
    : Res (Listener Pool Cert) :=
  if cfg.(HTTPSEnabled) then
    match newCertReloader cfg.(TLSCertFile) cfg.(TLSKeyFile) t fs with
    | Err e => Err (Wrapf "tls configuration failed: " e)
    | Ok reloader =>
        match client_auth cfg.(TLSClientCAFile) (MkServerTLS VersionTLS12 None false) with
        | Err e => Err (Wrapf "http server failed: " e)
        | Ok tls => Ok (ListenAndServeTLS cfg.(HTTPSAddr) reloader tls)
        end
    end
  else Ok (ListenAndServe cfg.(HTTPAddr)).

(** With HTTPS enabled the server never falls back to plain text: it listens
    with a loaded certificate and TLS 1.2 at least, and when an authority for
    clients is configured every client has to show a certificate of it. *)
Lemma apiserver_listener_tls cfg t fs l :
  cfg.(HTTPSEnabled) = true -> apiserver_listener cfg t fs = Ok l ->
  exists reloader tls, l = ListenAndServeTLS cfg.(HTTPSAddr) reloader tls
    /\ is_Some reloader.(cr_cert) /\ tls.(stls_MinVersion) = VersionTLS12
    /\ (cfg.(TLSClientCAFile) <> "" -> exists pem pool, readFile cfg.(TLSClientCAFile) = Ok pem
         /\ pool_of pem = Some pool /\ tls.(stls_ClientCAs) = Some pool
         /\ tls.(stls_RequireClientCert) = true).
Proof.
  intros Hh. unfold apiserver_listener, client_auth. rewrite Hh.
  destruct (newCertReloader _ _ _ _) as [r|] eqn:Hr; [|done]. apply newCertReloader_loaded in Hr.
  destruct (String.eqb_spec (TLSClientCAFile cfg) "") as [He|Hne].
  - intros [= <-]. eexists _, _. split; [done|]. split; [done|]. split; [done|]. intros H. by destruct H.
  - destruct (readFile _) as [pem|]; [|done]. destruct (pool_of pem) as [pool|] eqn:Hp; [|done].
    intros [= <-]. eexists _, _. split; [done|]. split; [done|]. split; [done|]. intros _. by exists pem, pool.
Qed.

End Serve.
