(* ===== verification/Invariant.v ===== *)
(** * The invariant of stored deployments and autoscaler policies

    Every deployment in the store has a numbered revision history without
    gaps, a replica count of at least one and a normalised rollout
    specification; every autoscaler policy has sensible replica limits.  The invariant is threaded through the effectful code by
    type: [good a] is what a value of its type carries, and [safe m] says that
    [m] preserves the invariant of the database and returns a good value. *)

From Stdlib Require Import Ascii String.
From Corelib Require Import SpecFloat.
From S2P Require Import Prelude GoLang GoFloat GoTime Effects Model Scheduler Badger World Store.
From S2P Require Import StoreFacts StoreTheorems Events Secrets Rollout Placement Reconcile.
From S2P Require Import ReconcileFacts Deployments Autoscaler.

(** ** Good deployments *)

Definition spec_ok (s : DeploymentSpec) : Prop :=
  1 <= s.(DeploymentSpec_Replicas)
  /\ normalizeRolloutSpec s.(DeploymentSpec_Rollout) = s.(DeploymentSpec_Rollout).

(** Revisions are numbered 1, 2, ..., the last being the current one.  (A
    history of 2^63 entries, the first to overflow the counter, would not fit
    into memory.) *)
Definition revisions_ok (current : Z) (history : list DeploymentRevision) : Prop :=
  lenZ history <= i64_max ->
  current = lenZ history /\ 1 <= lenZ history
  /\ forall i r, history !! i = Some r -> r.(DeploymentRevision_Revision) = Z.of_nat i + 1.

Definition deployment_ok (d : Deployment) : Prop :=
  revisions_ok d.(Deployment_CurrentRevision) d.(Deployment_RevisionHistory)
  /\ spec_ok d.(Deployment_Spec)
  /\ Forall (fun r => spec_ok r.(DeploymentRevision_Spec)) d.(Deployment_RevisionHistory).

(** The limits of an autoscaler policy. *)
Definition policy_ok (p : AutoscalerPolicy) : Prop :=
  1 <= p.(AutoscalerPolicy_MinReplicas) <= p.(AutoscalerPolicy_MaxReplicas).

(** ** Good values *)

Class Good (A : Type) := good : A -> Prop.

#[export] Instance Good_any {A} : Good A | 100 := fun _ => True.
#[export] Instance Good_Deployment : Good Deployment | 0 := deployment_ok.
#[export] Instance Good_AutoscalerPolicy : Good AutoscalerPolicy | 0 := policy_ok.
#[export] Instance Good_option {A} `{!Good A} : Good (option A) | 1 := fun o =>
  match o with Some a => good a | None => True end.
#[export] Instance Good_Res {A} `{!Good A} : Good (Res A) | 1 := fun r =>
  match r with Ok a => good a | Err _ => True end.
#[export] Instance Good_list {A} `{!Good A} : Good (list A) | 1 := Forall good.

Definition blob_ok (b : Blob) : Prop :=
  match b with BDeployment d => deployment_ok d | BAutoscalerPolicy p => policy_ok p | _ => True end.

(** Storing and loading carries goodness along. *)
Class GoodEntity (T : Type) `{!Entity T, !JSON T, !Good T} : Prop := {
  good_load : forall b (x : T), blob_ok b -> project b = Some x -> good x;
  good_store : forall x y : T, good x -> json x = Some y -> blob_ok (inject y)
}.

(** ** Lemmas on specs and histories *)

Lemma revisions_ok_snoc current history spec t :
  revisions_ok current history ->
  revisions_ok (current +! 1) (history ++ [MkDeploymentRevision (current +! 1) spec t]).
Proof.
  intros H Hlen. rewrite lenZ_app in *. change (lenZ [_]) with 1 in *.
  destruct H as (-> & H1 & H2); [lia|].
  rewrite wrap64_id by (unfold in_i64, i64_min, i64_max in *; lia).
  split; [done|]. split; [lia|]. intros i r.
  rewrite lookup_app. destruct (history !! i) as [r'|] eqn:Hi; [intros [= <-]; by apply H2|].
  apply lookup_ge_None in Hi. intros Hr. apply list_lookup_singleton_Some in Hr as [Hi' <-].
  simpl. unfold lenZ. lia.
Qed.

Lemma revisions_ok_map current history (f : DeploymentRevision -> DeploymentRevision) :
  (forall r, (f r).(DeploymentRevision_Revision) = r.(DeploymentRevision_Revision)) ->
  revisions_ok current history -> revisions_ok current (f <$> history).
Proof.
  intros Hf H. unfold revisions_ok, lenZ. rewrite length_fmap. intros Hlen.
  destruct (H Hlen) as (-> & ? & H2). split; [done|]. split; [done|]. intros i r.
  rewrite list_lookup_fmap. destruct (history !! i) eqn:Hi; intros [= <-]. rewrite Hf. by apply H2.
Qed.

Lemma json_deployment_ok d d' : json d = Some d' -> deployment_ok d -> deployment_ok d'.
Proof.
  unfold json, JSON_Deployment. destruct (_ && _); [|discriminate]. intros [= <-] (H1 & H2 & H3).
  split; [|split].
  - apply (revisions_ok_map _ _ json_revision); [done|exact H1].
  - exact H2.
  - simpl. apply Forall_map. eapply Forall_impl; [exact H3|]. intros r Hr. exact Hr.
Qed.

Lemma find_spec_ok (f : DeploymentRevision -> bool) history r :
  List.find f history = Some r -> Forall (fun r => spec_ok r.(DeploymentRevision_Spec)) history ->
  spec_ok r.(DeploymentRevision_Spec).
Proof.
  intros [Hin _]%List.find_some H. rewrite Forall_forall in H. by apply H, list_elem_of_In.
Qed.

Lemma spec_ok_normalize s :
  spec_ok s -> spec_ok (s <| DeploymentSpec_Rollout ::= normalizeRolloutSpec |>).
Proof. intros [H1 H2]. split; [done|]. apply normalizeRolloutSpec_idemp. Qed.

Lemma merge_spec_ok old next : spec_ok old -> spec_ok (merge_spec old next).
Proof.
  intros [H1 H2]. split; [|apply normalizeRolloutSpec_idemp].
  unfold merge_spec. simpl. destruct (Z.leb_spec (DeploymentSpec_Replicas next) 0); lia.
Qed.

Lemma default_policy_ok p : policy_ok (default_policy p).
Proof.
  unfold policy_ok, default_policy. cbv zeta. cbn -[Z.leb Z.ltb].
  set (m := AutoscalerPolicy_MinReplicas p). set (x := AutoscalerPolicy_MaxReplicas p).
  destruct (AutoscalerPolicy_PredictiveScalingEnabled p); cbn -[Z.leb Z.ltb]; fold m x;
    destruct (Z.leb_spec m 0), (Z.leb_spec x 0); cbn [orb]; try lia;
    match goal with |- context [x <? ?y] => destruct (Z.ltb_spec x y) end; lia.
Qed.

(** A recommendation respects the policy's limits, whatever the metrics. *)
Lemma recommend_bounds p current m :
  policy_ok p ->
  p.(AutoscalerPolicy_MinReplicas) <= recommend p current m <= p.(AutoscalerPolicy_MaxReplicas).
Proof. intros H. unfold recommend, policy_ok in *. rewrite maxInt_spec, minInt_spec. lia. Qed.

Lemma scaled_deployment_ok d n t :
  deployment_ok d -> 1 <= n -> deployment_ok (scaled_deployment d n t).
Proof. intros (H1 & [_ H2] & H3) Hn. exact (conj H1 (conj (conj Hn H2) H3)). Qed.

Lemma create_spec_ok spec : spec_ok (complete_spec (default_spec spec)).
Proof.
  split; [|apply normalizeRolloutSpec_idemp].
  unfold complete_spec, default_spec. simpl. destruct (Z.leb_spec (DeploymentSpec_Replicas spec) 0); lia.
Qed.

(** ** Goodness of stored entities *)

#[export] Instance GoodEntity_Deployment : GoodEntity Deployment.
Proof.
  split.
  - intros b x Hb Hx. apply inject_project in Hx as ->. exact Hb.
  - intros x y Hx Hy. exact (json_deployment_ok x y Hy Hx).
Qed.

#[export] Instance GoodEntity_Node : GoodEntity Node.
Proof. by split. Qed.
#[export] Instance GoodEntity_Workload : GoodEntity Workload.
Proof. by split. Qed.
#[export] Instance GoodEntity_Assignment : GoodEntity Assignment.
Proof. by split. Qed.
#[export] Instance GoodEntity_Service : GoodEntity Service.
Proof. by split. Qed.
#[export] Instance GoodEntity_ServiceEndpoint : GoodEntity ServiceEndpoint.
Proof. by split. Qed.
#[export] Instance GoodEntity_Namespace : GoodEntity Namespace.
Proof. by split. Qed.
#[export] Instance GoodEntity_NamespaceQuota : GoodEntity NamespaceQuota.
Proof. by split. Qed.
#[export] Instance GoodEntity_Secret : GoodEntity Secret.
Proof. by split. Qed.
#[export] Instance GoodEntity_PersistentVolume : GoodEntity PersistentVolume.
Proof. by split. Qed.
#[export] Instance GoodEntity_PersistentVolumeClaim : GoodEntity PersistentVolumeClaim.
Proof. by split. Qed.
#[export] Instance GoodEntity_NetworkPolicy : GoodEntity NetworkPolicy.
Proof. by split. Qed.
#[export] Instance GoodEntity_Job : GoodEntity Job.
Proof. by split. Qed.
#[export] Instance GoodEntity_CronJob : GoodEntity CronJob.
Proof. by split. Qed.
#[export] Instance GoodEntity_RoleBinding : GoodEntity RoleBinding.
Proof. by split. Qed.
#[export] Instance GoodEntity_ControllerLease : GoodEntity ControllerLease.
Proof. by split. Qed.
#[export] Instance GoodEntity_ControlPlaneTransition : GoodEntity ControlPlaneTransition.
Proof. by split. Qed.
#[export] Instance GoodEntity_AutoscalerPolicy : GoodEntity AutoscalerPolicy.
Proof.
  split.
  - intros b x Hb Hx. apply inject_project in Hx as ->. exact Hb.
  - intros x y Hx. unfold json, JSON_AutoscalerPolicy. destruct (_ && _); [|discriminate].
    by intros [= <-].
Qed.
#[export] Instance GoodEntity_DeploymentMetricSample : GoodEntity DeploymentMetricSample.
Proof. by split. Qed.
#[export] Instance GoodEntity_Event : GoodEntity Event.
Proof. by split. Qed.

(** ** Safe computations *)

Section Safe.
Context {DB : Type} `{!Badger Blob DB, !BadgerLaws Blob DB} {E : Env}.
Implicit Types (db : DB) (w : World DB).

Definition db_ok db : Prop := forall k b, db_get db k = Some b -> key_of b = k /\ blob_ok b.

Definition inv w : Prop := db_ok w.(w_db).

Definition safe {A} `{!Good A} (m : M (World DB) A) : Prop :=
  hoare inv m (fun r w => inv w /\ good r).

Lemma safe_ret {A} `{!Good A} (a : A) : good a -> safe (mret a).
Proof. intros Ha w Hw. by split. Qed.

Lemma safe_throw {A} `{!Good A} e : safe (throw e : M (World DB) A).
Proof. intros w Hw. by split. Qed.

Lemma safe_of_res {A} `{!Good A} (r : Res A) : good r -> safe (of_res r).
Proof. intros Hr w Hw. by split. Qed.

Lemma safe_bind {A B} `{!Good A, !Good B} (m : M (World DB) A) (k : A -> M (World DB) B) :
  safe m -> (forall a, good a -> safe (k a)) -> safe (m ≫= k).
Proof.
  intros Hm Hk. eapply hoare_bind; [exact Hm| |].
  - intros a w [Hw Ha]. by apply (Hk a Ha).
  - intros e w [Hw _]. by split.
Qed.

Lemma safe_attempt {A} `{!Good A} (m : M (World DB) A) : safe m -> safe (attempt m).
Proof. intros H. by apply hoare_attempt. Qed.

Lemma safe_ignore {A} `{!Good A} (m : M (World DB) A) : safe m -> safe (ignore m).
Proof.
  intros H. apply hoare_ignore. eapply hoare_conseq; [exact H|done|].
  intros r w [Hw _]. by split.
Qed.

Lemma safe_for_each {A} (l : list A) body :
  (forall x, x ∈ l -> safe (body x)) -> safe (for_each l body : M (World DB) unit).
Proof.
  induction l as [|x l IH]; intros H; cbn [for_each]; [by apply safe_ret|].
  apply safe_bind; [apply H; left|]. intros _ _. apply IH. intros y Hy. apply H. by right.
Qed.

Lemma safe_fold_m {A B} `{!Good B} (l : list A) (acc : B) body :
  good acc -> (forall acc x, good acc -> x ∈ l -> safe (body acc x)) ->
  safe (fold_m l acc body : M (World DB) B).
Proof.
  revert acc. induction l as [|x l IH]; intros acc Ha H; cbn [fold_m]; [by apply safe_ret|].
  apply safe_bind; [apply H; [done|left]|]. intros acc' Ha'. apply IH; [done|].
  intros acc'' y Ha'' Hy. apply H; [done|by right].
Qed.

Lemma safe_ask {A} `{!Good A} (f : nat -> A) : (forall t, good (f t)) -> safe (ask f : M (World DB) A).
Proof. intros Hf w Hw. split; [exact Hw|]. apply Hf. Qed.

Lemma safe_now : safe (now : M (World DB) Z).
Proof. by intros w Hw. Qed.

Lemma safe_rand : safe (rand_Intn : M (World DB) Z).
Proof. by intros w Hw. Qed.

Lemma safe_or_now t : safe (or_now t : M (World DB) Z).
Proof. unfold or_now. destruct (IsZero t); [apply safe_now|by apply safe_ret]. Qed.

Lemma safe_modify_subscribers f : safe (modify (set w_subscribers f) : M (World DB) unit).
Proof. intros w Hw. by split. Qed.

Lemma db_ok_set db k b : db_ok db -> key_of b = k -> blob_ok b -> db_ok (db_set db k b).
Proof.
  intros H Hk Hb k' b'. rewrite db_get_set. case_decide; [|by apply H]. intros [= <-]. by subst.
Qed.

Lemma db_ok_delete_keys db ks : db_ok db -> db_ok (delete_keys db ks).
Proof. intros H k b. rewrite delete_keys_get. case_decide; [done|]. apply H. Qed.

Lemma safe_Update {A} `{!Good A} (f : DB -> Res (A * DB)) :
  (forall db a db', db_ok db -> f db = Ok (a, db') -> db_ok db' /\ good a) -> safe (db_Update f).
Proof.
  intros H w Hw. unfold db_Update. destruct (env_dberr _); [by split|].
  destruct (f (w_db w)) as [[a db']|e] eqn:Ef; [|by split].
  by destruct (H _ _ _ Hw Ef).
Qed.

Lemma safe_View {A} `{!Good A} (f : DB -> Res A) :
  (forall db, db_ok db -> good (f db)) -> safe (db_View f).
Proof.
  intros H w Hw. unfold db_View. destruct (env_dberr _); [by split|]. split; [done|]. by apply H.
Qed.

Lemma safe_get {T} `{!Entity T, !JSON T, !Good T, !GoodEntity T} k :
  safe (get k : M (World DB) T).
Proof.
  apply safe_View. intros db Hdb. unfold get_in. destruct (db_get db k) as [b|] eqn:Hg; [|done].
  destruct (project b) as [x|] eqn:Hx; [|done]. apply (good_load b x); [|done].
  by destruct (Hdb k b Hg).
Qed.

Lemma safe_listPrefix {T} `{!Entity T, !JSON T, !Good T, !GoodEntity T} p :
  safe (listPrefix p : M (World DB) (list T)).
Proof.
  apply safe_View. intros db Hdb. destruct (decode_all _) as [l|] eqn:Hl; [|done].
  apply decode_all_list_of in Hl as ->. apply Forall_forall. intros x Hx.
  unfold list_of in Hx. apply list_elem_of_omap in Hx as ([k b] & Hin & Hx).
  apply db_scan_elem in Hin as [_ Hg]. apply (good_load b x); [|done]. by destruct (Hdb k b Hg).
Qed.

Lemma safe_put {T} `{!Entity T, !JSON T, !Good T, !GoodEntity T, !JSONKey T} k (x : T) :
  key_of (inject x) = k -> good x -> safe (put k x : M (World DB) unit).
Proof.
  intros Hk Hx. unfold put. destruct (json x) as [y|] eqn:Hy; [|apply safe_throw].
  apply safe_Update. intros db a db' Hdb [= <- <-]. split; [|done]. apply db_ok_set; [done| |].
  - by rewrite (json_key x y Hy).
  - by apply (good_store x y).
Qed.

Lemma safe_del k : safe (del k : M (World DB) unit).
Proof.
  apply safe_Update. intros db a db' Hdb [= <- <-]. split; [|done]. intros k' b.
  rewrite db_get_delete. case_decide; [done|]. apply Hdb.
Qed.

End Safe.

Create HintDb good.
#[export] Hint Resolve spec_ok_normalize merge_spec_ok create_spec_ok revisions_ok_snoc : good.

(** Goodness of a value: trivial for most types, and for a deployment whose
    spec and history are untouched a matter of conversion. *)
Ltac solve_good :=
  first
    [ exact I
    | assumption
    | match goal with H : good _ |- _ => exact H end
    | match goal with |- good (match ?x with _ => _ end) => destruct x; solve [exact I | assumption] end
    | match goal with |- good ?r => destruct r; exact I end
    | apply Forall_true; intros; exact I
    | solve [eauto with good] ].

Ltac safe_tac :=
  repeat match goal with
    | |- forall _, _ => intro
    | |- safe (let _ := _ in _) => cbv zeta
    | |- safe (_ ≫= _) => apply safe_bind
    | |- safe (for_each _ _) => apply safe_for_each
    | |- safe (fold_m _ _ _) => apply safe_fold_m
    | |- safe (attempt _) => apply safe_attempt
    | |- safe (ignore _) => apply safe_ignore
    | |- safe (mret _) => apply safe_ret
    | |- safe (throw _) => apply safe_throw
    | |- safe (of_res _) => apply safe_of_res
    | |- safe now => apply safe_now
    | |- safe rand_Intn => apply safe_rand
    | |- safe (or_now _) => apply safe_or_now
    | |- safe (ask _) => apply safe_ask
    | |- safe (modify (set w_subscribers _)) => apply safe_modify_subscribers
    | |- safe (get _) => apply safe_get
    | |- safe (listPrefix _) => apply safe_listPrefix
    | |- safe (db_View (get_in _)) => apply safe_get
    | |- safe (db_View (fun db => decode_all _)) => apply safe_listPrefix
    | |- safe (del _) => apply safe_del
    | |- safe (put _ _) => apply safe_put; [reflexivity|]
    | |- safe (if ?b then _ else _) => destruct b
    | |- safe (match ?x with _ => _ end) => destruct x eqn:?
    | |- good _ => solve_good
    | |- safe _ => solve [eauto with good]
    end.

Ltac store_safe := repeat (safe_tac; try progress autounfold with store).

Section SafeOps.
Context {DB : Type} `{!Badger Blob DB, !BadgerLaws Blob DB} {E : Env}.
Implicit Types (db : DB) (w : World DB).

Lemma safe_emitEvent e : safe (emitEvent e : M (World DB) unit).
Proof. store_safe. Qed.

Lemma safe_createWorkload dep : safe (createWorkloadForDeployment dep : M (World DB) unit).
Proof. store_safe. Qed.

Lemma safe_enqueueDelete dep v : safe (enqueueDeleteForWorkload dep v : M (World DB) unit).
Proof. store_safe. Qed.

Lemma safe_create_workloads dep n : safe (create_workloads dep n : M (World DB) (option error)).
Proof.
  induction n as [|n IH]; cbn [create_workloads]; [by apply safe_ret|].
  apply safe_bind; [apply safe_attempt, safe_createWorkload|]. intros [_|e] _; [exact IH|by apply safe_ret].
Qed.

Lemma deployment_ok_revision d spec t :
  deployment_ok d -> spec_ok spec ->
  deployment_ok (d <| Deployment_Spec := spec |>
    <| Deployment_CurrentRevision := d.(Deployment_CurrentRevision) +! 1 |>
    <| Deployment_RevisionHistory ::= fun h =>
         h ++ [MkDeploymentRevision (d.(Deployment_CurrentRevision) +! 1) spec t] |>).
Proof.
  intros (H1 & H2 & H3) Hs. split; [by apply revisions_ok_snoc|]. split; [exact Hs|].
  apply Forall_app. split; [exact H3|]. constructor; [exact Hs|constructor].
Qed.

Lemma safe_rollback dep r msg :
  deployment_ok dep -> safe (rollbackDeploymentLocked dep r msg : M (World DB) (option Deployment)).
Proof.
  intros H. unfold rollbackDeploymentLocked. destruct (List.find _ _) as [target|] eqn:Hf; [|by apply safe_ret].
  apply safe_bind; [apply safe_now|]. intros t _. apply safe_ret.
  apply (deployment_ok_revision dep _ t H), spec_ok_normalize. by eapply find_spec_ok, H.
Qed.

Lemma prepare_ok dep : deployment_ok dep -> deployment_ok (prepare dep).
Proof.
  intros (H1 & [H2 H2'] & H3). split; [|split].
  - unfold prepare. cbn. destruct (Z.leb_spec (Deployment_CurrentRevision dep) 0); [|exact H1].
    intros Hlen. destruct (H1 Hlen) as (? & ? & _). lia.
  - rewrite prepare_spec. split; [done|]. apply normalizeRolloutSpec_idemp.
  - unfold prepare. by case_match.
Qed.

Lemma safe_Store_DeleteDeployment id : safe (Store.DeleteDeployment id : M (World DB) unit).
Proof.
  apply safe_Update. intros db a db' Hdb. cbv zeta. destruct (decode_all _); [|discriminate].
  intros [= <- <-]. split; [|done]. apply db_ok_delete_keys. by apply (db_ok_delete_keys _ [_]).
Qed.

Lemma safe_PopAssignments id max : safe (PopAssignments id max : M (World DB) (list Assignment)).
Proof.
  unfold PopAssignments. destruct (negb _); [apply safe_throw|].
  apply safe_Update. intros db a db' Hdb. cbv zeta. destruct (decode_all _); [|discriminate].
  intros [= <- <-]. split; [by apply db_ok_delete_keys|]. by apply Forall_true.
Qed.

End SafeOps.

#[export] Hint Extern 1 (safe (rollbackDeploymentLocked _ _ _)) => apply safe_rollback; solve_good : good.
#[export] Hint Resolve safe_emitEvent safe_createWorkload safe_enqueueDelete safe_create_workloads
  safe_Store_DeleteDeployment safe_PopAssignments prepare_ok : good.

Section SafeReconcile.
Context {DB : Type} `{!Badger Blob DB, !BadgerLaws Blob DB} {E : Env}.

Lemma safe_fail_rollout dep : deployment_ok dep -> safe (fail_rollout dep : M (World DB) unit).
Proof. intros H. store_safe. Qed.

Lemma safe_placement_failed dep phase e :
  deployment_ok dep -> safe (placement_failed dep phase e : M (World DB) unit).
Proof. intros H. store_safe. Qed.

Lemma safe_finish_reconcile dep phase :
  deployment_ok dep -> safe (finish_reconcile dep phase : M (World DB) unit).
Proof. intros H. store_safe. Qed.

Lemma safe_scale_down id dep l : safe (scale_down id dep l : M (World DB) unit).
Proof. store_safe. Qed.

Lemma safe_reconcileDeployment id : safe (reconcileDeployment id : M (World DB) unit).
Proof.
  unfold reconcileDeployment. apply safe_bind; [apply safe_get|]. intros dep Hdep%prepare_ok.
  cbv zeta. set (d := prepare dep) in *. clearbody d.
  apply safe_bind; [store_safe|]. intros [|] _; [by apply safe_fail_rollout|].
  apply safe_bind; [store_safe|]. intros l _. destruct (rollout_target d l) as [_ phase].
  apply safe_bind; [apply safe_create_workloads|]. intros [e|] _; [by apply safe_placement_failed|].
  apply safe_bind; [store_safe|]. intros l' _.
  apply safe_bind; [destruct (negb _); [apply safe_scale_down|by apply safe_ret]|].
  intros _ _. by apply safe_finish_reconcile.
Qed.

Lemma safe_reconcileDeletion id : safe (reconcileDeletion id : M (World DB) unit).
Proof.
  unfold reconcileDeletion. apply safe_bind; [apply safe_get|]. intros dep Hdep.
  apply safe_bind; [store_safe|]. intros l _.
  apply safe_bind; [apply safe_for_each; intros x _; store_safe|]. intros _ _.
  destruct (0 <? _); [by apply safe_ret|]. cbv zeta. destruct (0 <? _).
  - unfold Store.UpdateDeployment. apply safe_put; [done|exact Hdep].
  - apply safe_bind; [apply safe_Store_DeleteDeployment|]. intros _ _.
    apply safe_ignore, safe_emitEvent.
Qed.

End SafeReconcile.

#[export] Hint Resolve safe_reconcileDeployment safe_reconcileDeletion : good.

Section SafeDeployments.
Context {DB : Type} `{!Badger Blob DB, !BadgerLaws Blob DB} {E : Env}.

Lemma new_deployment_ok id spec t : spec_ok spec -> deployment_ok (new_deployment id spec t).
Proof.
  intros H. split; [|split; [exact H|by constructor]].
  intros _. split; [done|]. split; [done|]. intros i r Hr.
  by apply list_lookup_singleton_Some in Hr as [-> <-].
Qed.

Lemma safe_with_condition ty st re ms d :
  deployment_ok d -> safe (with_condition ty st re ms d : M (World DB) Deployment).
Proof. intros H. store_safe. Qed.

Lemma safe_touch d : deployment_ok d -> safe (touch d : M (World DB) Deployment).
Proof. intros H. store_safe. Qed.

Lemma safe_CreateDeployment spec : safe (CreateDeployment spec : M (World DB) Deployment).
Proof.
  unfold CreateDeployment. destruct (blank _); [apply safe_throw|].
  destruct (blank _); [apply safe_throw|]. cbv zeta.
  apply safe_bind; [store_safe|intros _ _]. apply safe_bind; [store_safe|intros _ _].
  apply safe_bind; [store_safe|intros _ _]. apply safe_bind; [store_safe|intros _ _].
  apply safe_bind; [apply safe_now|intros t _]. apply safe_bind; [apply safe_rand|intros r _].
  set (id := "dep-" +:+ _). set (d := new_deployment id _ t).
  assert (Hd : deployment_ok d) by apply new_deployment_ok, create_spec_ok. clearbody d.
  apply safe_bind; [store_safe|intros _ _]. apply safe_bind; [apply safe_reconcileDeployment|intros _ _].
  apply safe_bind; [apply safe_ignore, safe_emitEvent|intros _ _].
  apply safe_bind; [by apply safe_with_condition|intros d1 H1].
  apply safe_bind; [by apply safe_with_condition|intros d2 H2].
  apply safe_bind; [by apply safe_touch|intros d3 H3].
  apply safe_bind; [store_safe|intros _ _]. by apply safe_ret.
Qed.

Lemma safe_DeleteDeployment id : safe (DeleteDeployment id : M (World DB) unit).
Proof. store_safe. Qed.

Lemma safe_UpdateDeployment id spec : safe (UpdateDeployment id spec : M (World DB) Deployment).
Proof.
  unfold UpdateDeployment. apply safe_bind; [apply safe_get|]. intros dep (H1 & H2 & H3). cbv zeta.
  set (ns := merge_spec _ spec). pose proof (merge_spec_ok _ spec H2 : spec_ok ns) as Hns.
  set (d := set_phase _ _ _). assert (Hd : deployment_ok d) by done. clearbody d.
  apply safe_bind; [store_safe|intros d1 Hd1]. apply safe_bind; [store_safe|intros d2 Hd2].
  apply safe_bind; [store_safe|intros d3 Hd3].
  apply safe_bind.
  { destruct (negb _); [|by apply safe_ret]. apply safe_bind; [apply safe_now|intros t _].
    apply safe_ret. exact (deployment_ok_revision d3 _ t Hd3 (proj1 (proj2 Hd3))). }
  intros d4 Hd4. store_safe.
Qed.

Lemma safe_RollbackDeployment id r : safe (RollbackDeployment id r : M (World DB) Deployment).
Proof.
  unfold RollbackDeployment. apply safe_bind; [apply safe_get|]. intros dep H.
  destruct (lenZ _ =? 0); [apply safe_throw|]. cbv zeta.
  destruct (List.find _ _) as [target|] eqn:Hf; [|apply safe_throw].
  apply safe_bind; [apply safe_now|intros t _].
  set (d := set_phase _ _ _). assert (Hd : deployment_ok d).
  { apply (deployment_ok_revision dep _ t H), spec_ok_normalize. by eapply find_spec_ok, H. }
  clearbody d. store_safe.
Qed.

End SafeDeployments.

#[export] Hint Resolve safe_RollbackDeployment : good.
