(* ===== verification/Machine.v ===== *)
(** * The orchestrator as a state machine

    Every exported operation of the orchestrator is a command; a step runs one
    command to its end, successful or not.  The invariant of the store
    ([Invariant.inv]) holds in every state reachable from an empty database. *)

From Stdlib Require Import Ascii String.
From Corelib Require Import SpecFloat.
From S2P Require Import Prelude GoLang GoFloat GoSort GoTime Effects Model Scheduler Badger.
From S2P Require Import Balancer World Store StoreFacts StoreTheorems Events Secrets Rollout.
From S2P Require Import Placement Reconcile ReconcileFacts Deployments Nodes Services Autoscaler.
From S2P Require Import RBAC Volumes Lease Jobs Control Invariant.

Section SafeMore.
Context {DB : Type} `{!Badger Blob DB, !BadgerLaws Blob DB} {E : Env}.

Lemma safe_modify_db {A} `{!Good A} (m : M (World DB) A) :
  (forall w, w_db (m w).2 = w_db w) -> (forall w, good (m w).1) -> safe m.
Proof. intros Hdb Hg w Hw. split; [|apply Hg]. unfold inv. by rewrite Hdb. Qed.

Lemma safe_recordNodeHealthSample n : safe (recordNodeHealthSample n : M (World DB) unit).
Proof. by apply safe_modify_db. Qed.

Lemma safe_balance_Select id s eps : safe (balance_Select id s eps : M (World DB) ServiceEndpoint).
Proof.
  apply safe_modify_db; intros w; unfold balance_Select;
    destruct (Select _ _ _ _) as [[ep|e] b]; exact I || reflexivity.
Qed.

Lemma safe_get_state : safe (get_state : M (World DB) (World DB)).
Proof. by apply safe_modify_db. Qed.

Lemma db_ok_set_endpoints eps (db : DB) : db_ok db -> db_ok (foldl set_endpoint db eps).
Proof.
  revert db. induction eps as [|ep eps IH]; intros db H; simpl; [done|]. apply IH.
  by apply db_ok_set.
Qed.

Lemma safe_ReplaceServiceEndpoints id eps : safe (ReplaceServiceEndpoints id eps : M (World DB) unit).
Proof.
  unfold ReplaceServiceEndpoints. apply safe_bind.
  - apply safe_fold_m; [by constructor|]. intros acc ep _ _. unfold complete_endpoint. store_safe.
  - intros eps' _. apply safe_Update. intros db a db' Hdb [= <- <-]. split; [|done].
    by apply db_ok_set_endpoints, db_ok_delete_keys.
Qed.

Lemma safe_collect_namespaces {A} `{!Good A} (f : string -> M (World DB) (list A)) nss acc :
  (forall ns, safe (f ns)) -> good acc -> safe (collect_namespaces f nss acc).
Proof.
  intros Hf Hacc. unfold collect_namespaces. apply safe_fold_m; [done|]. intros acc' ns Ha _.
  apply safe_bind; [apply safe_attempt, Hf|]. intros [items|e] Hi; apply safe_ret; [|done].
  by apply Forall_app.
Qed.

Lemma safe_apply_scaling p d m n t :
  policy_ok p -> deployment_ok d -> 1 <= n -> safe (apply_scaling p d m n t : M (World DB) unit).
Proof.
  intros Hp Hd Hn. unfold apply_scaling. cbv zeta.
  apply safe_bind; [apply safe_put; [done|by apply scaled_deployment_ok]|intros _ _]. store_safe.
Qed.

Lemma safe_autoscale t p : policy_ok p -> safe (autoscale t p : M (World DB) unit).
Proof.
  intros Hp. unfold autoscale. apply safe_bind; [store_safe|]. intros [d|e] Hd; [|by apply safe_ret].
  apply safe_bind; [store_safe|]. intros [[|s ss]|e] _; try by apply safe_ret.
  cbv zeta. destruct (_ =? _); [by apply safe_ret|]. destruct (cooling_down _ _ _); [by apply safe_ret|].
  apply safe_apply_scaling; [done|exact Hd|].
  pose proof (recommend_bounds p (DeploymentSpec_Replicas (Deployment_Spec d))
    (observed_metrics p (window_samples p t (s :: ss))) Hp). unfold policy_ok in Hp. lia.
Qed.

Lemma safe_reconcileAutoscaling : safe (reconcileAutoscaling : M (World DB) unit).
Proof.
  unfold reconcileAutoscaling. apply safe_bind; [store_safe|]. intros ps Hps.
  apply safe_bind; [apply safe_now|]. intros t _. apply safe_for_each. intros p Hp.
  apply safe_autoscale. unfold good, Good_list in Hps. rewrite Forall_forall in Hps. by apply Hps.
Qed.

Lemma safe_save_policy p : policy_ok p -> safe (save_policy p : M (World DB) AutoscalerPolicy).
Proof. intros Hp. unfold save_policy. store_safe. Qed.

Lemma safe_UpsertAutoscalerPolicy p :
  safe (Autoscaler.UpsertAutoscalerPolicy p : M (World DB) AutoscalerPolicy).
Proof.
  unfold Autoscaler.UpsertAutoscalerPolicy. destruct (blank _); [apply safe_throw|].
  apply safe_bind; [store_safe|intros _ _]. apply safe_save_policy, default_policy_ok.
Qed.

End SafeMore.

#[export] Hint Extern 1 (safe (recordNodeHealthSample _)) => apply safe_recordNodeHealthSample : good.
#[export] Hint Extern 1 (safe (balance_Select _ _ _)) => apply safe_balance_Select : good.
#[export] Hint Extern 1 (safe get_state) => apply safe_get_state : good.
#[export] Hint Extern 1 (safe (ReplaceServiceEndpoints _ _)) => apply safe_ReplaceServiceEndpoints : good.

Section SafeControl.
Context {DB : Type} `{!Badger Blob DB, !BadgerLaws Blob DB} {E : Env}.

Lemma safe_updateNodeHealth : safe (updateNodeHealth : M (World DB) unit).
Proof. store_safe. Qed.

Lemma safe_evaluateWorkloadHealth : safe (evaluateWorkloadHealth : M (World DB) unit).
Proof. store_safe. Qed.

Lemma safe_reconcileAllServiceEndpoints : safe (reconcileAllServiceEndpoints : M (World DB) unit).
Proof. store_safe. Qed.

End SafeControl.

#[export] Hint Resolve safe_CreateDeployment safe_DeleteDeployment safe_UpdateDeployment
  safe_RollbackDeployment safe_reconcileAutoscaling safe_UpsertAutoscalerPolicy
  safe_updateNodeHealth safe_evaluateWorkloadHealth safe_reconcileAllServiceEndpoints : good.

Section SafePasses.
Context {DB : Type} `{!Badger Blob DB, !BadgerLaws Blob DB} {E : Env}.

Lemma safe_reconcilePVCBindings : safe (reconcilePVCBindings : M (World DB) unit).
Proof. store_safe. Qed.

Lemma safe_run_job t job : safe (run_job t job : M (World DB) unit).
Proof. store_safe. Qed.

Lemma safe_run_cron t cj : safe (run_cron t cj : M (World DB) unit).
Proof. store_safe. Qed.

Lemma safe_reconcileJobsAndCron : safe (reconcileJobsAndCron : M (World DB) unit).
Proof.
  unfold reconcileJobsAndCron. apply safe_bind; [store_safe|intros cj _].
  apply safe_bind; [store_safe|intros nss _].
  apply safe_bind; [apply safe_collect_namespaces; [intros; store_safe|by apply Forall_true]|intros cjs _].
  apply safe_bind; [apply safe_now|intros t _].
  apply safe_bind; [apply safe_for_each; intros; apply safe_run_cron|intros _ _].
  apply safe_bind; [store_safe|intros js _].
  apply safe_bind; [apply safe_collect_namespaces; [intros; store_safe|by apply Forall_true]|intros js' _].
  apply safe_for_each. intros. apply safe_run_job.
Qed.

End SafePasses.

#[export] Hint Resolve safe_reconcilePVCBindings safe_run_job safe_run_cron safe_reconcileJobsAndCron : good.

Section SafeAll.
Context {DB : Type} `{!Badger Blob DB, !BadgerLaws Blob DB} {E : Env}.

Lemma safe_report ty re id (m : M (World DB) unit) : safe m -> safe (report ty re id m).
Proof. intros Hm. unfold report. apply safe_bind; [by apply safe_attempt|]. store_safe. Qed.

Lemma safe_ReconcileAll : safe (ReconcileAll : M (World DB) unit).
Proof.
  unfold ReconcileAll. apply safe_bind; [store_safe|]. intros [deps|e] _; [|store_safe].
  apply safe_bind.
  { apply safe_for_each. intros d _. unfold reconcile_one. destruct (Deployment_DeletionTimestamp d);
      apply safe_report; eauto with good. }
  intros _ _. repeat (apply safe_bind; [apply safe_report; eauto with good|intros _ _]).
  apply safe_updateNodeHealth.
Qed.

Lemma safe_ReconcileShard i n : safe (ReconcileShard i n : M (World DB) unit).
Proof.
  unfold ReconcileShard. destruct (n <=? 1); [apply safe_ReconcileAll|].
  apply safe_bind; [store_safe|intros deps _].
  apply safe_bind; [apply safe_for_each; intros d _; unfold reconcile_shard_one; store_safe|intros _ _].
  apply safe_bind; [|intros _ _; apply safe_updateNodeHealth].
  destruct (i =? 0); [|by apply safe_ret].
  repeat (apply safe_bind; [eauto with good|intros _ _]). eauto with good.
Qed.

End SafeAll.

#[export] Hint Resolve safe_ReconcileAll safe_ReconcileShard : good.

(** ** Commands *)

(** The operations of the orchestrator's API and of the control loop. *)
Inductive Command : Type :=
| CmdRegisterNode (node : Node)
| CmdHeartbeatNode (nodeID : string) (used : Resource)
| CmdDrainNode (nodeID : string)
| CmdRemoveNode (nodeID : string)
| CmdCreateDeployment (spec : DeploymentSpec)
| CmdUpdateDeployment (id : string) (spec : DeploymentSpec)
| CmdRollbackDeployment (id : string) (targetRevision : Z)
| CmdDeleteDeployment (id : string)
| CmdUpsertAutoscalerPolicy (p : AutoscalerPolicy)
| CmdDeleteAutoscalerPolicy (id : string)
| CmdIngestDeploymentMetric (s : DeploymentMetricSample)
| CmdCreateService (spec : ServiceSpec)
| CmdSelectServiceEndpoint (serviceID strategy : string)
| CmdReleaseServiceEndpoint (endpointID : string)
| CmdCreateNamespace (ns : Namespace)
| CmdUpsertNamespaceQuota (q : NamespaceQuota)
| CmdUpsertSecret (s : Secret)
| CmdUpsertPersistentVolume (pv : PersistentVolume)
| CmdUpsertPersistentVolumeClaim (pvc : PersistentVolumeClaim)
| CmdUpsertNetworkPolicy (p : NetworkPolicy)
| CmdUpsertRoleBinding (b : RoleBinding)
| CmdUpsertJob (j : Job)
| CmdUpsertCronJob (c : CronJob)
| CmdTryAcquireControllerLeadership (controllerID : string) (d : Duration)
| CmdReleaseControllerLeadership (controllerID : string)
| CmdPollAssignments (nodeID : string) (max : Z)
| CmdReportWorkloadStatus (workloadID status containerID : string)
| CmdSubscribeEvents (buffer : Z)
| CmdUnsubscribe (ch : nat)
| CmdReconcileAll
| CmdReconcileShard (shardIndex shardCount : Z)
| CmdRecoverCluster.

Section Machine.
Context {DB : Type} `{!Badger Blob DB, !BadgerLaws Blob DB} {E : Env}.
Implicit Types (w : World DB).

Definition discard {A} (m : M (World DB) A) : M (World DB) unit := m ;; mret tt.

Definition run_command (c : Command) : M (World DB) unit :=
  match c with
  | CmdRegisterNode node => RegisterNode node
  | CmdHeartbeatNode nodeID used => HeartbeatNode nodeID used
  | CmdDrainNode nodeID => DrainNode nodeID
  | CmdRemoveNode nodeID => RemoveNode nodeID
  | CmdCreateDeployment spec => discard (CreateDeployment spec)
  | CmdUpdateDeployment id spec => discard (UpdateDeployment id spec)
  | CmdRollbackDeployment id r => discard (RollbackDeployment id r)
  | CmdDeleteDeployment id => DeleteDeployment id
  | CmdUpsertAutoscalerPolicy p => discard (Autoscaler.UpsertAutoscalerPolicy p)
  | CmdDeleteAutoscalerPolicy id => DeleteAutoscalerPolicy id
  | CmdIngestDeploymentMetric s => IngestDeploymentMetric s
  | CmdCreateService spec => discard (Services.CreateService spec)
  | CmdSelectServiceEndpoint id s => discard (SelectServiceEndpoint id s)
  | CmdReleaseServiceEndpoint id => ReleaseServiceEndpoint id
  | CmdCreateNamespace ns => discard (Deployments.CreateNamespace ns)
  | CmdUpsertNamespaceQuota q => discard (Deployments.UpsertNamespaceQuota q)
  | CmdUpsertSecret s => discard (Deployments.UpsertSecret s)
  | CmdUpsertPersistentVolume pv => discard (Volumes.UpsertPersistentVolume pv)
  | CmdUpsertPersistentVolumeClaim pvc => discard (Volumes.UpsertPersistentVolumeClaim pvc)
  | CmdUpsertNetworkPolicy p => discard (Volumes.UpsertNetworkPolicy p)
  | CmdUpsertRoleBinding b => discard (RBAC.UpsertRoleBinding b)
  | CmdUpsertJob j => discard (Jobs.UpsertJob j)
  | CmdUpsertCronJob c => discard (Jobs.UpsertCronJob c)
  | CmdTryAcquireControllerLeadership id d => discard (TryAcquireControllerLeadership id d)
  | CmdReleaseControllerLeadership id => ReleaseControllerLeadership id
  | CmdPollAssignments nodeID max => discard (PollAssignments nodeID max)
  | CmdReportWorkloadStatus id s c => ReportWorkloadStatus id s c
  | CmdSubscribeEvents b => discard (SubscribeEvents b)
  | CmdUnsubscribe ch => Unsubscribe ch
  | CmdReconcileAll => ReconcileAll
  | CmdReconcileShard i n => ReconcileShard i n
  | CmdRecoverCluster => RecoverCluster
  end.

(** One command, successful or not. *)
Definition command_step w w' : Prop := exists c, w' = (run_command c w).2.

Lemma safe_discard {A} `{!Good A} (m : M (World DB) A) : safe m -> safe (discard m).
Proof. intros H. apply safe_bind; [done|]. intros _ _. by apply safe_ret. Qed.

Lemma safe_run_command c : safe (run_command c).
Proof.
  destruct c; cbn [run_command]; try apply safe_discard; try solve [eauto 2 with good];
    try solve [store_safe].
  - by apply safe_modify_db.
  - by apply safe_modify_db.
  - by apply safe_modify_db.
  - unfold RecoverCluster. repeat (apply safe_bind; [eauto with good|intros _ _]). apply safe_ReconcileAll.
Qed.

Lemma reachable_inv w w' : inv w -> rtc command_step w w' -> inv w'.
Proof.
  intros Hw. induction 1 as [|w w1 w' [c ->] _ IH]; [done|].
  apply IH. exact (proj1 (safe_run_command c w Hw)).
Qed.

(** C2: after any sequence of API calls and control-loop passes on an empty
    database, with transactions failing at any point, every stored deployment
    has revisions numbered 1 to its current one without gaps, at least one
    replica, normalised rollout settings (also in every recorded revision),
    every autoscaler policy has limits [1 <= min <= max], and every document
    lies under the key of its identity. *)
Theorem reachable_deployments w0 w :
  (forall k, db_get w0.(w_db) k = None) -> rtc command_step w0 w ->
  wf w
  /\ (forall k d, db_get w.(w_db) k = Some (BDeployment d) ->
        deployment_ok d /\ k = keyDeployment d.(Deployment_ID))
  /\ (forall k p, db_get w.(w_db) k = Some (BAutoscalerPolicy p) -> policy_ok p).
Proof.
  intros H0 Hr. assert (Hw : inv w).
  { eapply reachable_inv; [|exact Hr]. intros k b. by rewrite H0. }
  split; [|split].
  - intros k b Hg. by destruct (Hw k b Hg).
  - intros k d Hg. by destruct (Hw k _ Hg) as [<- Hd].
  - intros k p Hg. by destruct (Hw k _ Hg) as [_ Hp].
Qed.

End Machine.
