(* ===== verification/JobTheorems.v ===== *)
(** * The life of a job

    What one pass of [reconcileJobsAndCron] may do to a stored job, as a step
    relation, and what follows for retries. *)

From Stdlib Require Import Ascii String.
From Corelib Require Import SpecFloat.
From S2P Require Import Prelude GoLang GoFloat GoSort GoTime Effects Model Scheduler Badger World.
From S2P Require Import Store StoreFacts StoreTheorems Events Secrets Rollout Placement Reconcile.
From S2P Require Import ReconcileFacts Deployments Services Volumes Jobs.

(** ** The state machine *)

(** The document of a job written at some time. *)
Definition job_image (created updated : Time) (j : Job) : Job :=
  j <| Job_CreatedAt := created |> <| Job_UpdatedAt := updated |>
    <| Job_Spec ::= set JobSpec_Template json_spec |>.

(** A job at time [t] starts, ends well, ends badly or expires; [None] is the
    absence of a document. *)
Inductive job_step (t : Time) (j : Job) : option Job -> Prop :=
| job_starts d created updated :
    j.(Job_Status) = JobPending -> blank j.(Job_Deployment) = true ->
    job_step t j (Some (job_image created updated
      (j <| Job_Deployment := d |> <| Job_Status := JobRunning |>)))
| job_succeeds created updated :
    j.(Job_Status) = JobRunning -> blank j.(Job_Deployment) = false ->
    job_step t j (Some (job_image created updated (job_succeeded t j)))
| job_fails created updated :
    j.(Job_Status) = JobRunning -> blank j.(Job_Deployment) = false ->
    job_step t j (Some (job_image created updated (job_failed t j)))
| job_expires :
    j.(Job_Status) = JobSucceeded \/ j.(Job_Status) = JobFailed -> job_expired t j = true ->
    job_step t j None.

(** A job as a cron job creates it. *)
Definition cron_made (j : Job) : Prop :=
  j.(Job_Status) = JobPending /\ j.(Job_Deployment) = ""
  /\ j.(Job_Succeeded) = 0 /\ j.(Job_Failed) = 0 /\ j.(Job_RunCount) = 0
  /\ 0 <= j.(Job_Spec).(JobSpec_BackoffLimit) /\ 1 <= j.(Job_Spec).(JobSpec_Completions)
  /\ j.(Job_Spec).(JobSpec_ScheduleReason) = "cron".

(** The number of failures fits the retries the job has. *)
Definition within_budget (j : Job) : Prop :=
  in_i64 j.(Job_Failed)
  /\ (j.(Job_Status) = JobPending \/ j.(Job_Status) = JobRunning ->
      j.(Job_Failed) <= j.(Job_Spec).(JobSpec_BackoffLimit))
  /\ (j.(Job_Status) = JobFailed -> j.(Job_Failed) = j.(Job_Spec).(JobSpec_BackoffLimit) + 1).

Lemma within_budget_image created updated j : within_budget (job_image created updated j) <-> within_budget j.
Proof. done. Qed.

Lemma job_step_budget t j j' : within_budget j -> job_step t j (Some j') -> within_budget j'.
Proof.
  intros (Hf & Hact & Hfail) Hstep.
  inversion Hstep as [d c u Hs Hb|c u Hs Hb|c u Hs Hb|]; subst; apply within_budget_image.
  - split; [done|]. split; [intros _; apply Hact; by left|done].
  - split; [done|]. by split; [intros [?|?]|].
  - specialize (Hact (or_intror Hs)). unfold job_failed. cbv zeta. cbn.
    set (f := Job_Failed j) in *. set (lim := JobSpec_BackoffLimit (Job_Spec j)) in *.
    pose proof (wrap64_range (f + 1)) as Hr. destruct (wrap64_eqm (f + 1)) as [k Hk].
    unfold within_budget, in_i64, i64_min, i64_max in *.
    destruct (Z.ltb_spec lim (f +! 1)); cbn; fold f lim;
      (split; [lia|]; split; [try by intros [?|?]|try done]; intros; lia).
Qed.

Section JobTheorems.
Context {DB : Type} `{!Badger Blob DB, !BadgerLaws Blob DB} {E : Env}.
Implicit Types (db : DB) (w : World DB).

Definition job_at (id : string) db : option Job := db_get db (keyJob id) ≫= project.

Lemma job_at_set db id id' j :
  job_at id (db_set db (keyJob id') (BJob j)) = if decide (id = id') then Some j else job_at id db.
Proof.
  unfold job_at. rewrite db_get_set. destruct (decide (id = id')) as [->|Hne].
  - by rewrite decide_True.
  - rewrite decide_False; [done|]. by intros ?%string_app_inj_l.
Qed.

Lemma job_at_delete db id id' :
  job_at id (db_delete db (keyJob id')) = if decide (id = id') then None else job_at id db.
Proof.
  unfold job_at. rewrite db_get_delete. destruct (decide (id = id')) as [->|Hne].
  - by rewrite decide_True.
  - rewrite decide_False; [done|]. by intros ?%string_app_inj_l.
Qed.

(** ** The steps of the two loops *)

(** Jobs stay, or are replaced by one a cron job made. *)
Definition cron_rel : relation DB := fun db db' =>
  forall id, job_at id db' = job_at id db \/ exists j, job_at id db' = Some j /\ cron_made j.

(** Jobs stay, or make a step from what was listed. *)
Definition job_rel (t : Time) (jobs : list Job) : relation DB := fun db db' =>
  forall id, job_at id db' = job_at id db
    \/ exists j, j ∈ jobs /\ j.(Job_ID) = id /\ job_step t j (job_at id db').

#[export] Instance cron_rel_PreOrder : PreOrder cron_rel.
Proof.
  split; [intros db id; by left|]. intros x y z H1 H2 id.
  destruct (H2 id) as [->|?]; [apply H1|by right].
Qed.

#[export] Instance job_rel_PreOrder t jobs : PreOrder (job_rel t jobs).
Proof.
  split; [intros db id; by left|]. intros x y z H1 H2 id.
  destruct (H2 id) as [->|?]; [apply H1|by right].
Qed.

(** What leaves the jobs alone is a step of either kind. *)
Class Spares (P : relation DB) : Prop :=
  spares : forall db db', (forall id, job_at id db' = job_at id db) -> P db db'.

#[export] Instance cron_rel_Spares : Spares cron_rel.
Proof. intros db db' H id. by left. Qed.

#[export] Instance job_rel_Spares t jobs : Spares (job_rel t jobs).
Proof. intros db db' H id. by left. Qed.

Lemma steps_spares (P : relation DB) `{!Spares P} {A} (m : M (World DB) A) :
  steps (dbrel (same_under "job:")) m -> steps (dbrel P) m.
Proof.
  intros H w. unfold dbrel. apply spares. intros id. unfold job_at. by rewrite (H w) by apply (HasPrefix_app "job:").
Qed.

Lemma steps_UpsertJob (P : relation DB) `{!PreOrder P} job :
  job.(Job_Status) <> "" ->
  (forall db created updated,
     P db (db_set db (keyJob job.(Job_ID)) (BJob (job_image created updated job)))) ->
  steps (dbrel P) (Store.UpsertJob job).
Proof.
  intros Hs HP. unfold Store.UpsertJob. apply String.eqb_neq in Hs. rewrite Hs.
  apply steps_bind; [apply _|by apply steps_or_now|]. intros created.
  apply steps_bind; [apply _|by apply steps_now|]. intros updated.
  apply steps_put; [done|]. intros db y. unfold json, JSON_Job. case_match; [|done].
  intros [= <-]. pose proof (HP db created updated) as H'. revert H'. unfold job_image. by destruct job.
Qed.

(** Creating workloads leaves the jobs alone. *)
Lemma same_jobs_create_workloads dep n :
  steps (dbrel (same_under "job:")) (create_workloads (DB := DB) dep n).
Proof. induction n as [|n IH]; cbn [create_workloads]; store_steps; eauto. Qed.

#[local] Hint Extern 2 (steps (dbrel (same_under "job:")) (create_workloads _ _)) =>
  apply same_jobs_create_workloads : steps.

Lemma same_jobs_CreateDeployment spec :
  steps (dbrel (same_under "job:")) (CreateDeployment (DB := DB) spec).
Proof. unfold CreateDeployment, reconcileDeployment. store_steps. Qed.

(** ** One round of each loop *)

Lemma job_rel_write t jobs j j' db created updated :
  j ∈ jobs -> j'.(Job_ID) = j.(Job_ID) -> job_step t j (Some (job_image created updated j')) ->
  job_rel t jobs db (db_set db (keyJob j'.(Job_ID)) (BJob (job_image created updated j'))).
Proof.
  intros Hj Hid Hstep id. rewrite job_at_set. destruct (decide (id = Job_ID j')) as [->|]; [|by left].
  right. exists j. by rewrite Hid.
Qed.

Lemma job_rel_UpsertJob t jobs j j' :
  j ∈ jobs -> j'.(Job_ID) = j.(Job_ID) -> j'.(Job_Status) <> "" ->
  (forall created updated, job_step t j (Some (job_image created updated j'))) ->
  steps (dbrel (job_rel t jobs)) (ignore (Store.UpsertJob (DB := DB) j')).
Proof.
  intros Hj Hid Hs Hstep. apply steps_ignore, steps_UpsertJob; [apply _|done|].
  intros db created updated. by eapply job_rel_write.
Qed.

Lemma job_failed_fields t j : (job_failed t j).(Job_Status) <> ""
  /\ (job_failed t j).(Job_ID) = j.(Job_ID).
Proof. unfold job_failed. cbv zeta. by destruct (_ <? _). Qed.

Lemma steps_run_job t jobs j :
  j ∈ jobs -> steps (dbrel (job_rel t jobs)) (run_job (DB := DB) t j).
Proof.
  intros Hj. unfold run_job.
  destruct (String.eqb_spec (Job_Status j) JobPending) as [Hp|_].
  { destruct (blank (Job_Deployment j)) eqn:Hb; [|apply steps_ret, _].
    apply steps_bind; [apply _|apply steps_spares; [apply _|apply steps_attempt, same_jobs_CreateDeployment]|].
    intros [dep|e]; [|apply steps_ret, _].
    apply (job_rel_UpsertJob t jobs j); [done|done|done|]. intros c u. by apply job_starts. }
  destruct (String.eqb_spec (Job_Status j) JobRunning) as [Hr|_].
  { destruct (blank (Job_Deployment j)) eqn:Hb; [apply steps_ret, _|].
    apply steps_bind; [apply _|apply steps_spares; [apply _|store_steps]|]. intros [ws|e]; [|apply steps_ret, _].
    destruct (deciding ws) as [x|]; [|apply steps_ret, _]. cbv zeta.
    apply steps_bind; [apply _| |intros _; apply steps_spares; [apply _|store_steps]].
    destruct (is_running x).
    - apply (job_rel_UpsertJob t jobs j); [done|done|done|]. intros c u. by apply job_succeeds.
    - destruct (job_failed_fields t j) as [Hs Hid].
      apply (job_rel_UpsertJob t jobs j); [done|done|done|]. intros c u. by apply job_fails. }
  destruct (_ || _) eqn:Hend; [|apply steps_ret, _].
  destruct (job_expired t j) eqn:Hx; [|apply steps_ret, _].
  apply orb_true_iff in Hend. rewrite !String.eqb_eq in Hend.
  apply steps_ignore, steps_del; [apply _|]. intros db id. rewrite job_at_delete.
  destruct (decide (id = Job_ID j)) as [->|]; [|by left]. right. exists j. split; [done|]. split; [done|].
  by apply job_expires.
Qed.

Lemma UpsertJob_cron t cj :
  steps (dbrel cron_rel) (Jobs.UpsertJob (DB := DB) (cron_instance t cj)).
Proof.
  unfold Jobs.UpsertJob. cbv zeta. destruct (blank _) eqn:Hb; [apply steps_throw, _|].
  apply steps_bind; [apply _| |intros id].
  { apply steps_spares; [apply _|]. change (blank (Job_ID _)) with true. store_steps. }
  apply steps_bind; [apply _| |intros _; apply steps_spares; [apply _|store_steps]].
  apply steps_UpsertJob; [apply _|done|]. intros db c u id'. rewrite job_at_set.
  destruct (decide _); [right|by left]. eexists. split; [done|].
  repeat split; cbn; try apply clamp0_nonneg. case_match; lia.
Qed.

Lemma steps_run_cron t cj : steps (dbrel cron_rel) (run_cron (DB := DB) t cj).
Proof.
  unfold run_cron. destruct (CronJob_Suspend cj); [apply steps_ret, _|].
  destruct (cron_due t cj); [|apply steps_ret, _].
  apply steps_bind; [apply _|apply steps_attempt, UpsertJob_cron|].
  intros [j|e]; [|apply steps_ret, _]. apply steps_spares; [apply _|store_steps].
Qed.

(** ** The listing between the loops *)

Definition accurate (mid : DB) (jobs : list Job) : Prop :=
  forall j, j ∈ jobs -> job_at j.(Job_ID) mid = Some j.

(** A listing of jobs: the store stays, and the jobs are those stored. *)
Lemma hoare_ListJobs ns mid :
  db_wf mid ->
  hoare (fun w => w.(w_db) = mid) (Store.ListJobs ns)
    (fun r w => w.(w_db) = mid /\ forall jobs, r = Ok jobs -> accurate mid jobs).
Proof.
  intros Hwf w <-. split.
  { assert (Hs : steps (dbrel eq) (Store.ListJobs (DB := DB) ns)) by store_steps. by rewrite <- (Hs w). }
  unfold Store.ListJobs, listPrefix, db_View, mbind, M_bind. destruct (env_dberr _); cbn; [done|].
  destruct (decode_all _) as [l|e] eqn:El; cbn; [|done]. apply decode_all_list_of in El as ->.
  assert (Hall : accurate (w_db w) (list_of "job:" (w_db w))).
  { intros j [_ Hg]%elem_of_list_of; [|done]. unfold job_at. simpl in Hg. by rewrite Hg. }
  destruct (blank ns); cbn; intros jobs [= <-]; [done|]. intros j Hj. apply Hall.
  rewrite list_elem_of_In, List.filter_In, <- list_elem_of_In in Hj. apply Hj.
Qed.

Lemma hoare_collect_jobs mid namespaces acc :
  db_wf mid -> accurate mid acc ->
  hoare (fun w => w.(w_db) = mid) (collect_namespaces Store.ListJobs namespaces acc)
    (fun r w => w.(w_db) = mid /\ forall jobs, r = Ok jobs -> accurate mid jobs).
Proof.
  intros Hwf. revert acc. unfold collect_namespaces.
  induction namespaces as [|ns l IH]; intros acc Hacc; cbn [fold_m].
  { apply hoare_ret. intros w Hw. split; [done|]. by intros jobs [= <-]. }
  eapply hoare_bind with (R := fun r w => w.(w_db) = mid /\ forall acc', r = Ok acc' -> accurate mid acc').
  - apply hoare_bind with (R := fun r w => w.(w_db) = mid
      /\ forall items, r = Ok (Ok items) -> accurate mid items); [| |by intros e w [? _]].
    { apply hoare_attempt. eapply hoare_conseq; [apply (hoare_ListJobs _ mid Hwf)|done|].
      intros r w [Hw Hr]. split; [done|]. intros items [= ->]. by apply Hr. }
    intros r. apply hoare_ret. intros w [Hw Hr]. split; [done|]. intros acc' [= <-].
    destruct r as [items|e]; [|done]. intros j [Hj|Hj]%elem_of_app; [by apply Hacc|by apply (Hr items)].
  - intros acc'. apply hoare_pure. intros Ha. by apply IH, Ha.
  - intros e w [Hw _]. by split.
Qed.

(** ** A pass *)

(** From [db0]: first the cron jobs, then at most one step of every job. *)
Definition pass_rel (t : Time) db0 db : Prop :=
  exists mid, cron_rel db0 mid
  /\ forall id, job_at id db = job_at id mid
       \/ exists j, job_at id mid = Some j /\ job_step t j (job_at id db).

Lemma job_rel_pass t jobs db0 mid db :
  cron_rel db0 mid -> accurate mid jobs -> job_rel t jobs mid db -> pass_rel t db0 db.
Proof.
  intros H0 Ha H. exists mid. split; [done|]. intros id.
  destruct (H id) as [?|(j & Hj & <- & Hs)]; [by left|right]. exists j. by split; [apply Ha|].
Qed.

Lemma hoare_job_loop t db0 namespaces :
  hoare (fun w => wf w /\ cron_rel db0 w.(w_db))
    (jobs ← Store.ListJobs "default";
     jobs ← collect_namespaces Store.ListJobs namespaces jobs;
     for_each jobs (run_job t))
    (fun _ w => pass_rel t db0 w.(w_db)).
Proof.
  intros w0 [Hw Hc]. set (mid := w_db w0) in *.
  assert (Hstay : forall w, w.(w_db) = mid -> pass_rel t db0 w.(w_db)).
  { intros w ->. exists mid. split; [done|]. by left. }
  enough (H : hoare (fun w => w.(w_db) = mid)
    (jobs ← Store.ListJobs "default";
     jobs ← collect_namespaces Store.ListJobs namespaces jobs;
     for_each jobs (run_job t)) (fun _ w => pass_rel t db0 w.(w_db))) by exact (H w0 eq_refl).
  eapply hoare_bind; [apply (hoare_ListJobs "default" mid Hw)| |intros e w [? _]; auto].
  intros jobs. apply hoare_pure. intros Hj.
  eapply hoare_bind; [apply (hoare_collect_jobs mid namespaces jobs Hw), Hj; done| |intros e w [? _]; auto].
  intros jobs'. apply hoare_pure. intros Hj'. specialize (Hj' jobs' eq_refl).
  apply (hoare_steps (dbrel (job_rel t jobs'))).
  - apply steps_for_each; [apply _|]. intros j. apply steps_run_job.
  - intros r w w' Hdb Hrel. unfold dbrel in Hrel. rewrite Hdb in Hrel. by eapply job_rel_pass.
Qed.

Lemma hoare_reconcileJobs w0 :
  wf w0 -> exists t, pass_rel t w0.(w_db) (reconcileJobsAndCron w0).2.(w_db).
Proof.
  intros Hw.
  enough (H : hoare (fun w => wf w /\ cron_rel w0.(w_db) w.(w_db)) reconcileJobsAndCron
    (fun _ w => exists t, pass_rel t w0.(w_db) w.(w_db))).
  { apply (H w0). split; [done|]. reflexivity. }
  assert (Hstay : forall w, wf w /\ cron_rel w0.(w_db) w.(w_db) -> exists t, pass_rel t w0.(w_db) w.(w_db)).
  { intros w [_ Hc]. exists 0, w.(w_db). split; [done|]. by left. }
  assert (Hframe : forall {A} (m : M (World DB) A), steps (keeps_db db_wf) m -> steps (dbrel cron_rel) m ->
    hoare (fun w => wf w /\ cron_rel w0.(w_db) w.(w_db)) m (fun _ w => wf w /\ cron_rel w0.(w_db) w.(w_db))).
  { intros A m H1 H2 w [Hw' Hc]. split; [by apply H1|]. etrans; [exact Hc|apply H2]. }
  unfold reconcileJobsAndCron.
  eapply hoare_bind; [apply Hframe; store_steps| |auto]. intros crons.
  eapply hoare_bind; [apply Hframe; store_steps| |auto]. intros namespaces.
  eapply hoare_bind; [apply Hframe; store_steps| |auto]. intros crons'.
  eapply hoare_bind; [apply Hframe; store_steps| |auto]. intros t.
  eapply hoare_bind; [apply Hframe; [store_steps|apply steps_for_each; [apply _|intros; apply steps_run_cron]]| |auto].
  intros []. eapply hoare_conseq; [apply (hoare_job_loop t w0.(w_db) namespaces)|auto|].
  intros r w Hp. by exists t.
Qed.

Lemma cron_made_budget j : cron_made j -> within_budget j.
Proof.
  intros (Hs & _ & _ & Hf & _ & Hl & _). unfold within_budget. rewrite Hf, Hs. by split; [|split].
Qed.

(** C18: a pass over the jobs moves every job by at most one step of its
    life, whatever fails on the way, and also when the namespace is listed
    twice and the job is handled twice.  A job is what it was, or a fresh one
    that a due cron job made; then it stays, or it starts, ends or expires as
    [job_step] says: a pending job without a deployment starts to run, a
    running one succeeds or fails, a finished one disappears when its time to
    live is over, and nothing else happens.  So the failures of a job never
    exceed its backoff limit while it may still run, and a failed job has
    failed exactly once more than the limit allows. *)
Theorem reconcileJobs_lifecycle w id :
  wf w ->
  let before := job_at id w.(w_db) in
  let after := job_at id (reconcileJobsAndCron w).2.(w_db) in
  (exists t listed, (listed = before \/ exists j, listed = Some j /\ cron_made j)
     /\ (after = listed \/ exists j, listed = Some j /\ job_step t j after))
  /\ ((forall j, before = Some j -> within_budget j) -> forall j, after = Some j -> within_budget j).
Proof.
  intros Hw. cbv zeta. destruct (hoare_reconcileJobs w Hw) as (t & mid & Hcron & Hstep).
  set (db' := w_db _) in *. specialize (Hcron id). specialize (Hstep id). split.
  { exists t, (job_at id mid). split; [|done]. destruct Hcron as [?|?]; [by left|by right]. }
  intros Hb. assert (Hmid : forall j, job_at id mid = Some j -> within_budget j).
  { intros j Hj. destruct Hcron as [Heq|(j' & Hj' & Hm)]; [apply Hb; congruence|].
    rewrite Hj in Hj'. injection Hj' as <-. by apply cron_made_budget. }
  intros j Hj. destruct Hstep as [Heq|(j0 & Hj0 & Hs)]; [apply Hmid; congruence|].
  rewrite Hj in Hs. eapply job_step_budget; [by apply Hmid|exact Hs].
Qed.

End JobTheorems.
