(* ===== verification/NodeTheorems.v ===== *)
(** * Theorems about nodes

    Health evaluation is total and classifies by missed heartbeats and load;
    draining evicts exactly the active workloads of the node. *)

From Stdlib Require Import Ascii String.
From Corelib Require Import SpecFloat.
From S2P Require Import Prelude GoLang GoFloat FloatFacts GoSort GoTime Effects Model Scheduler.
From S2P Require Import Badger World Store StoreFacts StoreTheorems Events Secrets Rollout.
From S2P Require Import Placement Reconcile ReconcileFacts ReconcileTheorems Deployments Nodes.

(** ** Health *)

(** A number between 0 and 1, both included. *)
Definition fraction_of_one (x : float64) : Prop :=
  is_finite_f x = true /\ f_leb f_zero x = true /\ f_leb x (f_of_Z 1) = true.

Lemma safeUtilization_fraction used alloc :
  in_i64 used -> in_i64 alloc -> fraction_of_one (safeUtilization used alloc).
Proof.
  intros Hu Ha. unfold safeUtilization.
  destruct (Z.leb_spec alloc 0); [by vm_compute|]. cbv zeta.
  assert (Hn : is_nan (f_div (f_of_Z used) (f_of_Z alloc)) = false)
    by (apply quotient_not_nan; [done|unfold in_i64 in *; lia]).
  set (v := f_div _ _) in *. destruct (f_ltb v f_zero) eqn:H0; [by vm_compute|].
  destruct (f_ltb (f_of_Z 1) v) eqn:H1; [by vm_compute|].
  split; [by apply clamped_finite|]. split; by apply f_not_ltb.
Qed.

Definition amounts_ok (n : Node) : Prop :=
  in_i64 n.(Node_Used).(Resource_MilliCPU) /\ in_i64 n.(Node_Used).(Resource_MemoryMB)
  /\ in_i64 n.(Node_Allocatable).(Resource_MilliCPU)
  /\ in_i64 n.(Node_Allocatable).(Resource_MemoryMB).

(** Under pressure: more than 90% of the CPU or of the memory is used. *)
Definition loaded (n : Node) : bool :=
  f_ltb pressure (safeUtilization n.(Node_Used).(Resource_MilliCPU) n.(Node_Allocatable).(Resource_MilliCPU))
  || f_ltb pressure (safeUtilization n.(Node_Used).(Resource_MemoryMB) n.(Node_Allocatable).(Resource_MemoryMB)).

(** C37: every node can be evaluated and the outcome stored, whatever its
    amounts: utilizations are fractions between 0 and 1, never NaN.  The node
    is Down and critical after two missed intervals, Unknown after one, and
    Ready otherwise, with a warning exactly when it is under pressure; a
    critical node is isolated and draining, a healthy one neither. *)
Theorem evaluate_node_verdict t age missed n :
  amounts_ok n ->
  let n' := evaluate_node t age missed n in
  let h := n'.(Node_Health) in
  json n' = Some n'
  /\ fraction_of_one h.(NodeHealth_CPUUtilization) /\ fraction_of_one h.(NodeHealth_MemoryUtilization)
  /\ n'.(Node_Status) = (if 2 <=? missed then NodeDown else if 1 <=? missed then NodeUnknown else NodeReady)
  /\ h.(NodeHealth_FailureClass)
     = (if 2 <=? missed then NodeFailureCritical
        else if (1 <=? missed) || loaded n then NodeFailureWarning else NodeFailureHealthy)
  /\ (h.(NodeHealth_FailureClass) = NodeFailureCritical ->
      h.(NodeHealth_Isolated) = true /\ h.(NodeHealth_Draining) = true)
  /\ (h.(NodeHealth_FailureClass) = NodeFailureHealthy ->
      h.(NodeHealth_Isolated) = false /\ h.(NodeHealth_Draining) = false).
Proof.
  intros (Hu1 & Hu2 & Ha1 & Ha2). cbv zeta. unfold evaluate_node, loaded. cbv zeta.
  pose proof (safeUtilization_fraction _ _ Hu1 Ha1) as Hc. pose proof (safeUtilization_fraction _ _ Hu2 Ha2) as Hm.
  revert Hc Hm. generalize (safeUtilization (Resource_MilliCPU (Node_Used n)) (Resource_MilliCPU (Node_Allocatable n))).
  generalize (safeUtilization (Resource_MemoryMB (Node_Used n)) (Resource_MemoryMB (Node_Allocatable n))).
  intros mem cpu Hc Hm. clear Hu1 Hu2 Ha1 Ha2. destruct n as [id addr labels taints cap alloc used status health seen].
  destruct (Z.leb_spec 2 missed) as [H2|H2]; [|destruct (Z.leb_spec 1 missed) as [H1|H1]];
    [| |destruct (f_ltb pressure cpu || f_ltb pressure mem) eqn:Hl];
    rewrite ?orb_true_l, ?orb_false_l, ?Hl; cbn -[f_leb f_of_Z];
    (split; [unfold json, JSON_Node; cbn; by rewrite (proj1 Hc), (proj1 Hm)|]);
    repeat split; try apply Hc; try apply Hm; try done.
Qed.

(** ** Draining *)

Section Drain.
Context {DB : Type} `{!Badger Blob DB, !BadgerLaws Blob DB} {E : Env}.
Implicit Types (db : DB) (w : World DB).

Definition workload_at db (id : string) : option Workload := db_get db (keyWorkload id) ≫= project.

Definition terminating (x : Workload) (t : Time) : Workload :=
  x <| Workload_Status := WorkloadTerminating |> <| Workload_UpdatedAt := t |>.

Definition on_node (nodeID : string) (x : Workload) : Prop :=
  x.(Workload_NodeID) = nodeID /\ is_active x = true.

(** Workloads only change by being marked as terminating, and only the active
    ones of the node. *)
Definition drained (nodeID : string) db0 db : Prop := forall id,
  workload_at db id = workload_at db0 id
  \/ exists x t, workload_at db0 id = Some x /\ on_node nodeID x
       /\ workload_at db id = Some (terminating x t).

Definition evicted db (x : Workload) : Prop :=
  exists t, workload_at db x.(Workload_ID) = Some (terminating x t).

Lemma workload_at_same db db' id :
  same_under "workload:" db db' -> workload_at db' id = workload_at db id.
Proof. intros H. unfold workload_at. rewrite H; [done|]. apply (HasPrefix_app "workload:"). Qed.

Section Loop.
Context (nodeID : string) (db0 : DB).

(** The state after the workloads [ds] were evicted. *)
Definition progress (ds : list Workload) w : Prop :=
  drained nodeID db0 w.(w_db) /\ forall x, x ∈ ds -> evicted w.(w_db) x.

Definition stored (x : Workload) : Prop := workload_at db0 x.(Workload_ID) = Some x.

Lemma progress_frame ds {A} (m : M (World DB) A) :
  steps (dbrel (same_under "workload:")) m -> hoare (progress ds) m (fun _ => progress ds).
Proof.
  intros Hs. eapply hoare_steps; [exact Hs|]. intros _ w w' [Hd He] Hw. split.
  - intros id. rewrite (workload_at_same _ _ _ Hw). apply Hd.
  - intros x Hx. unfold evicted. rewrite (workload_at_same _ _ _ Hw). by apply He.
Qed.

Lemma progress_frame_evicted ds x {A} (m : M (World DB) A) :
  steps (dbrel (same_under "workload:")) m ->
  hoare (fun w => progress ds w /\ (Ok tt = Ok tt -> evicted w.(w_db) x)) m
    (fun _ w => progress ds w /\ evicted w.(w_db) x).
Proof.
  intros Hs w [[Hd Hds] He]. destruct (progress_frame (x :: ds) m Hs w) as [Hd' He'].
  - split; [done|]. intros y [->|Hy]%elem_of_cons; [by apply He|by apply Hds].
  - split; [split; [done|]|]; [intros y Hy; apply He'; by right|apply He'; left].
Qed.

Lemma progress_UpsertWorkload ds x :
  stored x -> on_node nodeID x -> (forall y, y ∈ ds -> stored y) ->
  hoare (progress ds) (UpsertWorkload (x <| Workload_Status := WorkloadTerminating |>))
    (fun r w => progress ds w /\ (r = Ok tt -> evicted w.(w_db) x)).
Proof.
  intros Hx Hn Hds w [Hd He]. unfold UpsertWorkload, now, ask, put, mbind, M_bind. simpl.
  unfold db_Update. destruct (env_dberr _); cbn [fst snd]; [by split|].
  match goal with |- context [w_db (?w1 <| w_db := ?d |>)] => change (w_db (w1 <| w_db := d |>)) with d end.
  set (t := env_now _). change (db_set _ _ _)
    with (db_set w.(w_db) (keyWorkload x.(Workload_ID)) (inject (terminating x t))).
  set (db' := db_set _ _ _).
  assert (Hat : forall id, workload_at db' id
    = if decide (x.(Workload_ID) = id) then Some (terminating x t) else workload_at w.(w_db) id).
  { intros id. unfold workload_at, db'. rewrite db_get_set.
    destruct (decide (x.(Workload_ID) = id)) as [->|Hne]; [by rewrite decide_True|].
    rewrite decide_False; [done|]. unfold keyWorkload. by intros ?%(inj _). }
  assert (Hev : evicted db' x) by (exists t; by rewrite Hat, decide_True).
  split; [split|done].
  - intros id. rewrite Hat. destruct (decide (x.(Workload_ID) = id)) as [<-|_]; [|apply Hd].
    right. exists x, t. done.
  - intros y Hy. destruct (decide (x.(Workload_ID) = y.(Workload_ID))) as [Heq|Hne].
    + assert (x = y) as <-; [|done]. specialize (Hds y Hy). unfold stored in Hx, Hds. congruence.
    + destruct (He y Hy) as [t' Ht']. exists t'. by rewrite Hat, decide_False.
Qed.

Lemma progress_evict ds x :
  stored x -> on_node nodeID x -> (forall y, y ∈ ds -> stored y) ->
  hoare (progress ds) (evict x) (fun r w => progress ds w /\ (r = Ok tt -> evicted w.(w_db) x)).
Proof.
  intros Hx Hn Hds. unfold evict. eapply hoare_bind; [by apply progress_UpsertWorkload| |].
  - intros []. eapply hoare_conseq; [apply (progress_frame_evicted ds x); store_steps|done|]. by intros r w [].
  - intros e w [Hw _]. by split.
Qed.

Lemma progress_remediate ds reason x :
  stored x -> (forall y, y ∈ ds -> stored y) ->
  hoare (progress ds) (remediate_workload nodeID reason x)
    (fun r w => progress ds w /\ (r = Ok tt -> on_node nodeID x -> evicted w.(w_db) x)).
Proof.
  intros Hx Hds. unfold remediate_workload.
  destruct (String.eqb_spec (Workload_NodeID x) nodeID) as [Hn|Hn]; cbn [negb].
  2: { apply hoare_ret. intros w Hw. split; [done|]. by intros _ [? _]. }
  destruct (is_active x) eqn:Ha; cbn [negb].
  2: { apply hoare_ret. intros w Hw. split; [done|]. intros _ [_ ?]. congruence. }
  eapply hoare_bind; [by apply progress_evict| |].
  - intros []. eapply hoare_conseq; [apply (progress_frame_evicted ds x); store_steps|done|]. by intros r w [].
  - intros e w [Hw _]. by split.
Qed.

Lemma progress_loop ds reason l :
  (forall y, y ∈ l -> stored y) -> (forall y, y ∈ ds -> stored y) ->
  hoare (progress ds) (for_each l (remediate_workload nodeID reason))
    (fun r w => progress ds w /\ (r = Ok tt -> forall x, x ∈ l -> on_node nodeID x -> evicted w.(w_db) x)).
Proof.
  revert ds. induction l as [|x l IH]; intros ds Hl Hds; cbn [for_each].
  { apply hoare_ret. intros w Hw. split; [done|]. by intros _ x ?%elem_of_nil. }
  eapply hoare_bind; [apply progress_remediate; [apply Hl; left|done]| |].
  2: { intros e w [Hw _]. by split. }
  intros []. assert (Hl' : forall y, y ∈ l -> stored y) by (intros y Hy; apply Hl; by right).
  destruct (String.eqb_spec (Workload_NodeID x) nodeID) as [Hn|Hn]; [destruct (is_active x) eqn:Ha|].
  - intros w [[Hd Hds'] He]. destruct (IH (x :: ds) Hl') with (s := w) as [[Hd' Hds''] Hr].
    + intros y [->|Hy]%elem_of_cons; [apply Hl; left|by apply Hds].
    + split; [done|]. intros y [->|Hy]%elem_of_cons; [by apply He|by apply Hds'].
    + split; [split; [done|]; intros y Hy; apply Hds''; by right|]. intros Hok y [->|Hy]%elem_of_cons Hon.
      * apply Hds''. left.
      * by apply Hr.
  - intros w [Hw _]. destruct (IH ds Hl' Hds w Hw) as [Hw' Hr]. split; [done|].
    intros Hok y [->|Hy]%elem_of_cons Hon; [destruct Hon; congruence|by apply Hr].
  - intros w [Hw _]. destruct (IH ds Hl' Hds w Hw) as [Hw' Hr]. split; [done|].
    intros Hok y [->|Hy]%elem_of_cons Hon; [by destruct Hon|by apply Hr].
Qed.
End Loop.

Lemma remediate_evicts nodeID reason w :
  wf w ->
  let '(r, w') := remediateUnhealthyNode nodeID reason w in
  drained nodeID w.(w_db) w'.(w_db)
  /\ (r = Ok tt -> forall x, x ∈ list_of "workload:" w.(w_db) -> on_node nodeID x -> evicted w'.(w_db) x).
Proof.
  intros Hw. set (l := list_of "workload:" w.(w_db)).
  assert (Hl : forall y, y ∈ l -> stored w.(w_db) y).
  { intros y [_ Hy]%elem_of_list_of; [|done]. unfold stored, workload_at. cbn in Hy. by rewrite Hy. }
  assert (H : hoare (fun s => s = w) (remediateUnhealthyNode nodeID reason) (fun r s =>
    progress nodeID w.(w_db) [] s /\ (r = Ok tt -> forall x, x ∈ l -> on_node nodeID x -> evicted s.(w_db) x))).
  { unfold remediateUnhealthyNode.
    apply (hoare_bind _ _ (fun r s => progress nodeID w.(w_db) [] s /\ forall l', r = Ok l' -> l' = l)).
    - intros s ->. unfold ListWorkloads, listPrefix, db_View.
      assert (progress nodeID (w_db w) [] (w <| w_tick ::= S |>))
        by (split; [by left|]; by intros x ?%elem_of_nil).
      destruct (env_dberr _); cbn [fst snd]; (split; [done|]); [done|]. intros l'. apply decode_all_list_of.
    - intros l'. eapply (hoare_fact (l' = l) _ (progress nodeID w.(w_db) [])).
      + intros s [Hs Hl']. split; [by apply Hl'|done].
      + intros ->. by apply progress_loop; [|intros y ?%elem_of_nil].
    - intros e s [Hs _]. by split. }
  specialize (H w eq_refl). destruct (remediateUnhealthyNode nodeID reason w) as [r w'].
  destruct H as [[Hd _] Hr]. by split.
Qed.

(** ** Success without database failures *)

Definition reliable {A} (m : M (World DB) A) : Prop := hoare wf m (fun r w => is_ok r = true /\ wf w).

Lemma reliable_bind {A B} (m : M (World DB) A) (k : A -> M (World DB) B) :
  reliable m -> (forall a, reliable (k a)) -> reliable (m ≫= k).
Proof.
  intros Hm Hk. eapply hoare_bind; [exact Hm| |by intros e w [? _]].
  intros a w [_ Hw]. by apply Hk.
Qed.

Lemma reliable_for_each {A} (l : list A) body :
  (forall x, reliable (body x)) -> reliable (for_each l body).
Proof.
  intros H. induction l as [|x l IH]; cbn [for_each]; [by apply hoare_ret|].
  apply reliable_bind; [apply H|by intros _].
Qed.

Lemma reliable_steps {A} (m : M (World DB) A) :
  steps (keeps_db db_wf) m -> (forall w, is_ok (m w).1 = true) -> reliable m.
Proof. intros Hs Hok w Hw. split; [apply Hok|by apply Hs]. Qed.

Lemma reliable_remediate nodeID reason :
  (forall t, env_dberr t = None) -> reliable (remediateUnhealthyNode nodeID reason).
Proof.
  intros He. unfold remediateUnhealthyNode. apply reliable_bind.
  - intros w Hw. unfold ListWorkloads, listPrefix, db_View. rewrite He. cbn [fst snd]. split; [|done].
    by rewrite (decode_all_wf "workload:" "workload:") by (try exact Hw; by exists "").
  - intros l. apply reliable_for_each. intros x. unfold remediate_workload.
    destruct (negb _); [by apply hoare_ret|]. destruct (negb _); [by apply hoare_ret|].
    apply reliable_bind; [|intros []; apply reliable_steps; [store_steps|done]].
    apply reliable_steps; [store_steps|]. intros w.
    unfold evict, UpsertWorkload, EnqueueAssignment, put, now, ask, mbind, M_bind, db_Update. cbn.
    rewrite He. cbn. unfold db_Update. by rewrite He.
Qed.

(** A node is stored as it is, apart from the time it was last seen. *)
Lemma UpsertNode_effect n w :
  ((UpsertNode n w).1 = Ok tt ->
   exists t, db_get (UpsertNode n w).2.(w_db) (keyNode n.(Node_ID)) = Some (BNode (n <| Node_LastSeen := t |>)))
  /\ ((forall t, env_dberr t = None) -> json n = Some n -> (UpsertNode n w).1 = Ok tt).
Proof.
  unfold UpsertNode, or_now. set (b := IsZero _). destruct n as [????????[]?].
  unfold mbind, M_bind, mret, M_ret, now, ask, put, json, JSON_Node, db_Update, keyNode.
  destruct b; cbn; destruct (_ && _); cbn; try done;
    (split; [|by intros ->]); (destruct (env_dberr _); cbn; [done|]); intros _; eexists; by rewrite db_get_set, decide_True.
Qed.

Lemma GetNode_effect nodeID w :
  (GetNode nodeID w).2.(w_db) = w.(w_db)
  /\ (forall n, (GetNode nodeID w).1 = Ok n -> db_get w.(w_db) (keyNode nodeID) = Some (BNode n))
  /\ ((forall t, env_dberr t = None) -> forall n, db_get w.(w_db) (keyNode nodeID) = Some (BNode n) ->
      (GetNode nodeID w).1 = Ok n).
Proof.
  unfold GetNode, get, db_View. split; [by destruct (env_dberr _)|]. split.
  - intros n. destruct (env_dberr _); cbn; [done|]. unfold get_in.
    destruct (db_get _ _) as [b|]; [|done]. destruct (project b) as [n'|] eqn:Hb; [|done].
    intros [= <-]. by apply inject_project in Hb as ->.
  - intros He n Hn. rewrite He. cbn. unfold get_in. by rewrite Hn.
Qed.

(** The outcome of the two first calls of [DrainNode]. *)
Lemma drained_cases nodeID db0 db1 db2 :
  same_under "workload:" db0 db1 -> drained nodeID db1 db2 -> drained nodeID db0 db2.
Proof.
  intros Hs Hd id. destruct (Hd id) as [H|(x & t & H0 & Hn & H)]; rewrite (workload_at_same _ _ _ Hs) in *;
    [by left|right; by exists x, t].
Qed.

Lemma inactive_after nodeID w w' :
  wf w -> wf w' -> drained nodeID w.(w_db) w'.(w_db) ->
  (forall x, x ∈ list_of "workload:" w.(w_db) -> on_node nodeID x -> evicted w'.(w_db) x) ->
  forall x, x ∈ list_of "workload:" w'.(w_db) -> x.(Workload_NodeID) = nodeID -> is_active x = false.
Proof.
  intros Hw Hw' Hd He x [_ Hx]%elem_of_list_of Hn; [|done]. destruct (is_active x) eqn:Ha; [|done].
  assert (Hat : workload_at w'.(w_db) x.(Workload_ID) = Some x)
    by (unfold workload_at; cbn in Hx; by rewrite Hx).
  destruct (Hd x.(Workload_ID)) as [H|(y & t & _ & _ & H)]; rewrite Hat in H.
  - destruct (He x) as [t Ht]; [|done|rewrite Hat in Ht; injection Ht as Ht; rewrite Ht in Ha; discriminate].
    apply elem_of_list_of; [done|]. split; [apply (HasPrefix_app "workload:")|]. symmetry in H.
    unfold workload_at in H. destruct (db_get w.(w_db) (keyWorkload x.(Workload_ID))) as [b|] eqn:Hb; [|done].
    apply inject_project in H. by subst b.
  - injection H as ->. discriminate.
Qed.

(** C36: draining a node.  Whatever fails, workloads only change by being
    marked as terminating, and only active ones of that node.  When the call
    succeeds, none of the node's workloads is active any more and the node is
    Unknown, isolated and draining; and without database failures it does
    succeed on every registered node. *)
Theorem DrainNode_evicts nodeID w :
  wf w ->
  let '(r, w') := DrainNode nodeID w in
  drained nodeID w.(w_db) w'.(w_db)
  /\ (r = Ok tt ->
      (forall x, x ∈ list_of "workload:" w'.(w_db) -> x.(Workload_NodeID) = nodeID -> is_active x = false)
      /\ exists n, db_get w'.(w_db) (keyNode nodeID) = Some (BNode n) /\ n.(Node_Status) = NodeUnknown
         /\ n.(Node_Health).(NodeHealth_Isolated) = true /\ n.(Node_Health).(NodeHealth_Draining) = true)
  /\ ((forall t, env_dberr t = None) ->
      (exists n, db_get w.(w_db) (keyNode nodeID) = Some (BNode n) /\ json n = Some n) -> r = Ok tt).
Proof.
  intros Hw. unfold DrainNode. destruct (GetNode_effect nodeID w) as (Hdb & Hget & Hfound).
  unfold mbind at 1, M_bind at 1. destruct (GetNode nodeID w) as [[n|e] w1]; cbn [fst snd] in *.
  2: { rewrite Hdb. split; [by left|]. split; [done|]. intros He (n & Hn & _). by specialize (Hfound He n Hn). }
  specialize (Hget n eq_refl). assert (Hid : n.(Node_ID) = nodeID) by (apply Hw in Hget; cbn in Hget; unfold keyNode in Hget; by apply (inj _) in Hget).
  set (n1 := n <| Node_Health ::= _ |> <| Node_Status := _ |>).
  destruct (UpsertNode_effect n1 w1) as [Hput Hok].
  assert (Hs : steps (dbrel (same_under "workload:")) (UpsertNode (DB := DB) n1)) by store_steps.
  assert (Hk : steps (keeps_db db_wf) (UpsertNode (DB := DB) n1)) by store_steps.
  specialize (Hs w1). specialize (Hk w1). unfold dbrel in Hs, Hk. rewrite Hdb in Hs, Hk. specialize (Hk Hw).
  unfold mbind, M_bind. destruct (UpsertNode n1 w1) as [[[]|e] w2]; cbn [fst snd] in *.
  2: { split; [by apply (drained_cases nodeID _ _ _ Hs); left|]. split; [done|].
       intros He (n' & Hn' & Hj). rewrite Hget in Hn'. injection Hn' as <-.
       unfold json, JSON_Node in Hok, Hj. cbn in Hok. destruct (_ && _); [|done]. by specialize (Hok He eq_refl). }
  pose proof (remediate_evicts nodeID "manual drain" w2 Hk) as Hr.
  pose proof (reliable_remediate nodeID "manual drain") as Hrel.
  assert (Hwf2 : steps (keeps_db db_wf) (remediateUnhealthyNode (DB := DB) nodeID "manual drain")) by store_steps.
  assert (Hnode : steps (dbrel (same_under "node:")) (remediateUnhealthyNode (DB := DB) nodeID "manual drain")) by store_steps.
  specialize (Hwf2 w2 Hk). specialize (Hnode w2).
  destruct (remediateUnhealthyNode nodeID "manual drain" w2) as [r w'] eqn:Hrun. destruct Hr as [Hd He].
  split; [by apply (drained_cases nodeID _ _ _ Hs)|]. split.
  - intros ->. split; [by apply (inactive_after nodeID w2 w'); [..|apply He]|].
    destruct (Hput eq_refl) as [t Ht]. exists (n1 <| Node_LastSeen := t |>).
    unfold dbrel in Hnode. rewrite Hnode by apply (HasPrefix_app "node:"). cbn in Ht. rewrite Hid in Ht. by rewrite Ht.
  - intros Hf _. destruct (Hrel Hf w2 Hk) as [Ho _]. rewrite Hrun in Ho. by destruct r as [[]|].
Qed.
End Drain.
