(* ===== verification/PlacementTheorems.v ===== *)
(** * Theorems about preemption and volume binding *)

From Stdlib Require Import Ascii String.
From Corelib Require Import SpecFloat.
From S2P Require Import Prelude GoLang GoFloat GoSort GoTime Effects Model Scheduler Badger World.
From S2P Require Import Store StoreFacts StoreTheorems Events Secrets Rollout Placement Reconcile.
From S2P Require Import ReconcileFacts Deployments Nodes NodeTheorems Services Volumes.

(** ** Preemption *)

(** A non-negative amount that was charged before. *)
Definition charged (used victim : Resource) : Prop :=
  0 <= victim.(Resource_MilliCPU) <= used.(Resource_MilliCPU)
  /\ 0 <= victim.(Resource_MemoryMB) <= used.(Resource_MemoryMB).

Lemma give_back_room a u v r :
  0 <= a <= i64_max -> 0 <= v <= u -> u <= i64_max ->
  r <= (a -! u) +! v -> r <= a -! clamp0 (u -! v).
Proof.
  intros Ha Hv Hu. unfold i64_max in *.
  rewrite (wrap64_id (a - u)), (wrap64_id (a - u + v)), (wrap64_id (u - v)) by (unfold in_i64, i64_min, i64_max; lia).
  rewrite clamp0_id by lia. rewrite wrap64_id by (unfold in_i64, i64_min, i64_max; lia). lia.
Qed.

(** Giving back what was charged makes the room that was computed. *)
Lemma preempt_makes_room node victim req :
  sane_node node -> charged node.(Node_Used) victim.(Workload_Resources) ->
  preempt_fits node victim req = true ->
  fits (node <| Node_Used ::= fun u => give_back u victim.(Workload_Resources) |>) req = true.
Proof.
  unfold sane_node, sane_resource, charged, preempt_fits, fits, give_back. intros Hs Hc. cbn.
  rewrite negb_true_iff, orb_false_iff, !Z.ltb_ge, andb_true_iff, !Z.leb_le.
  intros [H1 H2]. split; apply give_back_room; (done || lia).
Qed.

(** The victim is one of the candidates that could make room; no such candidate
    comes before it. *)
Definition could_yield (nodes : gmap string Node) (req : Resource) (x : Workload) : Prop :=
  exists node, nodes !! x.(Workload_NodeID) = Some node /\ node.(Node_Status) = NodeReady
    /\ preempt_fits node x req = true.

Lemma preempt_less_spec a b :
  preempt_less a b = true <->
    a.(Workload_Priority) < b.(Workload_Priority)
    \/ a.(Workload_Priority) = b.(Workload_Priority) /\ b.(Workload_CreatedAt) < a.(Workload_CreatedAt).
Proof.
  unfold preempt_less, After. destruct (Z.eqb_spec (Workload_Priority a) (Workload_Priority b)) as [He|He];
    cbn [negb]; rewrite Z.ltb_lt; lia.
Qed.

#[export] Instance preempt_less_StrictWeak : StrictWeak (fun _ => True) preempt_less.
Proof.
  split.
  - intros x y _ _ H. apply not_true_is_false. intros H'. rewrite preempt_less_spec in H, H'. lia.
  - intros x y z _ _ _ H. rewrite preempt_less_spec in H |- *. rewrite (preempt_less_spec y z). lia.
Qed.

Lemma preempt_choice_first nodes req cs victim node :
  preempt_choice nodes req cs = Some (victim, node) ->
  nodes !! victim.(Workload_NodeID) = Some node /\ node.(Node_Status) = NodeReady
  /\ preempt_fits node victim req = true
  /\ exists pre post, cs = pre ++ victim :: post /\ forall x, x ∈ pre -> ~ could_yield nodes req x.
Proof.
  unfold preempt_choice. induction cs as [|y cs IH]; cbn; [done|].
  destruct (nodes !! Workload_NodeID y) as [n|] eqn:Hn; [destruct (_ && _) eqn:Hf|]; cbn.
  - intros [= -> ->]. apply andb_true_iff in Hf as [Hs%String.eqb_eq Hf]. repeat (split; [done|]).
    exists [], cs. split; [done|]. by intros x ?%elem_of_nil.
  - intros H. destruct (IH H) as (H1 & H2 & H3 & pre & post & -> & Hpre). repeat (split; [done|]).
    exists (y :: pre), post. split; [done|]. intros x [->|Hx]%elem_of_cons; [|by apply Hpre].
    intros (n' & Hn' & Hs & Hfit). rewrite Hn in Hn'. injection Hn' as <-. rewrite Hs, Hfit in Hf. discriminate.
  - intros H. destruct (IH H) as (H1 & H2 & H3 & pre & post & -> & Hpre). repeat (split; [done|]).
    exists (y :: pre), post. split; [done|]. intros x [->|Hx]%elem_of_cons; [|by apply Hpre].
    intros (n' & Hn' & _). congruence.
Qed.

(** No candidate that could make room is preferred to the victim. *)
Lemma preempt_choice_least dep nodes req l victim node x :
  preempt_choice nodes req (preempt_candidates dep l) = Some (victim, node) ->
  x ∈ preempt_candidates dep l -> could_yield nodes req x -> preempt_less x victim = false.
Proof.
  intros Hc Hx Hy. destruct (preempt_choice_first _ _ _ _ _ Hc) as (_ & _ & _ & pre & post & Heq & Hpre).
  assert (Hs : StronglySorted (not_after preempt_less) (preempt_candidates dep l))
    by (apply (SliceStable_sorted (fun _ => True) _); by apply Forall_true).
  rewrite Heq in Hx, Hs. apply elem_of_app in Hx as [Hx|Hx]; [by destruct (Hpre x Hx)|].
  apply elem_of_cons in Hx as [->|Hx].
  - apply not_true_is_false. rewrite preempt_less_spec. lia.
  - rewrite cons_middle, app_assoc in Hs. apply (StronglySorted_app_cross _ _ _ victim x Hs); [|done].
    apply elem_of_app. right. left.
Qed.

Lemma preempt_candidates_other dep l x :
  x ∈ preempt_candidates dep l -> x.(Workload_DeploymentID) <> dep.(Deployment_ID).
Proof.
  unfold preempt_candidates. rewrite SliceStable_perm, list_elem_of_In, List.filter_In, andb_true_iff, negb_true_iff.
  intros (_ & _ & H). by apply String.eqb_neq in H.
Qed.

Section Preemption.
Context {DB : Type} `{!Badger Blob DB, !BadgerLaws Blob DB} {E : Env}.
Implicit Types (db : DB) (w : World DB).

Lemma node_by_id_elem nodes id n : node_by_id nodes !! id = Some n -> n ∈ nodes /\ n.(Node_ID) = id.
Proof.
  unfold node_by_id. assert (H : forall m : gmap string Node, foldl (fun m n => <[n.(Node_ID) := n]> m) m nodes !! id = Some n ->
    m !! id = Some n \/ n ∈ nodes /\ n.(Node_ID) = id).
  { induction nodes as [|y l IH]; intros m; cbn [foldl]; [by left|]. intros Hn.
    destruct (IH _ Hn) as [Hi|[Hi He]]; [|right; split; [by right|done]].
    apply lookup_insert_Some in Hi as [[<- <-]|[_ Hi]]; [right; split; [left|done]|by left]. }
  intros Hn. destruct (H ∅ Hn) as [Hm|]; [by rewrite lookup_empty in Hm|done].
Qed.

Lemma listPrefix_Ok {T} `{!Entity T} p w (l : list T) w1 :
  listPrefix p w = (Ok l, w1) -> l = list_of p w.(w_db) /\ w1.(w_db) = w.(w_db).
Proof.
  unfold listPrefix, db_View. destruct (env_dberr _); intros [= Hl <-].
  split; [by apply decode_all_list_of|done].
Qed.

Lemma DeleteWorkload_Ok id w w1 :
  DeleteWorkload id w = (Ok tt, w1) -> w1.(w_db) = db_delete w.(w_db) (keyWorkload id).
Proof. unfold DeleteWorkload, del, db_Update. by destruct (env_dberr _); intros [= <-]. Qed.

(** The victim [x] and the effect of its preemption. *)
Definition preempted (dep : Deployment) (req : Resource) w w' (x : Workload) (n : Node) : Prop :=
  x ∈ list_of "workload:" w.(w_db) /\ n ∈ list_of "node:" w.(w_db)
  /\ x.(Workload_NodeID) = n.(Node_ID) /\ n.(Node_Status) = NodeReady
  /\ x.(Workload_Priority) < dep.(Deployment_Spec).(DeploymentSpec_Priority)
  /\ x.(Workload_DeploymentID) <> dep.(Deployment_ID)
  /\ workload_at w'.(w_db) x.(Workload_ID) = None
  /\ (forall id, id <> x.(Workload_ID) -> workload_at w'.(w_db) id = workload_at w.(w_db) id)
  /\ exists n', db_get w'.(w_db) (keyNode n.(Node_ID)) = Some (BNode n')
     /\ n'.(Node_Used) = give_back n.(Node_Used) x.(Workload_Resources)
     /\ (sane_node n -> charged n.(Node_Used) x.(Workload_Resources) -> fits n' req = true).

(** C39: a preemption that reports success removed exactly one workload, of
    another deployment and of strictly lower priority, from a Ready node, and
    gave its resources back: when they had been charged to the node the
    request now fits there.  No workload that could have made room had a lower
    priority, nor the same priority and a later creation. *)
Theorem tryPreemptForPriority_spec dep req w w' :
  wf w -> tryPreemptForPriority dep req w = (Ok true, w') ->
  exists x n, preempted dep req w w' x n
  /\ forall y, y ∈ preempt_candidates dep (list_of "workload:" w.(w_db)) ->
       could_yield (node_by_id (list_of "node:" w.(w_db))) req y -> preempt_less y x = false.
Proof.
  intros Hw H. unfold tryPreemptForPriority in H.
  apply bind_inv in H as [(ws & w1 & Hws & H)|(e & _ & He)]; [|discriminate].
  apply bind_inv in H as [(nodes & w2 & Hns & H)|(e & _ & He)]; [|discriminate].
  apply listPrefix_Ok in Hws as [-> Hdb1]. apply listPrefix_Ok in Hns as [-> Hdb2]. rewrite Hdb1 in *.
  destruct (preempt_choice _ _ _) as [[x n]|] eqn:Hc; [|discriminate].
  apply bind_inv in H as [([] & w3 & Hu & H)|(e & _ & He)]; [|discriminate].
  apply bind_inv in H as [([] & w4 & Hdel & H)|(e & _ & He)]; [|discriminate].
  apply bind_inv in H as [([] & w5 & Hev & [= <-])|(e & _ & He)]; [|discriminate].
  exists x, n. split; [|intros y; by apply (preempt_choice_least dep _ _ _ _ n)].
  pose proof (preempt_choice_elem _ _ _ _ _ Hc) as Hx. pose proof (preempt_candidates_other _ _ _ Hx) as Hd. apply preempt_candidates_elem in Hx as (Hx & Hp & _).
  destruct (preempt_choice_first _ _ _ _ _ Hc) as (Hn & Hready & Hfit & _).
  apply node_by_id_elem in Hn as [Hn Hid].
  set (n1 := n <| Node_Used ::= _ |>) in *.
  destruct (UpsertNode_effect n1 w2) as [Hput _]. rewrite Hu in Hput. destruct (Hput eq_refl) as [t Ht].
  assert (Hs2 : steps (dbrel (same_under "workload:")) (UpsertNode (DB := DB) n1)) by store_steps.
  specialize (Hs2 w2). rewrite Hu in Hs2. apply DeleteWorkload_Ok in Hdel.
  match type of Hev with ?m _ = _ =>
    assert (Hs5 : steps (dbrel (same_under "workload:")) m) by store_steps;
    assert (Hn5 : steps (dbrel (same_under "node:")) m) by store_steps end.
  specialize (Hs5 w4). specialize (Hn5 w4). rewrite Hev in Hs5, Hn5. unfold dbrel in *. cbn [snd] in *.
  assert (Hat : forall id, workload_at w5.(w_db) id
    = if decide (id = x.(Workload_ID)) then None else workload_at w.(w_db) id).
  { intros id. rewrite (workload_at_same _ _ _ Hs5), Hdel. unfold workload_at at 1. rewrite db_get_delete.
    destruct (decide (id = x.(Workload_ID))) as [->|Hne]; [by rewrite decide_True|].
    rewrite decide_False by (unfold keyWorkload; by intros ?%(inj _)).
    change (workload_at (w_db w3) id = workload_at (w_db w) id). rewrite (workload_at_same _ _ _ Hs2). by rewrite Hdb2. }
  unfold preempted. repeat (split; [done|]). split; [by rewrite Hat, decide_True|].
  split; [intros id Hne; by rewrite Hat, decide_False|].
  exists (n1 <| Node_LastSeen := t |>). split; [|split; [done|]].
  - rewrite Hn5 by apply (HasPrefix_app "node:"). rewrite Hdel, db_get_delete, decide_False by done. exact Ht.
  - intros Hsane Hch. exact (preempt_makes_room n x req Hsane Hch Hfit).
Qed.
End Preemption.

(** ** Volume binding *)

(** A volume is good for a claim when it is available, large enough, and of
    the storage class and access mode that the claim asks for, where both say
    something. *)
Definition suits (pvc : PersistentVolumeClaim) (pv : PersistentVolume) : Prop :=
  pv.(PersistentVolume_Phase) = PersistentVolumeAvailable
  /\ pvc.(PersistentVolumeClaim_RequestedCapacity) <= pv.(PersistentVolume_CapacityMB)
  /\ (blank pvc.(PersistentVolumeClaim_StorageClass) = true \/ blank pv.(PersistentVolume_StorageClass) = true
      \/ pvc.(PersistentVolumeClaim_StorageClass) = pv.(PersistentVolume_StorageClass))
  /\ (blank pvc.(PersistentVolumeClaim_AccessMode) = true \/ blank pv.(PersistentVolume_AccessMode) = true
      \/ pvc.(PersistentVolumeClaim_AccessMode) = pv.(PersistentVolume_AccessMode)).

Lemma can_bind_suits pvc pv : can_bind pvc pv = true <-> suits pvc pv.
Proof.
  unfold can_bind, suits, compatible.
  rewrite !andb_true_iff, !orb_true_iff, negb_true_iff, Z.ltb_ge, !String.eqb_eq. tauto.
Qed.

#[export] Instance capacity_StrictWeak :
  StrictWeak (fun _ => True) (fun a b => a.(PersistentVolume_CapacityMB) <? b.(PersistentVolume_CapacityMB)).
Proof. split; intros *; rewrite ?Z.ltb_lt, ?Z.ltb_ge; lia. Qed.

(** The first volume that suits, in the order of capacity, is a smallest one. *)
Lemma find_best_fit pvc pvs pv :
  List.find (can_bind pvc) (by_capacity pvs) = Some pv ->
  pv ∈ pvs /\ suits pvc pv
  /\ forall pv', pv' ∈ pvs -> suits pvc pv' -> pv.(PersistentVolume_CapacityMB) <= pv'.(PersistentVolume_CapacityMB).
Proof.
  intros H. pose proof (List.find_some _ _ H) as [Hin Hb]. apply list_elem_of_In in Hin.
  unfold by_capacity in *. split; [by rewrite SliceStable_perm in Hin|].
  split; [by apply can_bind_suits|]. intros pv' Hin' Hs'. apply can_bind_suits in Hs'.
  rewrite <- (SliceStable_perm (fun a b => a.(PersistentVolume_CapacityMB) <? b.(PersistentVolume_CapacityMB))) in Hin'.
  assert (Hsort := SliceStable_sorted (fun _ => True) (fun a b => a.(PersistentVolume_CapacityMB) <? b.(PersistentVolume_CapacityMB)) pvs
    ltac:(by apply Forall_true)).
  revert H Hin' Hsort. generalize (SliceStable (fun a b => a.(PersistentVolume_CapacityMB) <? b.(PersistentVolume_CapacityMB)) pvs).
  intros l. induction l as [|y l IH]; cbn [List.find]; [done|]. intros H Hin' Hsort.
  inversion Hsort as [|? ? Hsort' Hall]; subst. destruct (can_bind pvc y) eqn:Hy.
  - injection H as ->. apply elem_of_cons in Hin' as [->|Hin']; [lia|].
    rewrite Forall_forall in Hall. specialize (Hall pv' Hin'). unfold not_after in Hall. apply Z.ltb_ge in Hall. lia.
  - apply elem_of_cons in Hin' as [->|Hin']; [congruence|]. by apply IH.
Qed.

Section Binding.
Context {DB : Type} `{!Badger Blob DB, !BadgerLaws Blob DB} {E : Env}.
Implicit Types (db : DB) (w : World DB).

(** The stored volume and claim name each other. *)
Definition bound_in db (pvc : PersistentVolumeClaim) (pv : PersistentVolume) : Prop :=
  exists v c, db_get db (keyPersistentVolume pv.(PersistentVolume_Name)) = Some (BPersistentVolume v)
  /\ db_get db (keyPersistentVolumeClaim pvc.(PersistentVolumeClaim_Namespace) pvc.(PersistentVolumeClaim_Name))
     = Some (BPersistentVolumeClaim c)
  /\ v.(PersistentVolume_Phase) = PersistentVolumeBound
  /\ v.(PersistentVolume_ClaimNamespace) = pvc.(PersistentVolumeClaim_Namespace)
  /\ v.(PersistentVolume_ClaimName) = pvc.(PersistentVolumeClaim_Name)
  /\ c.(PersistentVolumeClaim_Phase) = PersistentVolumeClaimBound
  /\ c.(PersistentVolumeClaim_VolumeName) = pv.(PersistentVolume_Name).

Lemma or_now_run t w : exists t' n, or_now t w = (Ok t', w <| w_tick := n |>).
Proof. unfold or_now. destruct w. destruct (IsZero t); by eexists _, _. Qed.

Lemma UpsertPV_run pv w :
  (forall t, env_dberr t = None) -> pv.(PersistentVolume_Phase) = PersistentVolumeBound ->
  exists a b w', Store.UpsertPersistentVolume pv w = (Ok tt, w')
  /\ w'.(w_db) = db_set w.(w_db) (keyPersistentVolume pv.(PersistentVolume_Name)) (BPersistentVolume
       (pv <| PersistentVolume_CreatedAt := a |> <| PersistentVolume_UpdatedAt := b |>)).
Proof.
  intros He Hp. unfold Store.UpsertPersistentVolume.
  destruct (or_now_run pv.(PersistentVolume_CreatedAt) w) as (a & n & Ha).
  rewrite (bind_Ok _ _ _ _ _ Ha). unfold now, ask, mbind, M_bind, put. cbn. unfold db_Update. cbn. rewrite He.
  eexists a, _, _. split; [reflexivity|]. cbn. destruct pv. cbn in *. by rewrite Hp.
Qed.

Lemma UpsertPVC_run pvc w :
  (forall t, env_dberr t = None) -> pvc.(PersistentVolumeClaim_Phase) = PersistentVolumeClaimBound ->
  exists a b w', Store.UpsertPersistentVolumeClaim pvc w = (Ok tt, w')
  /\ w'.(w_db) = db_set w.(w_db)
       (keyPersistentVolumeClaim pvc.(PersistentVolumeClaim_Namespace) pvc.(PersistentVolumeClaim_Name))
       (BPersistentVolumeClaim
         (pvc <| PersistentVolumeClaim_CreatedAt := a |> <| PersistentVolumeClaim_UpdatedAt := b |>)).
Proof.
  intros He Hp. unfold Store.UpsertPersistentVolumeClaim.
  destruct (or_now_run pvc.(PersistentVolumeClaim_CreatedAt) w) as (a & n & Ha).
  rewrite (bind_Ok _ _ _ _ _ Ha). unfold now, ask, mbind, M_bind, put. cbn. unfold db_Update. cbn. rewrite He.
  eexists a, _, _. split; [reflexivity|]. cbn. destruct pvc. cbn in *. by rewrite Hp.
Qed.

(** C40: binding a claim is best fit.  Without database failures the step of
    the loop for one claim succeeds; it leaves the state alone when the claim
    is bound already or no volume suits it; otherwise it binds the claim to a
    smallest of the volumes that suit it, and volume and claim are stored
    naming each other. *)
Theorem bind_one_best_fit pvs pvc w :
  (forall t, env_dberr t = None) ->
  let '(r, w') := bind_one (by_capacity pvs) pvc w in
  r = Ok tt
  /\ (is_bound pvc = true \/ (forall pv, pv ∈ pvs -> ~ suits pvc pv) -> w' = w)
  /\ (is_bound pvc = false -> (exists pv, pv ∈ pvs /\ suits pvc pv) ->
      exists pv, pv ∈ pvs /\ suits pvc pv /\ bound_in w'.(w_db) pvc pv
      /\ forall pv', pv' ∈ pvs -> suits pvc pv' ->
           pv.(PersistentVolume_CapacityMB) <= pv'.(PersistentVolume_CapacityMB)).
Proof.
  intros He. unfold bind_one. destruct (is_bound pvc) eqn:Hb; [done|].
  destruct (List.find (can_bind pvc) (by_capacity pvs)) as [pv|] eqn:Hf.
  - destruct (find_best_fit _ _ _ Hf) as (Hin & Hs & Hmin).
    destruct (UpsertPV_run (bind_volume pvc pv) w He eq_refl) as (a1 & b1 & w1 & H1 & Hdb1).
    destruct (UpsertPVC_run (bind_claim pv pvc) w1 He eq_refl) as (a2 & b2 & w2 & H2 & Hdb2).
    rewrite (bind_Ok _ _ _ _ _ H1), H2. split; [done|]. split; [intros [?|Hno]; [done|by destruct (Hno pv Hin)]|].
    intros _ _. exists pv. repeat (split; [done|]). split; [|done].
    eexists _, _. split; [|split].
    + rewrite Hdb2, db_get_set, decide_False by discriminate. rewrite Hdb1, db_get_set. by rewrite decide_True.
    + rewrite Hdb2, db_get_set. by rewrite decide_True.
    + by repeat split.
  - split; [done|]. split; [done|]. intros _ (pv & Hin & Hs). apply can_bind_suits in Hs.
    assert (Hin' : pv ∈ by_capacity pvs) by (unfold by_capacity; by rewrite SliceStable_perm).
    apply list_elem_of_In in Hin'. by rewrite (List.find_none _ _ Hf pv Hin') in Hs.
Qed.
End Binding.
