(* ===== verification/DeploymentTheorems.v ===== *)
(** * Theorems about deployments *)

From Stdlib Require Import Ascii String.
From Corelib Require Import SpecFloat.
From S2P Require Import Prelude GoLang GoFloat GoSort GoTime Effects Model Scheduler Badger World.
From S2P Require Import Store StoreFacts StoreTheorems Events Secrets Rollout Placement Reconcile.
From S2P Require Import ReconcileFacts ReconcileTheorems Deployments Autoscaler Invariant.

Section DeploymentTheorems.
Context {DB : Type} `{!Badger Blob DB, !BadgerLaws Blob DB} {E : Env}.
Implicit Types (w : World DB).

(** Revision [r] of a good history is its [r]-th entry. *)
Lemma find_revision d r :
  revisions_ok d.(Deployment_CurrentRevision) d.(Deployment_RevisionHistory) ->
  lenZ d.(Deployment_RevisionHistory) <= i64_max ->
  1 <= r <= d.(Deployment_CurrentRevision) ->
  exists rev, d.(Deployment_RevisionHistory) !! Z.to_nat (r - 1) = Some rev
    /\ List.find (fun x => x.(DeploymentRevision_Revision) =? r) d.(Deployment_RevisionHistory) = Some rev.
Proof.
  intros Hok Hlen Hr. destruct (Hok Hlen) as (Hc & _ & Hnum). set (h := Deployment_RevisionHistory d) in *.
  destruct (lookup_lt_is_Some_2 h (Z.to_nat (r - 1))) as [rev Hrev]; [unfold lenZ in *; lia|].
  exists rev. split; [done|]. clear Hok Hlen. 
  assert (Hgen : forall l k, (forall i x, l !! i = Some x -> x.(DeploymentRevision_Revision) = Z.of_nat (k + i) + 1) ->
    forall i x, l !! i = Some x -> List.find (fun x => x.(DeploymentRevision_Revision) =? Z.of_nat (k + i) + 1) l = Some x).
  { induction l as [|y l IH]; intros k Hl i x Hi; [by rewrite lookup_nil in Hi|].
    pose proof (Hl 0%nat y eq_refl) as Hy. simpl. destruct i as [|i].
    - injection Hi as <-. rewrite Hy. by rewrite Z.eqb_refl.
    - destruct (Z.eqb_spec (DeploymentRevision_Revision y) (Z.of_nat (k + S i) + 1)); [lia|].
      replace (k + S i)%nat with (S k + i)%nat by lia. apply IH; [|exact Hi].
      intros j z Hj. rewrite (Hl (S j) z Hj). lia. }
  pose proof (Hgen h 0%nat Hnum _ _ Hrev) as Hf. simpl in Hf.
  by replace (Z.of_nat (Z.to_nat (r - 1)) + 1) with r in Hf by lia.
Qed.

(** ** JSON keeps what rollbacks need *)

Lemma normalize_finite s :
  spec_floats_ok s = true -> spec_floats_ok (s <| DeploymentSpec_Rollout ::= normalizeRolloutSpec |>) = true.
Proof.
  unfold spec_floats_ok. destruct s as [???????????? ? [strategy [mu ms] [en pct] dl auto mf slo win]]; simpl.
  intros H. rewrite normalizeRolloutSpec_fields. cbv zeta. simpl. unfold clamp_slo. by destruct (f_ltb _ _).
Qed.

Lemma json_Deployment_finite d d' :
  json d = Some d' -> spec_floats_ok d.(Deployment_Spec) = true
    /\ forallb (fun r => spec_floats_ok r.(DeploymentRevision_Spec)) d.(Deployment_RevisionHistory) = true.
Proof. unfold json, JSON_Deployment. destruct (_ && _) eqn:H; [|discriminate]. intros _. by apply andb_true_iff. Qed.

Lemma json_Deployment_Some d :
  spec_floats_ok d.(Deployment_Spec) = true ->
  forallb (fun r => spec_floats_ok r.(DeploymentRevision_Spec)) d.(Deployment_RevisionHistory) = true ->
  exists y, json d = Some y.
Proof. intros H1 H2. unfold json, JSON_Deployment. rewrite H1, H2. by eexists. Qed.

Lemma forallb_lookup {A} (f : A -> bool) l i x : forallb f l = true -> l !! i = Some x -> f x = true.
Proof. rewrite forallb_forall. intros H Hx. apply H, list_elem_of_In. by eapply list_elem_of_lookup_2. Qed.

(** What a rollback to [rev] makes of [d], apart from status and times. *)
Definition rolled_back (d d' : Deployment) (rev : DeploymentRevision) : Prop :=
  d'.(Deployment_ID) = d.(Deployment_ID)
  /\ d'.(Deployment_Spec)
     = rev.(DeploymentRevision_Spec) <| DeploymentSpec_Rollout ::= normalizeRolloutSpec |>
  /\ d'.(Deployment_CurrentRevision) = d.(Deployment_CurrentRevision) + 1
  /\ (exists t, d'.(Deployment_RevisionHistory) = d.(Deployment_RevisionHistory)
        ++ [MkDeploymentRevision d'.(Deployment_CurrentRevision) d'.(Deployment_Spec) t])
  /\ d'.(Deployment_RolloutStatus).(DeploymentRolloutStatus_Phase) = "Progressing"
  /\ d'.(Deployment_Status) = DeploymentPending.

(** C16: rolling a deployment back to one of its revisions succeeds when the
    database does: the specification of that revision becomes current again
    under a new revision number, appended to a history that keeps every older
    entry, and the result is what is stored. *)
Theorem RollbackDeployment_restores id r d w :
  (forall t, env_dberr t = None) -> inv w ->
  db_get w.(w_db) (keyDeployment id) = Some (BDeployment d) -> json d = Some d ->
  lenZ d.(Deployment_RevisionHistory) < i64_max -> 1 <= r <= d.(Deployment_CurrentRevision) ->
  exists rev d' y w', RollbackDeployment id r w = (Ok d', w')
    /\ d.(Deployment_RevisionHistory) !! Z.to_nat (r - 1) = Some rev
    /\ rolled_back d d' rev
    /\ json d' = Some y /\ db_get w'.(w_db) (keyDeployment id) = Some (BDeployment y).
Proof.
  intros He Hw Hg Hj Hlen Hr.
  destruct (Hw _ _ Hg) as [Hkey (Hrev & _ & _)]. simpl in Hkey. apply string_app_inj_l in Hkey.
  destruct (Hrev ltac:(lia)) as (Hcur & Hge & _).
  destruct (find_revision d r Hrev ltac:(lia) Hr) as (rev & Hi & Hf).
  unfold RollbackDeployment. rewrite (bind_Ok _ _ _ _ _ (GetDeployment_run id d w He Hg)).
  destruct (Z.eqb_spec (lenZ (Deployment_RevisionHistory d)) 0); [lia|].
  destruct (Z.leb_spec r 0); [lia|]. rewrite Hf. cbv zeta.
  unfold start_rollout, touch_rollout, with_condition, touch, now, ask, mbind, M_bind, mret, M_ret.
  cbn beta iota zeta.
  match goal with |- context [Store.UpdateDeployment ?D ?W] => set (d' := D); set (w2 := W) end.
  destruct (json_Deployment_finite d d Hj) as [_ Hfl].
  assert (Hs : spec_floats_ok (Deployment_Spec d') = true).
  { apply (normalize_finite (DeploymentRevision_Spec rev)). by eapply (forallb_lookup _ _ _ rev Hfl). }
  destruct (json_Deployment_Some d') as [y Hy].
  { exact Hs. }
  { change (Deployment_RevisionHistory d') with (Deployment_RevisionHistory d
      ++ [MkDeploymentRevision (Deployment_CurrentRevision d +! 1) (Deployment_Spec d') (env_now (S (w_tick w)))]).
    rewrite forallb_app, Hfl. cbn [forallb DeploymentRevision_Spec]. by rewrite Hs. }
  exists rev, d', y. unfold Store.UpdateDeployment. rewrite (put_run _ d' y w2 He Hy).
  unfold ignore. cbn beta iota. eexists. split; [reflexivity|]. split; [done|]. split; [|split; [done|]].
  - assert (Hcur' : Deployment_CurrentRevision d' = Deployment_CurrentRevision d + 1).
    { change (Deployment_CurrentRevision d +! 1 = Deployment_CurrentRevision d + 1).
      apply wrap64_id. unfold in_i64, i64_min, i64_max in *. lia. }
    split; [done|]. split; [done|]. split; [done|]. split; [|done]. by eexists.
  - cbn [snd]. rewrite emitEvent_frame by done.
    change (Deployment_ID d') with (Deployment_ID d). rewrite Hkey.
    change (w_db (?w1 <| w_db := ?x |>)) with x. by rewrite db_get_set, decide_True.
Qed.

(** ** Quotas *)

Lemma wrap64_add_l a b : wrap64 (wrap64 a + b) = wrap64 (a + b).
Proof.
  destruct (wrap64_eqm a) as [k ->]. unfold wrap64.
  replace (a + k * 2 ^ 64 + b + 2 ^ 63) with (a + b + 2 ^ 63 + k * 2 ^ 64) by lia.
  by rewrite Z.mod_add.
Qed.

Lemma wrap64_add_r a b : wrap64 (a + wrap64 b) = wrap64 (a + b).
Proof. by rewrite Z.add_comm, wrap64_add_l, Z.add_comm. Qed.

Definition cpu_demand (s : DeploymentSpec) : Z :=
  s.(DeploymentSpec_Replicas) * s.(DeploymentSpec_Resources).(Resource_MilliCPU).
Definition mem_demand (s : DeploymentSpec) : Z :=
  s.(DeploymentSpec_Replicas) * s.(DeploymentSpec_Resources).(Resource_MemoryMB).

(** The specs of a namespace. *)
Definition specs_in (namespace : string) (deps : list Deployment) : list DeploymentSpec :=
  List.filter (fun s => String.eqb s.(DeploymentSpec_Namespace) namespace)
    (List.map Deployment_Spec deps).

Definition total (f : DeploymentSpec -> Z) (specs : list DeploymentSpec) : Z :=
  foldr (fun s acc => f s + acc) 0 specs.

Lemma total_cons f s specs : total f (s :: specs) = f s + total f specs.
Proof. reflexivity. Qed.

(** The machine sums are the exact ones, wrapped once at the end. *)
Lemma usage_fold namespace deps c x y :
  foldl (fun u d => if String.eqb d.(Deployment_Spec).(DeploymentSpec_Namespace) namespace
                    then add_usage u d.(Deployment_Spec) else u)
    (MkUsage (wrap64 c) (wrap64 x) (wrap64 y)) deps
  = let specs := specs_in namespace deps in
    MkUsage (wrap64 (c + lenZ specs)) (wrap64 (x + total cpu_demand specs))
      (wrap64 (y + total mem_demand specs)).
Proof.
  revert c x y. induction deps as [|d deps IH]; intros c x y; cbn [foldl specs_in List.map List.filter].
  { change (lenZ []) with 0. cbn. by rewrite !Z.add_0_r. }
  destruct (String.eqb _ namespace); [|apply IH].
  unfold add_usage at 2. cbn [Usage_count Usage_cpu Usage_mem].
  rewrite !wrap64_add_l, !wrap64_add_r. rewrite IH. cbv zeta.
  rewrite lenZ_cons, !total_cons. fold (specs_in namespace deps).
  set (a := total cpu_demand _). set (b := total mem_demand _). unfold cpu_demand, mem_demand.
  f_equal; f_equal; lia.
Qed.

Lemma usage_of_spec namespace deps spec :
  add_usage (usage_of namespace deps) spec
  = let specs := specs_in namespace deps in
    MkUsage (wrap64 (lenZ specs + 1)) (wrap64 (total cpu_demand specs + cpu_demand spec))
      (wrap64 (total mem_demand specs + mem_demand spec)).
Proof.
  unfold usage_of. change (MkUsage 0 0 0) with (MkUsage (wrap64 0) (wrap64 0) (wrap64 0)).
  rewrite usage_fold. unfold add_usage. cbn [Usage_count Usage_cpu Usage_mem].
  by rewrite !Z.add_0_l, !wrap64_add_l, !wrap64_add_r.
Qed.

(** A limit of 0 (or less) is no limit. *)
Definition within (limit amount : Z) : Prop := 0 < limit -> amount <= limit.

Lemma over_limit limit amount :
  (0 <? limit) && (limit <? amount) = false <-> within limit amount.
Proof.
  unfold within. destruct (Z.ltb_spec 0 limit), (Z.ltb_spec limit amount); cbn; split; intros; try lia; done.
Qed.

Lemma check_quota_spec q u :
  check_quota q u = Ok tt <->
  within q.(NamespaceQuota_MaxDeployments) u.(Usage_count)
  /\ within q.(NamespaceQuota_MaxMilliCPU) u.(Usage_cpu)
  /\ within q.(NamespaceQuota_MaxMemoryMB) u.(Usage_mem).
Proof.
  unfold check_quota. rewrite <- !over_limit.
  do 3 (destruct ((0 <? _) && (_ <? _)); [split; [discriminate|naive_solver]|]). naive_solver.
Qed.

(** C17: the quota check admits a deployment exactly when, with it, the
    namespace stays within every limit that is set: the number of deployments
    and the sums of requested CPU and memory over all replicas.  The sums may
    overflow on the way; only the final amounts have to fit in 64 bits. *)
Theorem enforceNamespaceQuota_spec spec q w :
  let ns := spec.(DeploymentSpec_Namespace) in
  let specs := specs_in ns (list_of "deployment:" w.(w_db)) in
  wf w -> (forall t, env_dberr t = None) ->
  db_get w.(w_db) (keyNamespaceQuota ns) = Some (BNamespaceQuota q) ->
  in_i64 (lenZ specs + 1) -> in_i64 (total cpu_demand specs + cpu_demand spec) ->
  in_i64 (total mem_demand specs + mem_demand spec) ->
  (enforceNamespaceQuota spec w).1 = Ok tt <->
  within q.(NamespaceQuota_MaxDeployments) (lenZ specs + 1)
  /\ within q.(NamespaceQuota_MaxMilliCPU) (total cpu_demand specs + cpu_demand spec)
  /\ within q.(NamespaceQuota_MaxMemoryMB) (total mem_demand specs + mem_demand spec).
Proof.
  intros ns specs Hw He Hq H1 H2 H3. unfold enforceNamespaceQuota, mbind, M_bind, attempt.
  fold ns. unfold GetNamespaceQuota, get. rewrite run_View by done. unfold get_in. rewrite Hq. cbn -[Z.eqb].
  destruct ((_ =? 0) && (_ =? 0) && (_ =? 0)) eqn:Hz.
  { rewrite !andb_true_iff, !Z.eqb_eq in Hz. destruct Hz as [[-> ->] ->].
    split; [|done]. intros _. unfold within. lia. }
  unfold ListDeployments, listPrefix. rewrite run_View by done.
  rewrite (decode_all_wf (T := Deployment) "deployment:" _ _ (ex_intro _ "" eq_refl) Hw).
  cbn -[Z.eqb]. rewrite usage_of_spec, check_quota_spec. fold specs. cbv zeta.
  cbn [Usage_count Usage_cpu Usage_mem]. by rewrite !wrap64_id.
Qed.

End DeploymentTheorems.
