(* ===== verification/EndpointTheorems.v ===== *)
(** * Service endpoints mirror the workloads

    A pass over a service stores one endpoint per workload that backs it and
    port, and no other. *)

From Stdlib Require Import Ascii String.
From Corelib Require Import SpecFloat.
From S2P Require Import Prelude GoLang GoFloat GoSort GoTime Effects Model Scheduler Badger.
From S2P Require Import Balancer World Store StoreFacts StoreTheorems Events Secrets Rollout.
From S2P Require Import Placement Reconcile ReconcileFacts Convergence Deployments Services.

Section Endpoints.
Context {DB : Type} `{!Badger Blob DB, !BadgerLaws Blob DB} {E : Env}.
Implicit Types (db : DB) (w : World DB).

(** ** Computations that only read the clock *)

(** From interaction [lo] on, [m] returns with an unchanged database; what it
    returns satisfies [Q] at the interaction it ends with. *)
Definition reads {A} (lo : nat) (m : M (World DB) A) (Q : nat -> A -> Prop) : Prop :=
  forall w, (lo <= w.(w_tick))%nat -> exists a w', m w = (Ok a, w') /\ w'.(w_db) = w.(w_db)
    /\ (w.(w_tick) <= w'.(w_tick))%nat /\ Q w'.(w_tick) a.

Lemma reads_ret {A} lo (a : A) (Q : nat -> A -> Prop) : (forall hi, (lo <= hi)%nat -> Q hi a) -> reads lo (mret a) Q.
Proof. intros H w Hw. exists a, w. auto. Qed.

Lemma reads_now lo (Q : nat -> Time -> Prop) :
  (forall n, (lo <= n)%nat -> Q (S n) (env_now n)) -> reads lo now Q.
Proof.
  intros H w Hw. eexists _, _. split; [reflexivity|]. split; [done|]. cbn. split; [lia|by apply H].
Qed.

Lemma reads_bind {A B} lo (m : M (World DB) A) (k : A -> M (World DB) B) (Q : nat -> A -> Prop) Q' :
  reads lo m Q -> (forall hi a, (lo <= hi)%nat -> Q hi a -> reads hi (k a) Q') -> reads lo (m ≫= k) Q'.
Proof.
  intros Hm Hk w Hw. destruct (Hm w Hw) as (a & w1 & H1 & Hdb1 & Ht1 & Ha).
  destruct (Hk (w_tick w1) a ltac:(lia) Ha w1 ltac:(lia)) as (b & w2 & H2 & Hdb2 & Ht2 & Hb).
  exists b, w2. rewrite (bind_Ok _ _ _ _ _ H1), Hdb2. split; [done|]. split; [done|]. split; [lia|done].
Qed.

(** A loop keeps an invariant of what was processed and what was computed. *)
Lemma reads_fold {A B} (I : nat -> list A -> B -> Prop) body l lo pre acc :
  (forall t t' pre acc, (t <= t')%nat -> I t pre acc -> I t' pre acc) ->
  I lo pre acc ->
  (forall t pre acc x, (lo <= t)%nat -> I t pre acc -> reads t (body acc x) (fun hi => I hi (pre ++ [x]))) ->
  reads lo (fold_m l acc body) (fun hi => I hi (pre ++ l)).
Proof.
  intros Hmono. revert lo pre acc. induction l as [|x l IH]; intros lo pre acc H0 Hb; cbn [fold_m].
  - apply reads_ret. intros hi Hhi. rewrite app_nil_r. by eapply Hmono.
  - eapply reads_bind; [by apply Hb|]. intros hi acc' Hhi H'. cbn beta in H'.
    rewrite cons_middle, app_assoc. apply IH; [done|]. intros t pre' acc'' y Ht. apply Hb. lia.
Qed.

(** ** The endpoints of a service *)

(** Workload [x] of deployment [dep] backs the service: it is running or
    pending, the deployment is of the service's namespace, and its labels have
    what the selector, which must not be empty, asks for. *)
Definition serves (svc : Service) (db : DB) (x : Workload) (dep : Deployment) : Prop :=
  x ∈ list_of "workload:" db /\ dep ∈ list_of "deployment:" db
  /\ x.(Workload_DeploymentID) = dep.(Deployment_ID)
  /\ (x.(Workload_Status) = WorkloadRunning \/ x.(Workload_Status) = WorkloadPending)
  /\ TrimSpace dep.(Deployment_Spec).(DeploymentSpec_Namespace)
     = TrimSpace svc.(Service_Spec).(ServiceSpec_Namespace)
  /\ svc.(Service_Spec).(ServiceSpec_Selector) <> ∅
  /\ forall key value, svc.(Service_Spec).(ServiceSpec_Selector) !! key = Some value ->
       map_index dep.(Deployment_Spec).(DeploymentSpec_Labels) key = value.

(** The address of a node, or its name when it has none. *)
Definition addressed (nodes : list Node) (id address : string) : Prop :=
  (exists n, n ∈ nodes /\ n.(Node_ID) = id /\ blank n.(Node_Address) = false /\ address = n.(Node_Address))
  \/ (forall n, n ∈ nodes -> n.(Node_ID) = id -> blank n.(Node_Address) = true) /\ address = id.

(** A pending workload is not ready; a running one is, as soon as the initial
    delay of its readiness probe, if it has one, is over when the clock is read
    between the interactions [lo] and [hi]. *)
Definition ready_when (lo hi : nat) (dep : Deployment) (x : Workload) (ready : bool) : Prop :=
  let probe := dep.(Deployment_Spec).(DeploymentSpec_ReadinessProbe) in
  (x.(Workload_Status) <> WorkloadRunning -> ready = false)
  /\ (x.(Workload_Status) = WorkloadRunning -> probe.(ProbeSpec_Enabled) = false -> ready = true)
  /\ (x.(Workload_Status) = WorkloadRunning -> probe.(ProbeSpec_Enabled) = true ->
      exists n, (lo <= n < hi)%nat
        /\ ready = (seconds probe.(ProbeSpec_InitialDelaySeconds) <=? time_Sub (env_now n) x.(Workload_CreatedAt))).

(** [ep] is the endpoint of workload [x] of deployment [dep] at port [p]. *)
Definition describes (svc : Service) (nodes : list Node) (lo hi : nat)
    (b : Workload * Deployment * ServicePort) (ep : ServiceEndpoint) : Prop :=
  let '(x, dep, p) := b in
  ep.(ServiceEndpoint_ID)
  = svc.(Service_ID) +:+ "-" +:+ x.(Workload_ID) +:+ "-" +:+ fmt_d p.(ServicePort_TargetPort)
  /\ ep.(ServiceEndpoint_ServiceID) = svc.(Service_ID)
  /\ ep.(ServiceEndpoint_WorkloadID) = x.(Workload_ID)
  /\ ep.(ServiceEndpoint_NodeID) = x.(Workload_NodeID)
  /\ addressed nodes x.(Workload_NodeID) ep.(ServiceEndpoint_Address)
  /\ ep.(ServiceEndpoint_Port) = p.(ServicePort_TargetPort)
  /\ ep.(ServiceEndpoint_Protocol) = p.(ServicePort_Protocol)
  /\ ready_when lo hi dep x ep.(ServiceEndpoint_Ready).

Lemma ready_later lo hi hi' dep x ready :
  (hi <= hi')%nat -> ready_when lo hi dep x ready -> ready_when lo hi' dep x ready.
Proof.
  intros Hle (H1 & H2 & H3). split; [done|]. split; [done|]. intros Hr Hp.
  destruct (H3 Hr Hp) as (n & Hn & Hready). exists n. split; [lia|done].
Qed.

Lemma describes_later svc nodes lo hi hi' b ep :
  (hi <= hi')%nat -> describes svc nodes lo hi b ep -> describes svc nodes lo hi' b ep.
Proof.
  destruct b as [[x dep] p]. intros Hle (H1 & H2 & H3 & H4 & H5 & H6 & H7 & H8).
  do 7 (split; [done|]). by eapply ready_later.
Qed.

Lemma describe_all_later svc nodes lo hi hi' bs eps :
  (hi <= hi')%nat -> Forall2 (describes svc nodes lo hi) bs eps -> Forall2 (describes svc nodes lo hi') bs eps.
Proof. intros Hle H. eapply Forall2_impl; [exact H|]. intros b ep. by apply describes_later. Qed.

(** A map filled from a list. *)
Lemma filled_lookup {A V} (f : A -> string) (g : A -> V) (l : list A) k :
  match foldl (fun (m : gmap string V) x => <[f x := g x]> m) ∅ l !! k with
  | Some v => exists x, x ∈ l /\ f x = k /\ g x = v
  | None => forall x, x ∈ l -> f x <> k
  end.
Proof.
  induction l as [|x l IH] using rev_ind.
  { cbn [foldl]. rewrite lookup_empty. by intros x ?%elem_of_nil. }
  rewrite foldl_app. cbn [foldl].
  destruct (decide (f x = k)) as [<-|Hne].
  { rewrite lookup_insert_eq. exists x. rewrite elem_of_app, list_elem_of_singleton. auto. }
  rewrite lookup_insert_ne by done. destruct (foldl _ _ l !! k).
  - destruct IH as (y & Hy & Hk). exists y. rewrite elem_of_app. auto.
  - intros y. rewrite elem_of_app, list_elem_of_singleton. intros [Hy| ->]; auto.
Qed.

(** Stored objects of a key are one. *)
Lemma list_of_unique {T} `{!Entity T} p db (x y : T) :
  db_wf db -> x ∈ list_of p db -> y ∈ list_of p db -> key_of (inject x) = key_of (inject y) -> x = y.
Proof.
  intros Hw [_ Hx]%elem_of_list_of [_ Hy]%elem_of_list_of Hk; [|done..]. rewrite Hk, Hy in Hx.
  injection Hx as Hx. apply (f_equal project) in Hx. rewrite !project_inject in Hx. by injection Hx.
Qed.

Lemma endpoint_addressed db id : db_wf db ->
  addressed (list_of "node:" db) id (endpoint_address (node_addresses (list_of "node:" db)) id).
Proof.
  intros Hw. unfold endpoint_address, node_addresses, or_default, addressed.
  pose proof (filled_lookup Node_ID Node_Address (list_of "node:" db) id) as H.
  destruct (_ !! id) as [a|].
  - destruct H as (n & Hn & Hid & <-). change (default "" (Some ?a)) with a. destruct (blank (Node_Address n)) eqn:Hb; [right|left].
    + split; [|done]. intros n' Hn' Hid'. replace n' with n; [done|].
      apply (list_of_unique "node:" db); [done..|]. cbn. by rewrite Hid, Hid'.
    + by exists n.
  - right. split; [|done]. intros n Hn Hid. by destruct (H n Hn).
Qed.

Lemma is_active_cases x :
  is_active x = true <-> x.(Workload_Status) = WorkloadRunning \/ x.(Workload_Status) = WorkloadPending.
Proof. unfold is_active. by rewrite orb_true_iff, !String.eqb_eq. Qed.

(** The code's choice of workloads is the description above. *)
Lemma backing_serves svc db x dep : db_wf db -> x ∈ list_of "workload:" db ->
  backing svc (dep_by_id (list_of "deployment:" db)) x = Some dep <-> serves svc db x dep.
Proof.
  intros Hw Hx. unfold backing, serves, dep_by_id. rewrite <- is_active_cases.
  destruct (is_active x); cbn [negb]; [|naive_solver].
  pose proof (filled_lookup Deployment_ID id (list_of "deployment:" db) x.(Workload_DeploymentID)) as H.
  unfold id at 1 in H. destruct (_ !! Workload_DeploymentID x) as [d|].
  2: { split; [done|]. intros (_ & Hd & Hid & _). by destruct (H dep Hd). }
  destruct H as (d' & Hd & Hid & <-). unfold id.
  assert (Hsel : labelsMatchSelector d'.(Deployment_Spec).(DeploymentSpec_Labels)
      svc.(Service_Spec).(ServiceSpec_Selector) = true
    <-> svc.(Service_Spec).(ServiceSpec_Selector) <> ∅ /\ forall key value,
      svc.(Service_Spec).(ServiceSpec_Selector) !! key = Some value ->
      map_index d'.(Deployment_Spec).(DeploymentSpec_Labels) key = value).
  { unfold labelsMatchSelector. case_bool_decide; [naive_solver|]. rewrite map_forallb_spec.
    setoid_rewrite String.eqb_eq. naive_solver. }
  split.
  - destruct (_ && _) eqn:Hb; [|done]. intros [= <-]. apply andb_true_iff in Hb as [Hns Hl].
    apply String.eqb_eq in Hns. apply Hsel in Hl. naive_solver.
  - intros (_ & Hdep & Hdid & _ & Hns & Hl). assert (dep = d') as ->.
    { apply (list_of_unique "deployment:" db); [done..|]. cbn. by rewrite <- Hdid, Hid. }
    apply String.eqb_eq in Hns. apply Hsel in Hl. by rewrite Hns, Hl.
Qed.

(** The workloads that back the service, with their deployments, and ports. *)
Definition backed (svc : Service) (deps : gmap string Deployment) (workloads : list Workload)
    : list (Workload * Deployment * ServicePort) :=
  List.flat_map (fun x => match backing svc deps x with
    | Some dep => List.map (pair (x, dep)) svc.(Service_Spec).(ServiceSpec_Ports) | None => [] end) workloads.

Lemma backed_elem svc deps ws x dep p :
  (x, dep, p) ∈ backed svc deps ws <-> x ∈ ws /\ p ∈ svc.(Service_Spec).(ServiceSpec_Ports)
    /\ backing svc deps x = Some dep.
Proof.
  unfold backed. rewrite list_elem_of_In, List.in_flat_map. setoid_rewrite <- list_elem_of_In. split.
  - intros (y & Hy & Hin). destruct (backing svc deps y) as [d|] eqn:Hb; [|by apply elem_of_nil in Hin].
    apply list_elem_of_fmap in Hin as (q & [= <- <- <-] & Hq). auto.
  - intros (Hx & Hp & Hb). exists x. split; [done|]. rewrite Hb. apply list_elem_of_fmap. by exists p.
Qed.

Section Collect.
Context (svc : Service) (nodes : list Node) (lo : nat).
Hypothesis nodes_addressed : forall id, addressed nodes id (endpoint_address (node_addresses nodes) id).

Lemma make_endpoint_describes t0 dep t x p : (lo <= t0)%nat ->
  reads t0 (make_endpoint svc dep (node_addresses nodes) t x p)
    (fun hi => describes svc nodes lo hi (x, dep, p)).
Proof.
  intros Ht0. unfold make_endpoint. apply (reads_bind _ _ _ (fun hi => ready_when lo hi dep x)).
  - unfold endpoint_ready, ready_when. unfold is_running.
    destruct (String.eqb_spec (Workload_Status x) WorkloadRunning) as [Hr|Hr];
      destruct (ProbeSpec_Enabled _) eqn:Hp; cbn [andb].
    2,3,4: apply reads_ret; intros hi Hhi; naive_solver.
    apply (reads_bind _ _ _ (fun hi t' => exists n, (lo <= n < hi)%nat /\ t' = env_now n)).
    { apply reads_now. intros n Hn. exists n. split; [lia|done]. }
    intros hi t' Hhi (n & Hn & ->). apply reads_ret. intros hi' Hhi'. split; [done|]. split; [done|].
    intros _ _. exists n. split; [lia|done].
  - intros hi ready Hhi Hr. apply reads_ret. intros hi' Hhi'. do 4 (split; [done|]).
    split; [apply nodes_addressed|]. do 2 (split; [done|]). by eapply ready_later.
Qed.

Lemma collect_endpoints_mirror t0 deps t workloads : (lo <= t0)%nat ->
  reads t0 (collect_endpoints svc deps (node_addresses nodes) t workloads)
    (fun hi => Forall2 (describes svc nodes lo hi) (backed svc deps workloads)).
Proof.
  intros Ht0. unfold collect_endpoints.
  apply (reads_fold (fun hi pre acc => Forall2 (describes svc nodes lo hi) (backed svc deps pre) acc) _ _ _ []);
    [intros t1 t2 pre acc; apply describe_all_later|constructor|].
  intros t1 pre acc x Ht1 Hacc. unfold backed. rewrite List.flat_map_app. fold (backed svc deps pre).
  cbn [List.flat_map]. rewrite app_nil_r. destruct (backing svc deps x) as [dep|].
  2: { apply reads_ret. intros hi Hhi. rewrite app_nil_r. by eapply describe_all_later. }
  apply (reads_fold (fun hi ps acc => Forall2 (describes svc nodes lo hi)
    (backed svc deps pre ++ List.map (pair (x, dep)) ps) acc) _ _ _ []);
    [intros t2 t3 ps acc'; apply describe_all_later|by rewrite app_nil_r|].
  intros t2 ps acc' p Ht2 Hacc'. eapply reads_bind; [apply make_endpoint_describes; lia|]. intros hi ep Hhi Hep.
  apply reads_ret. intros hi' Hhi'. rewrite List.map_app, app_assoc.
  apply Forall2_app; [eapply describe_all_later; [|exact Hacc']; lia|]. constructor; [|constructor].
  by eapply describes_later.
Qed.

(** ** Replacing the stored endpoints *)

Lemma complete_describes t0 b ep : describes svc nodes lo t0 b ep ->
  reads t0 (complete_endpoint (DB := DB) ep) (fun hi => describes svc nodes lo hi b).
Proof.
  intros Hep. unfold complete_endpoint. destruct (String.eqb_spec (ServiceEndpoint_ID ep) "") as [He|_].
  { destruct b as [[x dep] p]. destruct Hep as [Hid _]. rewrite Hid in He. by destruct (Service_ID svc). }
  apply (reads_bind _ _ _ (fun _ _ => True)).
  - unfold or_now. destruct (IsZero _); [by apply reads_now|by apply reads_ret].
  - intros hi t Hhi _. apply reads_ret. intros hi' Hhi'. apply (describes_later _ _ _ t0); [lia|]. by destruct b as [[x dep] p].
Qed.

Lemma complete_endpoints_describe t0 bs eps :
  Forall2 (describes svc nodes lo t0) bs eps ->
  reads t0 (fold_m eps [] (fun acc ep => ep' ← complete_endpoint (DB := DB) ep; mret (acc ++ [ep'])))
    (fun hi => Forall2 (describes svc nodes lo hi) bs).
Proof.
  intros H.
  assert (Hgen : forall l t pre acc, Forall2 (describes svc nodes lo t) pre acc ->
    forall xs, Forall2 (describes svc nodes lo t) xs l ->
    reads t (fold_m l acc (fun acc ep => ep' ← complete_endpoint (DB := DB) ep; mret (acc ++ [ep'])))
      (fun hi => Forall2 (describes svc nodes lo hi) (pre ++ xs))).
  { induction l as [|ep l IH]; intros t pre acc Hacc xs Hl; inversion Hl as [|b ? xs' ? Hep Hl']; subst; cbn [fold_m].
    - apply reads_ret. intros hi Hhi. rewrite app_nil_r. by eapply describe_all_later.
    - apply (reads_bind _ _ _ (fun hi => Forall2 (describes svc nodes lo hi) (pre ++ [b]))).
      + eapply reads_bind; [by apply complete_describes|]. intros hi ep' Hhi Hep'. apply reads_ret.
        intros hi' Hhi'. apply Forall2_app; [eapply describe_all_later; [|exact Hacc]; lia|].
        constructor; [|constructor]. by eapply describes_later.
      + intros hi acc' Hhi Hacc'. rewrite cons_middle, app_assoc.
        apply IH; [done|]. by eapply describe_all_later. }
  apply (Hgen eps t0 [] []); [constructor|done].
Qed.

End Collect.

Definition ep_key (ep : ServiceEndpoint) : string :=
  keyServiceEndpoint ep.(ServiceEndpoint_ServiceID) ep.(ServiceEndpoint_ID).

Lemma set_endpoints_get eps db k :
  (exists ep, ep ∈ eps /\ ep_key ep = k /\ db_get (foldl set_endpoint db eps) k = Some (BServiceEndpoint ep))
  \/ (forall ep, ep ∈ eps -> ep_key ep <> k) /\ db_get (foldl set_endpoint db eps) k = db_get db k.
Proof.
  revert db. induction eps as [|ep eps IH]; intros db; cbn [foldl].
  { right. split; [by intros ep ?%elem_of_nil|done]. }
  destruct (IH (set_endpoint db ep)) as [(ep' & Hin & Hk & Hg)|[Hk Hg]].
  - left. exists ep'. split; [by right|done].
  - rewrite Hg. unfold set_endpoint. rewrite db_get_set. fold (ep_key ep). case_decide as Hd.
    + left. exists ep. split; [left|done].
    + right. split; [|done]. by intros ep' [->|Hin]%elem_of_cons; [|apply Hk].
Qed.

(** The stored endpoints of a service whose endpoints were replaced. *)
Definition replaced (serviceID : string) (eps : list ServiceEndpoint) db : Prop :=
  (forall ep : ServiceEndpoint, ep ∈ list_of (keyServiceEndpointPrefix serviceID) db -> ep ∈ eps)
  /\ forall ep, ep ∈ eps -> exists ep', ep' ∈ list_of (keyServiceEndpointPrefix serviceID) db
       /\ ep'.(ServiceEndpoint_ID) = ep.(ServiceEndpoint_ID).

Lemma replace_in_db serviceID eps db :
  db_wf db -> (forall ep, ep ∈ eps -> ep.(ServiceEndpoint_ServiceID) = serviceID) ->
  replaced serviceID eps (foldl set_endpoint
    (delete_keys db (db_scan db (keyServiceEndpointPrefix serviceID)).*1) eps).
Proof.
  intros Hw Hs. set (db1 := delete_keys db _). set (db2 := foldl _ _ _).
  assert (Hw2 : db_wf db2) by (by apply db_wf_set_endpoints, db_wf_delete_keys).
  assert (Hnone : forall k, HasPrefix k (keyServiceEndpointPrefix serviceID) = true -> db_get db1 k = None).
  { intros k Hk. unfold db1. rewrite delete_keys_get. case_decide as Hd; [done|].
    destruct (db_get db k) as [b|] eqn:Hb; [|done]. destruct Hd. apply list_elem_of_fmap.
    exists (k, b). split; [done|]. by apply db_scan_elem. }
  assert (Hpre : forall ep, ep ∈ eps -> HasPrefix (ep_key ep) (keyServiceEndpointPrefix serviceID) = true).
  { intros ep Hep. unfold ep_key, keyServiceEndpoint. rewrite (Hs ep Hep). apply HasPrefix_app. }
  split.
  - intros ep [Hp Hg]%elem_of_list_of; [|done].
    destruct (set_endpoints_get eps db1 (key_of (inject ep))) as [(ep' & Hin & _ & Hg')|[_ Hg']];
      fold db2 in Hg'; rewrite Hg in Hg'; [by injection Hg' as ->|]. by rewrite Hnone in Hg'.
  - intros ep Hin. destruct (set_endpoints_get eps db1 (ep_key ep)) as [(ep' & Hin' & Hk & Hg)|[Hk _]];
      [|by destruct (Hk ep Hin)].
    exists ep'. split.
    + apply elem_of_list_of; [done|]. change (key_of (inject ep')) with (ep_key ep'). rewrite Hk. by split; [apply Hpre|].
    + unfold ep_key, keyServiceEndpoint in Hk. rewrite (Hs ep' Hin'), (Hs ep Hin) in Hk. by apply (inj _) in Hk.
Qed.

(** ** The whole pass *)

Section NoFaults.
Hypothesis no_faults : forall t, env_dberr t = None.

Lemma list_run {T} `{!Entity T} fam `{!Family T fam} w :
  wf w -> listPrefix (T := T) fam w = (Ok (list_of fam w.(w_db)), w <| w_tick ::= S |>).
Proof.
  intros Hw. unfold listPrefix. rewrite run_View by apply no_faults.
  rewrite (decode_all_wf fam fam); [done| |exact Hw]. exists "". clear.
  induction fam as [|c fam IH]; [done|]. transitivity (String c (fam +:+ "")); [by rewrite <- IH|done].
Qed.

Lemma Replace_run svc nodes lo bs eps w :
  wf w -> Forall2 (describes svc nodes lo w.(w_tick)) bs eps ->
  exists eps' w', ReplaceServiceEndpoints svc.(Service_ID) eps w = (Ok tt, w')
    /\ Forall2 (describes svc nodes lo w'.(w_tick)) bs eps' /\ replaced svc.(Service_ID) eps' w'.(w_db).
Proof.
  intros Hw H. unfold ReplaceServiceEndpoints.
  destruct (complete_endpoints_describe svc nodes lo _ bs eps H w) as (eps' & w1 & H1 & Hdb & Ht & Heps); [done|].
  rewrite (bind_Ok _ _ _ _ _ H1). unfold db_Update. rewrite no_faults. eexists eps', _.
  split; [reflexivity|]. split; [eapply describe_all_later; [|exact Heps]; cbn; lia|].
  cbn -[keyServiceEndpointPrefix]. rewrite Hdb.
  apply replace_in_db; [exact Hw|]. intros ep Hep. apply list_elem_of_lookup in Hep as [i Hi].
  destruct (Forall2_lookup_r _ _ _ _ _ Heps Hi) as ([[x dep] p] & _ & Hd). apply Hd.
Qed.

(** C38: after a pass over a service without database failures its stored
    endpoints mirror the workloads.  Each is the endpoint of a workload that
    runs or is pending, of a deployment in the service's namespace whose labels
    match the selector, at one of the service's target ports, under the address
    of the workload's node; and for every such workload and port an endpoint
    with its ID is stored.  An endpoint of a pending workload is stored but not
    ready; that of a running workload is ready, unless the initial delay of the
    readiness probe of its deployment was not over when the pass read the
    clock. *)
Theorem reconcileServiceEndpoints_mirror serviceID svc w :
  wf w -> db_get w.(w_db) (keyService serviceID) = Some (BService svc) ->
  let w' := (reconcileServiceEndpoints serviceID w).2 in
  let stored : list ServiceEndpoint := list_of (keyServiceEndpointPrefix serviceID) w'.(w_db) in
  (reconcileServiceEndpoints serviceID w).1 = Ok tt
  /\ (forall ep, ep ∈ stored -> exists x dep p, serves svc w.(w_db) x dep
        /\ p ∈ svc.(Service_Spec).(ServiceSpec_Ports)
        /\ describes svc (list_of "node:" w.(w_db)) w.(w_tick) w'.(w_tick) (x, dep, p) ep)
  /\ (forall x dep p, serves svc w.(w_db) x dep -> p ∈ svc.(Service_Spec).(ServiceSpec_Ports) ->
        exists ep, ep ∈ stored /\ ep.(ServiceEndpoint_ID)
          = serviceID +:+ "-" +:+ x.(Workload_ID) +:+ "-" +:+ fmt_d p.(ServicePort_TargetPort)).
Proof.
  intros Hw Hg. cbv zeta.
  assert (Hid : svc.(Service_ID) = serviceID) by (apply Hw in Hg; cbn in Hg; unfold keyService in Hg; by apply (inj _) in Hg).
  unfold reconcileServiceEndpoints, GetService, ListDeployments, ListWorkloads, ListNodes.
  assert (Hget : get (keyService serviceID) w = (Ok svc, w <| w_tick ::= S |>))
    by (unfold get; rewrite run_View by apply no_faults; unfold get_in; by rewrite Hg).
  rewrite (bind_Ok _ _ _ _ _ Hget). set (wa := w <| w_tick ::= S |>).
  rewrite (bind_Ok _ _ _ _ _ (list_run "deployment:" wa Hw)). set (wb := wa <| w_tick ::= S |>).
  rewrite (bind_Ok _ _ _ _ _ (list_run "workload:" wb Hw)). set (wc := wb <| w_tick ::= S |>).
  rewrite (bind_Ok _ _ _ _ _ (list_run "node:" wc Hw)). set (w1 := wc <| w_tick ::= S |>).
  rewrite (bind_Ok now _ w1 (env_now w1.(w_tick)) (w1 <| w_tick ::= S |>) eq_refl).
  set (deps := dep_by_id _). set (nodes := list_of "node:" _). set (ws := list_of "workload:" _).
  destruct (collect_endpoints_mirror svc nodes w.(w_tick) (fun id => endpoint_addressed _ id Hw) w.(w_tick)
    deps (env_now (w_tick w1)) ws ltac:(lia) (w1 <| w_tick ::= S |>)) as (eps & w2 & Hc & Hdb & Ht & Heps).
  { unfold w1, wc, wb, wa. cbn. lia. }
  rewrite (bind_Ok _ _ _ _ _ Hc).
  assert (Hw2 : wf w2) by (unfold wf; rewrite Hdb; exact Hw).
  destruct (Replace_run svc nodes _ _ eps w2 Hw2 Heps) as (eps' & w3 & Hr & Heps' & Hrep).
  rewrite (bind_Ok _ _ _ _ _ Hr). set (m := ignore _).
  assert (Hm : steps (dbrel (same_under (keyServiceEndpointPrefix serviceID))) m) by (subst m; store_steps).
  assert (Hl : steps later m) by (subst m; unfold emitEvent; store_steps).
  split; [done|]. rewrite (same_under_list _ _ _ (Hm w3)). rewrite Hid in Hrep. destruct Hrep as [Hsound Hcompl].
  split.
  - intros ep Hep. apply Hsound, list_elem_of_lookup in Hep as [i Hi].
    destruct (Forall2_lookup_r _ _ _ _ _ Heps' Hi) as ([[x dep] p] & Hxp & Hd).
    apply list_elem_of_lookup_2, backed_elem in Hxp as (Hx & Hp & Hb). exists x, dep, p.
    split; [by apply backing_serves|]. split; [done|]. eapply describes_later; [|exact Hd]. apply Hl.
  - intros x dep p Hs Hp. assert (Hxp : (x, dep, p) ∈ backed svc deps ws).
    { apply backed_elem. pose proof Hs as [Hx _]. split; [done|]. split; [done|]. by apply backing_serves. }
    apply list_elem_of_lookup in Hxp as [i Hi]. destruct (Forall2_lookup_l _ _ _ _ _ Heps' Hi) as (ep & Hep & Hd).
    destruct (Hcompl ep) as (ep' & Hin & Hsame); [by apply list_elem_of_lookup_2 in Hep|].
    exists ep'. split; [done|]. rewrite Hsame. destruct Hd as [-> _]. by rewrite Hid.
Qed.

End NoFaults.
End Endpoints.
