(* ===== verification/ServiceTheorems.v ===== *)
(** * Theorems about services, traffic and autoscaling *)

From Stdlib Require Import Ascii String.
From Corelib Require Import SpecFloat.
From S2P Require Import Prelude GoLang GoFloat GoSort GoTime Effects Model Scheduler Badger.
From S2P Require Import Balancer World Store StoreFacts StoreTheorems Events Secrets Rollout.
From S2P Require Import Placement Reconcile ReconcileFacts ReconcileTheorems Deployments Services.
From S2P Require Import Autoscaler Invariant.

Section ServiceTheorems.
Context {DB : Type} `{!Badger Blob DB, !BadgerLaws Blob DB} {E : Env}.
Implicit Types (w : World DB).

(** ** Traffic *)

Lemma listing_run {T} `{!Entity T} fam `{!Family T fam} s w r w' :
  wf w -> listPrefix (T := T) (fam +:+ s) w = (r, w') ->
  w'.(w_db) = w.(w_db) /\ w'.(w_balance) = w.(w_balance)
  /\ forall l, r = Ok l -> l = list_of (fam +:+ s) w.(w_db).
Proof.
  intros Hw. unfold listPrefix, db_View. destruct (env_dberr _); intros [= <- <-]; [done|].
  split; [done|]. split; [done|]. intros l. apply decode_all_list_of.
Qed.

(** The last node of an ID decides; IDs are unique under the invariant. *)
Lemma healthy_nodes_inv nodes id :
  healthy_nodes nodes !! id = Some true ->
  exists n, n ∈ nodes /\ n.(Node_ID) = id /\ n.(Node_Status) = NodeReady.
Proof.
  unfold healthy_nodes.
  assert (H : forall l (m : gmap string bool), foldl (fun m n => <[n.(Node_ID) := String.eqb n.(Node_Status) NodeReady]> m) m l
      !! id = Some true ->
    m !! id = Some true \/ exists n, n ∈ l /\ n.(Node_ID) = id /\ n.(Node_Status) = NodeReady).
  { induction l as [|n l IH]; intros m; simpl; [by left|]. intros [Hm|(x & ? & ?)]%IH.
    - destruct (decide (n.(Node_ID) = id)) as [Hid|Hid].
      + rewrite Hid, lookup_insert_eq in Hm. injection Hm as Hm. apply String.eqb_eq in Hm.
        right. exists n. split; [left|done].
      + rewrite lookup_insert_ne in Hm by done. by left.
    - right. exists x. split; [by right|done]. }
  intros Hm. apply H in Hm as [Hm|?]; [by rewrite lookup_empty in Hm|done].
Qed.

Lemma Select_elem b svc strategy eps ep b' :
  Select b svc strategy eps = (Ok ep, b') -> ep ∈ eps /\ ep.(ServiceEndpoint_Ready) = true.
Proof.
  intros H. apply elem_of_readyEndpoints. unfold Select in H.
  destruct (readyEndpoints eps) as [|first rest] eqn:Hr; [done|].
  destruct (String.eqb strategy "" || String.eqb strategy StrategyRoundRobin).
  - destruct (_ <? 0); [done|]. destruct (_ !! _) as [sel|] eqn:Hs; [|done].
    injection H as <- _. by eapply list_elem_of_lookup_2.
  - destruct (String.eqb strategy StrategyLeastConnections); [|done]. injection H as <- _.
    by apply leastLoop_spec.
Qed.

(** C20: traffic only goes to healthy places: an endpoint that is selected
    belongs to the service, is ready, and runs on a registered node whose
    status is Ready; selection changes nothing but the balancer. *)
Theorem SelectServiceEndpoint_healthy serviceID strategy w ep w' :
  wf w -> SelectServiceEndpoint serviceID strategy w = (Ok ep, w') ->
  ep ∈ list_of (keyServiceEndpointPrefix serviceID) w.(w_db)
  /\ ep.(ServiceEndpoint_Ready) = true
  /\ (exists n, n ∈ list_of "node:" w.(w_db) /\ n.(Node_ID) = ep.(ServiceEndpoint_NodeID)
        /\ n.(Node_Status) = NodeReady)
  /\ w'.(w_db) = w.(w_db).
Proof.
  intros Hw. unfold SelectServiceEndpoint.
  intros [(svc & w1 & H1 & H)|(? & _ & [=])]%bind_inv.
  assert (Hdb1 : w1.(w_db) = w.(w_db)).
  { unfold GetService, get, db_View in H1. destruct (env_dberr _); by injection H1 as _ <-. }
  apply bind_inv in H as [(eps & w2 & H2 & H)|(? & _ & [=])].
  apply (listing_run (T := ServiceEndpoint) "service-endpoint:") in H2 as (Hdb2 & _ & Heps);
    [|unfold wf; by rewrite Hdb1].
  apply bind_inv in H as [(nodes & w3 & H3 & H)|(? & _ & [=])].
  apply (listing_run (T := Node) "node:" "") in H3 as (Hdb3 & _ & Hnodes);
    [|unfold wf; by rewrite Hdb2, Hdb1].
  unfold balance_Select in H. destruct (Select _ _ _ _) as [r b] eqn:Hsel. injection H as -> <-.
  apply Select_elem in Hsel as [Hin Hready]. rewrite list_elem_of_In, List.filter_In in Hin.
  destruct Hin as [Hin Hhealthy]. rewrite <- list_elem_of_In in Hin.
  rewrite (Heps eps eq_refl), Hdb1 in Hin. split; [done|]. split; [done|]. split.
  - unfold on_healthy_node in Hhealthy. destruct (healthy_nodes nodes !! _) as [b0|] eqn:Hn; [|done].
    simpl in Hhealthy. subst b0. apply healthy_nodes_inv in Hn as (n & Hn & ? & ?).
    exists n. rewrite (Hnodes nodes eq_refl), Hdb2, Hdb1 in Hn. done.
  - cbn. by rewrite Hdb3, Hdb2, Hdb1.
Qed.

(** ** Cluster addresses *)

(** The addresses handed out are valid host addresses of the service
    network, for every non-negative seed: [10.96.a.b] with both octets between
    1 and 254. *)
Lemma allocateClusterIP_valid seed :
  0 <= seed <= i64_max ->
  exists a b, 1 <= a <= 254 /\ 1 <= b <= 254
    /\ allocateClusterIP seed = "10.96." +:+ fmt_d a +:+ "." +:+ fmt_d b.
Proof.
  intros H. unfold allocateClusterIP, go_div, go_mod. set (v := Z.rem seed 65534).
  assert (Hv : 0 <= v < 65534) by (apply Z.rem_bound_pos; lia).
  assert (Hq : 0 <= Z.quot v 254 < 65534).
  { split; [apply Z.quot_pos; lia|]. apply Z.quot_lt_upper_bound; lia. }
  rewrite (wrap64_id (Z.quot v 254)) by (unfold in_i64, i64_min, i64_max; lia).
  assert (Ha : 0 <= Z.rem (Z.quot v 254) 254 < 254) by (apply Z.rem_bound_pos; lia).
  assert (Hb : 0 <= Z.rem v 254 < 254) by (apply Z.rem_bound_pos; lia).
  rewrite !wrap64_id by (unfold in_i64, i64_min, i64_max; lia).
  exists (Z.rem (Z.quot v 254) 254 + 1), (Z.rem v 254 + 1). split; [lia|]. split; [lia|done].
Qed.

(** ** Autoscaling *)

(** [d'] is what the policy may make of the deployment [d] at time [t]. *)
Definition scaled_by (p : AutoscalerPolicy) (t : Time) (d d' : Deployment) : Prop :=
  exists n, p.(AutoscalerPolicy_MinReplicas) <= n <= p.(AutoscalerPolicy_MaxReplicas)
    /\ n <> d.(Deployment_Spec).(DeploymentSpec_Replicas)
    /\ cooling_down p t (d.(Deployment_Spec).(DeploymentSpec_Replicas) <? n) = false
    /\ json (scaled_deployment d n t) = Some d'.

Lemma apply_scaling_effect p d m n t w k d' :
  wf w -> db_get w.(w_db) (keyDeployment d.(Deployment_ID)) = Some (BDeployment d) ->
  db_get (apply_scaling p d m n t w).2.(w_db) k = Some (BDeployment d') ->
  db_get w.(w_db) k = Some (BDeployment d')
  \/ db_get w.(w_db) k = Some (BDeployment d) /\ json (scaled_deployment d n t) = Some d'.
Proof.
  intros Hw Hd Hk.
  assert (Hwf' : steps (keeps_db db_wf) (apply_scaling (DB := DB) p d m n t)) by store_steps.
  pose proof (Hwf' w Hw _ _ Hk) as Hkey. simpl in Hkey.
  assert (Hpre : HasPrefix k "deployment:" = true) by (rewrite <- Hkey; apply (HasPrefix_app "deployment:")).
  unfold apply_scaling in Hk. cbv zeta in Hk. unfold mbind at 1, M_bind at 1 in Hk.
  set (m1 := Store.UpdateDeployment _) in Hk.
  assert (Hm1 : db_get (m1 w).2.(w_db) k = db_get w.(w_db) k
    \/ exists y, json (scaled_deployment d n t) = Some y /\ db_get (m1 w).2.(w_db) k
         = if decide (keyDeployment d.(Deployment_ID) = k) then Some (BDeployment y) else db_get w.(w_db) k).
  { subst m1. unfold Store.UpdateDeployment, put. destruct (json _) as [y|] eqn:Hy; [|by left].
    unfold db_Update. destruct (env_dberr _); [by left|]. right. exists y. split; [done|].
    cbn. by rewrite db_get_set. }
  assert (Hrest : db_get (m1 w).2.(w_db) k = Some (BDeployment d')).
  { destruct (m1 w) as [[u|e] w1]; [|done]. rewrite <- Hk. symmetry. cbn [snd].
    match goal with |- db_get (w_db (?m2 w1).2) k = _ =>
      assert (Hs : steps (dbrel (same_under "deployment:")) m2) by store_steps; by apply (Hs w1) end. }
  rewrite Hrest in Hm1. destruct Hm1 as [<-|(y & Hy & Hm1)]; [by left|].
  destruct (decide (keyDeployment (Deployment_ID d) = k)) as [<-|_]; [|by left].
  right. split; [done|]. injection Hm1 as ->. done.
Qed.

(** C19: the autoscaler stays within its policy, whatever the metrics are (NaN
    and infinities included) and whatever fails: it changes no deployment
    except by setting the replica count to another value between the policy's
    minimum and maximum, and only when the cooldown of that direction since
    the last scaling has passed. *)
Theorem autoscale_contract t p w k d' :
  wf w -> policy_ok p ->
  db_get (autoscale t p w).2.(w_db) k = Some (BDeployment d') ->
  db_get w.(w_db) k = Some (BDeployment d')
  \/ exists d, db_get w.(w_db) k = Some (BDeployment d) /\ scaled_by p t d d'.
Proof.
  intros Hw Hp. unfold autoscale, attempt, mbind, M_bind.
  destruct (GetDeployment _ w) as [[d|e] w1] eqn:H1.
  2: { unfold GetDeployment, get, db_View in H1. destruct (env_dberr _); injection H1 as _ <-; by left. }
  assert (Hd : w1.(w_db) = w.(w_db) /\ db_get w.(w_db) (keyDeployment d.(Deployment_ID)) = Some (BDeployment d)).
  { unfold GetDeployment, get, db_View, get_in in H1. destruct (env_dberr _); [done|].
    destruct (db_get (w_db w) _) as [b|] eqn:Hg; [|done]. destruct (project b) as [x|] eqn:Hx; [|done].
    injection H1 as -> <-. apply inject_project in Hx as ->. split; [done|].
    pose proof (Hw _ _ Hg) as Hkey. simpl in Hkey. by rewrite Hkey. }
  destruct Hd as [Hdb1 Hd]. destruct (ListDeploymentMetrics _ _ w1) as [[l|e] w2] eqn:H2.
  all: assert (Hdb2 : w2.(w_db) = w.(w_db)) by
    (rewrite <- Hdb1; unfold ListDeploymentMetrics, listPrefix, db_View, mbind, M_bind in H2;
     destruct (env_dberr _); [by injection H2 as _ <-|destruct (decode_all _); by injection H2 as _ <-]).
  2: { cbn. rewrite Hdb2. by left. }
  destruct l as [|s ss]; [cbn; rewrite Hdb2; by left|]. cbv zeta.
  set (m := observed_metrics _ _). set (n := recommend _ _ _).
  destruct (Z.eqb_spec n (DeploymentSpec_Replicas (Deployment_Spec d))); [cbn; rewrite Hdb2; by left|].
  destruct (cooling_down _ _ _) eqn:Hcool; [cbn; rewrite Hdb2; by left|].
  intros Hk. apply apply_scaling_effect in Hk; [|unfold wf; by rewrite Hdb2|by rewrite Hdb2].
  rewrite Hdb2 in Hk. destruct Hk as [Hk|[Hk Hj]]; [by left|]. right. exists d. split; [done|].
  exists n. split; [by apply recommend_bounds|done].
Qed.

End ServiceTheorems.
