(* ===== verification/HttpFacts.v ===== *)
(** * What the HTTP layer does to the orchestrator

    Step relations for handlers: [via R] lifts a relation [R] on the
    orchestrator's state to the server, and the operations the handlers are
    built from preserve it as soon as the orchestrator's operations do. *)

From Stdlib Require Import Ascii String.
From Corelib Require Import SpecFloat.
From S2P Require Import Prelude GoLang GoText GoFloat GoSort GoTime Effects Model Scheduler Badger.
From S2P Require Import Balancer World Store StoreFacts StoreTheorems Events Secrets Rollout.
From S2P Require Import Placement Reconcile ReconcileFacts Deployments Nodes Services Autoscaler.
From S2P Require Import RBAC Volumes Lease Jobs Control Invariant Machine Metrics Validation Auth.
From S2P Require Import Http Handlers.

(** ** Queries *)

(** Nothing but the number of the next interaction changes. *)
Definition idle {DB} : relation (World DB) := fun w w' => exists n, w' = w <| w_tick := n |>.

#[export] Instance idle_PreOrder {DB} : PreOrder (idle (DB := DB)).
Proof.
  split.
  - intros w. exists w.(w_tick). by destruct w.
  - intros w1 w2 w3 [n ->] [n' ->]. by exists n'.
Qed.

(** Relations that allow reading the clock and the database. *)
Class Queries {DB} (R : relation (World DB)) : Prop := {
  queries_preorder :: PreOrder R;
  queries_idle : forall w w', idle w w' -> R w w'
}.

#[export] Instance Queries_idle {DB} : Queries (idle (DB := DB)).
Proof. split; [apply _|done]. Qed.

#[export] Instance Queries_dbrel {DB} (P : relation DB) `{!PreOrder P} : Queries (dbrel P).
Proof. split; [apply _|]. intros w w' [n ->]. unfold dbrel. cbn. reflexivity. Qed.

Section Queries.
Context {DB : Type} `{!Badger Blob DB} {E : Env} (R : relation (World DB)) `{!Queries R}.

Lemma query_ask {A} (f : nat -> A) : steps R (ask f).
Proof. intros w. apply queries_idle. by eexists. Qed.

Lemma query_View {A} (f : DB -> Res A) : steps R (db_View f).
Proof. intros w. unfold db_View. apply queries_idle. destruct (env_dberr _); by eexists. Qed.

End Queries.

#[export] Hint Extern 2 (steps _ (ask _)) => apply query_ask; typeclasses eauto : steps.
#[export] Hint Extern 2 (steps _ now) => apply query_ask; typeclasses eauto : steps.
#[export] Hint Extern 2 (steps _ (db_View _)) => apply query_View; typeclasses eauto : steps.

Section QueryOps.
Context {DB : Type} `{!Badger Blob DB} {E : Env} (R : relation (World DB)) `{!Queries R}.

Lemma query_listPrefix {T} `{!Entity T} p : steps R (listPrefix p : M (World DB) (list T)).
Proof. store_steps. Qed.

Lemma query_Snapshot : steps R (Snapshot : M (World DB) ClusterState).
Proof. store_steps. Qed.

Lemma query_PrometheusMetrics : steps R (PrometheusMetrics : M (World DB) string).
Proof. unfold PrometheusMetrics. store_steps. Qed.

Lemma query_ListNodeHealthTrends window :
  steps R (ListNodeHealthTrends window : M (World DB) (list NodeHealthTrend)).
Proof. unfold ListNodeHealthTrends. store_steps. Qed.

Lemma query_ListNodeWorkloads id : steps R (ListNodeWorkloads id : M (World DB) (list Workload)).
Proof. unfold ListNodeWorkloads. store_steps. Qed.

Lemma query_ListServiceEndpoints id :
  steps R (Services.ListServiceEndpoints id : M (World DB) (list ServiceEndpoint)).
Proof. unfold Services.ListServiceEndpoints. store_steps. Qed.

Lemma query_ResolveServiceDNS name :
  steps R (ResolveServiceDNS name : M (World DB) (string * list ServiceEndpoint * Z)).
Proof. unfold ResolveServiceDNS. store_steps. Qed.

Lemma query_ResolveServiceName name :
  steps R (ResolveServiceName name : M (World DB) (string * list ServiceEndpoint)).
Proof. unfold ResolveServiceName. apply steps_bind; [apply _|apply query_ResolveServiceDNS|store_steps]. Qed.

Lemma query_findServiceByName name : steps R (findServiceByName name : M (World DB) Service).
Proof. unfold findServiceByName. store_steps. Qed.

Lemma query_IsNetworkAccessAllowed ns l svc p :
  steps R (IsNetworkAccessAllowed ns l svc p : M (World DB) (bool * string)).
Proof. unfold IsNetworkAccessAllowed. store_steps. Qed.

Lemma query_EffectiveRoles n subject ns :
  steps R (EffectiveRolesForSubject n subject ns : M (World DB) (list string)).
Proof. unfold EffectiveRolesForSubject, bindings_for. store_steps. Qed.

Lemma query_ListSecrets ns : steps R (Deployments.ListSecrets ns : M (World DB) (list Secret)).
Proof. unfold Deployments.ListSecrets. store_steps. Qed.

Lemma query_ListClaims ns :
  steps R (Volumes.ListPersistentVolumeClaims ns : M (World DB) (list PersistentVolumeClaim)).
Proof. unfold Volumes.ListPersistentVolumeClaims. store_steps. Qed.

Lemma query_ListNetworkPolicies ns :
  steps R (Volumes.ListNetworkPolicies ns : M (World DB) (list NetworkPolicy)).
Proof. unfold Volumes.ListNetworkPolicies. store_steps. Qed.

Lemma query_ListJobs ns : steps R (Jobs.ListJobs ns : M (World DB) (list Job)).
Proof. unfold Jobs.ListJobs. store_steps. Qed.

Lemma query_ListCronJobs ns : steps R (Jobs.ListCronJobs ns : M (World DB) (list CronJob)).
Proof. unfold Jobs.ListCronJobs. store_steps. Qed.

Lemma query_ListRoleBindings ns : steps R (ListRoleBindings ns : M (World DB) (list RoleBinding)).
Proof. store_steps. Qed.

Lemma query_ListEvents limit : steps R (ListEvents limit : M (World DB) (list Event)).
Proof. store_steps. Qed.

End QueryOps.

(** Operations of the orchestrator that are known to preserve a relation. *)
Create HintDb ops.

#[export] Hint Resolve query_listPrefix query_Snapshot query_PrometheusMetrics
  query_ListNodeHealthTrends query_ListNodeWorkloads query_ListServiceEndpoints
  query_ResolveServiceDNS query_ResolveServiceName query_findServiceByName
  query_IsNetworkAccessAllowed query_EffectiveRoles query_ListSecrets query_ListClaims
  query_ListNetworkPolicies query_ListJobs query_ListCronJobs query_ListRoleBindings
  query_ListEvents query_ask : ops.
#[export] Hint Extern 1 (Queries _) => typeclasses eauto : ops.
#[export] Hint Extern 1 (steps _ (ask _)) => apply query_ask : ops.
#[export] Hint Extern 1 (steps _ now) => apply query_ask : ops.
#[export] Hint Extern 1 (steps _ ListDeployments) => apply query_listPrefix; typeclasses eauto : ops.
#[export] Hint Extern 1 (steps _ ListAutoscalerPolicies) => apply query_listPrefix; typeclasses eauto : ops.
#[export] Hint Extern 1 (steps _ ListServices) => apply query_listPrefix; typeclasses eauto : ops.
#[export] Hint Extern 1 (steps _ ListNamespaces) => apply query_listPrefix; typeclasses eauto : ops.
#[export] Hint Extern 1 (steps _ ListNamespaceQuotas) => apply query_listPrefix; typeclasses eauto : ops.
#[export] Hint Extern 1 (steps _ ListPersistentVolumes) => apply query_listPrefix; typeclasses eauto : ops.

(** ** Handlers *)

Definition via {DB} (R : relation (World DB)) : relation (HTTPServer DB) :=
  fun s s' => R s.(s_orch) s'.(s_orch).

#[export] Instance via_PreOrder {DB} (R : relation (World DB)) `{!PreOrder R} : PreOrder (via R).
Proof. unfold via. split; [intros s; reflexivity|]. intros x y z ? ?. etrans; eauto. Qed.

Section Via.
Context {DB : Type} `{!Badger Blob DB} {E : Env} {J : JWT} {AE : AuthEnv} {HE : HttpEnv}.
Context (R : relation (World DB)) `{!Queries R}.

Lemma via_orch {A} (m : M (World DB) A) : steps R m -> steps (via R) (orch m).
Proof. intros H s. unfold orch. specialize (H s.(s_orch)). by destruct (m (s_orch s)). Qed.

Lemma via_unless_panic {A} (m : M (HTTPServer DB) A) : steps (via R) m -> steps (via R) (unless_panic m).
Proof.
  intros H. unfold unless_panic. apply steps_bind; [apply _|by apply steps_attempt|].
  intros [a|[]]; apply steps_ret || apply steps_throw; apply _.
Qed.

Lemma via_call {A} (m : M (World DB) A) : steps R m -> steps (via R) (call m).
Proof. intros H. by apply via_unless_panic, via_orch. Qed.

Lemma via_defer {A} d (m : M (HTTPServer DB) A) :
  steps (via R) d -> steps (via R) m -> steps (via R) (with_defer d m).
Proof.
  intros Hd Hm s. unfold with_defer. specialize (Hm s). destruct (m s) as [r s1].
  cbn in *. etrans; [exact Hm|apply Hd].
Qed.

Lemma via_modify f : (forall s, s_orch (f s) = s_orch s) -> steps (via R) (modify f).
Proof. intros H s. unfold via, modify. cbn. rewrite H. reflexivity. Qed.

Lemma via_respond f : steps (via R) (respond f).
Proof. by apply via_modify. Qed.

Lemma via_set_header k v : steps (via R) (set_header k v).
Proof. by apply via_modify. Qed.

Lemma via_audit e : steps (via R) (audit e).
Proof. by apply via_modify. Qed.

(** Writing a status changes the response only. *)
Lemma WriteHeader_response code (s : HTTPServer DB) :
  exists res w, WriteHeader code s = (res, s <| s_w := w |>).
Proof.
  unfold WriteHeader, mbind, M_bind, respond, modify, get_state, set. cbn -[valid_code informational fmt_d].
  destruct (rw_status _); [by do 2 eexists|]. destruct (negb _); [by do 2 eexists|].
  destruct (informational _); by do 2 eexists.
Qed.

Lemma via_WriteHeader code : steps (via R) (WriteHeader code).
Proof.
  intros s. destruct (WriteHeader_response code s) as (res & w & ->). unfold via. cbn. reflexivity.
Qed.

Lemma via_writeAPIError st c m d : steps (via R) (writeAPIError st c m d).
Proof.
  unfold writeAPIError. apply steps_bind; [apply _|by apply via_modify|intros _].
  apply steps_bind; [apply _|apply via_WriteHeader|intros _]. by apply via_modify.
Qed.

Lemma via_writeJSON c p : steps (via R) (writeJSON c p).
Proof.
  unfold writeJSON. apply steps_bind; [apply _|by apply via_modify|intros _].
  apply steps_bind; [apply _|apply via_WriteHeader|intros _]. by apply via_modify.
Qed.

Lemma via_decoded {A} (x : Res A) k : (forall a, steps (via R) (k a)) -> steps (via R) (decoded x k).
Proof. intros H. destruct x; cbn; [apply H|apply via_writeAPIError]. Qed.

Lemma via_validated x m k : steps (via R) k -> steps (via R) (validated x m k).
Proof. intros H. destruct x; cbn; [apply H|apply via_writeAPIError]. Qed.

Lemma via_require_method m d r k : steps (via R) k -> steps (via R) (require_method m d r k).
Proof. intros H. unfold require_method. destruct (negb _); [apply via_writeAPIError|apply H]. Qed.

Lemma via_on_success {A} (m : M (World DB) A) st c msg k :
  steps R m -> (forall a, steps (via R) (k a)) -> steps (via R) (on_success m st c msg k).
Proof.
  intros Hm Hk. unfold on_success. apply steps_bind; [apply _|by apply via_call|].
  intros [a|e]; [apply Hk|apply via_writeAPIError].
Qed.

Lemma via_on_success_or_404 {A} (m : M (World DB) A) c1 m1 d1 st c msg k :
  steps R m -> (forall a, steps (via R) (k a)) -> steps (via R) (on_success_or_404 m c1 m1 d1 st c msg k).
Proof.
  intros Hm Hk. unfold on_success_or_404. apply steps_bind; [apply _|by apply via_call|].
  intros [a|e]; [apply Hk|]. destruct (is_not_found e); apply via_writeAPIError.
Qed.

Lemma via_recordCircuitFailure n th o m : steps (via R) (recordCircuitFailure n th o m).
Proof.
  unfold recordCircuitFailure. apply steps_bind; [apply _|apply steps_get, _|]. intros s.
  apply steps_bind; [apply _| |intros b; by apply via_modify].
  destruct (_ <=? _); [|apply steps_ret, _].
  apply steps_bind; [apply _|by apply via_orch, query_ask|intros; apply steps_ret, _].
Qed.

Lemma via_recordCircuitSuccess n : steps (via R) (recordCircuitSuccess n).
Proof.
  unfold recordCircuitSuccess. apply steps_bind; [apply _|apply steps_get, _|]. intros s. by apply via_modify.
Qed.

Lemma via_circuitOpen n : steps (via R) (circuitOpen n).
Proof.
  unfold circuitOpen. apply steps_bind; [apply _|apply steps_get, _|]. intros s.
  apply steps_bind; [apply _|by apply via_orch, query_ask|intros; apply steps_ret, _].
Qed.

End Via.

#[export] Hint Resolve via_respond via_set_header via_audit via_WriteHeader via_writeAPIError via_writeJSON
  via_recordCircuitFailure via_recordCircuitSuccess via_circuitOpen : ops.

(** Walk through a handler; what remains are the orchestrator's operations
    that the database [ops] does not know. *)
Ltac via_tac :=
  repeat match goal with
    | |- forall _, _ => intro
    | |- steps (via _) (_ ≫= _) => apply steps_bind; [typeclasses eauto| |]
    | |- steps (via _) (mret _) => apply steps_ret; typeclasses eauto
    | |- steps (via _) get_state => apply steps_get; typeclasses eauto
    | |- steps (via _) (throw _) => apply steps_throw; typeclasses eauto
    | |- steps (via _) (orch _) => apply via_orch
    | |- steps (via _) (call _) => apply via_call; [typeclasses eauto|]
    | |- steps (via _) (with_defer _ _) => apply via_defer; [typeclasses eauto| |]
    | |- steps (via _) (modify _) => apply via_modify; [typeclasses eauto|done]
    | |- steps (via _) (decoded _ _) => apply via_decoded; [typeclasses eauto|]
    | |- steps (via _) (validated _ _ _) => apply via_validated; [typeclasses eauto|]
    | |- steps (via _) (require_method _ _ _ _) => apply via_require_method; [typeclasses eauto|]
    | |- steps (via _) (on_success _ _ _ _ _) => apply via_on_success; [typeclasses eauto| |]
    | |- steps (via _) (on_success_or_404 _ _ _ _ _ _ _ _) =>
        apply via_on_success_or_404; [typeclasses eauto| |]
    | |- steps (via _) (method_not_allowed _) => apply via_writeAPIError; typeclasses eauto
    | |- steps (via _) (route_not_found _) => apply via_writeAPIError; typeclasses eauto
    | |- steps (via _) (let _ := _ in _) => cbv zeta
    | |- steps (via _) (match ?x with _ => _ end) => destruct x
    | |- steps _ _ => solve [eauto 3 with ops]
    end.

(** ** The proxy loop *)

Section ProxyVia.
Context {DB : Type} `{!Badger Blob DB} {E : Env} {J : JWT} {AE : AuthEnv} {HE : HttpEnv}.
Context (R : relation (World DB)) `{!Queries R}.

Lemma via_proxy_loop n url t last : steps (via R) (proxy_loop n url t last).
Proof.
  revert last. induction n as [|n IH]; intros last; cbn [proxy_loop]; [apply steps_ret, _|].
  destruct (env_request_error url); [apply steps_ret, _|].
  apply steps_bind; [apply _|by apply via_orch, query_ask|]. intros [resp|e]; [|apply IH].
  destruct (_ <? _); [apply steps_ret, _|apply IH].
Qed.

Lemma via_forward name retries resp c : steps (via R) (forward name retries resp c).
Proof. unfold forward. via_tac. Qed.

Lemma via_proxy_answer name retries th o out : steps (via R) (proxy_answer name retries th o out).
Proof. destruct out; cbn; via_tac. apply via_forward. Qed.

Lemma via_release ep : steps R (ReleaseServiceEndpoint ep.(ServiceEndpoint_ID)) -> steps (via R) (release ep).
Proof. apply via_orch. Qed.

Lemma via_redirect path r : steps (via R) (redirect path r).
Proof. unfold redirect. via_tac. Qed.

Lemma via_not_found : steps (via R) not_found.
Proof. unfold not_found. via_tac. Qed.

(** The middleware around a handler. *)

Lemma via_versionMiddleware next r :
  (forall r', steps (via R) (next r')) -> steps (via R) (versionMiddleware next r).
Proof. intros H. unfold versionMiddleware. via_tac. Qed.

Lemma via_traceMiddleware next r :
  (forall r', steps (via R) (next r')) -> steps (via R) (traceMiddleware next r).
Proof. intros H. unfold traceMiddleware. via_tac. Qed.

Lemma via_auditMiddleware next r :
  (forall r', steps (via R) (next r')) -> steps (via R) (auditMiddleware next r).
Proof. intros H. unfold auditMiddleware. via_tac. Qed.

Lemma via_authorizationMiddleware next r :
  (forall r', steps (via R) (next r')) -> steps (via R) (authorizationMiddleware next r).
Proof. intros H. unfold authorizationMiddleware. via_tac. Qed.

Lemma via_bind_roles r p : steps (via R) (bind_roles r p).
Proof. unfold bind_roles. via_tac. Qed.

Lemma via_mux h r : (forall route r', steps (via R) (h route r')) -> steps (via R) (mux h r).
Proof. intros H. unfold mux. destruct (findHandler _ _); [apply H|apply via_redirect|apply via_not_found]. Qed.

End ProxyVia.

#[export] Hint Resolve via_proxy_loop via_proxy_answer via_release : ops.

(** ** Authentication *)

Section AuthVia.
Context {DB : Type} `{!Badger Blob DB} {E : Env} {J : JWT} {AE : AuthEnv} {HE : HttpEnv}.

(** The world of the verifier. *)
Definition via2 (R : relation (World DB)) : relation (Verifier * World DB) := fun s s' => R s.2 s'.2.

#[export] Instance via2_PreOrder (R : relation (World DB)) `{!PreOrder R} : PreOrder (via2 R).
Proof. unfold via2. split; [intros s; reflexivity|]. intros x y z ? ?. etrans; eauto. Qed.

Context (R : relation (World DB)) `{!Queries R}.

Lemma via2_with_world {A} (m : M (World DB) A) : steps R m -> steps (via2 R) (with_world m).
Proof. intros H s. unfold with_world. specialize (H s.2). by destruct (m s.2). Qed.

Lemma via2_the_verifier : steps (via2 R) the_verifier.
Proof. intros s. unfold via2. cbn. reflexivity. Qed.

Lemma via2_update f : steps (via2 R) (update_verifier f).
Proof. intros s. unfold via2. cbn. reflexivity. Qed.

Ltac via2_tac := repeat match goal with
  | |- forall _, _ => intro
  | |- steps _ (_ ≫= _) => apply steps_bind; [typeclasses eauto| |]
  | |- steps _ (mret _) => apply steps_ret; typeclasses eauto
  | |- steps _ (throw _) => apply steps_throw; typeclasses eauto
  | |- steps _ (of_res _) => apply steps_of_res; typeclasses eauto
  | |- steps _ (attempt _) => apply steps_attempt
  | |- steps _ (with_world _) => apply via2_with_world, query_ask; typeclasses eauto
  | |- steps _ the_verifier => apply via2_the_verifier
  | |- steps _ (update_verifier _) => apply via2_update
  | |- steps _ (let _ := _ in _) => cbv zeta
  | |- steps _ (if _ then _ else _) => case_match
  | |- steps _ (match _ with _ => _ end) => case_match
  end.

Lemma via2_resolve kid : steps (via2 R) (resolveJWKKeyByKID kid).
Proof. unfold resolveJWKKeyByKID, refreshJWKSLocked. via2_tac. Qed.

Lemma via2_Parse token kf :
  (forall h, steps (via2 R) (kf h)) -> steps (via2 R) (ParseWithClaims token kf).
Proof. intros H. unfold ParseWithClaims. via2_tac. apply H. Qed.

Lemma via2_verifyJWT token : steps (via2 R) (verifyJWT token).
Proof.
  unfold verifyJWT. via2_tac. apply via2_Parse. intros h. unfold jwt_keyFunc. via2_tac.
Qed.

Lemma via2_verifyOIDC token : steps (via2 R) (verifyOIDC token).
Proof.
  unfold verifyOIDC. via2_tac. apply via2_Parse. intros h. unfold oidc_keyFunc. via2_tac.
  apply via2_resolve.
Qed.

Lemma via2_VerifyBearer authz : steps (via2 R) (VerifyBearer authz).
Proof. unfold VerifyBearer. via2_tac; apply via2_verifyJWT || apply via2_verifyOIDC. Qed.

Lemma via_verifier {A} (m : M (Verifier * World DB) A) : steps (via2 R) m -> steps (via R) (verifier m).
Proof.
  intros H s. unfold verifier. specialize (H (s.(s_verifier), s.(s_orch))).
  by destruct (m _) as [r [v w]].
Qed.

Lemma via_authMiddleware next r :
  (forall r', steps (via R) (next r')) -> steps (via R) (authMiddleware next r).
Proof.
  intros H. unfold authMiddleware. destruct (is_open _); [apply H|].
  apply steps_bind; [apply _|apply via_unless_panic; [apply _|]; apply via_verifier, via2_VerifyBearer|].
  intros [p|e]; via_tac. apply via_bind_roles; apply _.
Qed.

Lemma via_serve r :
  (forall route r', steps (via R) (handle route r')) -> steps (via R) (serve r).
Proof.
  intros H. unfold serve, Handler_chain. apply steps_bind; [apply _|apply via_respond; apply _|]. intros _.
  apply via_versionMiddleware; [apply _|]. intros r1. apply via_traceMiddleware; [apply _|]. intros r2.
  apply via_authMiddleware. intros r3. apply via_auditMiddleware; [apply _|]. intros r4.
  apply via_authorizationMiddleware; [apply _|]. intros r5. by apply via_mux.
Qed.

End AuthVia.
