(* ===== verification/Panics.v ===== *)
(** * Operations that do not panic

    A Go panic is the error [Panic] of the model.  [panic_free m] says that the
    operation [m] never ends in one, whatever the state and the environment
    answer, and that it leaves the balancer alone; the rules are structural,
    and one tactic walks through an operation.  The operations that may panic
    are left out: the selection of an endpoint (its cursor must be in range),
    the polling of assignments (the capacity of a slice), and the effective
    roles (the depth of the stack). *)

From Stdlib Require Import Ascii String.
From Corelib Require Import SpecFloat.
From S2P Require Import Prelude GoLang GoFloat GoSort GoTime Effects Model Scheduler Badger.
From S2P Require Import Balancer.
From S2P Require Import World Store StoreFacts Events Secrets Rollout Placement Reconcile.
From S2P Require Import Deployments.
From S2P Require Import Nodes Services Autoscaler RBAC Volumes Lease Jobs Control Metrics.
From S2P Require Import Invariant Machine Validation Auth Http Handlers HttpFacts.

Definition no_panic {A} (r : Res A) : Prop := match r with Err (Panic _) => False | _ => True end.

(** What the operations rely on in their environment: nodes have a positive
    time to live, which [updateNodeHealth] divides by, and the random source
    reports its failure as an error. *)
Class CalmEnv (E : Env) : Prop := {
  calm_nodeTTL : env_nodeTTL <> 0;
  calm_nonce : forall n, no_panic (env_nonce n)
}.

Create HintDb panics.

Section Rules.
Context {DB : Type} `{!Badger Blob DB} {E : Env}.

Abbreviation IO := (M (World DB)).

Definition panic_free {A} (m : IO A) : Prop :=
  forall w, no_panic (m w).1 /\ (m w).2.(w_balance) = w.(w_balance).

Lemma pf_ret {A} (a : A) : panic_free (mret a).
Proof. by intros w. Qed.

Lemma pf_throw {A} e : no_panic (Err e : Res A) -> panic_free (throw e : IO A).
Proof. by intros H w. Qed.

(** An error is passed on at another type. *)
Lemma pf_rethrow {A B} e : no_panic (Err e : Res A) -> panic_free (throw e : IO B).
Proof. intros H. apply pf_throw. by destruct e. Qed.

Lemma pf_of_res {A} (r : Res A) : no_panic r -> panic_free (of_res r).
Proof. by intros H w. Qed.

Lemma pf_bind {A B} (m : IO A) (k : A -> IO B) :
  panic_free m -> (forall a, panic_free (k a)) -> panic_free (m ≫= k).
Proof.
  intros Hm Hk w. destruct (Hm w) as [Hp Hb]. unfold mbind, M_bind.
  destruct (m w) as [[a|e] w1]; [|by destruct e]. destruct (Hk a w1) as [Hp' Hb']. cbn in *.
  split; [done|congruence].
Qed.

Lemma pf_attempt_bind {A B} (m : IO A) (k : Res A -> IO B) :
  panic_free m -> (forall r, no_panic r -> panic_free (k r)) -> panic_free (attempt m ≫= k).
Proof.
  intros Hm Hk w. destruct (Hm w) as [Hp Hb]. unfold mbind, M_bind, attempt.
  destruct (m w) as [r w1]. destruct (Hk r Hp w1) as [Hp' Hb']. cbn in *. split; [done|congruence].
Qed.

Lemma pf_attempt {A} (m : IO A) : panic_free m -> panic_free (attempt m).
Proof. intros Hm w. destruct (Hm w) as [_ Hb]. unfold attempt. by destruct (m w). Qed.

Lemma pf_ignore {A} (m : IO A) : panic_free m -> panic_free (ignore m).
Proof. intros Hm w. by destruct (Hm w). Qed.

Lemma pf_get : panic_free get_state.
Proof. by intros w. Qed.

Lemma pf_modify f : (forall w, (f w).(w_balance) = w.(w_balance)) -> panic_free (modify f).
Proof. intros H w. split; [done|apply H]. Qed.

Lemma pf_for_each {A} (l : list A) body :
  (forall x, panic_free (body x)) -> panic_free (for_each l body).
Proof. intros H. induction l as [|x l IH]; [apply pf_ret|]. by apply pf_bind. Qed.

Lemma pf_fold_m {A B} (l : list A) (acc : B) body :
  (forall acc x, panic_free (body acc x)) -> panic_free (fold_m l acc body).
Proof.
  intros H. revert acc. induction l as [|x l IH]; intros acc; [apply pf_ret|]. by apply pf_bind.
Qed.

Lemma pf_ask {A} (f : nat -> A) : panic_free (ask f).
Proof. by intros w. Qed.

Lemma pf_View {A} (f : DB -> Res A) : (forall db, no_panic (f db)) -> panic_free (db_View f).
Proof. intros H w. unfold db_View. destruct (env_dberr _); [done|]. split; [apply H|done]. Qed.

Lemma pf_Update {A} (f : DB -> Res (A * DB)) : (forall db, no_panic (f db)) -> panic_free (db_Update f).
Proof.
  intros H w. unfold db_Update. destruct (env_dberr _); [done|]. specialize (H w.(w_db)).
  destruct (f _) as [[a db]|e]; [done|]. by destruct e.
Qed.

Lemma no_panic_decode {T} `{!Entity T} kvs : no_panic (decode_all (T := T) kvs).
Proof. unfold decode_all. by destruct (mapM _ _). Qed.

Lemma no_panic_get_in {T} `{!Entity T} key (db : DB) : no_panic (get_in (T := T) key db).
Proof. unfold get_in. destruct (db_get db key) as [b|]; [|done]. by destruct (project b). Qed.

Lemma pf_put {T} `{!Entity T, !JSON T} key (x : T) : panic_free (put key x).
Proof. unfold put. destruct (json x); [by apply pf_Update|by apply pf_throw]. Qed.

Lemma pf_get_key {T} `{!Entity T} key : panic_free (get (T := T) key).
Proof. apply pf_View. intros db. apply no_panic_get_in. Qed.

Lemma pf_list {T} `{!Entity T} prefix : panic_free (listPrefix (T := T) prefix).
Proof. apply pf_View. intros db. apply no_panic_decode. Qed.

Lemma pf_del key : panic_free (del key).
Proof. by apply pf_Update. Qed.

Lemma pf_or_now t : panic_free (or_now t).
Proof. unfold or_now. destruct (IsZero t); [apply pf_ask|apply pf_ret]. Qed.

End Rules.

#[export] Hint Resolve pf_ret pf_ask pf_put pf_get_key pf_list pf_del pf_or_now pf_get : panics.
#[export] Hint Extern 1 (panic_free now) => apply pf_ask : panics.
#[export] Hint Extern 1 (panic_free rand_Intn) => apply pf_ask : panics.

(** The constant an operation is an instance of. *)
Ltac head_of t := lazymatch t with ?f _ => head_of f | _ => t end.

Ltac panics_tac :=
  repeat match goal with
    | |- forall _, _ => intro
    | H : no_panic (Err ?e) |- panic_free (throw ?e) => exact (pf_rethrow e H)
    | |- panic_free (throw _) => apply pf_throw; exact I
    | |- panic_free (of_res _) => apply pf_of_res; assumption
    | |- panic_free (attempt _ ≫= _) => apply pf_attempt_bind
    | |- panic_free (_ ≫= _) => apply pf_bind
    | |- panic_free (for_each _ _) => apply pf_for_each
    | |- panic_free (fold_m _ _ _) => apply pf_fold_m
    | |- panic_free (attempt _) => apply pf_attempt
    | |- panic_free (ignore _) => apply pf_ignore
    | |- panic_free (modify _) => apply pf_modify; intros ?; reflexivity
    | |- panic_free (let _ := _ in _) => cbv zeta
    | |- panic_free (match ?x with _ => _ end) => destruct x eqn:?
    | |- panic_free _ => solve [eauto 2 with panics]
    end.

(** Unfold an operation that has no lemma of its own. *)
Ltac panics_unfold :=
  repeat (panics_tac; match goal with |- panic_free ?m => let f := head_of m in progress unfold f end).

(** ** The operations *)

Section Operations.
Context {DB : Type} `{!Badger Blob DB} {E : Env} `{!CalmEnv E}.

Abbreviation pf m := (panic_free (DB := DB) m).

Lemma pf_emitEvent e : pf (emitEvent e).
Proof. panics_unfold. Qed.

Lemma pf_DeleteDeployment_store id : pf (Store.DeleteDeployment id).
Proof.
  apply pf_Update. intros db. cbv zeta.
  pose proof (no_panic_decode (T := Workload) (db_scan (db_delete db (keyDeployment id)) "workload:")) as H.
  by destruct (decode_all _) as [|[]].
Qed.

Lemma pf_DeleteService id : pf (DeleteService id).
Proof. by apply pf_Update. Qed.

Lemma pf_ReplaceServiceEndpoints id eps : pf (ReplaceServiceEndpoints id eps).
Proof.
  unfold ReplaceServiceEndpoints, complete_endpoint. panics_tac. by apply pf_Update.
Qed.

Lemma no_panic_SelectNode run p nodes req labels tols : no_panic (SelectNode run p nodes req labels tols).
Proof. unfold SelectNode. by destruct (SliceStable _ _). Qed.

(** The result of a scheduling is an error value, not an error. *)
Lemma pf_schedule_bind {A} dep nodes (k : Res Node -> M (World DB) A) :
  (forall r, no_panic r -> pf (k r)) -> pf (schedule dep nodes ≫= k).
Proof.
  intros Hk w. unfold schedule. unfold mbind at 1. unfold M_bind, mbind, M_bind, ask, mret, M_ret.
  change (w_balance w) with (w_balance (w <| w_tick ::= S |>)). apply Hk, no_panic_SelectNode.
Qed.

Lemma pf_choose_node dep : pf (choose_node dep).
Proof.
  unfold choose_node. apply pf_bind; [panics_unfold|]. intros nodes. apply pf_schedule_bind.
  intros r Hr. destruct r; [apply pf_ret|]. apply pf_bind; [panics_unfold|]. intros [].
  - apply pf_bind; [panics_unfold|]. intros nodes'. apply pf_schedule_bind, pf_of_res.
  - by eapply pf_rethrow.
Qed.

Lemma pf_encrypt key plain : pf (encryptStringAESGCM key plain).
Proof.
  unfold encryptStringAESGCM. destruct (_ <? _)%nat; [by apply pf_throw|]. intros w.
  pose proof (calm_nonce w.(w_tick)) as Hn. unfold mbind, M_bind, ask, of_res. cbn.
  by destruct (env_nonce _) as [|[]].
Qed.

Lemma no_panic_check_quota q u : no_panic (check_quota q u).
Proof. unfold check_quota. by repeat case_match. Qed.

Lemma pf_update_node t n : pf (update_node t n).
Proof.
  unfold update_node. pose proof calm_nodeTTL as H. apply Z.eqb_neq in H. rewrite H. panics_unfold.
Qed.

End Operations.

#[export] Hint Resolve pf_emitEvent pf_DeleteDeployment_store pf_DeleteService pf_ReplaceServiceEndpoints
  pf_choose_node pf_encrypt pf_update_node : panics.
#[export] Hint Extern 1 (panic_free (of_res (check_quota _ _))) =>
  apply pf_of_res, no_panic_check_quota : panics.

Section Service.
Context {DB : Type} `{!Badger Blob DB} {E : Env} `{!CalmEnv E}.

Abbreviation pf m := (panic_free (DB := DB) m).

Lemma pf_createWorkload dep : pf (createWorkloadForDeployment dep).
Proof. panics_unfold. Qed.

Lemma pf_RegisterNode n : pf (RegisterNode n).
Proof. panics_unfold. Qed.

Lemma pf_HeartbeatNode n u : pf (HeartbeatNode n u).
Proof. panics_unfold. Qed.

Lemma pf_DrainNode n : pf (DrainNode n).
Proof. panics_unfold. Qed.

Lemma pf_RemoveNode n : pf (RemoveNode n).
Proof. panics_unfold. Qed.

Lemma pf_updateNodeHealth : pf updateNodeHealth.
Proof. panics_unfold. Qed.

Lemma pf_reconcileDeletion id : pf (reconcileDeletion id).
Proof. panics_unfold. Qed.

Lemma pf_create_workloads dep n : pf (create_workloads dep n).
Proof. pose proof pf_createWorkload. induction n as [|n IH]; cbn [create_workloads]; panics_tac. Qed.

End Service.

#[export] Hint Resolve pf_createWorkload pf_RegisterNode pf_HeartbeatNode pf_DrainNode pf_RemoveNode
  pf_updateNodeHealth pf_reconcileDeletion pf_create_workloads : panics.

Section Reconciler.
Context {DB : Type} `{!Badger Blob DB} {E : Env} `{!CalmEnv E}.

Abbreviation pf m := (panic_free (DB := DB) m).

Lemma pf_reconcileDeployment id : pf (reconcileDeployment id).
Proof. panics_unfold. Qed.

Lemma pf_reconcileServiceEndpoints id : pf (reconcileServiceEndpoints id).
Proof. panics_unfold. Qed.

Lemma pf_DeleteDeployment id : pf (Deployments.DeleteDeployment id).
Proof. panics_unfold. Qed.

End Reconciler.

#[export] Hint Resolve pf_reconcileDeployment pf_reconcileServiceEndpoints pf_DeleteDeployment : panics.

Section Calls.
Context {DB : Type} `{!Badger Blob DB} {E : Env} `{!CalmEnv E}.

Abbreviation pf m := (panic_free (DB := DB) m).

Lemma pf_CreateDeployment spec : pf (CreateDeployment spec).
Proof. panics_unfold. Qed.

Lemma pf_UpdateDeployment id spec : pf (UpdateDeployment id spec).
Proof. panics_unfold. Qed.

Lemma pf_RollbackDeployment id r : pf (RollbackDeployment id r).
Proof. panics_unfold. Qed.

Lemma pf_UpsertAutoscalerPolicy p : pf (Autoscaler.UpsertAutoscalerPolicy p).
Proof. panics_unfold. Qed.

Lemma pf_DeleteAutoscalerPolicy id : pf (DeleteAutoscalerPolicy id).
Proof. panics_unfold. Qed.

Lemma pf_ListAutoscalerPolicies : pf ListAutoscalerPolicies.
Proof. panics_unfold. Qed.

Lemma pf_IngestDeploymentMetric x : pf (IngestDeploymentMetric x).
Proof. panics_unfold. Qed.

Lemma pf_CreateService spec : pf (Services.CreateService spec).
Proof. panics_unfold. Qed.

Lemma pf_CreateNamespace ns : pf (Deployments.CreateNamespace ns).
Proof. panics_unfold. Qed.

Lemma pf_UpsertNamespaceQuota q : pf (Deployments.UpsertNamespaceQuota q).
Proof. panics_unfold. Qed.

Lemma pf_UpsertSecret x : pf (Deployments.UpsertSecret x).
Proof. panics_unfold. Qed.

Lemma pf_ListSecrets ns : pf (Deployments.ListSecrets ns).
Proof. panics_unfold. Qed.

Lemma pf_UpsertPersistentVolume pv : pf (Volumes.UpsertPersistentVolume pv).
Proof. panics_unfold. Qed.

Lemma pf_UpsertPersistentVolumeClaim pvc : pf (Volumes.UpsertPersistentVolumeClaim pvc).
Proof. panics_unfold. Qed.

Lemma pf_ListPersistentVolumeClaims ns : pf (Volumes.ListPersistentVolumeClaims ns).
Proof. panics_unfold. Qed.

Lemma pf_UpsertNetworkPolicy p : pf (Volumes.UpsertNetworkPolicy p).
Proof. panics_unfold. Qed.

Lemma pf_ListNetworkPolicies ns : pf (Volumes.ListNetworkPolicies ns).
Proof. panics_unfold. Qed.

Lemma pf_IsNetworkAccessAllowed ns l svc port : pf (IsNetworkAccessAllowed ns l svc port).
Proof. panics_unfold. Qed.

Lemma pf_UpsertRoleBinding b : pf (RBAC.UpsertRoleBinding b).
Proof. panics_unfold. Qed.

Lemma pf_ListRoleBindings ns : pf (ListRoleBindings ns).
Proof. panics_unfold. Qed.

Lemma pf_bindings_for ns : pf (bindings_for ns).
Proof. panics_unfold. Qed.

Lemma pf_UpsertJob j : pf (Jobs.UpsertJob j).
Proof. panics_unfold. Qed.

Lemma pf_ListJobs ns : pf (Jobs.ListJobs ns).
Proof. panics_unfold. Qed.

Lemma pf_UpsertCronJob c : pf (Jobs.UpsertCronJob c).
Proof. panics_unfold. Qed.

Lemma pf_ListCronJobs ns : pf (Jobs.ListCronJobs ns).
Proof. panics_unfold. Qed.

Lemma pf_TryAcquireControllerLeadership id d : pf (TryAcquireControllerLeadership id d).
Proof. panics_unfold. Qed.

Lemma pf_ReleaseControllerLeadership id : pf (ReleaseControllerLeadership id).
Proof. panics_unfold. Qed.

Lemma pf_ReportWorkloadStatus id st c : pf (ReportWorkloadStatus id st c).
Proof. panics_unfold. Qed.

Lemma pf_ListNodeWorkloads id : pf (ListNodeWorkloads id).
Proof. panics_unfold. Qed.

Lemma pf_ListNodeHealthTrends n : pf (ListNodeHealthTrends n).
Proof. panics_unfold. Qed.

Lemma pf_ListEvents n : pf (ListEvents n).
Proof. panics_unfold. Qed.

Lemma pf_Snapshot : pf Snapshot.
Proof. panics_unfold. Qed.

Lemma pf_PrometheusMetrics : pf PrometheusMetrics.
Proof. panics_unfold. Qed.

Lemma pf_ListServiceEndpoints id : pf (Services.ListServiceEndpoints id).
Proof. panics_unfold. Qed.

Lemma pf_ResolveServiceDNS name : pf (ResolveServiceDNS name).
Proof. panics_unfold. Qed.

Lemma pf_ResolveServiceName name : pf (ResolveServiceName name).
Proof. panics_unfold. Qed.

Lemma pf_SubscribeEvents n : pf (SubscribeEvents n).
Proof. panics_unfold. Qed.

Lemma pf_Unsubscribe n : pf (Unsubscribe n).
Proof. panics_unfold. Qed.

End Calls.

#[export] Hint Resolve pf_CreateDeployment pf_UpdateDeployment pf_RollbackDeployment pf_UpsertAutoscalerPolicy pf_DeleteAutoscalerPolicy pf_ListAutoscalerPolicies pf_IngestDeploymentMetric pf_CreateService pf_CreateNamespace pf_UpsertNamespaceQuota pf_UpsertSecret pf_ListSecrets pf_UpsertPersistentVolume pf_UpsertPersistentVolumeClaim pf_ListPersistentVolumeClaims pf_UpsertNetworkPolicy pf_ListNetworkPolicies pf_IsNetworkAccessAllowed pf_UpsertRoleBinding pf_ListRoleBindings pf_bindings_for pf_UpsertJob pf_ListJobs pf_UpsertCronJob pf_ListCronJobs pf_TryAcquireControllerLeadership pf_ReleaseControllerLeadership pf_ReportWorkloadStatus pf_ListNodeWorkloads pf_ListNodeHealthTrends pf_ListEvents pf_Snapshot pf_PrometheusMetrics pf_ListServiceEndpoints pf_ResolveServiceDNS pf_ResolveServiceName pf_SubscribeEvents pf_Unsubscribe : panics.

(** ** The passes *)

Section Passes.
Context {DB : Type} `{!Badger Blob DB} {E : Env} `{!CalmEnv E}.

Abbreviation pf m := (panic_free (DB := DB) m).

Lemma pf_reconcilePVCBindings : pf reconcilePVCBindings.
Proof. panics_unfold. Qed.

Lemma pf_reconcileJobsAndCron : pf reconcileJobsAndCron.
Proof. panics_unfold. Qed.

Lemma pf_reconcileAutoscaling : pf reconcileAutoscaling.
Proof. panics_unfold. Qed.

Lemma pf_evaluateWorkloadHealth : pf evaluateWorkloadHealth.
Proof. panics_unfold. Qed.

Lemma pf_reconcileAllServiceEndpoints : pf reconcileAllServiceEndpoints.
Proof. panics_unfold. Qed.

End Passes.

#[export] Hint Resolve pf_reconcilePVCBindings pf_reconcileJobsAndCron pf_reconcileAutoscaling
  pf_evaluateWorkloadHealth pf_reconcileAllServiceEndpoints : panics.

Section Control.
Context {DB : Type} `{!Badger Blob DB} {E : Env} `{!CalmEnv E}.

Abbreviation pf m := (panic_free (DB := DB) m).

Lemma pf_ReconcileAll : pf ReconcileAll.
Proof. panics_unfold. Qed.

Lemma pf_ReconcileShard i n : n < 2 ^ 32 -> pf (ReconcileShard i n).
Proof.
  intros Hn. pose proof pf_ReconcileAll. unfold ReconcileShard. destruct (Z.leb_spec n 1); [done|].
  assert (Hb : forall id, no_panic (belongsToShard id i n)).
  { intros id. unfold belongsToShard. cbv zeta. rewrite Z.mod_small by lia.
    by destruct (Z.eqb_spec n 0); [lia|]. }
  assert (Hone : forall dep, pf (reconcile_shard_one i n dep)).
  { intros dep. unfold reconcile_shard_one. apply pf_bind; [apply pf_of_res, Hb|]. panics_unfold. }
  panics_unfold.
Qed.

Lemma pf_RecoverCluster : pf RecoverCluster.
Proof. pose proof pf_ReconcileAll. panics_unfold. Qed.

End Control.

#[export] Hint Resolve pf_ReconcileAll pf_RecoverCluster : panics.

(** ** Selection, polling and roles *)

(** The round-robin cursors are not negative. *)
Definition cursors_ok (b : Balancer) : Prop := forall k, 0 <= map_int b.(Balancer_rrIndex) k.

(** The endpoints of a service can be counted by an [int]. *)
Definition endpoints_fit {DB} `{!Badger Blob DB} (db : DB) : Prop :=
  forall serviceID, lenZ (db_scan db (keyServiceEndpointPrefix serviceID)) <= i64_max.

(** Inheritance between the stored role bindings is acyclic, and the stack is
    deeper than the hierarchy. *)
Definition roles_fit {DB} `{!Badger Blob DB} {E : Env} (stack : nat) (db : DB) : Prop :=
  exists rank : string -> nat, (forall name, rank name < stack)%nat
    /\ forall namespace w all w1, w.(w_db) = db -> bindings_for namespace w = (Ok all, w1) ->
       ranked (by_name all) rank.

Lemma Select_cursors b svc strategy eps :
  cursors_ok b -> lenZ (readyEndpoints eps) <= i64_max ->
  no_panic (Select b svc strategy eps).1 /\ cursors_ok (Select b svc strategy eps).2.
Proof.
  intros Hb Hlen. destruct (decide (readyEndpoints eps = [])) as [E0|Hne].
  { unfold Select. by rewrite E0. }
  destruct (decide (strategy = "" \/ strategy = StrategyRoundRobin)) as [Hs|Hs].
  - destruct (Select_rr_step b svc strategy eps ltac:(apply Hb) Hs Hne Hlen) as (ep & _ & ->).
    split; [done|]. intros k. cbn. rewrite map_int_insert. case_decide; [|apply Hb].
    apply Z.mod_pos_bound. destruct (readyEndpoints eps); [done|]. unfold lenZ. cbn. lia.
  - destruct (decide (strategy = StrategyLeastConnections)) as [->|Hl].
    + by destruct (Select_lc_step b svc eps Hne) as (ep & -> & _).
    + unfold Select. destruct (readyEndpoints eps) as [|e l]; [done|].
      by rewrite !(proj2 (String.eqb_neq _ _)) by tauto.
Qed.

Lemma Release_cursors b id : cursors_ok b -> cursors_ok (Release b id).
Proof. intros H k. unfold Release. destruct (0 <? _); apply H. Qed.

Lemma readyEndpoints_length eps : lenZ (readyEndpoints eps) <= lenZ eps.
Proof.
  unfold readyEndpoints, lenZ. rewrite (Permutation_length (SliceStable_perm _ _)).
  pose proof (List.filter_length_le ServiceEndpoint_Ready eps). lia.
Qed.

Section Selection.
Context {DB : Type} `{!Badger Blob DB} {E : Env} `{!CalmEnv E}.
Implicit Types (w : World DB).

(** The state in which an endpoint can be selected. *)
Definition selectable w : Prop := cursors_ok w.(w_balance) /\ endpoints_fit w.(w_db).

Lemma selectable_idle w w' : idle w w' -> selectable w -> selectable w'.
Proof. by intros [n ->]. Qed.

(** From a selectable state an operation does not panic, and leaves one. *)
Definition selects_safely {A} (m : M (World DB) A) : Prop :=
  forall w, selectable w -> no_panic (m w).1 /\ selectable (m w).2.

Lemma sel_query {A} (m : M (World DB) A) : panic_free m -> steps idle m -> selects_safely m.
Proof. intros Hm Hi w Hw. split; [apply Hm|]. eapply selectable_idle; [apply Hi|done]. Qed.

Lemma sel_bind {A B} (m : M (World DB) A) (k : A -> M (World DB) B) :
  selects_safely m -> (forall a, selects_safely (k a)) -> selects_safely (m ≫= k).
Proof.
  intros Hm Hk w Hw. destruct (Hm w Hw) as [Hp Hs]. unfold mbind, M_bind.
  destruct (m w) as [[a|e] w1]; [by apply Hk|]. by destruct e.
Qed.

Lemma decode_all_length {T} `{!Entity T} kvs (l : list T) : decode_all kvs = Ok l -> length l = length kvs.
Proof.
  unfold decode_all. destruct (mapM _ kvs) as [l'|] eqn:Hm; [|done]. intros [= <-].
  symmetry. by eapply length_mapM.
Qed.

Lemma sel_endpoints_bind {A} id (k : list ServiceEndpoint -> M (World DB) A) :
  (forall eps, lenZ eps <= i64_max -> selects_safely (k eps)) ->
  selects_safely (Store.ListServiceEndpoints id ≫= k).
Proof.
  intros Hk w Hw. pose proof (proj2 Hw id) as Hf.
  unfold mbind, M_bind, Store.ListServiceEndpoints, listPrefix, db_View.
  pose proof (no_panic_decode (T := ServiceEndpoint) (db_scan w.(w_db) (keyServiceEndpointPrefix id))) as Hp.
  destruct (env_dberr _); [done|]. destruct (decode_all _) as [eps|e] eqn:Hd; [|by destruct e].
  apply Hk; [|by eapply selectable_idle; [eexists|]].
  apply decode_all_length in Hd. unfold lenZ in *. lia.
Qed.

Lemma sel_balance_Select id strategy eps : lenZ eps <= i64_max ->
  selects_safely (balance_Select id strategy eps).
Proof.
  intros Hl w [Hc Hf]. pose proof (readyEndpoints_length eps).
  destruct (Select_cursors w.(w_balance) id strategy eps Hc ltac:(lia)) as [Hp Hs].
  unfold balance_Select. by destruct (Select _ _ _ _).
Qed.

Lemma sel_SelectServiceEndpoint id strategy : selects_safely (SelectServiceEndpoint id strategy).
Proof.
  unfold SelectServiceEndpoint. apply sel_bind; [apply sel_query; [panics_unfold|store_steps]|]. intros _.
  apply sel_endpoints_bind. intros eps Hl.
  apply sel_bind; [apply sel_query; [panics_unfold|store_steps]|]. intros nodes.
  apply sel_balance_Select. unfold lenZ in *.
  pose proof (List.filter_length_le (on_healthy_node nodes) eps). lia.
Qed.

Lemma sel_RouteServiceTraffic name strategy : selects_safely (RouteServiceTraffic name strategy).
Proof.
  unfold RouteServiceTraffic.
  apply sel_bind; [apply sel_query; [panics_unfold|apply query_findServiceByName; apply _]|].
  intros svc. apply sel_bind; [apply sel_SelectServiceEndpoint|]. intros ep.
  apply sel_query; [panics_tac|]. repeat case_match; steps_tac.
Qed.

Lemma pf_PollAssignments id max :
  make_ok assignment_size (if max <=? 0 then 10 else max) = true -> panic_free (DB := DB) (PollAssignments id max).
Proof.
  intros Hm. unfold PollAssignments, PopAssignments. rewrite Hm. cbn [negb]. apply pf_Update. intros db.
  cbv zeta. pose proof (no_panic_decode (T := Assignment)
    (take (Z.to_nat (if max <=? 0 then 10 else max)) (db_scan db (keyAssignmentPrefix id)))) as H.
  by destruct (decode_all _) as [|[]].
Qed.

Lemma pf_EffectiveRoles stack subject namespace w : roles_fit stack w.(w_db) ->
  no_panic (EffectiveRolesForSubject stack subject namespace w).1.
Proof.
  intros (rank & Hs & Hr). unfold EffectiveRolesForSubject.
  destruct (pf_bindings_for (DB := DB) namespace w) as [Hp _].
  unfold mbind, M_bind. destruct (bindings_for namespace w) as [[all|e] w1] eqn:Hb; [|by destruct e].
  destruct (collect_roles_ranked all rank stack subject) as (roles & -> & _); [|done|done].
  by eapply Hr.
Qed.

End Selection.
