(* ===== verification/HttpTheorems.v ===== *)
(** * The HTTP server against the orchestrator's state machine

    Every request acts on the orchestrator as a sequence of its commands and
    queries; requests without the right to act leave the state alone; viewers
    only read. *)

From Stdlib Require Import Ascii String.
From Corelib Require Import SpecFloat.
From S2P Require Import Prelude GoLang GoText GoFloat GoSort GoTime Effects Model Scheduler Badger.
From S2P Require Import Balancer World Store StoreFacts StoreTheorems Events Secrets Rollout.
From S2P Require Import Placement Reconcile ReconcileFacts Deployments Nodes Services Autoscaler.
From S2P Require Import RBAC Volumes Lease Jobs Control Invariant Machine Metrics Validation Auth.
From S2P Require Import Http Handlers HttpFacts.

Section Refinement.
Context {DB : Type} `{!Badger Blob DB, !BadgerLaws Blob DB} {E : Env} {J : JWT} {AE : AuthEnv} {HE : HttpEnv}.
Implicit Types (w : World DB) (s : HTTPServer DB).

(** A command of the orchestrator, or a query. *)
Definition api_step w w' : Prop := command_step w w' \/ idle w w'.

Abbreviation api := (rtc api_step).

#[export] Instance Queries_api : Queries api.
Proof. split; [apply _|]. intros w w' H. apply rtc_once. by right. Qed.

Lemma api_command c {A} (m : M (World DB) A) :
  (forall w, (run_command c w).2 = (m w).2) -> steps api m.
Proof. intros H w. apply rtc_once. left. exists c. by rewrite H. Qed.

Lemma discard_state {A} (m : M (World DB) A) w : (discard m w).2 = (m w).2.
Proof. unfold discard, mbind, M_bind. by destruct (m w) as [[]]. Qed.

(** Choose the command by the operation. *)
Ltac command :=
  lazymatch goal with
  | |- steps _ (RegisterNode ?n) => apply (api_command (CmdRegisterNode n))
  | |- steps _ (HeartbeatNode ?n ?u) => apply (api_command (CmdHeartbeatNode n u))
  | |- steps _ (DrainNode ?n) => apply (api_command (CmdDrainNode n))
  | |- steps _ (RemoveNode ?n) => apply (api_command (CmdRemoveNode n))
  | |- steps _ (CreateDeployment ?x) => apply (api_command (CmdCreateDeployment x))
  | |- steps _ (UpdateDeployment ?i ?x) => apply (api_command (CmdUpdateDeployment i x))
  | |- steps _ (RollbackDeployment ?i ?x) => apply (api_command (CmdRollbackDeployment i x))
  | |- steps _ (DeleteDeployment ?i) => apply (api_command (CmdDeleteDeployment i))
  | |- steps _ (Autoscaler.UpsertAutoscalerPolicy ?p) => apply (api_command (CmdUpsertAutoscalerPolicy p))
  | |- steps _ (DeleteAutoscalerPolicy ?p) => apply (api_command (CmdDeleteAutoscalerPolicy p))
  | |- steps _ (IngestDeploymentMetric ?x) => apply (api_command (CmdIngestDeploymentMetric x))
  | |- steps _ (Services.CreateService ?x) => apply (api_command (CmdCreateService x))
  | |- steps _ (SelectServiceEndpoint ?i ?x) => apply (api_command (CmdSelectServiceEndpoint i x))
  | |- steps _ (ReleaseServiceEndpoint ?i) => apply (api_command (CmdReleaseServiceEndpoint i))
  | |- steps _ (Deployments.CreateNamespace ?x) => apply (api_command (CmdCreateNamespace x))
  | |- steps _ (Deployments.UpsertNamespaceQuota ?x) => apply (api_command (CmdUpsertNamespaceQuota x))
  | |- steps _ (Deployments.UpsertSecret ?x) => apply (api_command (CmdUpsertSecret x))
  | |- steps _ (Volumes.UpsertPersistentVolume ?x) => apply (api_command (CmdUpsertPersistentVolume x))
  | |- steps _ (Volumes.UpsertPersistentVolumeClaim ?x) =>
      apply (api_command (CmdUpsertPersistentVolumeClaim x))
  | |- steps _ (Volumes.UpsertNetworkPolicy ?x) => apply (api_command (CmdUpsertNetworkPolicy x))
  | |- steps _ (RBAC.UpsertRoleBinding ?x) => apply (api_command (CmdUpsertRoleBinding x))
  | |- steps _ (Jobs.UpsertJob ?x) => apply (api_command (CmdUpsertJob x))
  | |- steps _ (Jobs.UpsertCronJob ?x) => apply (api_command (CmdUpsertCronJob x))
  | |- steps _ (PollAssignments ?n ?x) => apply (api_command (CmdPollAssignments n x))
  | |- steps _ (ReportWorkloadStatus ?i ?x ?c) => apply (api_command (CmdReportWorkloadStatus i x c))
  | |- steps _ (SubscribeEvents ?b) => apply (api_command (CmdSubscribeEvents b))
  | |- steps _ RecoverCluster => apply (api_command CmdRecoverCluster)
  end; intros w; [> reflexivity || apply discard_state].

Lemma api_RouteServiceTraffic name strategy :
  steps api (RouteServiceTraffic name strategy : M (World DB) (Service * ServiceEndpoint * string * Z)).
Proof.
  unfold RouteServiceTraffic. apply steps_bind; [apply _|apply query_findServiceByName, _|]. intros svc.
  apply steps_bind; [apply _|command|]. intros ep. steps_tac.
Qed.

Lemma api_check_access r svc ep k : steps (via api) k -> steps (via api) (check_access r svc ep k).
Proof. intros H. unfold check_access. via_tac. Qed.

Lemma api_release ep : steps (via api) (release ep).
Proof. apply via_release. command. Qed.

Lemma api_handleConnect name r : steps (via api) (handleConnect name r).
Proof.
  unfold handleConnect. apply via_on_success_or_404; [apply _|apply api_RouteServiceTraffic|].
  intros [[[svc ep] h] p]. apply via_defer; [apply _|apply api_release|]. apply api_check_access. via_tac.
Qed.

Lemma api_handleProxy name r : steps (via api) (handleProxy name r).
Proof.
  unfold handleProxy. apply steps_bind; [apply _|apply via_circuitOpen, _|]. intros [o reason].
  destruct o; [via_tac|]. apply steps_bind; [apply _|apply via_call; [apply _|apply api_RouteServiceTraffic]|].
  intros [[[[svc ep] h] p]|e]; [|via_tac]. apply via_defer; [apply _|apply api_release|].
  apply api_check_access. via_tac.
Qed.

Lemma api_handle route r : steps (via api) (handle route r).
Proof.
  destruct route; cbn [handle];
    unfold handleHealthz, handlePrometheusMetrics, handleRegisterNode, handleNodeSubroutes,
      handleDeployments, handleDeploymentByID, handleAutoscalers, handleAutoscalerByID,
      handleDeploymentMetrics, handleNodeHealthTrends, handleCluster, handleWorkerSubroutes,
      handleWorkloadSubroutes, handleServices, handleServiceSubroutes, handleNamespaces,
      handleQuotas, handleSecrets, handlePersistentVolumes, handlePersistentVolumeClaims,
      handleNetworkPolicies, handleJobs, handleCronJobs, handleRoleBindings, handleRecoveryRun,
      handleDNSResolve, handleDNSSidecarResolve, handleNetworkServiceSubroutes, handleEvents,
      handleEventStream, collection;
    via_tac; first [command|apply api_release|apply api_handleConnect|apply api_handleProxy].
Qed.

(** ** Runs of the server *)

(** A request, a turn of an event stream, or a command of the control loop,
    which shares the orchestrator with the server. *)
Inductive server_step : relation (HTTPServer DB) :=
| step_serve r s : server_step s (serve r s).2
| step_stream ch turn s : server_step s (stream_step ch turn s).2
| step_control c s : server_step s (orch (run_command c) s).2.

Lemma inv_same_db w w' : w_db w' = w_db w -> inv w -> inv w'.
Proof. unfold inv. by intros ->. Qed.

Lemma api_inv w w' : rtc api_step w w' -> inv w -> inv w'.
Proof.
  induction 1 as [|w w1 w' [[c ->]|[n ->]] _ IH]; intros Hw; [done| |]; apply IH.
  - exact (proj1 (safe_run_command c w Hw)).
  - by eapply inv_same_db.
Qed.

Lemma stream_same_db ch turn s :
  w_db (s_orch (stream_step ch turn s).2) = w_db (s_orch s).
Proof.
  destruct turn; [done|done|]. cbn -[w_subscribers]. unfold mbind, M_bind. cbn -[w_subscribers lookup].
  destruct (w_subscribers _ !! ch) as [sub|]; [|done].
  destruct (Subscriber_queue sub) as [|evt rest]; done.
Qed.

Lemma server_step_inv s s' : server_step s s' -> inv s.(s_orch) -> inv s'.(s_orch).
Proof.
  destruct 1 as [r s|ch turn s|c s]; intros Hs.
  - eapply api_inv; [|exact Hs]. exact (via_serve api r api_handle s).
  - eapply inv_same_db; [|exact Hs]. apply stream_same_db.
  - unfold orch. destruct (run_command c (s_orch s)) as [x w] eqn:Ew. cbn.
    replace w with (run_command c (s_orch s)).2 by by rewrite Ew. exact (proj1 (safe_run_command c _ Hs)).
Qed.

(** The HTTP server refines the orchestrator's state machine.  Whatever a
    request holds and whatever the database, the token service and the
    upstreams answer, its effect on the orchestrator is a sequence of commands
    and queries; hence after any sequence of requests, turns of event streams
    and passes of the control loop, started on an empty database, the stored
    deployments and policies satisfy the invariant of the state machine. *)
Theorem serve_refines :
  (forall r s, rtc api_step s.(s_orch) (serve r s).2.(s_orch))
  /\ (forall s0 s, (forall k, db_get s0.(s_orch).(w_db) k = None) -> rtc server_step s0 s ->
        inv s.(s_orch)).
Proof.
  split; [intros r s; exact (via_serve api r api_handle s)|].
  intros s0 s H0 Hs. assert (Hi : inv s0.(s_orch)) by (intros k b; by rewrite H0). clear H0.
  induction Hs as [|s0 s1 s Hstep _ IH]; [done|]. apply IH. by eapply server_step_inv.
Qed.

End Refinement.

(** ** Who may act *)

Section Guard.
Context {DB : Type} `{!Badger Blob DB} {E : Env} {J : JWT} {AE : AuthEnv} {HE : HttpEnv}.
Implicit Types (w : World DB) (s : HTTPServer DB).

(** Nothing the API serves has changed: the orchestrator apart from its clock,
    the breakers and the streams. *)
Definition quiet : relation (HTTPServer DB) := fun s s' =>
  idle s.(s_orch) s'.(s_orch) /\ s'.(s_breakers) = s.(s_breakers) /\ s'.(s_streams) = s.(s_streams).

#[export] Instance quiet_PreOrder : PreOrder quiet.
Proof.
  split; [by intros s|]. intros x y z (H1 & H2 & H3) (H4 & H5 & H6).
  split; [by etrans|]. by rewrite H5, H6.
Qed.

(** The path after the version prefix is removed, as the inner handlers see
    it. *)
Definition api_path (p : string) : string :=
  if HasPrefix p "/api/v1/" then TrimPrefix p "/api"
  else if String.eqb p "/api/v1" then "/v1" else p.

Definition versioned (r : Request) : Request :=
  r <| r_principal := None |> <| r_Path ::= api_path |>.

(** The token of the request is accepted as [p0]'s. *)
Definition authenticated (r : Request) s (p0 : Principal) : Prop :=
  exists w, idle s.(s_orch) w
    /\ (VerifyBearer (header_Get r.(r_Header) "Authorization") (s.(s_verifier), w)).1 = Ok p0.

(** [p] is [p0] with the roles that the stored bindings grant its subject. *)
Definition with_bindings (r : Request) s (p0 p : Principal) : Prop :=
  p = p0
  \/ exists w bound, idle s.(s_orch) w
       /\ (EffectiveRolesForSubject env_stack p0.(Principal_Subject) (requestNamespace r) w).1 = Ok bound
       /\ p = p0 <| Principal_Roles ::= fun roles => mergeRoles roles bound |>.

Definition identified (r : Request) s (p : Principal) : Prop :=
  exists p0, authenticated r s p0 /\ with_bindings r s p0 p.

Lemma quiet_WriteHeader code : steps quiet (WriteHeader code : M (HTTPServer DB) unit).
Proof. intros s. destruct (WriteHeader_response code s) as (res & w & ->). by split. Qed.

Lemma quiet_modify f :
  (forall s, s_orch (f s) = s_orch s /\ s_breakers (f s) = s_breakers s /\ s_streams (f s) = s_streams s) ->
  steps quiet (modify f : M (HTTPServer DB) unit).
Proof. intros H s. destruct (H s) as (Ho & Hb & Hs). split; [cbn; by rewrite Ho|done]. Qed.

Lemma quiet_respond f : steps quiet (respond f : M (HTTPServer DB) unit).
Proof. by apply quiet_modify. Qed.

Lemma quiet_set_header k v : steps quiet (set_header k v : M (HTTPServer DB) unit).
Proof. apply quiet_respond. Qed.

Lemma quiet_written code c : steps quiet (WriteHeader code ;; respond (Write c) : M (HTTPServer DB) unit).
Proof. apply steps_bind; [apply _|apply quiet_WriteHeader|intros _; apply quiet_respond]. Qed.

Lemma quiet_writeAPIError st c m d : steps quiet (writeAPIError st c m d : M (HTTPServer DB) unit).
Proof. apply steps_bind; [apply _|apply quiet_set_header|intros _; apply quiet_written]. Qed.

Lemma quiet_refused e st c m d : steps quiet (audit e ;; writeAPIError st c m d : M (HTTPServer DB) unit).
Proof. apply steps_bind; [apply _|by apply quiet_modify|intros _; apply quiet_writeAPIError]. Qed.

(** A request that is refused: it ends in a panic, or with one of the statuses
    that the middlewares answer. *)
Definition denied (x : Res unit * HTTPServer DB) : Prop :=
  (exists e, x.1 = Err e) \/ x.2.(s_w).(rw_status) ∈ [Some 400; Some 401; Some 403].

Definition fresh_writer s : Prop := s.(s_w).(rw_status) = None.

Lemma denied_writeAPIError st c m d s : st ∈ [400; 401; 403] -> fresh_writer s ->
  denied (writeAPIError st c m d s).
Proof.
  intros Hst Hf. right. destruct s as [? ? ? ? ? w]. destruct w. unfold fresh_writer in Hf. cbn in Hf. subst.
  apply list_elem_of_In in Hst. apply list_elem_of_In.
  destruct Hst as [<-|[<-|[<-|[]]]]; [left|right; left|do 2 right; left]; reflexivity.
Qed.

Lemma quiet_call {A} (m : M (World DB) A) : steps idle m -> steps quiet (call m).
Proof.
  intros H s. unfold call, unless_panic, mbind, M_bind, attempt, orch. specialize (H s.(s_orch)).
  destruct (m (s_orch s)) as [[a|[]] w]; by split.
Qed.

Lemma quiet_on_success {A} (m : M (World DB) A) st c msg k :
  steps idle m -> (forall a, steps quiet (k a)) -> steps quiet (on_success m st c msg k).
Proof.
  intros Hm Hk. unfold on_success. apply steps_bind; [apply _|by apply quiet_call|].
  intros [a|e]; [apply Hk|apply quiet_writeAPIError].
Qed.

Lemma quiet_handlePrometheusMetrics r : steps quiet (handlePrometheusMetrics r).
Proof.
  unfold handlePrometheusMetrics, require_method. destruct (negb _); [apply quiet_writeAPIError|].
  apply quiet_on_success; [apply query_PrometheusMetrics, _|]. intros text.
  apply steps_bind; [apply _|apply quiet_set_header|intros _; apply quiet_written].
Qed.

(** The two open paths are served by handlers that only read. *)
Lemma quiet_open r : is_open r.(r_Path) = true -> steps quiet (mux handle r : M (HTTPServer DB) unit).
Proof.
  intros H s. unfold mux. apply orb_true_iff in H as [H|H]; apply String.eqb_eq in H; rewrite H;
    unfold findHandler; destruct (String.eqb (r_Method r) "CONNECT").
  1,2: change (quiet s (handleHealthz r s).2); apply quiet_written.
  1,2: change (quiet s (handlePrometheusMetrics r s).2); apply quiet_handlePrometheusMetrics.
Qed.

Lemma serve_to_auth r s :
  quiet s (serve r s).2 /\ denied (serve r s)
  \/ exists s1, quiet s s1 /\ s1.(s_verifier) = s.(s_verifier) /\ fresh_writer s1
       /\ serve r s = authMiddleware (auditMiddleware (authorizationMiddleware (mux handle)))
            (versioned r) s1.
Proof.
  unfold serve, Handler_chain, versionMiddleware. fold (api_path (r_Path r)).
  unfold mbind, M_bind, respond at 1, modify at 1. cbv iota beta.
  destruct (_ && _).
  { left. split; [etrans; [|apply quiet_writeAPIError]; by split|].
    apply denied_writeAPIError; [by apply (bool_decide_unpack _)|done]. }
  right. unfold traceMiddleware.
  destruct (String.eqb _ _); eexists; (split; [|split; [|split; [|reflexivity]]]); try done;
    (split; [|done]); by eexists.
Qed.

(** The verifier reads the clock and updates its own cache only. *)
Lemma run_verifier authz s : exists res v w,
  unless_panic (verifier (VerifyBearer authz)) s = (res, s <| s_verifier := v |> <| s_orch := w |>)
  /\ idle s.(s_orch) w
  /\ (forall p, res = Ok (Ok p) -> (VerifyBearer authz (s.(s_verifier), s.(s_orch))).1 = Ok p).
Proof.
  pose proof (via2_VerifyBearer idle authz (s.(s_verifier), s.(s_orch))) as H.
  unfold unless_panic, mbind, M_bind, attempt, verifier.
  destruct (VerifyBearer authz _) as [r [v w]]. exists (match r with
    | Err (Panic m) => Err (Panic m) | _ => Ok r end), v, w.
  destruct r as [p|[]]; (split; [done|]); (split; [exact H|]); intros p' [= <-]; done.
Qed.

Lemma run_bind_roles r p0 s : exists res w,
  bind_roles r p0 s = (res, s <| s_orch := w |>) /\ idle s.(s_orch) w
  /\ (forall p, res = Ok p -> p = p0
        \/ exists bound, (EffectiveRolesForSubject env_stack p0.(Principal_Subject)
             (requestNamespace r) s.(s_orch)).1 = Ok bound
             /\ p = p0 <| Principal_Roles ::= fun roles => mergeRoles roles bound |>).
Proof.
  unfold bind_roles. destruct (blank _).
  { exists (Ok p0), s.(s_orch). split; [by destruct s|]. split; [done|]. intros p [= <-]. by left. }
  pose proof (query_EffectiveRoles idle env_stack (Principal_Subject p0) (requestNamespace r)
    s.(s_orch)) as H.
  unfold call, unless_panic, mbind, M_bind, attempt, orch.
  destruct (EffectiveRolesForSubject _ _ _ _) as [[[|b bs]|[]] w]; do 2 eexists;
    (split; [reflexivity|]); (split; [exact H|]); intros p [= <-]; eauto.
Qed.

Lemma auth_to_handler next r s : is_open r.(r_Path) = false -> fresh_writer s ->
  quiet s (authMiddleware next r s).2 /\ denied (authMiddleware next r s)
  \/ exists s1 p, quiet s s1 /\ fresh_writer s1 /\ identified r s p
       /\ authMiddleware next r s = next (r <| r_principal := Some p |>) s1.
Proof.
  intros Hopen Hf. unfold authMiddleware. rewrite Hopen.
  destruct (run_verifier (header_Get (r_Header r) "Authorization") s) as (res & v & w & Hrun & Hw & Hp).
  destruct res as [[p0|e]|e]; [|rewrite (bind_Ok _ _ _ _ _ Hrun)|rewrite (bind_Err _ _ _ _ _ Hrun)];
    [|left; split; [etrans; [|apply quiet_refused]; by split|]
     |left; split; [by split|left; by eexists]].
  2: { apply denied_writeAPIError; [by apply (bool_decide_unpack _)|exact Hf]. }
  rewrite (bind_Ok _ _ _ _ _ Hrun). set (s1 := s <| s_verifier := v |> <| s_orch := w |>).
  destruct (run_bind_roles r p0 s1) as (res & w' & Hbind & Hw' & Hres).
  change (s_orch s1) with w in *. assert (Hq : quiet s (s1 <| s_orch := w' |>)).
  { split; [|done]. cbn. by etrans. }
  destruct res as [p|e]; [rewrite (bind_Ok _ _ _ _ _ Hbind)|rewrite (bind_Err _ _ _ _ _ Hbind)].
  2: { left. split; [done|left; by eexists]. }
  right. do 2 eexists. split; [exact Hq|]. split; [exact Hf|]. split; [|reflexivity].
  exists p0. split; [exists s.(s_orch); split; [done|by apply Hp]|].
  destruct (Hres p eq_refl) as [->|(bound & Hb & ->)]; [by left|right; eauto].
Qed.

Lemma audit_around next r s : exists s1, quiet s s1
  /\ (fresh_writer s -> fresh_writer s1) /\ quiet (next r s1).2 (auditMiddleware next r s).2
  /\ (denied (next r s1) -> denied (auditMiddleware next r s)).
Proof.
  unfold auditMiddleware. destruct (negb _); [by exists s|].
  exists (set s_w (fun x : ResponseWriter => x <| rw_flusher := false |> <| rw_recorded := 200 |>) s).
  split; [by split|]. split; [done|].
  unfold mbind, M_bind, respond, modify. destruct (next r _) as [[[]|e] s2]; [|by split].
  cbn. destruct (principalFromContext r) as [p|]; [destruct (blank _)|]; by split.
Qed.

Lemma identified_quiet r s s1 p :
  quiet s s1 -> s1.(s_verifier) = s.(s_verifier) -> identified r s1 p -> identified r s p.
Proof.
  intros [Hq _] Hv (p0 & (w & Hw & Hp) & Hb). exists p0.
  split; [exists w; rewrite <- Hv; by split; [etrans|]|].
  destruct Hb as [->|(w' & bound & Hw' & Hb & ->)]; [by left|right].
  exists w', bound. by split; [etrans|].
Qed.

Lemma authorization_cases next r p s : is_open r.(r_Path) = false -> r.(r_principal) = Some p ->
  authorizationMiddleware next r s
  = if isAuthorized p r.(r_Method) r.(r_Path) then next r s
    else (audit (AuthorizationDenied r.(r_Method) r.(r_Path) p.(Principal_Subject) p.(Principal_Roles)) ;;
          writeAPIError 403 "forbidden" "Insufficient role for endpoint" "required role mismatch") s.
Proof.
  intros Hopen Hp. unfold authorizationMiddleware, principalFromContext. rewrite Hopen, Hp.
  by destruct (isAuthorized _ _ _).
Qed.

(** A request is refused or is for an open path, without effect, or reaches the multiplexer with an
    authorized principal. *)
Lemma serve_decompose r s :
  quiet s (serve r s).2 /\ (is_open (api_path r.(r_Path)) = true \/ denied (serve r s))
  \/ exists p s1, identified (versioned r) s p
       /\ isAuthorized p r.(r_Method) (api_path r.(r_Path)) = true
       /\ quiet s s1 /\ quiet (mux handle (versioned r <| r_principal := Some p |>) s1).2 (serve r s).2.
Proof.
  destruct (serve_to_auth r s) as [[? ?]|(s1 & Hq1 & Hv & Hf1 & ->)]; [by left; split; [|right]|].
  set (inner := authorizationMiddleware (mux handle)).
  destruct (is_open (r_Path (versioned r))) eqn:Hopen.
  { left. split; [|by left]. unfold authMiddleware. rewrite Hopen.
    destruct (audit_around inner (versioned r) s1) as (s2 & Hq2 & _ & Hq3 & _).
    etrans; [exact Hq1|]. etrans; [exact Hq2|]. etrans; [|exact Hq3].
    unfold inner, authorizationMiddleware. rewrite Hopen. by apply quiet_open. }
  destruct (auth_to_handler (auditMiddleware inner) (versioned r) s1 Hopen Hf1)
    as [[Hq Hd]|(s2 & p & Hq2 & Hf2 & Hid & ->)]; [left; split; [by etrans|by right]|].
  apply (identified_quiet _ _ _ _ Hq1 Hv) in Hid. set (r' := versioned r <| r_principal := Some p |>).
  destruct (audit_around inner r' s2) as (s3 & Hq3 & Hf3 & Hq4 & Hd).
  assert (Hq : quiet s s3) by (etrans; [exact Hq1|]; by etrans).
  unfold inner in Hq4, Hd. rewrite (authorization_cases _ r' p s3 Hopen eq_refl) in Hq4, Hd.
  change (isAuthorized p (r_Method r') (r_Path r')) with (isAuthorized p (r_Method r) (api_path (r_Path r))) in *.
  destruct (isAuthorized _ _ _) eqn:Ha; [right; exists p, s3; exact (conj Hid (conj Ha (conj Hq Hq4)))|left].
  split; [etrans; [exact Hq|]; etrans; [apply quiet_refused|exact Hq4]|right].
  apply Hd, denied_writeAPIError; [by apply (bool_decide_unpack _)|exact (Hf3 Hf2)].
Qed.

(** C9: no effect without authorization.  A request either changes nothing
    that the API serves (the orchestrator's database, balancer and
    subscribers, the circuit breakers, the streams), or it carries a token
    that the verifier accepts for a principal whose roles, extended by the
    stored role bindings for the request's namespace, include one that
    [requiredRoles] asks for on its method and path.  This covers requests
    without a token, with a wrong one, and to unknown paths. *)
Theorem serve_guarded r s :
  quiet s (serve r s).2
  \/ exists p, identified (versioned r) s p
       /\ isAuthorized p r.(r_Method) (api_path r.(r_Path)) = true.
Proof.
  destruct (serve_decompose r s) as [[? _]|(p & s1 & Hid & Ha & _)]; [by left|right]. by exists p.
Qed.

(** ** Viewers *)

Lemma viewer_only_viewers : ("viewer" ∉ operators) /\ ("viewer" ∉ admins).
Proof. split; by apply (bool_decide_unpack _). Qed.

Lemma viewer_GET method path :
  "viewer" ∈ requiredRoles method path -> method = MethodGet.
Proof.
  unfold requiredRoles. cbv zeta. intros H. destruct viewer_only_viewers.
  destruct (String.eqb_spec method MethodGet) as [->|_]; [done|]. cbn [andb] in H.
  repeat match type of H with context [if ?b then _ else _] => destruct b end; done.
Qed.

(** A principal that holds neither of the roles that may change things. *)
Definition only_viewer (p : Principal) : Prop :=
  ("operator" ∉ (role_key <$> p.(Principal_Roles)))
  /\ ("admin" ∉ (role_key <$> p.(Principal_Roles))).

Lemma requiredRoles_cases method path :
  (requiredRoles method path) ∈ [viewers; operators; admins].
Proof.
  unfold requiredRoles. cbv zeta.
  repeat match goal with |- context [if ?b then _ else _] => destruct b end; by apply (bool_decide_unpack _).
Qed.

Lemma only_viewer_GET p method path :
  only_viewer p -> isAuthorized p method path = true -> method = MethodGet.
Proof.
  intros [Ho Ha] H. apply (viewer_GET _ path). unfold isAuthorized in H. cbv zeta in H.
  pose proof (requiredRoles_cases method path) as Hc. rewrite !elem_of_cons, elem_of_nil in Hc.
  assert (Hd : forall role, role ∉ (role_key <$> p.(Principal_Roles)) ->
    bool_decide (role ∈ (list_to_set (role_key <$> p.(Principal_Roles)) : gset string)) = false).
  { intros role Hr. apply bool_decide_eq_false. by rewrite elem_of_list_to_set. }
  destruct Hc as [Hc|[Hc|[Hc|[]]]]; rewrite Hc in *; [by apply (bool_decide_unpack _)| |];
    cbn in H; rewrite ?(Hd _ Ho), ?(Hd _ Ha) in H; done.
Qed.

(** The operations a GET request leads to. *)
Lemma same_db_balance f : steps (dbrel (@eq DB)) (modify (set w_balance f)).
Proof. by intros w. Qed.

Lemma same_db_SelectServiceEndpoint id strategy :
  steps (dbrel (@eq DB)) (SelectServiceEndpoint id strategy).
Proof.
  unfold SelectServiceEndpoint.
  do 3 (apply steps_bind; [apply _|autounfold with store; store_steps|intros ?]).
  intros w. unfold balance_Select. by destruct (Select _ _ _ _).
Qed.

Lemma same_db_RouteServiceTraffic name strategy :
  steps (dbrel (@eq DB)) (RouteServiceTraffic name strategy).
Proof.
  unfold RouteServiceTraffic. apply steps_bind; [apply _|apply query_findServiceByName, _|]. intros svc.
  apply steps_bind; [apply _|apply same_db_SelectServiceEndpoint|]. intros ep. steps_tac.
Qed.

Lemma same_db_SubscribeEvents b : steps (dbrel (@eq DB)) (SubscribeEvents b).
Proof. by intros w. Qed.

(** Polling removes assignments of the node only. *)
Lemma only_PollAssignments `{!BadgerLaws Blob DB} id max :
  steps (dbrel (only (DB := DB) [keyAssignmentPrefix id])) (PollAssignments id max).
Proof.
  unfold PollAssignments, PopAssignments. destruct (negb _); [apply steps_throw, _|].
  apply steps_Update; [apply _|]. intros db a db' H. cbv zeta in H.
  destruct (decode_all _); [|done]. injection H as <- <-. intros k Hk. rewrite delete_keys_get.
  case_decide as Hin; [|done]. apply list_elem_of_fmap in Hin as ([k' b] & -> & Hin).
  assert (Hin' : (k', b) ∈ db_scan db (keyAssignmentPrefix id)).
  { eapply elem_of_submseteq; [exact Hin|]. apply sublist_submseteq, sublist_take. }
  apply db_scan_elem in Hin' as [Hp _].
  change (HasPrefix k' (keyAssignmentPrefix id) || false = false) in Hk. by rewrite Hp in Hk.
Qed.

Lemma is_method_GET r m : r.(r_Method) = MethodGet -> m <> MethodGet -> is_method m r = false.
Proof. intros H Hm. unfold is_method. rewrite H. by apply String.eqb_neq. Qed.

(** The request polls a node's assignments. *)
Definition polls (path id : string) : Prop := Split (TrimPrefix path "/v1/workers/") "/" = [id; "assignments"].

Lemma same_db_release ep : steps (via (dbrel (@eq DB))) (release ep).
Proof. by apply via_release. Qed.

Lemma same_db_check_access r svc ep k :
  steps (via (dbrel (@eq DB))) k -> steps (via (dbrel (@eq DB))) (check_access r svc ep k).
Proof. intros H. unfold check_access. via_tac. Qed.

Lemma same_db_traffic name r :
  steps (via (dbrel (@eq DB))) (handleConnect name r) /\ steps (via (dbrel (@eq DB))) (handleProxy name r).
Proof.
  split.
  - unfold handleConnect. apply via_on_success_or_404; [apply _|apply same_db_RouteServiceTraffic|].
    intros [[[svc ep] h] p]. apply via_defer; [apply _|apply same_db_release|].
    apply same_db_check_access. via_tac.
  - unfold handleProxy. apply steps_bind; [apply _|apply via_circuitOpen, _|]. intros [o reason].
    destruct o; [via_tac|].
    apply steps_bind; [apply _|apply via_call; [apply _|apply same_db_RouteServiceTraffic]|].
    intros [[[[svc ep] h] p]|e]; [|via_tac]. apply via_defer; [apply _|apply same_db_release|].
    apply same_db_check_access. via_tac.
Qed.

(** A GET request reads the database, unless it polls. *)
Lemma GET_handle route r : r.(r_Method) = MethodGet ->
  steps (via (dbrel (@eq DB))) (handle route r)
  \/ (route = RWorkerSubroutes /\ exists id, polls r.(r_Path) id).
Proof.
  intros Hm.
  assert (Hpost : is_method MethodPost r = false) by by apply is_method_GET.
  assert (Hput : is_method MethodPut r = false) by by apply is_method_GET.
  assert (Hdel : is_method MethodDelete r = false) by by apply is_method_GET.
  destruct (decide (route = RWorkerSubroutes)) as [->|Hne].
  { cbn [handle]. unfold handleWorkerSubroutes, polls.
    destruct (Split _ _) as [|id [|sub [|]]]; [left; via_tac|left; via_tac| |left; via_tac].
    destruct (String.eqb_spec sub "assignments") as [->|]; [right; eauto|left; via_tac]. }
  left. destruct route; cbn [handle]; try done;
    unfold handleHealthz, handlePrometheusMetrics, handleRegisterNode, handleNodeSubroutes,
      handleDeployments, handleDeploymentByID, handleAutoscalers, handleAutoscalerByID,
      handleDeploymentMetrics, handleNodeHealthTrends, handleCluster,
      handleWorkloadSubroutes, handleServices, handleServiceSubroutes, handleNamespaces,
      handleQuotas, handleSecrets, handlePersistentVolumes, handlePersistentVolumeClaims,
      handleNetworkPolicies, handleJobs, handleCronJobs, handleRoleBindings, handleRecoveryRun,
      handleDNSResolve, handleDNSSidecarResolve, handleNetworkServiceSubroutes, handleEvents,
      handleEventStream, collection, require_method; rewrite ?Hpost, ?Hput, ?Hdel; cbn [negb];
    via_tac; first [apply same_db_SelectServiceEndpoint|apply same_db_release
                   |apply same_db_SubscribeEvents|apply same_db_traffic].
Qed.

Lemma poll_handle `{!BadgerLaws Blob DB} r id : polls r.(r_Path) id ->
  steps (via (dbrel (only (DB := DB) [keyAssignmentPrefix id]))) (handleWorkerSubroutes r).
Proof.
  intros Hp. unfold handleWorkerSubroutes. rewrite Hp. via_tac. apply only_PollAssignments.
Qed.

Lemma quiet_same_db s s' : quiet s s' -> w_db s'.(s_orch) = w_db s.(s_orch).
Proof. by intros [[n ->] _]. Qed.

(** C10: viewers read.  A request whose principal, with all its role bindings,
    holds neither the role operator nor admin leaves the whole database as it
    is, for every method and path, with one exception that the server allows
    to viewers: polling the assignments of a node, which removes assignments
    of that node and nothing else. *)
Theorem viewer_read_only `{!BadgerLaws Blob DB} r s :
  (forall p, identified (versioned r) s p -> only_viewer p) ->
  let db := w_db s.(s_orch) in
  let db' := w_db (serve r s).2.(s_orch) in
  db' = db
  \/ exists id, polls (api_path r.(r_Path)) id
       /\ forall k, HasPrefix k (keyAssignmentPrefix id) = false -> db_get db' k = db_get db k.
Proof.
  intros Hv db db'. subst db db'.
  destruct (serve_decompose r s) as [[Hq _]|(p & s1 & Hid & Ha & Hq1 & Hq2)]; [left; by apply quiet_same_db|].
  apply (only_viewer_GET _ _ _ (Hv p Hid)) in Ha.
  rewrite (quiet_same_db _ _ Hq2), <- (quiet_same_db _ _ Hq1).
  set (r' := versioned r <| r_principal := Some p |>). unfold mux.
  destruct (findHandler _ _) as [route|path|].
  - destruct (GET_handle route r' Ha) as [H|(-> & id & Hp)]; [left; symmetry; apply H|right].
    exists id. split; [exact Hp|]. intros k Hk. apply (poll_handle r' id Hp s1). cbn [existsb].
    by rewrite Hk.
  - left. symmetry. apply (via_redirect (dbrel eq)).
  - left. symmetry. apply (via_not_found (dbrel eq)).
Qed.

End Guard.
