(* ===== verification/HttpMeaning.v ===== *)
(** * What a request may do

    The meaning of the HTTP interface: a table that gives for a method and the
    segments of a path the one command of the orchestrator that the request
    asks for, with the arguments that its path, query and decoded body name,
    provided that the body passes its validation.  The server does to the
    database what that command does, under a principal that is authorized, or
    refuses the request. *)

From Stdlib Require Import Ascii String.
From Corelib Require Import SpecFloat.
From S2P Require Import Prelude GoLang GoText GoFloat GoSort GoTime Effects Model Scheduler Badger.
From S2P Require Import Balancer World Store StoreFacts StoreTheorems Events Secrets Rollout.
From S2P Require Import Placement Reconcile ReconcileFacts Deployments Nodes Services Autoscaler.
From S2P Require Import RBAC Volumes Lease Jobs Control Invariant Machine Metrics Validation Auth.
From S2P Require Import Http Handlers HttpFacts HttpTheorems.

(** ** The table *)

(** A segment of a path: a literal, or a name. *)
Inductive Seg : Type := Lit (s : string) | Var.

(** The names in a path that fits a pattern of the same length. *)
Fixpoint fits (pattern : list Seg) (segs : list string) : option (list string) :=
  match pattern, segs with
  | [], [] => Some []
  | Lit s :: pattern', x :: segs' => if String.eqb x s then fits pattern' segs' else None
  | Var :: pattern', x :: segs' => names ← fits pattern' segs'; Some (x :: names)
  | _, _ => None
  end.

(** A decoded value that passes a check. *)
Definition accepted {A} (x : Res A) (check : A -> bool) : option A :=
  match x with Ok a => if check a then Some a else None | Err _ => None end.

Definition unchecked {A} (_ : A) : bool := true.

Section Meaning.
Context {HE : HttpEnv}.

Record Entry : Type := MkEntry {
  entry_method : string;
  entry_pattern : list Seg;
  (** of the names in the path, the body and the query *)
  entry_command : list string -> string -> string -> option Command
}.

(** A value is created from the body of the request. *)
Definition creates (pattern : list Seg) {A} (decode : string -> Res A) (check : A -> bool)
    (command : A -> Command) : Entry :=
  MkEntry MethodPost pattern (fun _ body _ => a ← accepted (decode body) check; Some (command a)).

(** A name that is not blank. *)
Definition named (id : string) (c : option Command) : option Command := if blank id then None else c.

(** An operation on the object that the path names. *)
Definition acts (method : string) (pattern : list Seg) (command : string -> string -> option Command) : Entry :=
  MkEntry method pattern (fun names body _ => match names with [id] => command id body | _ => None end).

(** The paths below [/v1/] that change the database. *)
Definition api_table : list Entry := [
  creates [Lit "nodes"; Lit "register"] decode_Node (fun x => is_ok (validateNode x)) CmdRegisterNode;
  acts MethodPost [Lit "nodes"; Var; Lit "drain"] (fun id _ => Some (CmdDrainNode id));
  acts MethodPost [Lit "nodes"; Var; Lit "remove"] (fun id _ => Some (CmdRemoveNode id));
  acts MethodPost [Lit "nodes"; Var; Lit "heartbeat"] (fun id body =>
    used ← accepted (decode_Used body) unchecked; Some (CmdHeartbeatNode id used));
  creates [Lit "deployments"] decode_DeploymentSpec (fun x => is_ok (validateDeploymentSpec x))
    CmdCreateDeployment;
  acts MethodPut [Lit "deployments"; Var] (fun id body => named id (
    spec ← accepted (decode_DeploymentSpec body) (fun x => is_ok (validateDeploymentSpec x));
    Some (CmdUpdateDeployment id spec)));
  acts MethodDelete [Lit "deployments"; Var] (fun id _ => named id (Some (CmdDeleteDeployment id)));
  acts MethodPost [Lit "deployments"; Var; Lit "rollback"] (fun id body =>
    named id (Some (CmdRollbackDeployment id (decode_Revision body))));
  creates [Lit "autoscalers"] decode_AutoscalerPolicy (fun x => is_ok (validateAutoscalerPolicy x))
    CmdUpsertAutoscalerPolicy;
  acts MethodDelete [Lit "autoscalers"; Var] (fun id _ =>
    named id (Some (CmdDeleteAutoscalerPolicy id)));
  creates [Lit "metrics"; Lit "deployments"] decode_DeploymentMetricSample
    (fun x => is_ok (validateDeploymentMetricSample x)) CmdIngestDeploymentMetric;
  MkEntry MethodGet [Lit "workers"; Var; Lit "assignments"] (fun names _ query =>
    match names with
    | [id] => Some (CmdPollAssignments id (positive_or 10 (query_Get (ParseQuery query) "max")))
    | _ => None
    end);
  acts MethodPost [Lit "workloads"; Var; Lit "status"] (fun id body =>
    report ← accepted (decode_StatusReport body) unchecked;
    Some (CmdReportWorkloadStatus id report.1 report.2));
  creates [Lit "services"] decode_ServiceSpec (fun x => is_ok (validateServiceSpec x)) CmdCreateService;
  creates [Lit "namespaces"] decode_Namespace (fun x => negb (blank x.(Namespace_Name))) CmdCreateNamespace;
  creates [Lit "quotas"] decode_NamespaceQuota (fun x => negb (blank x.(NamespaceQuota_Namespace)))
    CmdUpsertNamespaceQuota;
  creates [Lit "secrets"] decode_Secret (fun x => negb (blank x.(Secret_Name))) CmdUpsertSecret;
  creates [Lit "persistent-volumes"] decode_PersistentVolume unchecked CmdUpsertPersistentVolume;
  creates [Lit "persistent-volume-claims"] decode_PersistentVolumeClaim unchecked
    CmdUpsertPersistentVolumeClaim;
  creates [Lit "network-policies"] decode_NetworkPolicy unchecked CmdUpsertNetworkPolicy;
  creates [Lit "jobs"] decode_Job unchecked CmdUpsertJob;
  creates [Lit "cronjobs"] decode_CronJob unchecked CmdUpsertCronJob;
  creates [Lit "rbac"; Lit "rolebindings"] decode_RoleBinding unchecked CmdUpsertRoleBinding;
  MkEntry MethodPost [Lit "recovery"; Lit "run"] (fun _ _ _ => Some CmdRecoverCluster)].

Fixpoint find_entry (table : list Entry) (method : string) (segs : list string) (body query : string)
    : option Command :=
  match table with
  | [] => None
  | e :: table' =>
      if Nat.eqb (length e.(entry_pattern)) (length segs) then
        match fits e.(entry_pattern) segs with
        | Some names =>
            if String.eqb method e.(entry_method) then e.(entry_command) names body query
            else find_entry table' method segs body query
        | None => find_entry table' method segs body query
        end
      else find_entry table' method segs body query
  end.

Definition meaning_at (method : string) (segs : list string) (body query : string) : option Command :=
  match segs with
  | root :: v1 :: segs' =>
      if String.eqb root "" && String.eqb v1 "v1" then find_entry api_table method segs' body query else None
  | _ => None
  end.

(** The command that a request asks for, if it asks for one; the path has no
    empty segments or dots, on which [net/http] redirects. *)
Definition meaning_of (r : Request) : option Command :=
  meaning_at r.(r_Method) (Split r.(r_Path) "/") r.(r_Body) r.(r_RawQuery).

Definition meaning (r : Request) : option Command :=
  if String.eqb (cleanPath r.(r_Path)) r.(r_Path) then meaning_of r else None.

End Meaning.

(** ** Handlers *)

Section Performs.
Context {DB : Type} `{!Badger Blob DB} {E : Env} {J : JWT} {AE : AuthEnv} {HE : HttpEnv}.
Implicit Types (w : World DB) (s : HTTPServer DB).

(** The database is as the command leaves it, at some later tick; without a
    command it is as it was. *)
Definition does (c : option Command) s s' : Prop :=
  match c with
  | Some c => exists w, idle s.(s_orch) w /\ w_db s'.(s_orch) = w_db (run_command c w).2
  | None => w_db s'.(s_orch) = w_db s.(s_orch)
  end.

Definition performs (c : option Command) (m : M (HTTPServer DB) unit) : Prop := forall s, does c s (m s).2.

Abbreviation same := (via (dbrel (@eq DB))).

Lemma performs_same m : steps same m -> performs None m.
Proof. intros H s. symmetry. apply H. Qed.

Lemma performs_error st code msg d : performs None (writeAPIError st code msg d).
Proof. apply performs_same, via_writeAPIError, _. Qed.

(** A call of the orchestrator, then an answer. *)
Lemma performs_call {A} c (m : M (World DB) A) (k : Res A -> M (HTTPServer DB) unit) :
  (forall w, (run_command c w).2 = (m w).2) -> (forall a, steps same (k a)) ->
  performs (Some c) (call m ≫= k).
Proof.
  intros Hc Hk s. exists s.(s_orch). split; [done|]. rewrite Hc.
  assert (Hcall : s_orch (call m s).2 = (m (s_orch s)).2).
  { unfold call, unless_panic, mbind, M_bind, attempt, orch. by destruct (m (s_orch s)) as [[|[]] w]. }
  rewrite <- Hcall. unfold mbind, M_bind. destruct (call m s) as [[a|e] s1]; [|done]. symmetry. apply Hk.
Qed.

Lemma performs_on_success {A} c (m : M (World DB) A) st code msg k :
  (forall w, (run_command c w).2 = (m w).2) -> (forall a, steps same (k a)) ->
  performs (Some c) (on_success m st code msg k).
Proof.
  intros Hc Hk. apply performs_call; [done|]. intros [a|e]; [apply Hk|apply via_writeAPIError, _].
Qed.

Lemma performs_on_success_or_404 {A} c (m : M (World DB) A) c1 m1 d1 st code msg k :
  (forall w, (run_command c w).2 = (m w).2) -> (forall a, steps same (k a)) ->
  performs (Some c) (on_success_or_404 m c1 m1 d1 st code msg k).
Proof.
  intros Hc Hk. apply performs_call; [done|]. intros [a|e]; [apply Hk|].
  destruct (is_not_found e); apply via_writeAPIError, _.
Qed.

(** A handler decodes the body and goes on when the value is accepted. *)
Lemma performs_decoded {A} (x : Res A) check (command : A -> Command) k :
  (forall a, check a = true -> performs (Some (command a)) (k a)) ->
  (forall a, check a = false -> performs None (k a)) ->
  performs (a ← accepted x check; Some (command a)) (decoded x k).
Proof.
  intros H1 H2. destruct x as [a|e]; cbn [decoded accepted]; [|apply performs_error].
  destruct (check a) eqn:Hc; [by apply H1|by apply H2].
Qed.

(** The check is a validation, a required name, or none. *)
Lemma performs_validated {A} (x : Res A) validate msg (command : A -> Command) k :
  (forall a, performs (Some (command a)) (k a)) ->
  performs (a ← accepted x (fun a => is_ok (validate a)); Some (command a))
    (decoded x (fun a => validated (validate a) msg (k a))).
Proof.
  intros H. apply performs_decoded; intros a Ha.
  - destruct (validate a); [apply H|done].
  - destruct (validate a); [done|apply performs_error].
Qed.

Lemma performs_named {A} (x : Res A) (name : A -> string) code msg d (command : A -> Command) k :
  (forall a, performs (Some (command a)) (k a)) ->
  performs (a ← accepted x (fun a => negb (blank (name a))); Some (command a))
    (decoded x (fun a => if blank (name a) then writeAPIError 400 code msg d else k a)).
Proof.
  intros H. apply performs_decoded; intros a Ha.
  - destruct (blank (name a)); [done|apply H].
  - destruct (blank (name a)); [apply performs_error|done].
Qed.

Lemma performs_unchecked {A} (x : Res A) (command : A -> Command) k :
  (forall a, performs (Some (command a)) (k a)) ->
  performs (a ← accepted x unchecked; Some (command a)) (decoded x k).
Proof. intros H. by apply performs_decoded. Qed.

(** Only the method of the request gets further. *)
Lemma performs_method c m d r k :
  performs c k ->
  performs (if String.eqb r.(r_Method) m then c else None) (require_method m d r k).
Proof.
  intros H. unfold require_method, is_method. destruct (String.eqb _ _); [done|apply performs_error].
Qed.

Lemma performs_collection c r post get :
  performs c post -> steps same get ->
  performs (if String.eqb r.(r_Method) MethodPost then c else None) (collection r post get).
Proof.
  intros Hp Hg. unfold collection, is_method. destruct (String.eqb _ _); [done|].
  apply performs_same. via_tac.
Qed.

(** ** Routes *)

(** A route that is reached has a pattern that matches. *)
Lemma match_route_in path e : match_route path = Some e -> e ∈ routes /\ matches e.1 path = true.
Proof.
  unfold match_route. set (l := List.filter _ routes). intros H.
  assert (Hin : forall l b, foldl longer b l = Some e -> b = Some e \/ e ∈ l).
  { clear. induction l as [|x l IH]; intros b H; cbn [foldl] in H; [by left|].
    apply IH in H as [H|H]; [|right; by right]. destruct b as [b|]; cbn [longer] in H.
    - destruct (Nat.ltb _ _); injection H as <-; [right; left|by left].
    - injection H as <-. right. left. }
  apply Hin in H as [H|H]; [done|]. apply list_elem_of_In, List.filter_In in H as [H1 H2].
  by split; [apply list_elem_of_In|].
Qed.

(** A handler is reached by a path that is not redirected, through one of the
    patterns of its route. *)
Lemma findHandler_route method path route : findHandler method path = ToRoute route ->
  (method = "CONNECT" \/ cleanPath path = path)
  /\ exists pattern, (pattern, route) ∈ routes /\ matches pattern path = true.
Proof.
  unfold findHandler. cbv zeta.
  set (cleaned := if String.eqb method "CONNECT" then path else cleanPath path).
  destruct (_ && _); [done|]. destruct (String.eqb_spec cleaned path) as [Hc|]; [|done]. cbn [negb].
  destruct (match_route cleaned) as [[pat rt]|] eqn:Hm; [|done]. intros [= ->]. rewrite Hc in Hm.
  split; [|exists pat; by apply match_route_in in Hm]. subst cleaned.
  destruct (String.eqb_spec method "CONNECT"); auto.
Qed.

Lemma findHandler_pattern method path route pattern :
  List.filter (fun e => bool_decide (e.2 = route)) routes = [(pattern, route)] ->
  findHandler method path = ToRoute route -> matches pattern path = true.
Proof.
  intros Hone (_ & pat & Hin & Hmatch)%findHandler_route.
  assert (Hf : (pat, route) ∈ [(pattern, route)]).
  { rewrite <- Hone. apply list_elem_of_In, List.filter_In. split; [by apply list_elem_of_In|].
    by apply bool_decide_eq_true. }
  apply list_elem_of_singleton in Hf. by injection Hf as ->.
Qed.

Lemma matches_exact pattern path : HasSuffix pattern "/" = false -> matches pattern path = true -> path = pattern.
Proof. unfold matches. intros ->. apply String.eqb_eq. Qed.

Lemma matches_below pattern path : HasSuffix pattern "/" = true -> matches pattern path = true ->
  exists rest, path = pattern +:+ rest.
Proof. unfold matches. intros ->. apply HasPrefix_spec. Qed.

(** The segments of a path below a pattern. *)
Lemma Split_below base rest : Split (base +:+ "/" +:+ rest) "/" = Split base "/" ++ Split rest "/".
Proof. apply (Split_app base rest "/"). Qed.

(** ** The handlers *)

(** The state after a command is that after the operation. *)
Ltac same_state := intros w; [> reflexivity || apply discard_state].

(** A call and its answer. *)
Ltac performs_command :=
  intros; first [apply performs_on_success | apply performs_on_success_or_404]; [same_state|via_tac].

(** What a path without names means. *)
Ltac at_path := match goal with Hp : r_Path _ = _ |- _ => unfold meaning_of; rewrite Hp end.

(** A collection with a POST. *)
Ltac performs_post lem := intros Hp; at_path; apply performs_collection; [lem; performs_command | via_tac].

Lemma performs_register r : r.(r_Path) = "/v1/nodes/register" -> performs (meaning_of r) (handleRegisterNode r).
Proof.
  intros Hp. at_path. apply performs_method.
  apply (performs_validated (decode_Node (r_Body r)) validateNode _ CmdRegisterNode). performs_command.
Qed.

Lemma performs_metrics r : r.(r_Path) = "/v1/metrics/deployments" ->
  performs (meaning_of r) (handleDeploymentMetrics r).
Proof.
  intros Hp. at_path. apply performs_method.
  apply (performs_validated (decode_DeploymentMetricSample (r_Body r)) validateDeploymentMetricSample _
    CmdIngestDeploymentMetric). performs_command.
Qed.

Lemma performs_recovery r : r.(r_Path) = "/v1/recovery/run" -> performs (meaning_of r) (handleRecoveryRun r).
Proof.
  intros Hp. at_path. apply performs_method.
  apply (performs_on_success CmdRecoverCluster); [same_state|via_tac].
Qed.

Lemma performs_deployments r : r.(r_Path) = "/v1/deployments" -> performs (meaning_of r) (handleDeployments r).
Proof.
  performs_post ltac:(apply (performs_validated (decode_DeploymentSpec (r_Body r)) validateDeploymentSpec _
    CmdCreateDeployment)).
Qed.

Lemma performs_autoscalers r : r.(r_Path) = "/v1/autoscalers" -> performs (meaning_of r) (handleAutoscalers r).
Proof.
  performs_post ltac:(apply (performs_validated (decode_AutoscalerPolicy (r_Body r)) validateAutoscalerPolicy _
    CmdUpsertAutoscalerPolicy)).
Qed.

Lemma performs_services r : r.(r_Path) = "/v1/services" -> performs (meaning_of r) (handleServices r).
Proof.
  performs_post ltac:(apply (performs_validated (decode_ServiceSpec (r_Body r)) validateServiceSpec _
    CmdCreateService)).
Qed.

Lemma performs_namespaces r : r.(r_Path) = "/v1/namespaces" -> performs (meaning_of r) (handleNamespaces r).
Proof.
  performs_post ltac:(apply (performs_named (decode_Namespace (r_Body r)) Namespace_Name _ _ _
    CmdCreateNamespace)).
Qed.

Lemma performs_quotas r : r.(r_Path) = "/v1/quotas" -> performs (meaning_of r) (handleQuotas r).
Proof.
  performs_post ltac:(apply (performs_named (decode_NamespaceQuota (r_Body r))
    NamespaceQuota_Namespace _ _ _ CmdUpsertNamespaceQuota)).
Qed.

Lemma performs_secrets r : r.(r_Path) = "/v1/secrets" -> performs (meaning_of r) (handleSecrets r).
Proof.
  performs_post ltac:(apply (performs_named (decode_Secret (r_Body r)) Secret_Name _ _ _
    CmdUpsertSecret)).
Qed.

Lemma performs_volumes r : r.(r_Path) = "/v1/persistent-volumes" ->
  performs (meaning_of r) (handlePersistentVolumes r).
Proof.
  performs_post ltac:(apply (performs_unchecked (decode_PersistentVolume (r_Body r))
    CmdUpsertPersistentVolume)).
Qed.

Lemma performs_claims r : r.(r_Path) = "/v1/persistent-volume-claims" ->
  performs (meaning_of r) (handlePersistentVolumeClaims r).
Proof.
  performs_post ltac:(apply (performs_unchecked (decode_PersistentVolumeClaim (r_Body r))
    CmdUpsertPersistentVolumeClaim)).
Qed.

Lemma performs_policies r : r.(r_Path) = "/v1/network-policies" ->
  performs (meaning_of r) (handleNetworkPolicies r).
Proof.
  performs_post ltac:(apply (performs_unchecked (decode_NetworkPolicy (r_Body r))
    CmdUpsertNetworkPolicy)).
Qed.

Lemma performs_jobs r : r.(r_Path) = "/v1/jobs" -> performs (meaning_of r) (handleJobs r).
Proof.
  performs_post ltac:(apply (performs_unchecked (decode_Job (r_Body r)) CmdUpsertJob)).
Qed.

Lemma performs_cronjobs r : r.(r_Path) = "/v1/cronjobs" -> performs (meaning_of r) (handleCronJobs r).
Proof.
  performs_post ltac:(apply (performs_unchecked (decode_CronJob (r_Body r)) CmdUpsertCronJob)).
Qed.

Lemma performs_bindings r : r.(r_Path) = "/v1/rbac/rolebindings" -> performs (meaning_of r) (handleRoleBindings r).
Proof.
  performs_post ltac:(apply (performs_unchecked (decode_RoleBinding (r_Body r)) CmdUpsertRoleBinding)).
Qed.

(** ** Paths with names *)

Lemma meaning_below r base rest segs : r.(r_Path) = base +:+ "/" +:+ rest -> Split rest "/" = segs ->
  meaning_of r = meaning_at r.(r_Method) (Split base "/" ++ segs) r.(r_Body) r.(r_RawQuery).
Proof. intros Hp Hs. unfold meaning_of. by rewrite Hp, Split_below, Hs. Qed.

(** An error is right when the table has no entry. *)
Lemma performs_nothing c m : c = None -> performs None m -> performs c m.
Proof. by intros ->. Qed.

Ltac no_entry := cbn; unfold named;
  repeat match goal with H : _ =@{bool} _ |- _ => rewrite H; clear H end;
  repeat case_match; done.

Ltac performs_nothing := apply performs_nothing; [no_entry|apply performs_error].

Lemma performs_nodes r rest : r.(r_Path) = "/v1/nodes/" +:+ rest -> rest <> "register" ->
  performs (meaning_of r) (handleNodeSubroutes r).
Proof.
  intros Hp Hreg. unfold handleNodeSubroutes. rewrite Hp, TrimPrefix_app.
  pose proof (Join_Split rest "/") as Hj.
  destruct (Split rest "/") as [|id [|sub [|]]] eqn:Hs; rewrite (meaning_below r "/v1/nodes" rest _ Hp Hs).
  - performs_nothing.
  - change (Join [id] "/") with (Join [id] (String "/" "")) in Hj. unfold Join in Hj. cbn in Hj.
    apply String.eqb_neq in Hreg. rewrite <- Hj in Hreg. performs_nothing.
  - destruct (String.eqb sub "drain") eqn:H1; [apply String.eqb_eq in H1 as ->|].
    { apply performs_method, (performs_on_success (CmdDrainNode id)); [same_state|via_tac]. }
    destruct (String.eqb sub "remove") eqn:H2; [apply String.eqb_eq in H2 as ->|].
    { apply performs_method, (performs_on_success (CmdRemoveNode id)); [same_state|via_tac]. }
    destruct (String.eqb sub "heartbeat") eqn:H3; [apply String.eqb_eq in H3 as ->|performs_nothing].
    apply performs_method.
    apply (performs_unchecked (decode_Used (r_Body r)) (CmdHeartbeatNode id)). performs_command.
  - performs_nothing.
Qed.

Lemma performs_deployment r rest : r.(r_Path) = "/v1/deployments/" +:+ rest ->
  performs (meaning_of r) (handleDeploymentByID r).
Proof.
  intros Hp. unfold handleDeploymentByID. rewrite Hp, TrimPrefix_app. cbv zeta.
  rewrite (meaning_below r "/v1/deployments" rest (Split rest "/") Hp eq_refl).
  pose proof (Split_not_nil rest "/") as Hne.
  destruct (Split rest "/") as [|id [|sub [|]]]; [done|..];
    change (default "" (head (?x :: _))) with x; [| |destruct (blank _); performs_nothing].
  - cbn [length Nat.eqb negb]. unfold is_method.
    destruct (blank id) eqn:Hb; [performs_nothing|].
    destruct (String.eqb (r_Method r) MethodDelete) eqn:Hd; [apply String.eqb_eq in Hd as ->|].
    { cbn. unfold named. rewrite Hb. apply (performs_on_success (CmdDeleteDeployment id)); [same_state|via_tac]. }
    destruct (String.eqb (r_Method r) MethodPut) eqn:Hu; [apply String.eqb_eq in Hu as ->|performs_nothing].
    cbn. unfold named. rewrite Hb.
    apply (performs_validated (decode_DeploymentSpec (r_Body r)) validateDeploymentSpec _
      (CmdUpdateDeployment id)). performs_command.
  - destruct (String.eqb sub "rollback") eqn:Hr;
      [apply String.eqb_eq in Hr as ->|destruct (blank id); performs_nothing].
    destruct (blank id) eqn:Hb; [performs_nothing|]. cbn. unfold named. rewrite Hb. apply performs_method.
    apply (performs_on_success (CmdRollbackDeployment id (decode_Revision (r_Body r)))); [same_state|via_tac].
Qed.

Lemma performs_autoscaler r rest : r.(r_Path) = "/v1/autoscalers/" +:+ rest ->
  performs (meaning_of r) (handleAutoscalerByID r).
Proof.
  intros Hp. unfold handleAutoscalerByID. rewrite Hp, TrimPrefix_app.
  destruct (Split rest "/") as [|id [|]] eqn:Hs; [by apply Split_not_nil in Hs|..];
    rewrite (meaning_below r "/v1/autoscalers" rest _ Hp Hs); [|performs_nothing].
  destruct (blank id) eqn:Hb; [performs_nothing|].
  cbn. unfold named. rewrite Hb.
  apply performs_method, (performs_on_success (CmdDeleteAutoscalerPolicy id)); [same_state|via_tac].
Qed.

Lemma performs_workers r rest : r.(r_Path) = "/v1/workers/" +:+ rest ->
  performs (meaning_of r) (handleWorkerSubroutes r).
Proof.
  intros Hp. unfold handleWorkerSubroutes. rewrite Hp, TrimPrefix_app.
  destruct (Split rest "/") as [|id [|sub [|]]] eqn:Hs; rewrite (meaning_below r "/v1/workers" rest _ Hp Hs);
    try performs_nothing.
  destruct (String.eqb sub "assignments") eqn:Ha; [apply String.eqb_eq in Ha as ->|].
  - apply performs_method, (performs_on_success (CmdPollAssignments id (positive_or 10 (query r "max"))));
      [same_state|via_tac].
  - apply performs_nothing; [no_entry|apply performs_same; via_tac].
Qed.

Lemma performs_workloads r rest : r.(r_Path) = "/v1/workloads/" +:+ rest ->
  performs (meaning_of r) (handleWorkloadSubroutes r).
Proof.
  intros Hp. unfold handleWorkloadSubroutes. rewrite Hp, TrimPrefix_app.
  destruct (Split rest "/") as [|id [|sub [|]]] eqn:Hs; rewrite (meaning_below r "/v1/workloads" rest _ Hp Hs);
    try performs_nothing.
  2: { apply performs_nothing; [no_entry|repeat case_match; apply performs_error]. }
  destruct (String.eqb sub "status") eqn:Ha; [apply String.eqb_eq in Ha as ->|].
  - apply performs_method.
    apply (performs_unchecked (decode_StatusReport (r_Body r)) (fun x => CmdReportWorkloadStatus id x.1 x.2)).
    intros [status cid]. apply performs_on_success; [same_state|via_tac].
  - apply performs_nothing; [no_entry|]. apply String.eqb_neq in Ha.
    repeat case_match; try apply performs_error. by destruct Ha.
Qed.

(** The names of nodes do not take the path of the registration. *)
Lemma nodes_not_register method rest :
  findHandler method ("/v1/nodes/" +:+ rest) = ToRoute RNodeSubroutes -> rest <> "register".
Proof. intros H ->. revert H. unfold findHandler. by destruct (String.eqb method "CONNECT"). Qed.

Lemma reads_below r base rest m : r.(r_Path) = base +:+ "/" +:+ rest ->
  (forall x xs, meaning_at r.(r_Method) (Split base "/" ++ x :: xs) r.(r_Body) r.(r_RawQuery) = None) ->
  steps same m -> performs (meaning_of r) m.
Proof.
  intros Hp Hnone Hm. rewrite (meaning_below r base rest _ Hp eq_refl).
  destruct (Split rest "/") as [|x xs] eqn:Hs; [by apply Split_not_nil in Hs|]. rewrite Hnone.
  by apply performs_same.
Qed.

(** The handlers that leave the database alone. *)
Ltac reads := unfold handleHealthz, handlePrometheusMetrics, handleNodeHealthTrends, handleCluster,
    handleServiceSubroutes, handleDNSResolve, handleDNSSidecarResolve, handleNetworkServiceSubroutes,
    handleEvents, handleEventStream; via_tac;
  first [apply same_db_SelectServiceEndpoint|apply same_db_release
        |apply same_db_SubscribeEvents|apply same_db_traffic].

(** The metrics have two paths. *)
Lemma performs_prometheus method r : findHandler method r.(r_Path) = ToRoute RPrometheusMetrics ->
  performs (meaning_of r) (handlePrometheusMetrics r).
Proof.
  intros (_ & pat & Hin & Hpat)%findHandler_route. apply performs_nothing; [|apply performs_same; reads].
  assert (Hf : In (pat, RPrometheusMetrics)
    (List.filter (fun e => bool_decide (e.2 = RPrometheusMetrics)) routes)).
  { apply List.filter_In. split; [by apply list_elem_of_In|]. by apply bool_decide_eq_true. }
  assert (Hl : List.filter (fun e => bool_decide (e.2 = RPrometheusMetrics)) routes
    = [("/metrics", RPrometheusMetrics); ("/v1/metrics/prometheus", RPrometheusMetrics)])
    by (vm_compute; reflexivity).
  rewrite Hl in Hf. destruct Hf as [[= <-]|[[= <-]|[]]]; (apply matches_exact in Hpat; [|reflexivity]); at_path; no_entry.
Qed.

(** Every handler does what its requests mean. *)
Lemma performs_handle method route r : findHandler method r.(r_Path) = ToRoute route ->
  performs (meaning_of r) (handle route r).
Proof.
  intros Hf. pose proof (fun pattern H => findHandler_pattern method r.(r_Path) route pattern H Hf) as Hpat.
  destruct route; cbn [handle];
    try (specialize (Hpat _ eq_refl); apply matches_exact in Hpat; [|reflexivity]);
    try (specialize (Hpat _ eq_refl); apply matches_below in Hpat as [rest Hpat]; [|reflexivity]).
  all: first [by apply performs_register | by apply performs_metrics | by apply performs_recovery
    | by apply performs_deployments | by apply performs_autoscalers | by apply performs_services
    | by apply performs_namespaces | by apply performs_quotas | by apply performs_secrets
    | by apply performs_volumes | by apply performs_claims | by apply performs_policies
    | by apply performs_jobs | by apply performs_cronjobs | by apply performs_bindings
    | by eapply performs_deployment | by eapply performs_autoscaler
    | by eapply performs_workers | by eapply performs_workloads
    | (eapply performs_nodes; [done|]; rewrite Hpat in Hf; by eapply nodes_not_register)
    | by eapply performs_prometheus
    | (apply performs_nothing; [at_path; no_entry|apply performs_same; reads])
    | (apply (reads_below r "/v1/services" rest); [done|intros x [|y [|]]; no_entry|reads])
    | (apply (reads_below r "/v1/network/services" rest); [done|intros x [|y [|]]; no_entry|reads])].
Qed.

(** ** Requests that reach no handler *)

Lemma find_entry_fits table method segs body query c : find_entry table method segs body query = Some c ->
  exists e names, In e table /\ method = e.(entry_method) /\ fits e.(entry_pattern) segs = Some names.
Proof.
  induction table as [|e table IH]; cbn; [done|]. intros H.
  assert (Hrest : find_entry table method segs body query = Some c ->
    exists e' names, (e = e' \/ In e' table) /\ method = e'.(entry_method)
      /\ fits e'.(entry_pattern) segs = Some names) by (intros (e' & names & ? & ?)%IH; eauto).
  destruct (Nat.eqb _ _); [|auto]. destruct (fits _ _) as [names|] eqn:Hfit; [|auto].
  destruct (String.eqb_spec method (entry_method e)) as [->|]; [|auto]. exists e, names. auto.
Qed.

Lemma meaning_at_some method segs body query c : meaning_at method segs body query = Some c ->
  exists segs', segs = "" :: "v1" :: segs' /\ find_entry api_table method segs' body query = Some c.
Proof.
  unfold meaning_at. generalize api_table as table. intros table.
  destruct segs as [|x [|y segs']]; [discriminate|discriminate|]. intros H.
  destruct (String.eqb_spec x "") as [->|]; [|discriminate].
  destruct (String.eqb_spec y "v1") as [->|]; [|discriminate]. by exists segs'.
Qed.

Lemma meaning_fits r c : meaning_of r = Some c -> exists e names segs, In e api_table
  /\ r.(r_Method) = e.(entry_method) /\ fits e.(entry_pattern) segs = Some names
  /\ r.(r_Path) = Join ("" :: "v1" :: segs) "/".
Proof.
  intros (segs & Hs & H)%meaning_at_some. apply find_entry_fits in H as (e & names & He & Hm & Hfit).
  exists e, names, segs. split; [exact He|]. split; [exact Hm|]. split; [exact Hfit|].
  rewrite <- Hs. symmetry. apply Join_Split.
Qed.

Lemma longer_some best e : is_Some (longer best e).
Proof. destruct best as [b|]; unfold longer; [destruct (Nat.ltb _ _)|]; by eexists. Qed.

Lemma longer_none l : foldl longer None l = None -> l = [].
Proof.
  destruct l as [|e l]; [done|]. cbn [foldl]. intros H. exfalso. revert H.
  generalize (longer_some None e). generalize (longer None e). induction l as [|x l IH]; intros b Hb H.
  - destruct Hb as [? ->]. discriminate H.
  - exact (IH _ (longer_some b x) H).
Qed.

Lemma match_route_none path pattern : match_route path = None -> registered pattern = true ->
  matches pattern path = false.
Proof.
  unfold match_route, registered. generalize routes as rs. intros rs H%longer_none He.
  apply existsb_exists in He as (e & Hin & <-%String.eqb_eq).
  destruct (matches e.1 path) eqn:Hm; [|reflexivity].
  pose proof (proj2 (List.filter_In (fun r => matches r.1 path) e rs) (conj Hin Hm)) as Hf.
  rewrite H in Hf. destruct Hf.
Qed.

(** Of a path in the table the first segments are a route. *)
Ltac fits_path Hfit :=
  cbn in Hfit;
  repeat match type of Hfit with
    | context [match ?segs with [] => _ | _ => _ end] => is_var segs; destruct segs; cbn in Hfit; try discriminate Hfit
    | context [String.eqb ?x ?y] => destruct (String.eqb_spec x y); subst; cbn in Hfit; try discriminate Hfit
    end.

Ltac find_route l :=
  match l with
  | (?p, _) :: ?l' =>
      solve [exists p; split; [reflexivity|]; first [reflexivity | apply HasPrefix_spec; by eexists]]
      || find_route l'
  end.

Lemma table_routed e names segs : In e api_table -> fits e.(entry_pattern) segs = Some names ->
  exists pattern, registered pattern = true /\ matches pattern (Join ("" :: "v1" :: segs) "/") = true.
Proof.
  intros He Hfit. unfold api_table, creates, acts in He.
  repeat destruct He as [<-|He]; try done; cbn [entry_pattern] in Hfit; fits_path Hfit;
    let l := eval unfold routes in routes in find_route l.
Qed.

Lemma redirected_no_entry method path body query : registered path = false -> registered (path +:+ "/") = true ->
  meaning_at method (Split path "/") body query = None.
Proof.
  intros Hno He. apply existsb_exists in He as (e & Hin & He%String.eqb_eq).
  assert (Hs : Split path "/" ++ [""] = Split e.1 "/") by (change [""] with (Split "" "/"); by rewrite <- Split_below, He).
  assert (Hp : path = Join (removelast (Split e.1 "/")) "/").
  { rewrite <- Hs, removelast_last. symmetry. apply Join_Split. }
  clear He. unfold routes in Hin.
  repeat destruct Hin as [<-|Hin]; try done; cbn [fst] in *; subst path;
    first [discriminate Hs | discriminate Hno | vm_compute; reflexivity].
Qed.

Lemma findHandler_clean method path : cleanPath path = path ->
  findHandler method path
  = if negb (registered path) && negb (HasSuffix path "/") && negb (String.eqb path "")
       && registered (path +:+ "/")
    then ToRedirect (path +:+ "/")
    else match match_route path with Some r => ToRoute r.2 | None => ToNotFound end.
Proof.
  intros Hc. unfold findHandler. rewrite Hc. destruct (String.eqb method "CONNECT"); cbv zeta; rewrite String.eqb_refl; reflexivity.
Qed.

Lemma meaning_of_routed r : match_route r.(r_Path) = None -> meaning_of r = None.
Proof.
  intros Hm. destruct (meaning_of r) as [c|] eqn:Hmean; [exfalso|reflexivity].
  apply meaning_fits in Hmean as (e & names & segs & He & _ & Hfit & Hp).
  apply (table_routed _ _ _ He) in Hfit as (pattern & Hreg & Hmatch).
  rewrite <- Hp, (match_route_none _ _ Hm Hreg) in Hmatch. discriminate.
Qed.

(** Where no handler is reached, the table has no entry. *)
Lemma unrouted_no_entry r :
  (forall route, findHandler r.(r_Method) r.(r_Path) <> ToRoute route) -> meaning r = None.
Proof.
  intros Hf. unfold meaning.
  destruct (String.eqb_spec (cleanPath (r_Path r)) (r_Path r)) as [Hc|]; [|reflexivity].
  rewrite (findHandler_clean _ _ Hc) in Hf. revert Hf.
  destruct (registered (r_Path r)) eqn:H1, (registered (r_Path r +:+ "/")) eqn:H2;
    rewrite ?andb_false_r; cbn [negb andb]; destruct (match_route (r_Path r)) as [e|] eqn:Hm; intros Hf;
    try exact (meaning_of_routed r Hm); try (destruct (Hf e.2); reflexivity);
    exact (redirected_no_entry _ _ _ _ H1 H2).
Qed.

Lemma connect_no_entry r : r.(r_Method) = "CONNECT" -> meaning_of r = None.
Proof.
  intros Hm. destruct (meaning_of r) as [c|] eqn:Hc; [|done].
  apply meaning_fits in Hc as (e & names & segs & He & He' & _). rewrite Hm in He'.
  unfold api_table, creates, acts in He. by repeat destruct He as [<-|He].
Qed.

Lemma performs_mux r : performs (meaning r) (mux handle r).
Proof.
  unfold mux. destruct (findHandler _ _) as [route|path|] eqn:Hf.
  - replace (meaning r) with (meaning_of r); [by eapply performs_handle|].
    apply findHandler_route in Hf as [[Hm|Hc] _]; unfold meaning.
    + by destruct (String.eqb _ _); [|apply connect_no_entry].
    + by rewrite Hc, String.eqb_refl.
  - rewrite unrouted_no_entry by by rewrite Hf. apply performs_same, via_redirect, _.
  - rewrite unrouted_no_entry by by rewrite Hf. apply performs_same, via_not_found, _.
Qed.

(** C8: the HTTP interface does what its table says.  Whatever a request holds
    and whatever the database, the token service and the upstreams answer, one
    of two things happens.  Either the request is refused (with status 400,
    401 or 403, or by a panic of the middlewares) or asks for one of the open
    paths, and the database stays as it was.  Or it carries a token of a
    principal that is authorized for its method and path, and the database
    becomes exactly what one command of the orchestrator makes of it: the
    command that [meaning] gives for the method and the path (below [/v1/], or
    [/api/v1/]), with the arguments that the path, the query and the validated
    body name; if the table has no entry for the request, or the body is not
    accepted, the database stays as it was. *)
Theorem serve_meaning r s :
  let db := w_db s.(s_orch) in
  let db' := w_db (serve r s).2.(s_orch) in
  (db' = db /\ (is_open (api_path r.(r_Path)) = true \/ denied (serve r s)))
  \/ exists p, identified (versioned r) s p
       /\ isAuthorized p r.(r_Method) (api_path r.(r_Path)) = true
       /\ match meaning (versioned r) with
          | Some c => exists w, idle s.(s_orch) w /\ db' = w_db (run_command c w).2
          | None => db' = db
          end.
Proof.
  intros db db'. subst db db'.
  destruct (serve_decompose r s) as [[Hq Hd]|(p & s1 & Hid & Ha & Hq1 & Hq2)].
  { left. split; [by apply quiet_same_db|exact Hd]. }
  right. exists p. split; [exact Hid|]. split; [exact Ha|].
  rewrite (quiet_same_db _ _ Hq2). pose proof (performs_mux (versioned r <| r_principal := Some p |>) s1) as Hdo.
  change (meaning (versioned r <| r_principal := Some p |>)) with (meaning (versioned r)) in Hdo.
  destruct (meaning _) as [c|]; cbn [does] in Hdo.
  - destruct Hdo as (w & Hw & ->). exists w. split; [|done]. etrans; [apply Hq1|exact Hw].
  - rewrite Hdo. by apply quiet_same_db.
Qed.

End Performs.
