(* ===== verification/HttpAnswers.v ===== *)
(** * Every request is answered

    A handler runs to its end without a panic: it has then written a status or
    opened an event stream.  The conditions are those under which the Go code
    cannot panic: the environment of [CalmEnv], role bindings that do not
    inherit from themselves, cursors of the balancer in range, and a limit of a
    poll for which a slice can be made. *)

From Stdlib Require Import Ascii String.
From Corelib Require Import SpecFloat.
From S2P Require Import Prelude GoLang GoText GoFloat Effects Model Scheduler Badger Balancer World.
From S2P Require Import Store StoreFacts Events Deployments Nodes Services Autoscaler RBAC Volumes.
From S2P Require Import Jobs Control.
From S2P Require Import Metrics Validation Auth Http Handlers HttpFacts HttpTheorems Panics.

(** The response has a status, or is the one of an open stream. *)
Definition answered {DB} (s : HTTPServer DB) : Prop :=
  is_Some s.(s_w).(rw_status) \/ exists ch, s.(s_streams) !! ch = Some s.(s_w).

Section Answers.
Context {DB : Type} `{!Badger Blob DB} {E : Env} `{!CalmEnv E} {J : JWT} {AE : AuthEnv} {HE : HttpEnv}.
Implicit Types (s : HTTPServer DB).

Abbreviation HIO := (M (HTTPServer DB)).

Definition steady s : Prop := cursors_ok s.(s_orch).(w_balance).

Definition ready s : Prop := selectable s.(s_orch).

(** From a state in [P] the computation ends without a panic, in [Q]. *)
Definition runs {A} (P Q : HTTPServer DB -> Prop) (m : HIO A) : Prop :=
  forall s, P s -> exists a s', m s = (Ok a, s') /\ Q s'.

Abbreviation calm := (runs steady steady).

(** From a state in [P] the handler ends and has answered. *)
Definition answers_from (P : HTTPServer DB -> Prop) (m : HIO unit) : Prop :=
  runs P (fun s => answered s /\ steady s) m.

Abbreviation answers := (answers_from steady).

Lemma ready_steady s : ready s -> steady s.
Proof. by intros []. Qed.

Lemma answers_ready m : answers m -> answers_from ready m.
Proof. intros H s Hs. by apply H, ready_steady. Qed.

Lemma runs_bind {A B} P Q R (m : HIO A) (k : A -> HIO B) :
  runs P Q m -> (forall a, runs Q R (k a)) -> runs P R (m ≫= k).
Proof.
  intros Hm Hk s Hs. destruct (Hm s Hs) as (a & s1 & E1 & H1). unfold mbind, M_bind. rewrite E1.
  by apply Hk.
Qed.

Lemma runs_weaken {A} P (Q R : HTTPServer DB -> Prop) (m : HIO A) :
  runs P Q m -> (forall s, Q s -> R s) -> runs P R m.
Proof. intros Hm H s Hs. destruct (Hm s Hs) as (a & s1 & E1 & H1). exists a, s1. auto. Qed.

Lemma answers_bind {A} P Q (m : HIO A) k :
  runs P Q m -> (forall a, answers_from Q (k a)) -> answers_from P (m ≫= k).
Proof. apply runs_bind. Qed.

Lemma runs_ret {A} P (a : A) : runs P P (mret a).
Proof. intros s Hs. by eexists _, _. Qed.

Lemma runs_get P : runs P P (get_state : HIO (HTTPServer DB)).
Proof. intros s Hs. by eexists _, _. Qed.

Lemma calm_modify f : (forall s, s_orch (f s) = s_orch s) -> calm (modify f).
Proof. intros H s Hs. eexists _, _. split; [done|]. unfold steady. by rewrite H. Qed.

Lemma runs_modify f : (forall s, s_orch (f s) = s_orch s) -> runs ready ready (modify f).
Proof. intros H s Hs. eexists _, _. split; [done|]. unfold ready. by rewrite H. Qed.

Lemma runs_ask {A} (f : nat -> A) : runs ready ready (orch (ask f)).
Proof. intros s Hs. by eexists _, _. Qed.

Lemma calm_ask {A} (f : nat -> A) : calm (orch (ask f)).
Proof. intros s Hs. by eexists _, _. Qed.

(** A call of the orchestrator. *)
Lemma run_call {A} (m : M (World DB) A) s : no_panic (m s.(s_orch)).1 ->
  call m s = (Ok (m s.(s_orch)).1, s <| s_orch := (m s.(s_orch)).2 |>).
Proof.
  intros H. unfold call, unless_panic, mbind, M_bind, attempt, orch. destruct (m s.(s_orch)) as [r w].
  by destruct r as [|[]].
Qed.

Lemma calm_call {A} (m : M (World DB) A) : panic_free m -> calm (call m).
Proof.
  intros H s Hs. destruct (H s.(s_orch)) as [Hp Hb]. rewrite run_call by done. eexists _, _.
  split; [done|]. unfold steady in *. cbn. by rewrite Hb.
Qed.

Lemma ready_call {A} (m : M (World DB) A) : selects_safely m -> runs ready ready (call m).
Proof.
  intros H s Hs. destruct (H s.(s_orch) Hs) as [Hp Hb]. rewrite run_call by done. by eexists _, _.
Qed.

(** ** Writing *)

Lemma answers_respond f : (forall w, is_Some (f w).(rw_status)) -> answers (respond f).
Proof. intros H s Hs. eexists _, _. split; [done|]. split; [left; apply H|done]. Qed.

Lemma answers_Write c : answers (respond (Write c)).
Proof. apply answers_respond. intros w. by eexists. Qed.

(** The statuses with which a response can end. *)
Definition final_status (code : Z) : bool := valid_code code && negb (informational code).

Lemma answers_WriteHeader code : final_status code = true -> answers (WriteHeader code).
Proof.
  intros H s Hs. apply andb_true_iff in H as [Hv Hi]. apply negb_true_iff in Hi.
  unfold WriteHeader, mbind, M_bind, respond, modify, get_state, set.
  cbn -[valid_code informational fmt_d]. rewrite Hv, Hi. cbn [negb].
  destruct (rw_status (s_w s)) eqn:Hst; eexists _, _; (split; [done|]); (split; [left|done]); cbn;
    rewrite ?Hst; by eexists.
Qed.

Lemma answers_writeAPIError st c m d : final_status st = true -> answers (writeAPIError st c m d).
Proof.
  intros H. unfold writeAPIError. apply (answers_bind _ steady); [by apply calm_modify|]. intros _.
  apply (answers_bind _ steady); [|intros _; apply answers_Write].
  intros s Hs. destruct (answers_WriteHeader st H s Hs) as (a & s' & E' & _ & Hs'). by exists a, s'.
Qed.

Lemma answers_writeJSON code v : final_status code = true -> answers (writeJSON code v).
Proof.
  intros H. unfold writeJSON. apply (answers_bind _ steady); [by apply calm_modify|]. intros _.
  apply (answers_bind _ steady); [|intros _; apply answers_Write].
  intros s Hs. destruct (answers_WriteHeader code H s Hs) as (a & s' & E' & _ & Hs'). by exists a, s'.
Qed.

(** A response that is only added to stays answered. *)
Lemma answers_then P m k :
  answers_from P m -> runs (fun s => answered s /\ steady s) (fun s => answered s /\ steady s) k ->
  answers_from P (m ;; k).
Proof. intros Hm Hk. eapply runs_bind; [exact Hm|]. by intros _. Qed.

Lemma answers_release P ep m : answers_from P m -> answers_from P (with_defer (release ep) m).
Proof.
  intros Hm s Hs. destruct (Hm s Hs) as ([] & s1 & E1 & Ha & Hc). unfold with_defer. rewrite E1.
  eexists _, _. split; [done|]. split; [exact Ha|]. unfold steady in *. cbn. by apply Release_cursors.
Qed.

Lemma calm_recordCircuitFailure n th o m : calm (recordCircuitFailure n th o m).
Proof.
  unfold recordCircuitFailure. eapply runs_bind; [apply runs_get|]. intros s0. cbv zeta.
  eapply runs_bind; [|intros b; by apply calm_modify].
  destruct (_ <=? _); [|apply runs_ret]. eapply runs_bind; [apply calm_ask|]. intros t. apply runs_ret.
Qed.

Lemma calm_recordCircuitSuccess n : calm (recordCircuitSuccess n).
Proof.
  unfold recordCircuitSuccess. eapply runs_bind; [apply runs_get|]. intros s. by apply calm_modify.
Qed.

(** Upstreams end their answers with a final status: not with one below 100,
    which Go's client accepts and [WriteHeader] does not. *)
Definition upstream_final : Prop := forall n url t resp,
  env_upstream n url t = Ok resp -> final_status resp.(up_StatusCode) = true.

Definition forwardable (out : ProxyOutcome) : Prop :=
  match out with ProxyResponse resp _ => final_status resp.(up_StatusCode) = true | _ => True end.

Lemma answers_proxy_loop n url t prev k : upstream_final -> forwardable prev ->
  (forall out, forwardable out -> answers (k out)) -> answers (proxy_loop n url t prev ≫= k).
Proof.
  intros Hu Hl Hk. revert prev Hl. induction n as [|n IH]; intros prev Hl; cbn [proxy_loop]; [by apply Hk|].
  destruct (env_request_error url); [by apply Hk|]. intros s Hs.
  pose proof (Hu (w_tick (s_orch s)) url t) as Hf. unfold mbind, M_bind, orch, ask.
  destruct (env_upstream _ url t) as [resp|e]; [|by apply (IH (ProxyError e))].
  destruct (_ <? _); [apply (Hk (ProxyResponse resp false))|apply (IH (ProxyResponse resp true))];
    [by apply Hf|done|by apply Hf|done].
Qed.

End Answers.

Create HintDb answers.
#[export] Hint Resolve runs_ret runs_get calm_ask calm_recordCircuitFailure calm_recordCircuitSuccess
  answers_Write : answers.
#[export] Hint Extern 1 (runs _ _ (writeAPIError _ _ _ _)) => apply answers_writeAPIError; reflexivity : answers.
#[export] Hint Extern 1 (runs _ _ (writeJSON _ _)) => apply answers_writeJSON; reflexivity : answers.
#[export] Hint Extern 1 (runs _ _ (WriteHeader _)) =>
  eapply runs_weaken; [apply answers_WriteHeader; reflexivity|intros ? [_ ?]; assumption] : answers.
#[export] Hint Extern 1 (runs _ _ (respond _)) => apply calm_modify; intros ?; reflexivity : answers.
#[export] Hint Extern 1 (runs _ _ (set_header _ _)) => apply calm_modify; intros ?; reflexivity : answers.
#[export] Hint Extern 1 (runs _ _ (audit _)) => apply calm_modify; intros ?; reflexivity : answers.
#[export] Hint Extern 1 (runs _ _ (call _)) => apply calm_call; solve [panics_unfold] : answers.

(** Walk through a handler that works from a steady state. *)
Ltac answers_tac :=
  repeat match goal with
    | |- forall _, _ => intro
    | |- answers_from _ (writeAPIError _ _ _ _) => apply answers_writeAPIError; reflexivity
    | |- answers_from _ (writeJSON _ _) => apply answers_writeJSON; reflexivity
    | |- answers_from _ (method_not_allowed _) => unfold method_not_allowed
    | |- answers_from _ (route_not_found _) => unfold route_not_found
    | |- answers_from _ (decoded _ _) => unfold decoded
    | |- answers_from _ (validated _ _ _) => unfold validated
    | |- answers_from _ (require_method _ _ _ _) => unfold require_method
    | |- answers_from _ (on_success _ _ _ _ _) => unfold on_success
    | |- answers_from _ (on_success_or_404 _ _ _ _ _ _ _ _) => unfold on_success_or_404
    | |- answers_from _ (_ ≫= _) => apply (answers_bind _ steady)
    | |- answers_from _ (with_defer (release _) _) => apply answers_release
    | |- answers_from _ (let _ := _ in _) => cbv zeta
    | |- answers_from _ (match ?x with _ => _ end) => destruct x
    | |- runs _ _ (match ?x with _ => _ end) => destruct x
    | |- _ => solve [eauto 2 with answers]
    end.

Section Handlers.
Context {DB : Type} `{!Badger Blob DB} {E : Env} `{!CalmEnv E} {J : JWT} {AE : AuthEnv} {HE : HttpEnv}.

Abbreviation HIO := (M (HTTPServer DB)).

Lemma answers_forward name retries resp closed : final_status resp.(up_StatusCode) = true ->
  answers_from steady (forward name retries resp closed : HIO unit).
Proof.
  intros Hst. unfold forward. do 3 (apply (answers_bind _ steady); [auto with answers|intros _]).
  apply answers_then; [by apply answers_WriteHeader|]. destruct (closed || _); [apply runs_ret|].
  intros s [Ha Hs]. eexists _, _. split; [done|]. split; [left; by eexists|done].
Qed.

Lemma answers_proxy_answer name retries th o out : forwardable out ->
  answers_from steady (proxy_answer name retries th o out : HIO unit).
Proof. intros Hf. destruct out; cbn [proxy_answer]; answers_tac. by apply answers_forward. Qed.

Lemma answers_check_access r svc ep k : answers_from steady k ->
  answers_from steady (check_access r svc ep k : HIO unit).
Proof. intros H. unfold check_access. answers_tac. Qed.

(** The handlers that select an endpoint need more than a steady state. *)
Lemma answers_select {A} (m : M (World DB) A) c1 m1 d1 st c2 m2 k :
  final_status st = true -> selects_safely m ->
  (forall a, answers_from steady (k a)) ->
  answers_from ready (on_success_or_404 m c1 m1 d1 st c2 m2 k : HIO unit).
Proof.
  intros Hst Hm Hk. unfold on_success_or_404. apply (answers_bind _ ready); [by apply ready_call|].
  intros [a|e]; apply answers_ready; [apply Hk|]. destruct (is_not_found e); [answers_tac|].
  by apply answers_writeAPIError.
Qed.

Lemma answers_proxy name r : upstream_final -> answers_from ready (handleProxy name r : HIO unit).
Proof.
  intros Hu. unfold handleProxy. cbv zeta. apply (answers_bind _ ready).
  { unfold circuitOpen. eapply runs_bind; [apply runs_get|]. intros s. cbv zeta.
    eapply runs_bind; [apply runs_ask|]. intros t. apply runs_ret. }
  intros [[] reason]; [apply answers_ready; answers_tac|].
  apply (answers_bind _ ready); [apply ready_call, sel_RouteServiceTraffic|]. intros res.
  apply answers_ready. destruct res as [[[[svc ep] h] port]|e]; [|answers_tac].
  apply answers_release, answers_check_access, answers_proxy_loop; [done..|].
  intros out. apply answers_proxy_answer.
Qed.

Lemma answers_connect name r : answers_from ready (handleConnect name r : HIO unit).
Proof.
  apply answers_select; [done|apply sel_RouteServiceTraffic|]. answers_tac. apply answers_check_access. answers_tac.
Qed.

Lemma answers_network r : upstream_final ->
  answers_from ready (handleNetworkServiceSubroutes r : HIO unit).
Proof.
  intros Hu. pose proof (fun m => answers_ready (DB := DB) m) as Hr.
  unfold handleNetworkServiceSubroutes, require_method.
  repeat case_match; try apply answers_connect; try (by apply answers_proxy); apply Hr; answers_tac.
Qed.

Lemma answers_service r : answers_from ready (handleServiceSubroutes r : HIO unit).
Proof.
  pose proof (fun m => answers_ready (DB := DB) m) as Hr.
  unfold handleServiceSubroutes, require_method. repeat case_match; try solve [apply Hr; answers_tac].
  apply answers_select; [done|apply sel_SelectServiceEndpoint|]. answers_tac.
Qed.

Lemma answers_stream r : answers_from steady (handleEventStream r : HIO unit).
Proof.
  unfold handleEventStream, require_method. destruct (negb _); [answers_tac|].
  apply (answers_bind _ steady); [auto with answers|]. intros s. destruct (negb _); [answers_tac|].
  do 3 (apply (answers_bind _ steady); [auto with answers|intros _]).
  intros s' Hs'. eexists _, _. split; [done|]. split; [|done].
  right. eexists. cbn. apply lookup_insert_eq.
Qed.

(** The limit of a poll is one for which a slice can be made. *)
Definition poll_fits (r : Request) : Prop :=
  forall id, polls r.(r_Path) id ->
    make_ok assignment_size (positive_or 10 (query r "max")) = true.

Lemma answers_worker r : poll_fits r -> answers_from steady (handleWorkerSubroutes r : HIO unit).
Proof.
  intros Hp. unfold poll_fits, polls in Hp. unfold handleWorkerSubroutes.
  destruct (Split _ "/") as [|id [|sub [|]]]; try solve [answers_tac].
  unfold require_method. destruct (negb _); [answers_tac|].
  destruct (String.eqb_spec sub "assignments") as [->|_]; [|answers_tac].
  specialize (Hp id eq_refl). assert (Hpos : 0 < positive_or 10 (query r "max")).
  { unfold positive_or. repeat case_match; lia. }
  assert (Hpf : panic_free (DB := DB) (PollAssignments id (positive_or 10 (query r "max")))).
  { apply pf_PollAssignments. by destruct (Z.leb_spec (positive_or 10 (query r "max")) 0); [lia|]. }
  unfold on_success. apply (answers_bind _ steady); [by apply calm_call|]. answers_tac.
Qed.

Lemma answers_handle route r : upstream_final -> poll_fits r -> answers_from ready (handle route r : HIO unit).
Proof.
  intros Hu Hp. destruct route; cbn [handle]; try (by apply answers_network); try apply answers_service;
    apply answers_ready; try apply answers_stream; try by apply answers_worker.
  all: unfold handleHealthz, handlePrometheusMetrics, handleRegisterNode, handleNodeSubroutes,
      handleDeployments, handleDeploymentByID, handleAutoscalers, handleAutoscalerByID,
      handleDeploymentMetrics, handleNodeHealthTrends, handleCluster,
      handleWorkloadSubroutes, handleServices, handleNamespaces,
      handleQuotas, handleSecrets, handlePersistentVolumes, handlePersistentVolumeClaims,
      handleNetworkPolicies, handleJobs, handleCronJobs, handleRoleBindings, handleRecoveryRun,
      handleDNSResolve, handleDNSSidecarResolve, handleEvents, collection; answers_tac.
Qed.

End Handlers.

(** ** The chain *)

Section Chain.
Context {DB : Type} `{!Badger Blob DB} {E : Env} `{!CalmEnv E} {J : JWT} {AE : AuthEnv} {HE : HttpEnv}.
Implicit Types (s : HTTPServer DB).

Abbreviation HIO := (M (HTTPServer DB)).

Lemma answers_mux r : upstream_final -> poll_fits r -> answers_from ready (mux handle r : HIO unit).
Proof.
  intros Hu Hp. unfold mux. destruct (findHandler _ _) as [route|path|]; [by apply answers_handle| |];
    apply answers_ready.
  - unfold redirect. cbv zeta. apply (answers_bind _ steady); [auto with answers|]. intros s.
    apply (answers_bind _ steady); [auto with answers|]. intros _.
    apply (answers_bind _ steady); [destruct (_ && _); auto with answers|]. intros _.
    apply answers_then; [by apply answers_WriteHeader|]. destruct (String.eqb _ _); [|apply runs_ret].
    intros s' [Ha Hs]. eexists _, _. split; [done|]. split; [left; by eexists|done].
  - unfold not_found. answers_tac.
Qed.

Lemma answers_authorization r : upstream_final -> poll_fits r ->
  answers_from ready (authorizationMiddleware (mux handle) r : HIO unit).
Proof.
  intros Hu Hp. pose proof (answers_mux r Hu Hp). unfold authorizationMiddleware.
  destruct (is_open _); [done|]. destruct (principalFromContext r); [|apply answers_ready; answers_tac].
  destruct (negb _); [|done]. apply answers_ready. answers_tac.
Qed.

Lemma answers_auditMiddleware next r :
  answers_from ready (next r) -> answers_from ready (auditMiddleware next r : HIO unit).
Proof.
  intros H. unfold auditMiddleware. destruct (negb _); [done|].
  apply (answers_bind _ ready); [by apply runs_modify|]. intros _.
  apply answers_then; [done|]. intros s Hs. unfold mbind, M_bind, get_state.
  destruct (principalFromContext r) as [p|]; [destruct (blank _)|]; by eexists _, _.
Qed.

(** The role bindings can be followed, too. *)
Definition admissible s : Prop := ready s /\ roles_fit env_stack s.(s_orch).(w_db).

Lemma runs_bind_roles r p : runs admissible ready (bind_roles r p : HIO Principal).
Proof.
  unfold bind_roles. destruct (blank _); [intros s [Hs _]; by eexists _, _|].
  eapply runs_bind; [|intros a; apply runs_ret]. intros s [Hs Hr].
  rewrite run_call by (by apply pf_EffectiveRoles). eexists _, _. split; [done|].
  eapply selectable_idle; [apply (query_EffectiveRoles idle)|exact Hs].
Qed.

(** Tokens are refused with errors, never with a panic. *)
Lemma no_panic_attempt_bind {S A B} (m : M S A) (k : Res A -> M S B) (s : S) :
  (forall r (s' : S), no_panic (k r s').1) -> no_panic ((attempt m ≫= k) s).1.
Proof. intros H. unfold mbind, M_bind, attempt. destruct (m s). apply H. Qed.

Lemma no_panic_verifyStatic v token : no_panic (verifyStatic v token).
Proof. unfold verifyStatic. by destruct (_ || _). Qed.

Lemma no_panic_verifyJWT token (s : Verifier * World DB) : no_panic (verifyJWT token s).1.
Proof.
  unfold verifyJWT. unfold mbind at 1, M_bind, the_verifier. destruct (String.eqb _ _); [done|].
  apply no_panic_attempt_bind. intros [claims|] s'; [|done]. destruct (wrong_issuer _ _); [done|].
  by destruct (_ && _).
Qed.

Lemma no_panic_verifyOIDC token (s : Verifier * World DB) : no_panic (verifyOIDC token s).1.
Proof.
  unfold verifyOIDC. unfold mbind at 1, M_bind, the_verifier. destruct (String.eqb _ _); [done|].
  apply no_panic_attempt_bind. intros [claims|] s'; [|done]. destruct (wrong_issuer _ _); [done|].
  by destruct (_ && _).
Qed.

Lemma no_panic_VerifyBearer authz (s : Verifier * World DB) : no_panic (VerifyBearer authz s).1.
Proof.
  unfold VerifyBearer. cbv zeta. destruct (negb _); [done|]. destruct (String.eqb _ ""); [done|].
  unfold mbind at 1, M_bind, the_verifier. pose proof (no_panic_verifyStatic s.1) as Hs.
  repeat (destruct (String.eqb _ _)); try done; [apply Hs|apply no_panic_verifyJWT|apply no_panic_verifyOIDC|].
  destruct (verifyStatic _ _); [done|]. apply no_panic_attempt_bind.
  intros [] s'; [done|apply no_panic_verifyOIDC].
Qed.

Lemma runs_verify authz : runs admissible admissible
  (unless_panic (verifier (VerifyBearer authz)) : HIO (Res Principal)).
Proof.
  intros s Hs. pose proof (no_panic_VerifyBearer authz (s.(s_verifier), s.(s_orch))) as Hp.
  pose proof (via2_VerifyBearer idle authz (s.(s_verifier), s.(s_orch))) as Hi. unfold via2 in Hi.
  unfold unless_panic, verifier, mbind, M_bind, attempt.
  destruct (VerifyBearer authz _) as [r [v w]]. cbn in Hp, Hi. destruct Hi as [n ->].
  destruct r as [|[]]; cbn in *; try done; by eexists _, _.
Qed.

Lemma answers_authMiddleware next r :
  (forall p, answers_from ready (next (r <| r_principal := p |>))) ->
  answers_from admissible (authMiddleware next r : HIO unit).
Proof.
  intros H. unfold authMiddleware. destruct (is_open _).
  - replace r with (r <| r_principal := r.(r_principal) |>) by (by destruct r).
    intros s [Hs _]. by apply H.
  - apply (answers_bind _ admissible); [apply runs_verify|]. intros [p|e].
    + apply (answers_bind _ ready); [apply runs_bind_roles|]. intros p'. apply H.
    + intros s [Hs _]. revert s Hs. apply (answers_ready (DB := DB)). answers_tac.
Qed.

(** C30: every request is answered.  Whatever a request holds and whatever the
    database, the token service and the upstreams answer, the server runs to
    the end of its handler without a panic, and has then written a status or
    opened an event stream.  Stored role bindings must be acyclic, the
    balancer's cursors in range, the limit of a poll one for which a slice can
    be made, and the statuses that upstreams answer the proxy with final ones
    (101, or 200 to 999: [WriteHeader] panics on a status below 100, which
    Go's client lets through); the server keeps the cursors in range. *)
Theorem serve_answers r s :
  upstream_final -> admissible s -> poll_fits (versioned r) ->
  exists s', serve r s = (Ok tt, s') /\ answered s' /\ cursors_ok s'.(s_orch).(w_balance).
Proof.
  intros Hu Hs Hp. assert (H : answers_from admissible (serve r : HIO unit)).
  { assert (Hm : forall f, (forall s, s_orch (f s) = s_orch s) -> runs admissible admissible (modify f)).
    { intros f Hf s' Hs'. eexists _, _. split; [done|]. unfold admissible, ready. by rewrite Hf. }
    unfold serve, Handler_chain, versionMiddleware, traceMiddleware.
    apply (answers_bind _ admissible); [by apply Hm|]. intros _. cbv zeta.
    destruct (_ && _); [intros s' [Hs' _]; revert s' Hs'; apply (answers_ready (DB := DB)); answers_tac|].
    apply (answers_bind _ admissible); [by apply Hm|]. intros _.
    apply (answers_bind _ admissible).
    { destruct (String.eqb _ _); [|apply runs_ret]. intros s' Hs'. by eexists _, _. }
    intros id. apply (answers_bind _ admissible); [by apply Hm|]. intros _.
    apply answers_authMiddleware. intros p. apply answers_auditMiddleware, answers_authorization; [done|]. exact Hp. }
  destruct (H s Hs) as ([] & s' & E' & Ha & Hc). by exists s'.
Qed.

End Chain.
