(* ===== verification/TrafficTheorems.v ===== *)
(** * Retries and circuit breakers

    The retry loop of the service proxy against a declarative reading of the
    upstream's answers, and the circuit breaker against the history of the
    outcomes recorded for a service. *)

From Stdlib Require Import Ascii String.
From Corelib Require Import SpecFloat.
From S2P Require Import Prelude GoLang GoText GoFloat Effects Model Scheduler Badger Balancer World.
From S2P Require Import Store Events Deployments Nodes Services Autoscaler RBAC Volumes Jobs.
From S2P Require Import Control.
From S2P Require Import Metrics Validation Auth Http Handlers HttpFacts.

(** ** Retries *)

(** An answer that ends the retries. *)
Definition final (a : Res Upstream) : bool :=
  match a with Ok resp => resp.(up_StatusCode) <? 500 | Err _ => false end.

Definition outcome_of (closed : bool) (a : Res Upstream) : ProxyOutcome :=
  match a with Ok resp => ProxyResponse resp closed | Err e => ProxyError e end.

(** What the loop makes of the answers: the first final one, else the last,
    its body closed. *)
Definition chosen (answers : list (Res Upstream)) : ProxyOutcome :=
  match List.find final answers with
  | Some a => outcome_of false a
  | None => match last answers with Some a => outcome_of true a | None => ProxyNone end
  end.

(** How many of them are asked for. *)
Fixpoint contacts (answers : list (Res Upstream)) : nat :=
  match answers with
  | [] => 0
  | a :: answers' => if final a then 1 else S (contacts answers')
  end.

Lemma contacts_le answers : (contacts answers <= length answers)%nat.
Proof. induction answers as [|a l IH]; simpl; [lia|]. destruct (final a); lia. Qed.

Section Proxy.
Context {DB : Type} `{!Badger Blob DB} {E : Env} {J : JWT} {AE : AuthEnv} {HE : HttpEnv}.
Implicit Types (s : HTTPServer DB).

(** The answers the environment holds ready from interaction [n] on. *)
Definition upstream_answers (url : string) (timeout : Duration) (n count : nat) : list (Res Upstream) :=
  (fun i => env_upstream i url timeout) <$> seq n count.

Definition advance (k : nat) s : HTTPServer DB := s <| s_orch ::= set w_tick (fun n => (n + k)%nat) |>.

Lemma advance_0 s : advance 0 s = s.
Proof. destruct s as [[] ? ? ? ? ?]. unfold advance, set. cbn. by rewrite Nat.add_0_r. Qed.

Lemma advance_advance j k s : advance k (advance j s) = advance (j + k) s.
Proof. destruct s as [[] ? ? ? ? ?]. unfold advance, set. cbn. by rewrite Nat.add_assoc. Qed.

Lemma ask_advance {A} (f : nat -> A) s : orch (ask f) s = (Ok (f s.(s_orch).(w_tick)), advance 1 s).
Proof. destruct s as [[] ? ? ? ? ?]. unfold orch, ask, advance, set. cbn. by rewrite Nat.add_1_r. Qed.

Lemma proxy_loop_run n url t prev s : env_request_error url = None ->
  proxy_loop n url t prev s
  = let answers := upstream_answers url t s.(s_orch).(w_tick) n in
    (Ok (match List.find final answers with
         | Some a => outcome_of false a
         | None => match last answers with
                   | Some a => outcome_of true a | None => prev end
         end), advance (contacts answers) s).
Proof.
  intros Hu. revert prev s. induction n as [|n IH]; intros prev s; cbn [proxy_loop].
  { cbn. by rewrite advance_0. }
  rewrite Hu. rewrite (bind_Ok _ _ _ _ _ (ask_advance _ s)). cbv zeta.
  assert (Ht : w_tick (s_orch (advance 1 s)) = S (w_tick (s_orch s))).
  { unfold advance, set. cbn. lia. }
  unfold upstream_answers. cbn [seq fmap list_fmap]. fold (upstream_answers url t (S (w_tick (s_orch s))) n).
  rewrite <- Ht. set (rest := upstream_answers url t _ n).
  assert (Hgo : forall o, outcome_of true (env_upstream (w_tick (s_orch s)) url t) = o ->
    final (env_upstream (w_tick (s_orch s)) url t) = false ->
    proxy_loop n url t o (advance 1 s)
    = (Ok (match List.find final (env_upstream (w_tick (s_orch s)) url t :: rest) with
           | Some a => outcome_of false a
           | None => match last (env_upstream (w_tick (s_orch s)) url t :: rest) with
                     | Some a => outcome_of true a | None => prev end
           end), advance (contacts (env_upstream (w_tick (s_orch s)) url t :: rest)) s)).
  { intros o Ho Hf. rewrite IH. cbv zeta. fold rest. cbn [List.find contacts]. rewrite Hf, advance_advance.
    f_equal. f_equal. destruct (List.find final rest); [done|].
    destruct rest as [|a rest']; [by rewrite <- Ho|].
    change (last (_ :: a :: rest')) with (last (a :: rest')).
    destruct (last (a :: rest')) eqn:El; [done|]. by apply last_None in El. }
  destruct (env_upstream (w_tick (s_orch s)) url t) as [resp|e] eqn:Ea; [|by apply Hgo].
  destruct (up_StatusCode resp <? 500) eqn:Hst; [|by apply Hgo].
  cbn [List.find contacts final]. by rewrite Hst.
Qed.

Lemma upstream_answers_length url t n count : length (upstream_answers url t n count) = count.
Proof. unfold upstream_answers. by rewrite length_fmap, length_seq. Qed.

Lemma WriteHeader_body code s : (WriteHeader code s).2.(s_w).(rw_body) = s.(s_w).(rw_body).
Proof.
  unfold WriteHeader, mbind, M_bind, respond, modify, get_state, set. cbn -[valid_code informational fmt_d].
  destruct (rw_status _); [done|]. destruct (negb _); [done|]. by destruct (informational _).
Qed.

Lemma forward_closed name retries resp s :
  (forward name retries resp true s).2.(s_w).(rw_body) = s.(s_w).(rw_body).
Proof.
  unfold forward, set_header, respond, modify. unfold mbind, M_bind at 1 2 3. cbn [orb]. unfold M_bind.
  match goal with |- context [WriteHeader ?c ?x] => pose proof (WriteHeader_body c x) as H;
    destruct (WriteHeader c x) as [[[]|e] s'] end; exact H.
Qed.

(** C32: the retry loop of the proxy is its reference.  Of the answers the
    upstream would give to [retries + 1] attempts the loop forwards the first
    without a server error, and asks for no answer after it; when there is
    none it forwards the last one, and does so without its body, which the
    loop has closed.  The number of attempts is at least one and at most
    [retries + 1]; only for the largest 64-bit [retries] the count overflows
    and the upstream is not asked at all. *)
Theorem proxy_loop_spec retries url t s : env_request_error url = None -> 0 < retries <= i64_max ->
  let answers := upstream_answers url t s.(s_orch).(w_tick) (attempts_of retries) in
  proxy_loop (attempts_of retries) url t ProxyNone s = (Ok (chosen answers), advance (contacts answers) s)
  /\ (forall resp name, chosen answers = ProxyResponse resp true ->
        (forward name retries resp true s).2.(s_w).(rw_body) = s.(s_w).(rw_body))
  /\ (retries < i64_max -> 1 <= Z.of_nat (contacts answers) <= retries + 1)
  /\ (retries = i64_max -> chosen answers = ProxyNone).
Proof.
  intros Hu Hr answers. split; [by apply proxy_loop_run|]. split; [intros; apply forward_closed|].
  assert (Hlen : length answers = Z.to_nat (retries +! 1)) by apply upstream_answers_length. split.
  - intros Hlt. rewrite wrap64_id in Hlen by (unfold in_i64, i64_min, i64_max in *; lia).
    pose proof (contacts_le answers). split; [|lia].
    destruct answers as [|a l]; [cbn in Hlen; lia|]. cbn [contacts]. destruct (final a); lia.
  - intros ->. assert (answers = []) as ->; [|done]. apply nil_length_inv. by rewrite Hlen.
Qed.

(** ** Circuit breakers *)

(** The outcome of a request to a service: a success, or a failure with its
    reason. *)
Definition record (name : string) (threshold openSec : Z) (out : option string) : M (HTTPServer DB) unit :=
  match out with
  | None => recordCircuitSuccess name
  | Some reason => recordCircuitFailure name threshold openSec reason
  end.

(** The outcomes recorded for a service, each with the interaction at which it
    was, on the way from one state of the server to another.  Between them the
    server may do anything that leaves the service's breaker alone. *)
Inductive history (name : string) (th o : Z) (s0 : HTTPServer DB)
    : list (nat * option string) -> HTTPServer DB -> Prop :=
| history_start : history name th o s0 [] s0
| history_other h s s' : history name th o s0 h s -> breaker name s' = breaker name s ->
    history name th o s0 h s'
| history_record h s out : history name th o s0 h s ->
    history name th o s0 (h ++ [(s.(s_orch).(w_tick), out)]) (record name th o out s).2.

(** The failures since the last success. *)
Definition streak (h : list (nat * option string)) : list (nat * string) :=
  foldl (fun l x => match x.2 with None => [] | Some reason => l ++ [(x.1, reason)] end) [] h.

(** The breaker opens at every [th]-th failure of a streak: this is the
    interaction of the last such failure. *)
Definition opening (th : Z) (l : list (nat * string)) : option nat :=
  if lenZ l <? th then None else fst <$> l !! Z.to_nat (lenZ l / th * th - 1).

(** The breaker that a streak leaves behind. *)
Definition expected_breaker (th o : Z) (l : list (nat * string)) : breakerState :=
  MkbreakerState (lenZ l mod th)
    (match opening th l with Some n => time_Add (env_now n) (seconds o) | None => 0 end)
    (match last l with Some x => x.2 | None => "" end).

Lemma streak_snoc h n out :
  streak (h ++ [(n, out)]) = match out with None => [] | Some reason => streak h ++ [(n, reason)] end.
Proof. unfold streak. by rewrite foldl_app. Qed.

Lemma mod_succ k n : 1 <= n -> 0 <= k ->
  (k mod n + 1 < n /\ (k + 1) mod n = k mod n + 1 /\ (k + 1) / n = k / n)
  \/ (k mod n + 1 = n /\ (k + 1) mod n = 0 /\ (k + 1) / n * n = k + 1).
Proof.
  intros Hn Hk. pose proof (Z.mod_pos_bound k n). pose proof (Z.div_mod k n).
  destruct (Z.lt_ge_cases (k mod n + 1) n); [left|right]; (split; [lia|]); split; symmetry.
  - apply (Z.mod_unique_pos _ _ (k / n)); lia.
  - apply (Z.div_unique_pos _ _ _ (k mod n + 1)); lia.
  - apply (Z.mod_unique_pos _ _ (k / n + 1)); lia.
  - rewrite <- (Z.div_unique_pos (k + 1) n (k / n + 1) 0); lia.
Qed.

(** A failure that does not complete another [th] leaves the opening. *)
Lemma opening_same th l x : 1 <= th -> lenZ l mod th + 1 < th -> opening th (l ++ [x]) = opening th l.
Proof.
  intros Hth Hlt. unfold opening. rewrite lenZ_app. change (lenZ [x]) with 1.
  pose proof (lenZ_nonneg l) as Hk. destruct (mod_succ (lenZ l) th) as [(_ & _ & ->)|(? & _)]; [lia..| |lia].
  destruct (Z.ltb_spec (lenZ l) th) as [Hs|Hge].
  { rewrite Z.mod_small in Hlt by lia. by destruct (Z.ltb_spec (lenZ l + 1) th); [|lia]. }
  destruct (Z.ltb_spec (lenZ l + 1) th); [lia|]. rewrite lookup_app_l; [done|].
  pose proof (Z.div_mod (lenZ l) th). pose proof (Z.mod_pos_bound (lenZ l) th).
  unfold lenZ in *. lia.
Qed.

Lemma opening_now th l x : 1 <= th -> lenZ l mod th + 1 = th -> opening th (l ++ [x]) = Some x.1.
Proof.
  intros Hth He. unfold opening. rewrite lenZ_app. change (lenZ [x]) with 1.
  pose proof (lenZ_nonneg l) as Hk.
  destruct (mod_succ (lenZ l) th) as [(? & _)|(_ & _ & ->)]; [lia..|].
  assert (th <= lenZ l + 1).
  { pose proof (Z.mod_le (lenZ l) th). lia. }
  destruct (Z.ltb_spec (lenZ l + 1) th); [lia|].
  replace (Z.to_nat _) with (length l) by (unfold lenZ; lia). by rewrite list_lookup_middle.
Qed.

Lemma expected_failure th o l n reason : 1 <= th ->
  expected_breaker th o (l ++ [(n, reason)])
  = if th <=? lenZ l mod th + 1 then MkbreakerState 0 (time_Add (env_now n) (seconds o)) reason
    else MkbreakerState (lenZ l mod th + 1) (expected_breaker th o l).(breakerState_OpenUntil) reason.
Proof.
  intros Hth. pose proof (lenZ_nonneg l) as Hk. pose proof (Z.mod_pos_bound (lenZ l) th) as Hm.
  unfold expected_breaker. rewrite last_snoc, lenZ_app. change (lenZ [_]) with 1.
  destruct (mod_succ (lenZ l) th) as [(Hlt & -> & _)|(Heq & -> & _)]; [lia..| |];
    [rewrite opening_same by lia|rewrite opening_now by lia];
    by (destruct (Z.leb_spec th (lenZ l mod th + 1)); [try lia|try lia]).
Qed.

Lemma record_failure name th o reason l s : 1 <= th <= i64_max ->
  breaker name s = expected_breaker th o l ->
  breaker name (recordCircuitFailure name th o reason s).2
  = expected_breaker th o (l ++ [(s.(s_orch).(w_tick), reason)]).
Proof.
  intros Hth Hb. rewrite expected_failure by lia. unfold recordCircuitFailure, mbind, M_bind, get_state.
  rewrite Hb. pose proof (Z.mod_pos_bound (lenZ l) th) as Hm.
  assert (Hcnt : lenZ l mod th +! 1 = lenZ l mod th + 1).
  { apply wrap64_id. unfold in_i64, i64_min, i64_max in *. lia. }
  unfold set. cbn -[wrap64 opening]. rewrite Hcnt.
  destruct (_ <=? _); cbn -[wrap64 opening]; unfold breaker; cbn -[wrap64 opening];
    by rewrite lookup_insert_eq.
Qed.

Lemma record_success name th o s : 1 <= th ->
  breaker name (recordCircuitSuccess name s).2 = expected_breaker th o [].
Proof.
  intros Hth. unfold recordCircuitSuccess, mbind, M_bind, get_state. cbn. unfold breaker, set. cbn.
  rewrite lookup_insert_eq. cbn. unfold expected_breaker, opening. change (lenZ []) with 0.
  destruct (Z.ltb_spec 0 th); [|lia]. by rewrite Z.mod_0_l by lia.
Qed.

Lemma record_others name th o out s name' : name' <> name ->
  breaker name' (record name th o out s).2 = breaker name' s.
Proof.
  intros Hne. unfold record, recordCircuitSuccess, recordCircuitFailure, mbind, M_bind, get_state.
  destruct out; [destruct (_ <=? _)|]; cbn; unfold breaker, set; cbn; by rewrite lookup_insert_ne.
Qed.

Lemma history_breaker name th o s0 h s : 1 <= th <= i64_max -> breaker name s0 = zero_breaker ->
  history name th o s0 h s -> breaker name s = expected_breaker th o (streak h).
Proof.
  intros Hth H0. induction 1 as [|h s s' _ IH Hs|h s out _ IH].
  - rewrite H0. unfold expected_breaker, opening. change (lenZ (streak [])) with 0.
    destruct (Z.ltb_spec 0 th); [|lia]. by rewrite Z.mod_0_l by lia.
  - by rewrite Hs.
  - rewrite streak_snoc. destruct out as [reason|]; cbn [record];
      [by apply record_failure|apply record_success; lia].
Qed.

Lemma circuitOpen_run name s :
  circuitOpen name s
  = (Ok (if After (breaker name s).(breakerState_OpenUntil) (env_now s.(s_orch).(w_tick))
         then (true, (breaker name s).(breakerState_LastReason)) else (false, "")), advance 1 s).
Proof.
  unfold circuitOpen. unfold mbind at 1, M_bind at 1, get_state. cbv zeta.
  rewrite (bind_Ok (orch now) _ _ _ _ (ask_advance env_now s)). by destruct (After _ _).
Qed.

(** *** Requests and their outcomes *)

Definition same_breakers : relation (HTTPServer DB) := fun s s' => s'.(s_breakers) = s.(s_breakers).

#[local] Instance same_breakers_PreOrder : PreOrder same_breakers.
Proof. split; [done|]. intros x y z H1 H2. unfold same_breakers in *. by rewrite H2. Qed.

(** At most one outcome is recorded. *)
Definition records_once (name : string) (th o : Z) (m : M (HTTPServer DB) unit) : Prop := forall s,
  same_breakers s (m s).2
  \/ exists s1 out, same_breakers s s1 /\ same_breakers (record name th o out s1).2 (m s).2.

Lemma same_writeAPIError st c m d : steps same_breakers (writeAPIError st c m d : M (HTTPServer DB) unit).
Proof.
  intros s. unfold writeAPIError. unfold mbind, M_bind at 1, set_header, respond at 1, modify. unfold M_bind.
  match goal with |- context [WriteHeader ?n ?x] =>
    destruct (WriteHeader_response n x) as ([[]|e] & w & ->) end; done.
Qed.

Lemma same_call {A} (m : M (World DB) A) : steps same_breakers (call m).
Proof.
  intros s. unfold call, unless_panic, mbind, M_bind, attempt, orch.
  by destruct (m (s_orch s)) as [[|[]] w].
Qed.

Lemma same_proxy_loop n url t prev : steps same_breakers (proxy_loop n url t prev).
Proof.
  revert prev. induction n as [|n IH]; intros prev; cbn [proxy_loop]; [apply steps_ret, _|].
  destruct (env_request_error url); [apply steps_ret, _|].
  apply steps_bind; [apply _|by intros s|]. intros [resp|e]; [|apply IH].
  destruct (_ <? _); [apply steps_ret, _|apply IH].
Qed.

Lemma same_forward name retries resp c : steps same_breakers (forward name retries resp c).
Proof.
  unfold forward. do 3 (apply steps_bind; [apply _|by intros s|intros _]).
  apply steps_bind; [apply _| |intros _; by destruct (_ || _)].
  intros s. by destruct (WriteHeader_response (up_StatusCode resp) s) as (res & w & ->).
Qed.

Lemma once_same name th o m : steps same_breakers m -> records_once name th o m.
Proof. intros H s. left. apply H. Qed.

Lemma once_before {A} name th o (m : M (HTTPServer DB) A) k :
  steps same_breakers m -> (forall a, records_once name th o (k a)) -> records_once name th o (m ≫= k).
Proof.
  intros Hm Hk s. unfold mbind, M_bind. specialize (Hm s). destruct (m s) as [[a|e] s1]; [|by left].
  destruct (Hk a s1) as [H|(s2 & out & H2 & H3)]; [left; by etrans|right].
  exists s2, out. split; [by etrans|done].
Qed.

Lemma once_record name th o out k :
  steps same_breakers k -> records_once name th o (record name th o out ;; k).
Proof.
  intros Hk s. right. exists s, out. split; [done|]. unfold mbind, M_bind.
  destruct (record name th o out s) as [[[]|e] s1]; [apply Hk|done].
Qed.

Lemma once_defer name th o d m :
  steps same_breakers d -> records_once name th o m -> records_once name th o (with_defer d m).
Proof.
  intros Hd Hm s. unfold with_defer. specialize (Hm s). destruct (m s) as [r s1].
  destruct Hm as [H|(s2 & out & H2 & H3)]; [left; etrans; [exact H|apply Hd]|right].
  exists s2, out. split; [done|]. etrans; [exact H3|apply Hd].
Qed.

Lemma once_proxy_answer name retries th o out : records_once name th o (proxy_answer name retries th o out).
Proof.
  destruct out as [|e|resp c|msg]; cbn [proxy_answer].
  - apply (once_record _ _ _ (Some _)), same_writeAPIError.
  - apply (once_record _ _ _ (Some _)), same_writeAPIError.
  - destruct (500 <=? _); [apply (once_record _ _ _ (Some _))|apply (once_record _ _ _ None)];
      apply same_forward.
  - apply once_same, same_writeAPIError.
Qed.

Lemma once_check_access name th o r svc ep k :
  records_once name th o k -> records_once name th o (check_access r svc ep k).
Proof.
  intros Hk. unfold check_access, on_success. apply once_before; [apply same_call|].
  intros [[[] reason]|e]; [done| |]; apply once_same, same_writeAPIError.
Qed.

(** The parameters of the breaker that a request asks for. *)
Definition breaker_params (r : Request) : Z * Z :=
  (parsePositiveIntOrDefault (query r "cbThreshold") 3, parsePositiveIntOrDefault (query r "cbOpenSec") 15).

Lemma once_handleProxy name r th o : breaker_params r = (th, o) ->
  records_once name th o (handleProxy name r).
Proof.
  unfold breaker_params. intros [= <- <-]. unfold handleProxy. cbv zeta.
  apply once_before; [intros s; by rewrite circuitOpen_run|].
  intros [[] reason]; [apply once_same, same_writeAPIError|].
  apply once_before; [apply same_call|]. intros [[[[svc ep] h] p]|e].
  - apply once_defer; [intros s; unfold release, orch; by destruct (ReleaseServiceEndpoint _ _)|]. apply once_check_access. apply once_before; [apply same_proxy_loop|].
    intros out. apply once_proxy_answer.
  - destruct (is_not_found e); [apply once_same, same_writeAPIError|].
    apply (once_record _ _ _ (Some _)), same_writeAPIError.
Qed.

Lemma once_history name th o m s0 h s : records_once name th o m -> history name th o s0 h s ->
  exists h', (length h' <= 1)%nat /\ history name th o s0 (h ++ h') (m s).2.
Proof.
  intros Hm Hh. destruct (Hm s) as [Hs|(s1 & out & H1 & H2)]; unfold same_breakers in *.
  - exists []. split; [cbn; lia|]. rewrite app_nil_r.
    eapply history_other; [exact Hh|]. unfold breaker. by rewrite Hs.
  - eexists [_]. split; [cbn; lia|]. eapply history_other; [apply (history_record _ _ _ _ _ s1)|].
    + eapply history_other; [exact Hh|]. unfold breaker. by rewrite H1.
    + unfold breaker. by rewrite H2.
Qed.

(** C33: the circuit breaker of a service counts its consecutive failures.
    Take any run of the server from a state in which the service has no
    breaker, with any activity between the outcomes that are recorded for the
    service.  The breaker is then a function of the failures since the last
    success: its counter is their number modulo the threshold; it was last
    opened by the failure that completed the last multiple of the threshold,
    until [openSec] seconds after the reading of the clock at that very
    failure; and it was not opened when there are fewer failures than the
    threshold.  Until that time a request to the proxy is answered with 503
    and the reason of the last failure, without routing to the service or
    contacting it; from that time on the circuit is closed.  A request to the
    proxy records at most one outcome, and recording one leaves the breakers
    of other services alone. *)
Theorem breaker_spec name th o s0 h s :
  1 <= th <= i64_max -> breaker name s0 = zero_breaker -> history name th o s0 h s ->
  let b := expected_breaker th o (streak h) in
  let t := env_now s.(s_orch).(w_tick) in
  breaker name s = b
  /\ (t < b.(breakerState_OpenUntil) -> forall r,
        handleProxy name r s
        = writeAPIError 503 "circuit_open" "Circuit breaker open" b.(breakerState_LastReason) (advance 1 s))
  /\ (b.(breakerState_OpenUntil) <= t -> circuitOpen name s = (Ok (false, ""), advance 1 s))
  /\ (forall r, breaker_params r = (th, o) ->
        exists h', (length h' <= 1)%nat /\ history name th o s0 (h ++ h') (handleProxy name r s).2)
  /\ (forall out name', name' <> name -> breaker name' (record name th o out s).2 = breaker name' s).
Proof.
  intros Hth H0 Hh b t. pose proof (history_breaker _ _ _ _ _ _ Hth H0 Hh) as Hb. fold b in Hb.
  pose proof (circuitOpen_run name s) as Hc. rewrite Hb in Hc. fold t in Hc. unfold After in Hc.
  split; [done|]. split; [|split; [|split]].
  - intros Ht r. unfold handleProxy. cbv zeta. destruct (Z.ltb_spec t (breakerState_OpenUntil b)); [|lia].
    by rewrite (bind_Ok _ _ _ _ _ Hc).
  - intros Ht. destruct (Z.ltb_spec t (breakerState_OpenUntil b)); [lia|done].
  - intros r Hr. eapply once_history; [by apply once_handleProxy|done].
  - intros out name' Hne. by apply record_others.
Qed.

End Proxy.
