(* ===== verification/AuthTheorems.v ===== *)
(** * What an accepted token proves

    A principal that the verifier returns is vouched for by the configured
    means: the static token, a signature under the shared secret, or one under
    an RSA key that the provider published under the token's key identifier,
    in an answer that is not older than the cache may be.  A token never
    chooses its own means: the algorithm in its header is tied to the kind of
    key. *)

From Stdlib Require Import Ascii String.
From Corelib Require Import SpecFloat.
From S2P Require Import Prelude GoLang GoText Effects Model Badger World Base64 Auth.

Section AuthTheorems.
Context {DB : Type} `{!Badger Blob DB} {E : Env} {J : JWT} {AE : AuthEnv}.

Implicit Types (s : Verifier * World DB).

(** The claims name the configured issuer, if one is configured. *)
Definition issuer_ok (v : Verifier) (claims : gmap string Claim) : Prop :=
  v.(v_issuer) <> "" -> claims !! "iss" = Some (ClaimString v.(v_issuer)).

Definition by_static (v : Verifier) (token : string) (p : Principal) : Prop :=
  token = v.(v_staticTok) /\ token <> "" /\ p = MkPrincipal "static-token" ["admin"] "static".

(** The interactions of a call that takes [s] to [s']. *)
Definition within_call s s' (n : nat) : Prop := (s.2.(w_tick) <= n < s'.2.(w_tick))%nat.

Definition by_secret (v : Verifier) s s' (token : string) (p : Principal) : Prop :=
  exists h claims n, jwt_header token = Some h /\ h.(jwt_Alg) = "HS256" /\ v.(v_jwtSecret) <> ""
    /\ within_call s s' n /\ jwt_check token (SecretKey v.(v_jwtSecret)) (env_now n) = Some claims
    /\ issuer_ok v claims
    /\ (v.(v_audience) <> "" -> claims !! "aud" = Some (ClaimString v.(v_audience)))
    /\ p = principal_of claims "jwt".

(** At interaction [n] the endpoint [url] answered with a document in which an
    RSA key has the identifier [kid]. *)
Definition published (n : nat) (url kid : string) (key : PublicKey) : Prop :=
  exists resp payload k, env_jwks n url = Ok resp /\ 200 <= resp.(jwks_StatusCode) < 300
    /\ resp.(jwks_payload) = Ok payload /\ k ∈ payload /\ k.(jwk_Kid) = kid
    /\ ToUpper (TrimSpace k.(jwk_Kty)) = "RSA" /\ jwkRSAToPublicKey k.(jwk_N) k.(jwk_E) = Ok key.

(** The answer of interaction [n] may be used by the call: it was asked for by
    the call, or it was kept by an earlier one, less than the refresh time
    before the call looked at the clock. *)
Definition fresh (v : Verifier) s s' (n : nat) : Prop :=
  within_call s s' n
  \/ exists m, within_call s s' m /\ time_Sub (env_now m) (env_now (S n)) < v.(v_jwksRefreshAfter).

Definition by_provider (v : Verifier) s s' (token : string) (p : Principal) : Prop :=
  exists h claims n m key, jwt_header token = Some h /\ h.(jwt_Alg) = "RS256" /\ v.(v_jwksURL) <> ""
    /\ published n v.(v_jwksURL) (as_string h.(jwt_kid)) key /\ fresh v s s' n
    /\ within_call s s' m /\ jwt_check token (RSAKey key) (env_now m) = Some claims
    /\ issuer_ok v claims
    /\ (v.(v_audience) <> "" -> claimHasAudience (claims !! "aud") v.(v_audience) = true)
    /\ p = principal_of claims "oidc".

(** The states of a verifier that was made as [v0]: it may have verified any
    tokens, and time may have passed between. *)
Inductive verifier_run (v0 : Verifier) : Verifier * World DB -> Prop :=
| run_start w : verifier_run v0 (v0, w)
| run_verify authz s : verifier_run v0 s -> verifier_run v0 (VerifyBearer authz s).2
| run_elsewhere v w w' : verifier_run v0 (v, w) -> (w.(w_tick) <= w'.(w_tick))%nat -> verifier_run v0 (v, w').

(** ** The key cache *)

Definition config (v : Verifier) :=
  (v.(v_mode), v.(v_staticTok), v.(v_jwtSecret), v.(v_issuer), v.(v_audience), v.(v_jwksURL),
   v.(v_jwksRefreshAfter)).

Definition cache (v : Verifier) := (v.(v_resolvedJWKKeys), v.(v_lastJWKSRefresh)).

(** The cache of [v] is what interaction [n] answered. *)
Definition fetched (n : nat) (v : Verifier) : Prop :=
  exists resp payload, env_jwks n v.(v_jwksURL) = Ok resp /\ 200 <= resp.(jwks_StatusCode) < 300
    /\ resp.(jwks_payload) = Ok payload /\ v.(v_resolvedJWKKeys) = usable_keys payload
    /\ v.(v_lastJWKSRefresh) = env_now (S n).

(** Time goes on, the configuration stays, and the cache is kept or renewed. *)
Definition evolve : relation (Verifier * World DB) := fun s s' =>
  (s.2.(w_tick) <= s'.2.(w_tick))%nat /\ config s'.1 = config s.1
  /\ (cache s'.1 = cache s.1 \/ exists n, within_call s s' n /\ fetched n s'.1).

Lemma fetched_same n v v' : config v' = config v -> cache v' = cache v -> fetched n v -> fetched n v'.
Proof.
  intros Hcfg [= Hk Hl] (resp & payload & Hf). exists resp, payload.
  assert (v_jwksURL v' = v_jwksURL v) as -> by (unfold config in Hcfg; congruence). by rewrite Hk, Hl.
Qed.

#[export] Instance evolve_PreOrder : PreOrder evolve.
Proof.
  split; [intros s; split; [done|]; split; [done|by left]|].
  intros s1 s2 s3 (T1 & C1 & K1) (T2 & C2 & K2). split; [lia|]. split; [congruence|].
  destruct K2 as [K2|(n & [Hn1 Hn2] & Hn)]; [|right; exists n; split; [split; lia|done]].
  destruct K1 as [K1|(n & [Hn1 Hn2] & Hn)]; [left; congruence|right; exists n].
  split; [split; lia|by eapply fetched_same].
Qed.

Lemma evolve_ask {A} (f : nat -> A) : steps evolve (with_world (ask f)).
Proof. intros [v w]. split; [cbn; lia|]. split; [done|by left]. Qed.

Lemma evolve_the_verifier : steps evolve the_verifier.
Proof. intros [v w]. reflexivity. Qed.

(** What a refresh does to the cache, if it does anything. *)
Lemma refresh_fetched s :
  let s' := (refreshJWKSLocked s).2 in
  (s.2.(w_tick) <= s'.2.(w_tick))%nat /\ config s'.1 = config s.1
  /\ (cache s'.1 = cache s.1 /\ (exists e, (refreshJWKSLocked s).1 = Err e)
      \/ within_call s s' s.2.(w_tick) /\ fetched s.2.(w_tick) s'.1).
Proof.
  destruct s as [v w]. unfold refreshJWKSLocked. unfold mbind, M_bind, the_verifier, with_world, ask.
  cbn -[usable_keys]. destruct (env_jwks (w_tick w) (v_jwksURL v)) as [resp|e] eqn:Hr; cbn -[usable_keys].
  2: { split; [lia|]. split; [done|left; eauto]. }
  destruct (_ || _) eqn:Hst; cbn -[usable_keys]; [split; [lia|]; split; [done|left; eauto]|].
  destruct (jwks_payload resp) as [payload|e] eqn:Hp; cbn -[usable_keys].
  2: { split; [lia|]. split; [done|left; eauto]. }
  apply orb_false_iff in Hst as [Hst1 Hst2]. apply Z.ltb_ge in Hst1. apply Z.leb_gt in Hst2.
  assert (Hf : fetched (w_tick w) (set v_lastJWKSRefresh (fun _ => env_now (S (w_tick w)))
    (set v_resolvedJWKKeys (fun _ => usable_keys payload) v))).
  { exists resp, payload. do 2 (split; [done|]). done. }
  case_bool_decide; (split; [cbn; lia|]); (split; [done|]); right; (split; [split; cbn; lia|exact Hf]).
Qed.

Lemma evolve_refresh : steps evolve refreshJWKSLocked.
Proof.
  intros s. destruct (refresh_fetched s) as (Ht & Hc & [[Hk _]|[Hn Hk]]); (split; [done|]); (split; [done|]);
    [by left|right; eauto].
Qed.

Ltac evolve_tac := repeat match goal with
  | |- forall _, _ => intro
  | |- steps _ (_ ≫= _) => apply steps_bind; [typeclasses eauto| |]
  | |- steps _ (mret _) => apply steps_ret; typeclasses eauto
  | |- steps _ (throw _) => apply steps_throw; typeclasses eauto
  | |- steps _ (of_res _) => apply steps_of_res; typeclasses eauto
  | |- steps _ (attempt _) => apply steps_attempt
  | |- steps _ (with_world _) => apply evolve_ask
  | |- steps _ the_verifier => apply evolve_the_verifier
  | |- steps _ refreshJWKSLocked => apply evolve_refresh
  | |- steps _ (let _ := _ in _) => cbv zeta
  | |- steps _ (if _ then _ else _) => case_match
  | |- steps _ (match _ with _ => _ end) => case_match
  end.

Lemma evolve_Parse token kf : (forall h, steps evolve (kf h)) -> steps evolve (ParseWithClaims token kf).
Proof. intros Hk. unfold ParseWithClaims. evolve_tac. apply Hk. Qed.

Lemma evolve_resolve kid : steps evolve (resolveJWKKeyByKID kid).
Proof. unfold resolveJWKKeyByKID. evolve_tac. Qed.

Lemma evolve_oidc h : steps evolve (oidc_keyFunc h).
Proof. unfold oidc_keyFunc. evolve_tac. apply evolve_resolve. Qed.

Lemma evolve_verifyJWT token : steps evolve (verifyJWT token).
Proof. unfold verifyJWT. evolve_tac. apply evolve_Parse. intros h. unfold jwt_keyFunc. evolve_tac. Qed.

Lemma evolve_verifyOIDC token : steps evolve (verifyOIDC token).
Proof. unfold verifyOIDC. evolve_tac. apply evolve_Parse, evolve_oidc. Qed.

Lemma evolve_VerifyBearer authz : steps evolve (VerifyBearer authz).
Proof. unfold VerifyBearer. evolve_tac; apply evolve_verifyJWT || apply evolve_verifyOIDC. Qed.

(** In every state of a verifier the cache is empty or what the provider
    answered. *)
Lemma verifier_run_cache v0 s : v0.(v_resolvedJWKKeys) = ∅ -> verifier_run v0 s ->
  config s.1 = config v0 /\ (s.1.(v_resolvedJWKKeys) = ∅ \/ exists n, fetched n s.1).
Proof.
  intros H0. induction 1 as [w|authz s _ [IHc IHk]|v w w' _ IH _]; [auto| |done].
  destruct (evolve_VerifyBearer authz s) as (_ & Hc & Hk). split; [congruence|].
  destruct Hk as [Hk|(n & _ & Hn)]; [|eauto].
  destruct IHk as [He|[n Hn]]; [left; unfold cache in Hk; congruence|right; exists n; by eapply fetched_same].
Qed.

(** A key of the cache is one of the document. *)
Lemma usable_published kid key payload : usable_keys payload !! kid = Some key ->
  exists k, k ∈ payload /\ k.(jwk_Kid) = kid /\ ToUpper (TrimSpace k.(jwk_Kty)) = "RSA"
    /\ jwkRSAToPublicKey k.(jwk_N) k.(jwk_E) = Ok key.
Proof.
  unfold usable_keys. induction payload as [|k l IH] using rev_ind; [done|]. rewrite foldl_app. cbn [foldl].
  assert (Hl : foldl add_jwk ∅ l !! kid = Some key -> exists k', k' ∈ l ++ [k] /\ k'.(jwk_Kid) = kid
    /\ ToUpper (TrimSpace k'.(jwk_Kty)) = "RSA" /\ jwkRSAToPublicKey k'.(jwk_N) k'.(jwk_E) = Ok key).
  { intros H. destruct (IH H) as (k' & Hin & Hk'). exists k'. rewrite elem_of_app. auto. }
  unfold add_jwk at 1. destruct (String.eqb_spec (ToUpper (TrimSpace (jwk_Kty k))) "RSA"); [|apply Hl].
  cbn [negb orb]. destruct (blank _); [apply Hl|].
  destruct (jwkRSAToPublicKey _ _) as [pub|e'] eqn:Hp; [|apply Hl].
  rewrite lookup_insert_Some. intros [[Hk <-]|[_ H]]; [|by apply Hl].
  exists k. rewrite elem_of_app, list_elem_of_singleton. auto.
Qed.

Lemma fetched_published n v kid key :
  fetched n v -> v.(v_resolvedJWKKeys) !! kid = Some key -> published n v.(v_jwksURL) kid key.
Proof.
  intros (resp & payload & He & Hst & Hp & Hk & _) Hkey. rewrite Hk in Hkey.
  apply usable_published in Hkey as (k & Hin & Hrest). exists resp, payload, k. auto.
Qed.

(** ** Lemmas *)

(** A key that was resolved is fresh in the cache, or was just fetched. *)
Lemma resolve_inv kid s key s' :
  resolveJWKKeyByKID kid s = (Ok key, s') ->
  s'.1.(v_resolvedJWKKeys) !! kid = Some key
  /\ ((s'.1 = s.1 /\ exists m, within_call s s' m
         /\ time_Sub (env_now m) s.1.(v_lastJWKSRefresh) < s.1.(v_jwksRefreshAfter))
      \/ exists n, within_call s s' n /\ fetched n s'.1).
Proof.
  destruct s as [v w]. unfold resolveJWKKeyByKID. intros H.
  apply bind_inv in H as [(t & s1 & Ht & H)|(e & _ & [=])]. injection Ht as <- <-.
  unfold mbind at 1, M_bind at 1, the_verifier in H. cbn [fst] in H.
  assert (Hc : forall k, cached_key v (env_now (w_tick w)) kid = Some k -> v.(v_resolvedJWKKeys) !! kid = Some k
    /\ time_Sub (env_now (w_tick w)) v.(v_lastJWKSRefresh) < v.(v_jwksRefreshAfter)).
  { intros k. unfold cached_key. destruct (v_resolvedJWKKeys v !! kid); [|done]. unfold mbind, option_bind.
    destruct (Z.ltb_spec (time_Sub (env_now (w_tick w)) (v_lastJWKSRefresh v)) (v_jwksRefreshAfter v)); [|done].
    by intros [= <-]. }
  destruct (cached_key v _ kid) as [k|] eqn:Ec.
  { injection H as <- <-. destruct (Hc k eq_refl) as [Hk Ht]. split; [done|]. left. split; [done|].
    exists w.(w_tick). split; [split; cbn; lia|done]. }
  unfold mbind at 1, M_bind at 1, the_verifier in H. cbn [fst] in H. rewrite Ec in H.
  set (s1 := (v, w <| w_tick ::= S |>)) in *. pose proof (refresh_fetched s1) as Hf. cbv zeta in Hf.
  apply bind_inv in H as [([] & s2 & Hr & H)|(e & _ & [=])]. rewrite Hr in Hf. cbn [fst snd] in Hf.
  unfold mbind at 1, M_bind at 1 in H. cbn in H.
  destruct (v_resolvedJWKKeys s2.1 !! kid) as [k|] eqn:Hk; [|done]. injection H as <- <-.
  split; [exact Hk|]. right. destruct Hf as (_ & _ & [[_ [e [=]]]|[[Hn1 Hn2] Hn]]).
  exists (w_tick s1.2). split; [|done]. unfold within_call. cbn in *. lia.
Qed.

Lemma wrong_issuer_false v claims : wrong_issuer v claims = false -> issuer_ok v claims.
Proof.
  unfold wrong_issuer, issuer_ok. intros H Hne.
  apply String.eqb_neq in Hne. rewrite Hne in H. cbn in H. apply negb_false_iff, String.eqb_eq in H.
  unfold as_string in H. destruct (claims !! "iss") as [[]|]; rewrite <- H in Hne; try done. by rewrite H.
Qed.

Lemma Parse_inv token kf s claims s' :
  ParseWithClaims token kf s = (Ok claims, s') ->
  exists h key s1, jwt_header token = Some h /\ kf h s = (Ok key, s1)
    /\ s' = (s1.1, s1.2 <| w_tick ::= S |>)
    /\ jwt_check token key (env_now s1.2.(w_tick)) = Some claims.
Proof.
  unfold ParseWithClaims. destruct (jwt_header token) as [h|]; [|done]. intros H.
  apply bind_inv in H as [(key & s1 & Hk & H)|(e & _ & [=])].
  apply bind_inv in H as [(t & s2 & Ht & H)|(e & _ & [=])]. injection Ht as <- <-.
  destruct (jwt_check token key _) as [c|] eqn:Hc; [|done]. injection H as <- <-.
  by exists h, key, s1.
Qed.

Lemma verifyStatic_inv v token p : verifyStatic v token = Ok p -> by_static v token p.
Proof.
  unfold verifyStatic, by_static. destruct (String.eqb_spec (v_staticTok v) ""); [done|].
  destruct (String.eqb_spec token (v_staticTok v)) as [->|]; [|done]. intros [= <-]. done.
Qed.

Lemma verifyJWT_inv v token s p s' : config s.1 = config v ->
  verifyJWT token s = (Ok p, s') -> by_secret v s s' token p.
Proof.
  destruct s as [v1 w]. intros [= Hm Hst Hsec Hiss Haud Hurl Hra].
  unfold verifyJWT, mbind at 1, M_bind at 1, the_verifier. cbn [fst].
  destruct (String.eqb_spec (v_jwtSecret v1) ""); [done|]. unfold mbind at 1, M_bind at 1, attempt.
  destruct (ParseWithClaims token (jwt_keyFunc v1) (v1, w)) as [[claims|e] s1] eqn:Hp; [|done].
  destruct (wrong_issuer v1 claims) eqn:Hi; [done|]. destruct (_ && _) eqn:Ha; [done|]. intros [= <- <-].
  apply Parse_inv in Hp as (h & key & s2 & Hh & Hk & -> & Hc).
  unfold jwt_keyFunc in Hk. destruct (String.eqb_spec (jwt_Alg h) "HS256"); [|done]. injection Hk as <- <-.
  exists h, claims, w.(w_tick). rewrite <- Hsec. do 3 (split; [done|]). split; [split; cbn; lia|].
  split; [done|]. apply wrong_issuer_false in Hi. unfold issuer_ok in *. rewrite <- Hiss, <- Haud.
  split; [done|]. split; [|done].
  intros Hne. apply String.eqb_neq in Hne. rewrite Hne in Ha. cbn in Ha.
  apply negb_false_iff, String.eqb_eq in Ha. unfold as_string in Ha.
  destruct (claims !! "aud") as [[]|]; rewrite <- Ha in Hne; try done. by rewrite Ha.
Qed.

(** What is known of the cache before a call. *)
Definition cache_ok (v : Verifier) s : Prop :=
  config s.1 = config v /\ (s.1.(v_resolvedJWKKeys) = ∅ \/ exists n, fetched n s.1).

Lemma resolve_fresh v kid s key s' : cache_ok v s -> resolveJWKKeyByKID kid s = (Ok key, s') ->
  exists n, published n v.(v_jwksURL) kid key /\ fresh v s s' n.
Proof.
  intros [Hcfg Hcache] Hr. assert (Hcfg' : config s'.1 = config v).
  { destruct (evolve_resolve kid s) as (_ & Hc & _). rewrite Hr in Hc. cbn in Hc. congruence. }
  assert (Hurl : v_jwksURL s'.1 = v_jwksURL v) by (unfold config in Hcfg'; congruence).
  apply resolve_inv in Hr as [Hk [[Hs (m & Hm & Ht)]|(n & Hn & Hf)]]; rewrite <- Hurl.
  - rewrite Hs in Hk. destruct Hcache as [He|[n Hf]]; [by rewrite He in Hk|].
    exists n. rewrite Hs. split; [by apply fetched_published|]. right. exists m. split; [done|].
    destruct Hf as (resp & payload & _ & _ & _ & _ & Hl). rewrite <- Hl.
    by replace (v_jwksRefreshAfter v) with (v_jwksRefreshAfter s.1) by (unfold config in Hcfg; congruence).
  - exists n. split; [by apply fetched_published|by left].
Qed.

Lemma fresh_longer v s s1 s2 n : (w_tick s1.2 <= w_tick s2.2)%nat -> fresh v s s1 n -> fresh v s s2 n.
Proof. intros Ht [[H1 H2]|(m & [H1 H2] & H3)]; [left; split; lia|right; exists m; split; [split; lia|done]]. Qed.

Lemma verifyOIDC_inv v token s p s' : cache_ok v s ->
  verifyOIDC token s = (Ok p, s') -> by_provider v s s' token p.
Proof.
  destruct s as [v1 w]. intros Hok. pose proof Hok as [[= Hm Hst Hsec Hiss Haud Hurl Hra] _].
  unfold verifyOIDC, mbind at 1, M_bind at 1, the_verifier. cbn [fst].
  destruct (String.eqb_spec (v_jwksURL v1) ""); [done|]. unfold mbind at 1, M_bind at 1, attempt.
  destruct (ParseWithClaims token oidc_keyFunc (v1, w)) as [[claims|e] s1] eqn:Hp; [|done].
  destruct (wrong_issuer v1 claims) eqn:Hi; [done|]. destruct (_ && _) eqn:Ha; [done|]. intros [= <- <-].
  apply Parse_inv in Hp as (h & key & s2 & Hh & Hk & -> & Hc).
  destruct (evolve_oidc h (v1, w)) as (Ht & _). rewrite Hk in Ht. cbn [snd] in Ht.
  unfold oidc_keyFunc in Hk. destruct (String.eqb_spec (jwt_Alg h) "RS256"); [|done]. cbv zeta in Hk.
  cbn [negb] in Hk. destruct (blank _); [done|].
  apply bind_inv in Hk as [(k & s3 & Hk & [= <- <-])|(e2 & _ & [=])].
  destruct (resolve_fresh v _ _ _ _ Hok Hk) as (n0 & Hpub & Hfr).
  exists h, claims, n0, s3.2.(w_tick), k. split; [done|]. split; [done|]. split; [congruence|]. split; [done|].
  split; [eapply fresh_longer; [|exact Hfr]; cbn; lia|]. split; [split; cbn in *; lia|]. split; [done|].
  apply wrong_issuer_false in Hi. unfold issuer_ok in *. rewrite <- Hiss, <- Haud. split; [done|]. split; [|done].
  intros Hne. apply String.eqb_neq in Hne. rewrite Hne in Ha. cbn in Ha. by apply negb_false_iff in Ha.
Qed.

(** The shared-secret check leaves the key cache alone. *)
Lemma verifyJWT_verifier token s : (verifyJWT token s).2.1 = s.1.
Proof.
  destruct s as [v w]. unfold verifyJWT, mbind at 1, M_bind at 1, the_verifier. cbn [fst].
  destruct (String.eqb _ _); [done|]. unfold mbind at 1, M_bind at 1, attempt.
  assert (Hp : (ParseWithClaims token (jwt_keyFunc v) (v, w)).2.1 = v).
  { unfold ParseWithClaims. destruct (jwt_header token) as [h|]; [|done]. unfold jwt_keyFunc.
    destruct (negb _); [done|]. unfold mbind, M_bind. cbn. by destruct (jwt_check _ _ _). }
  destruct (ParseWithClaims _ _ _) as [[claims|e] s1]; [|exact Hp].
  destruct (wrong_issuer _ _); [exact Hp|]. by destruct (_ && _).
Qed.

Lemma by_provider_earlier v s s1 s' token p :
  (w_tick s.2 <= w_tick s1.2)%nat -> by_provider v s1 s' token p -> by_provider v s s' token p.
Proof.
  intros Ht (h & claims & n & m & key & H1 & H2 & H3 & H4 & H5 & [H6 H7] & H8).
  exists h, claims, n, m, key. do 4 (split; [done|]). split; [|split; [split; lia|done]].
  destruct H5 as [[K1 K2]|(m' & [K1 K2] & K3)]; [left; split; lia|right; exists m'; split; [split; lia|done]].
Qed.

(** C11: an accepted token is vouched for.  Take a verifier as [NewVerifier]
    makes it, that has verified any tokens since.  Whenever [VerifyBearer]
    returns a principal, the header has the form "Bearer token" with a
    non-empty token, and in the configured mode the token is the configured
    static token, or it says HS256 and its signature holds under the
    configured secret, or it says RS256 and its signature holds under an RSA
    key that the configured endpoint published under the key identifier of the
    token: in an answer to this very call, or in one that an earlier call kept
    less than five minutes ago.  The signature and the time claims are checked
    at a time during the call; issuer and audience are the configured ones.
    In particular the RSA keys are never used as HMAC secrets, nor the secret
    for a token that claims another algorithm; no other mode accepts
    anything. *)
Theorem VerifyBearer_sound mode staticTok jwtSecret issuer audience jwksURL authz s p s' :
  let v := NewVerifier mode staticTok jwtSecret issuer audience jwksURL in
  verifier_run v s ->
  VerifyBearer authz s = (Ok p, s') ->
  exists token, token <> "" /\ HasPrefix (TrimSpace authz) "Bearer " = true
    /\ token = TrimSpace (TrimPrefix (TrimSpace authz) "Bearer ")
    /\ v.(v_jwksRefreshAfter) = 300 * Second
    /\ ((v.(v_mode) ∈ [ModeStatic; ModeHybrid] /\ by_static v token p)
        \/ (v.(v_mode) ∈ [ModeJWT; ModeHybrid] /\ by_secret v s s' token p)
        \/ (v.(v_mode) ∈ [ModeOIDC; ModeHybrid] /\ by_provider v s s' token p)).
Proof.
  intros v Hrun. assert (Hok : cache_ok v s) by by apply verifier_run_cache.
  assert (Hra : v_jwksRefreshAfter v = 300 * Second) by done. clearbody v. destruct s as [v1 w].
  assert (Hcfg : config v1 = config v) by apply Hok. pose proof Hcfg as [= Hm Hst _ _ _ _ _].
  unfold VerifyBearer. cbv zeta. destruct (HasPrefix _ _); [|done]. cbn [negb].
  set (token := TrimSpace _). destruct (String.eqb_spec token ""); [done|].
  unfold mbind at 1, M_bind at 1, the_verifier. cbn [fst]. intros H. rewrite Hm in H.
  exists token. do 4 (split; [done|]).
  assert (Hs : forall p', verifyStatic v1 token = Ok p' -> by_static v token p').
  { intros p' Hp'. apply verifyStatic_inv in Hp'. unfold by_static in *. by rewrite <- Hst. }
  destruct (String.eqb_spec (v_mode v) ModeStatic) as [->|_].
  { left. split; [left|]. apply Hs. by injection H. }
  destruct (String.eqb_spec (v_mode v) ModeJWT) as [->|_].
  { right; left. split; [left|]. by apply (verifyJWT_inv v) in H. }
  destruct (String.eqb_spec (v_mode v) ModeOIDC) as [->|_].
  { right; right. split; [left|]. by apply (verifyOIDC_inv v) in H. }
  destruct (String.eqb_spec (v_mode v) ModeHybrid) as [->|_]; [|done].
  destruct (verifyStatic v1 token) as [p'|e] eqn:Hstat.
  { injection H as <- <-. left. split; [right; left|]. by apply Hs. }
  apply bind_inv in H as [([p'|e'] & s1 & Hj & H)|(e' & _ & [=])]; unfold attempt in Hj;
    destruct (verifyJWT token (v1, w)) as [r s2] eqn:Hjwt; injection Hj as -> ->.
  - injection H as <- <-. right; left. split; [right; left|]. by apply (verifyJWT_inv v) in Hjwt.
  - right; right. split; [right; left|]. pose proof (verifyJWT_verifier token (v1, w)) as Hv.
    destruct (evolve_verifyJWT token (v1, w)) as (Ht & _). rewrite Hjwt in Hv, Ht. cbn in Hv, Ht.
    eapply by_provider_earlier; [exact Ht|]. apply (verifyOIDC_inv v) in H; [done|].
    unfold cache_ok. by rewrite Hv.
Qed.

End AuthTheorems.
