(* ===== verification/WorkerTheorems.v ===== *)
(** * What the node agent reports and counts

    The calls the agent makes for an assignment, against the answers of the
    runtime and the file system: what it starts and how often, what it
    reports, and how its count of the resources in use follows. *)

From Stdlib Require Import Ascii String.
From S2P Require Import Prelude GoLang GoText Effects Model Worker.

(** The status reports and the container stops among the calls. *)
Definition reports (w : Worker) : list (string * string * string) :=
  omap (fun c => match c with CallReport i s c => Some (i, s, c) | _ => None end) w.(wk_calls).*2.

Definition stops (w : Worker) : list (string * string) :=
  omap (fun c => match c with CallStop i c => Some (i, c) | _ => None end) w.(wk_calls).*2.

Definition used (w : Worker) : Resource := w.(wk_runner).(rn_used).
Definition retries (w : Worker) : Z := w.(wk_runner).(rn_restartMaxRetries).
Definition base (w : Worker) : Duration := w.(wk_runner).(rn_restartBackoff).

(** The resources in use after an assignment with this outcome. *)
Definition account (u : Resource) (x : Assignment * option string) : Resource :=
  if bool_decide (x.2 = Some WorkloadRunning) then charge u x.1.(Assignment_Resources)
  else if bool_decide (x.2 = Some WorkloadTerminated) then discharge u x.1.(Assignment_Resources)
  else u.

(** ** Traces *)

Definition is_file (c : Call) : bool :=
  match c with CallMkdirAll _ | CallWriteFile _ | CallRemove _ => true | _ => false end.

(** The calls of a trace apart from those to the file system. *)
Definition visible (cs : list (nat * Call)) : list Call := List.filter (fun c => negb (is_file c)) cs.*2.

Definition run_call (a : Assignment) : Call :=
  CallRun a.(Assignment_WorkloadID) a.(Assignment_Image) a.(Assignment_ImagePullSecret).

(** Attempts [i] to [i + k - 1] to start a container, each followed by a wait
    of [2 ^ attempt] times the base. *)
Definition tried (b : Duration) (a : Assignment) (i k : nat) : list Call :=
  concat ((fun j => [run_call a; CallWait (backoff b (Z.of_nat j))]) <$> seq i k).

Definition report_call (a : Assignment) (status containerID : string) : Call :=
  CallReport a.(Assignment_WorkloadID) status containerID.

Lemma visible_app cs cs' : visible (cs ++ cs') = visible cs ++ visible cs'.
Proof. unfold visible. by rewrite fmap_app, List.filter_app. Qed.

Lemma visible_files cs : Forall (fun x => is_file x.2 = true) cs -> visible cs = [].
Proof. induction 1 as [|x cs Hx _ IH]; [done|]. unfold visible. cbn. by rewrite Hx. Qed.

Section WorkerTheorems.
Context {C : AssignmentClient} {R : Runtime} {H : Host}.

(** The runtime's answers to the starts of a trace. *)
Definition answers (cs : list (nat * Call)) : list (Res string) :=
  omap (fun x => match x.2 with CallRun i im sec => Some (runtime_RunWorkload x.1 i im sec) | _ => None end) cs.

Lemma answers_app cs cs' : answers (cs ++ cs') = answers cs ++ answers cs'.
Proof. apply omap_app. Qed.

Lemma answers_files cs : Forall (fun x => is_file x.2 = true) cs -> answers cs = [].
Proof. induction 1 as [|[n c] cs Hx _ IH]; [done|]. unfold answers. cbn. by destruct c. Qed.

(** [cs] are the calls made for assignment [a], by an agent that tries [n]
    times and waits multiples of [b]; the last argument is the status it
    reports.
    - A container runs after fewer than [n] failed starts, and is reported
      under the identifier the runtime gave it;
    - or all of [n] starts failed;
    - or the agent was cancelled while it waited after a failed start;
    - or a secret file could not be written, and nothing was started;
    - a container was stopped, or the runtime failed to stop it;
    - an action the agent does not know leads to no call. *)
Inductive carried (n : nat) (b : Duration) (a : Assignment) (cs : list (nat * Call)) : option string -> Prop :=
| carried_running errs c :
    action_of a = "create" -> (length errs < n)%nat -> answers cs = (Err <$> errs) ++ [Ok c] ->
    visible cs = tried b a 0 (length errs) ++ [run_call a; report_call a WorkloadRunning c] ->
    carried n b a cs (Some WorkloadRunning)
| carried_exhausted errs e :
    action_of a = "create" -> S (length errs) = n -> answers cs = Err <$> errs ++ [e] ->
    visible cs = tried b a 0 (length errs) ++ [run_call a; report_call a WorkloadFailed ""] ->
    carried n b a cs (Some WorkloadFailed)
| carried_cancelled errs m d :
    action_of a = "create" -> (0 < length errs < n)%nat -> answers cs = Err <$> errs ->
    visible cs = tried b a 0 (length errs) ++ [report_call a WorkloadFailed ""] ->
    (m, CallWait d) ∈ cs -> host_cancelled m = true ->
    carried n b a cs (Some WorkloadFailed)
| carried_unwritten m c :
    action_of a = "create" -> visible cs = [report_call a WorkloadFailed ""] ->
    (m, c) ∈ cs -> is_file c = true -> is_Some (host_error m) ->
    carried n b a cs (Some WorkloadFailed)
| carried_stopped m :
    action_of a = "delete" ->
    visible cs = [CallStop a.(Assignment_WorkloadID) a.(Assignment_ContainerID);
                  report_call a WorkloadTerminated ""] ->
    (m, CallStop a.(Assignment_WorkloadID) a.(Assignment_ContainerID)) ∈ cs ->
    runtime_StopWorkload m a.(Assignment_WorkloadID) a.(Assignment_ContainerID) = Ok tt ->
    carried n b a cs (Some WorkloadTerminated)
| carried_not_stopped m e :
    action_of a = "delete" ->
    visible cs = [CallStop a.(Assignment_WorkloadID) a.(Assignment_ContainerID);
                  report_call a WorkloadFailed ""] ->
    (m, CallStop a.(Assignment_WorkloadID) a.(Assignment_ContainerID)) ∈ cs ->
    runtime_StopWorkload m a.(Assignment_WorkloadID) a.(Assignment_ContainerID) = Err e ->
    carried n b a cs (Some WorkloadFailed)
| carried_unknown :
    action_of a <> "create" -> action_of a <> "delete" -> cs = [] -> carried n b a cs None.

(** ** Files *)

(** A computation that works on files only; when it fails, one of its file
    operations did. *)
Definition filing {A} (m : M Worker A) : Prop := forall w, exists cs,
  (m w).2.(wk_calls) = w.(wk_calls) ++ cs /\ Forall (fun x => is_file x.2 = true) cs
  /\ used (m w).2 = used w /\ retries (m w).2 = retries w /\ base (m w).2 = base w
  /\ (forall e, (m w).1 = Err e -> exists x, x ∈ cs /\ is_Some (host_error x.1)).

Lemma filing_ret {A} (a : A) : filing (mret a).
Proof. intros w. exists []. by rewrite app_nil_r. Qed.

Lemma filing_runner : filing runner.
Proof. intros w. exists []. by rewrite app_nil_r. Qed.

Lemma filing_bind {A B} (m : M Worker A) (k : A -> M Worker B) :
  filing m -> (forall a, filing (k a)) -> filing (m ≫= k).
Proof.
  intros Hm Hk w. unfold mbind, M_bind. destruct (Hm w) as (cs & H1 & H2 & H3 & H4 & H5 & H6).
  destruct (m w) as [[a|e] w1]; cbn in *; [|exists cs; repeat (split; [done|]); intros e' [= ->]; eauto].
  destruct (Hk a w1) as (cs' & K1 & K2 & K3 & K4 & K5 & K6). exists (cs ++ cs').
  rewrite K1, K3, K4, K5, H1, app_assoc. split; [done|]. split; [by apply Forall_app|].
  do 3 (split; [done|]). intros e He. destruct (K6 e He) as (x & Hx & ?). exists x.
  by rewrite elem_of_app; auto.
Qed.

Lemma filing_file_op c f : is_file c = true -> filing (file_op c f).
Proof.
  intros Hc w. exists [(w.(wk_tick), c)]. unfold file_op.
  destruct (host_error (wk_tick w)) eqn:Hh; (split; [done|]); (split; [by repeat constructor|]);
    do 3 (split; [done|]); intros e He; [|done].
  exists (w.(wk_tick), c). rewrite list_elem_of_singleton. cbn. by rewrite Hh.
Qed.

Lemma filing_ignore {A} (m : M Worker A) : filing m -> filing (ignore m).
Proof.
  intros Hm w. destruct (Hm w) as (cs & H1 & H2 & H3 & H4 & H5 & _). exists cs.
  unfold ignore, mbind, M_bind, attempt. by destruct (m w) as [[]].
Qed.

Lemma filing_secrets f : filing (set_runner (set rn_secretFiles f)).
Proof. intros w. exists []. by rewrite app_nil_r. Qed.

Lemma filing_fold_m {A B} (l : list A) (b : B) (f : B -> A -> M Worker B) :
  (forall b a, filing (f b a)) -> filing (fold_m l b f).
Proof.
  intros Hf. revert b. induction l as [|a l IH]; intros b; cbn [fold_m]; [apply filing_ret|].
  apply filing_bind; [apply Hf|apply IH].
Qed.

Lemma filing_for_each {A} (l : list A) (f : A -> M Worker unit) :
  (forall a, filing (f a)) -> filing (for_each l f).
Proof.
  intros Hf. induction l as [|a l IH]; cbn [for_each]; [apply filing_ret|].
  apply filing_bind; [apply Hf|by intros _].
Qed.

Lemma filing_materialize id files : filing (materializeSecretFiles id files).
Proof.
  unfold materializeSecretFiles. destruct (_ =? 0); [apply filing_ret|]. cbv zeta.
  apply filing_bind; [by apply filing_file_op|intros _].
  apply filing_bind; [apply filing_fold_m|intros created; apply filing_secrets].
  intros created f. unfold write_secret. cbv zeta. destruct (_ || _); [apply filing_ret|].
  apply filing_bind; [by apply filing_file_op|intros _; apply filing_ret].
Qed.

Lemma filing_cleanup id : filing (cleanupSecretFiles id).
Proof.
  unfold cleanupSecretFiles. apply filing_bind; [apply filing_runner|]. intros r. cbv zeta.
  apply filing_bind; [apply filing_secrets|intros _].
  apply filing_bind; [apply filing_for_each; intros p; by apply filing_ignore, filing_file_op|intros _].
  destruct (default [] _); [apply filing_ret|by apply filing_ignore, filing_file_op].
Qed.

Lemma cleanup_Ok id w : (cleanupSecretFiles id w).1 = Ok tt.
Proof.
  unfold cleanupSecretFiles. destruct w as [r fs cs t]. unfold mbind, M_bind. cbn.
  set (ps := default [] _). set (w0 := set wk_runner _ _). clearbody w0.
  assert (Hl : forall l w, exists w', for_each l (fun p => ignore (os_Remove p)) w = (Ok tt, w')).
  { intros l. induction l as [|p l IH]; intros w; cbn [for_each]; [by eexists|].
    unfold mbind, M_bind, ignore, attempt. unfold M_bind. destruct (os_Remove p w) as [[] w1]; apply IH. }
  destruct (Hl ps w0) as [w' ->]. destruct ps; [done|]. unfold ignore, mbind, M_bind, attempt.
  by destruct (os_Remove _ w') as [[]].
Qed.

Lemma cleanup_run id w : exists cs w', cleanupSecretFiles id w = (Ok tt, w')
  /\ w'.(wk_calls) = w.(wk_calls) ++ cs /\ Forall (fun x => is_file x.2 = true) cs
  /\ used w' = used w /\ retries w' = retries w /\ base w' = base w.
Proof.
  pose proof (cleanup_Ok id w) as Hok. destruct (filing_cleanup id w) as (cs & H1 & H2 & H3 & H4 & H5 & _).
  destruct (cleanupSecretFiles id w) as [r w']. cbn in *. subst r. by exists cs, w'.
Qed.

(** ** Starting a container *)

(** The calls of the attempts from number [i] on, [n] of them left, and the
    result. *)
Inductive started (n i : nat) (b : Duration) (a : Assignment) (cs : list (nat * Call)) : Res string -> Prop :=
| started_ok errs c :
    (length errs < n)%nat -> answers cs = (Err <$> errs) ++ [Ok c] ->
    visible cs = tried b a i (length errs) ++ [run_call a] -> started n i b a cs (Ok c)
| started_never errs e e' :
    S (length errs) = n -> answers cs = Err <$> errs ++ [e] ->
    visible cs = tried b a i (length errs) ++ [run_call a] -> started n i b a cs (Err e')
| started_cancelled errs m d e' :
    (0 < length errs < n)%nat -> answers cs = Err <$> errs -> visible cs = tried b a i (length errs) ->
    (m, CallWait d) ∈ cs -> host_cancelled m = true -> started n i b a cs (Err e').

(** A failed start and a wait before the other attempts. *)
Lemma started_after n i b a m e cs res :
  runtime_RunWorkload m a.(Assignment_WorkloadID) a.(Assignment_Image) a.(Assignment_ImagePullSecret) = Err e ->
  started n (S i) b a cs res ->
  started (S n) i b a ([(m, run_call a); (S m, CallWait (backoff b (Z.of_nat i)))] ++ cs) res.
Proof.
  intros He Hs. assert (Ha : forall l, answers cs = l ->
    answers ([(m, run_call a); (S m, CallWait (backoff b (Z.of_nat i)))] ++ cs) = Err e :: l).
  { intros l <-. rewrite answers_app. unfold answers at 1, run_call. cbn. by rewrite He. }
  assert (Hv : forall k l, visible cs = tried b a (S i) k ++ l ->
    visible ([(m, run_call a); (S m, CallWait (backoff b (Z.of_nat i)))] ++ cs) = tried b a i (S k) ++ l).
  { intros k l Hl. by rewrite visible_app, Hl. }
  destruct Hs as [errs c Hn Hans Hvis|errs e0 e' Hn Hans Hvis|errs m' d e' Hn Hans Hvis Hin Hc].
  - apply (started_ok _ _ _ _ _ (e :: errs)); [cbn; lia|by apply Ha|by apply Hv].
  - apply (started_never _ _ _ _ _ (e :: errs) e0); [cbn; lia|by apply Ha|by apply Hv].
  - apply (started_cancelled _ _ _ _ _ (e :: errs) m' d); [cbn; lia|by apply Ha| | |done].
    + rewrite <- (app_nil_r (tried _ _ _ (length (e :: errs)))). apply Hv. by rewrite app_nil_r.
    + rewrite elem_of_app. by right.
Qed.

Lemma run_loop_started n i a e0 w :
  (0 < n)%nat -> (i + n)%nat = Z.to_nat (retries w) -> retries w <= i64_max ->
  exists cs res w', run_loop n (Z.of_nat i) a e0 w = (res, w') /\ w'.(wk_calls) = w.(wk_calls) ++ cs
    /\ w'.(wk_runner) = w.(wk_runner) /\ started n i (base w) a cs res.
Proof.
  revert i e0 w. induction n as [|n IH]; intros i e0 w Hn Hi Hmax; [lia|]. cbn [run_loop].
  unfold mbind at 1, M_bind at 1, attempt, RunWorkload, interact.
  destruct (runtime_RunWorkload (wk_tick w) _ _ _) as [c|e] eqn:Hrun.
  { exists [(w.(wk_tick), run_call a)]. eexists _, _. split; [reflexivity|]. do 2 (split; [done|]).
    apply (started_ok _ _ _ _ _ []); [cbn; lia| |done]. unfold answers, run_call. cbn. by rewrite Hrun. }
  set (w1 := set wk_tick S _). unfold mbind at 1, M_bind at 1, runner. cbv beta iota.
  assert (Hr1 : wk_runner w1 = wk_runner w) by done. rewrite Hr1. unfold retries, base in *.
  assert (Hlast : rn_restartMaxRetries (wk_runner w) -! 1 = rn_restartMaxRetries (wk_runner w) - 1).
  { apply wrap64_id. unfold in_i64, i64_min, i64_max in *. lia. }
  rewrite Hlast. destruct (Z.eqb_spec (Z.of_nat i) (rn_restartMaxRetries (wk_runner w) - 1)) as [Heq|Hne].
  { exists [(w.(wk_tick), run_call a)]. eexists _, _. split; [reflexivity|]. do 2 (split; [done|]).
    apply (started_never _ _ _ _ _ [] e); [cbn; lia| |done]. unfold answers, run_call. cbn. by rewrite Hrun. }
  unfold mbind, M_bind, wait. destruct (host_cancelled (wk_tick w1)) eqn:Hc.
  { exists [(w.(wk_tick), run_call a);
             (S w.(wk_tick), CallWait (backoff (rn_restartBackoff (wk_runner w)) (Z.of_nat i)))].
    eexists _, _. split; [reflexivity|]. split; [unfold w1, set; cbn; by rewrite <- app_assoc|].
    split; [done|]. eapply (started_cancelled _ _ _ _ _ [e]); [cbn; lia| |done|by right; left|exact Hc].
    unfold answers, run_call. cbn. by rewrite Hrun. }
  match goal with |- context [run_loop n _ a _ ?x] => set (w2 := x) end.
  assert (Hr2 : wk_runner w2 = wk_runner w) by done.
  replace (Z.of_nat i +! 1) with (Z.of_nat (S i)).
  2: { rewrite wrap64_id; [lia|]. unfold in_i64, i64_min, i64_max in *. lia. }
  destruct (IH (S i) (Some e) w2) as (cs & res & w' & Hloop & Hcs & Hr' & Hs); [lia|rewrite Hr2; lia|by rewrite Hr2|].
  exists ([(w.(wk_tick), run_call a);
           (S w.(wk_tick), CallWait (backoff (rn_restartBackoff (wk_runner w)) (Z.of_nat i)))] ++ cs), res, w'.
  split; [exact Hloop|]. split; [rewrite Hcs; unfold w2, w1, set; cbn; by rewrite <- !app_assoc|].
  split; [by rewrite Hr'|]. apply started_after with (e := e); [done|]. by rewrite Hr2 in Hs.
Qed.

Lemma runWithBackoff_started a w : 0 < retries w <= i64_max ->
  exists cs res w', runWithBackoff a w = (res, w') /\ w'.(wk_calls) = w.(wk_calls) ++ cs
    /\ w'.(wk_runner) = w.(wk_runner) /\ started (Z.to_nat (retries w)) 0 (base w) a cs res.
Proof. intros Hr. unfold retries in Hr. apply (run_loop_started _ 0); unfold retries; lia. Qed.

(** ** One assignment *)

(** The calls up to a report, and the report. *)
Lemma run_report id st cid w :
  report id st cid w
  = (Ok tt, w <| wk_calls ::= fun l => l ++ [(w.(wk_tick), CallReport id st cid)] |> <| wk_tick ::= S |>).
Proof.
  unfold report, ignore, mbind, M_bind, attempt, ReportWorkloadStatus, interact.
  by destruct (client_ReportWorkloadStatus _ _ _ _).
Qed.

(** [w'] is [w] after assignment [a] was carried out with the calls [cs]. *)
Definition handled (a : Assignment) (cs : list (nat * Call)) (st : option string) (w w' : Worker) : Prop :=
  w'.(wk_calls) = w.(wk_calls) ++ cs /\ used w' = account (used w) (a, st)
  /\ retries w' = retries w /\ base w' = base w
  /\ carried (Z.to_nat (retries w)) (base w) a cs st.

(** Steps that append calls and keep the count and the settings. *)
Definition appends (cs : list (nat * Call)) (w w' : Worker) : Prop :=
  w'.(wk_calls) = w.(wk_calls) ++ cs /\ used w' = used w /\ retries w' = retries w /\ base w' = base w.

Lemma appends_trans cs1 cs2 w1 w2 w3 : appends cs1 w1 w2 -> appends cs2 w2 w3 -> appends (cs1 ++ cs2) w1 w3.
Proof.
  intros (H1 & H2 & H3 & H4) (K1 & K2 & K3 & K4). unfold appends.
  by rewrite K1, K2, K3, K4, H1, H2, H3, H4, app_assoc.
Qed.

Lemma handled_report a st cid cs w w1 f :
  appends cs w w1 -> f (used w) = account (used w) (a, Some st) ->
  carried (Z.to_nat (retries w)) (base w) a (cs ++ [(w1.(wk_tick), report_call a st cid)]) (Some st) ->
  exists cs' w', report a.(Assignment_WorkloadID) st cid (w1 <| wk_runner ::= set rn_used f |>) = (Ok tt, w')
    /\ handled a cs' (Some st) w w'.
Proof.
  intros (H1 & H2 & H3 & H4) Hf Hc. rewrite run_report. eexists _, _. split; [reflexivity|].
  split; [cbn; by rewrite H1, <- app_assoc|]. split; [|done]. unfold used, set in *. cbn. by rewrite H2.
Qed.

Lemma handled_report_id a st cid cs w w1 :
  appends cs w w1 -> account (used w) (a, Some st) = used w ->
  carried (Z.to_nat (retries w)) (base w) a (cs ++ [(w1.(wk_tick), report_call a st cid)]) (Some st) ->
  exists cs' w', report a.(Assignment_WorkloadID) st cid w1 = (Ok tt, w') /\ handled a cs' (Some st) w w'.
Proof.
  intros Hw Ha Hc. pose proof (handled_report a st cid cs w w1 (fun u => u) Hw (eq_sym Ha) Hc) as Hr.
  by destruct w1 as [[] ? ? ?].
Qed.

Lemma handle_delete a w : action_of a = "delete" ->
  exists cs st w', process_delete a w = (Ok tt, w') /\ handled a cs st w w'.
Proof.
  intros Ha. unfold process_delete.
  destruct (cleanup_run (Assignment_WorkloadID a) w) as (fs & w1 & Hc & Hcs & Hfs & Hu & Hr & Hb).
  rewrite (bind_Ok _ _ _ _ _ Hc). unfold mbind at 1, M_bind at 1, attempt, StopWorkload, interact.
  set (w2 := set wk_tick S _). set (stop := CallStop _ _) in *.
  assert (Hw : appends (fs ++ [(w1.(wk_tick), stop)]) w w2) by (apply (appends_trans _ _ _ w1); by repeat split).
  assert (Hv : forall x, is_file x.2 = false -> visible ((fs ++ [(w1.(wk_tick), stop)]) ++ [x]) = [stop; x.2]).
  { intros [n c] Hx. rewrite !visible_app, visible_files by done. unfold visible. cbn in *. by rewrite Hx. }
  assert (Hin : forall x, (w1.(wk_tick), stop) ∈ (fs ++ [(w1.(wk_tick), stop)]) ++ [x]).
  { intros x. rewrite !elem_of_app, list_elem_of_singleton. auto. }
  destruct (runtime_StopWorkload _ _ _) as [[]|e] eqn:Hs.
  - destruct (handled_report a WorkloadTerminated "" _ w w2 (fun u => discharge u (Assignment_Resources a)) Hw)
      as (cs & w' & Hrep & Hh); [done| |exists cs, (Some WorkloadTerminated), w'; by split].
    eapply carried_stopped; [done|by apply Hv|apply Hin|exact Hs].
  - destruct (handled_report_id a WorkloadFailed "" _ w w2 Hw) as (cs & w' & Hrep & Hh);
      [done| |exists cs, (Some WorkloadFailed), w'; by split].
    eapply carried_not_stopped; [done|by apply Hv|apply Hin|exact Hs].
Qed.

Abbreviation files := (Forall (fun x : nat * Call => is_file x.2 = true)).

Lemma visible_around fs rs fs' x : files fs -> files fs' -> is_file x.2 = false ->
  visible ((fs ++ rs) ++ fs' ++ [x]) = visible rs ++ [x.2].
Proof.
  intros Hf Hf' Hx. rewrite !visible_app, (visible_files fs), (visible_files fs') by done.
  unfold visible at 2. cbn. by rewrite Hx.
Qed.

Lemma answers_around fs rs fs' n c : files fs -> files fs' -> is_file c = false ->
  (forall i im s, c <> CallRun i im s) -> answers ((fs ++ rs) ++ fs' ++ [(n, c)]) = answers rs.
Proof.
  intros Hf Hf' Hc Hn. rewrite !answers_app, (answers_files fs), (answers_files fs') by done.
  unfold answers at 2. destruct c; cbn; rewrite ?app_nil_r; by try destruct (Hn workloadID image imagePullSecret).
Qed.

Lemma carried_started n b a fs rs fs' m c : action_of a = "create" -> files fs -> files fs' ->
  started n 0 b a rs (Ok c) ->
  carried n b a ((fs ++ rs) ++ fs' ++ [(m, report_call a WorkloadRunning c)]) (Some WorkloadRunning).
Proof.
  intros Ha Hf Hf' Hs. inversion Hs as [errs c' Hn Hans Hvis| |]; subst.
  apply (carried_running _ _ _ _ errs c); [done|done|by rewrite answers_around|].
  by rewrite visible_around, Hvis, <- app_assoc.
Qed.

Lemma carried_failed n b a fs rs fs' m e : action_of a = "create" -> files fs -> files fs' ->
  started n 0 b a rs (Err e) ->
  carried n b a ((fs ++ rs) ++ fs' ++ [(m, report_call a WorkloadFailed "")]) (Some WorkloadFailed).
Proof.
  intros Ha Hf Hf' Hs. inversion Hs as [|errs e0 e' Hn Hans Hvis|errs m' d e' Hn Hans Hvis Hin Hc]; subst.
  - apply (carried_exhausted _ _ _ _ errs e0); [done|done|by rewrite answers_around|].
    by rewrite visible_around, Hvis, <- app_assoc.
  - apply (carried_cancelled _ _ _ _ errs m' d); [done|done|by rewrite answers_around| | |done].
    + by rewrite visible_around, Hvis.
    + rewrite !elem_of_app. auto.
Qed.

Lemma handle_create a w : action_of a = "create" -> 0 < retries w <= i64_max ->
  exists cs st w', process_create a w = (Ok tt, w') /\ handled a cs st w w'.
Proof.
  intros Ha Hret. unfold process_create. unfold mbind at 1, M_bind at 1, attempt at 1.
  destruct (filing_materialize (Assignment_WorkloadID a) (Assignment_SecretFiles a) w)
    as (fs & Hcs & Hfs & Hu & Hr & Hb & Herr).
  destruct (materializeSecretFiles _ _ w) as [[[]|e] w1]; cbn [fst snd] in *.
  2: { destruct (Herr e eq_refl) as ([n c] & Hin & Hhe).
       destruct (handled_report_id a WorkloadFailed "" fs w w1) as (cs & w' & Hrep & Hh);
         [by repeat split|done| |exists cs, (Some WorkloadFailed), w'; by split].
       apply (carried_unwritten _ _ _ _ n c); [done| | | |done].
       - rewrite visible_app, visible_files by done. done.
       - rewrite elem_of_app. auto.
       - rewrite Forall_forall in Hfs. exact (Hfs _ Hin). }
  destruct (runWithBackoff_started a w1) as (rs & res & w2 & Hrun & Hcs2 & Hr2 & Hs); [by rewrite Hr|].
  assert (Hw2 : appends (fs ++ rs) w w2).
  { apply (appends_trans _ _ _ w1); [by repeat split|]. unfold appends, used, retries, base. by rewrite Hr2. }
  rewrite Hr, Hb in Hs. unfold mbind at 1, M_bind at 1, attempt. rewrite Hrun. destruct res as [c|e].
  - destruct (handled_report a WorkloadRunning c _ w w2 (fun u => charge u (Assignment_Resources a)) Hw2)
      as (cs & w' & Hrep & Hh); [done| |exists cs, (Some WorkloadRunning), w'; by split].
    by apply (carried_started _ _ _ fs rs []).
  - destruct (cleanup_run (Assignment_WorkloadID a) w2) as (fs' & w3 & Hc & Hcs3 & Hfs' & Hu3 & Hr3 & Hb3).
    rewrite (bind_Ok _ _ _ _ _ Hc).
    destruct (handled_report_id a WorkloadFailed "" ((fs ++ rs) ++ fs') w w3) as (cs & w' & Hrep & Hh);
      [eapply appends_trans; [exact Hw2|by repeat split]|done| |exists cs, (Some WorkloadFailed), w'; by split].
    rewrite <- app_assoc. by eapply carried_failed.
Qed.

Lemma handle_process n a w : 0 < retries w <= i64_max ->
  exists cs st w', process n a w = (Ok (n +! 1), w') /\ handled a cs st w w'.
Proof.
  intros Hret. unfold process. destruct (String.eqb_spec (action_of a) "delete") as [Hd|Hd].
  { destruct (handle_delete a w Hd) as (cs & st & w' & Hp & Hh). exists cs, st, w'.
    by rewrite (bind_Ok _ _ _ _ _ Hp). }
  destruct (String.eqb_spec (action_of a) "create") as [Hc|Hc].
  { destruct (handle_create a w Hc Hret) as (cs & st & w' & Hp & Hh). exists cs, st, w'.
    by rewrite (bind_Ok _ _ _ _ _ Hp). }
  exists [], None, w. split; [done|]. split; [by rewrite app_nil_r|]. do 3 (split; [done|]).
  by apply carried_unknown.
Qed.

(** No assignment leads to more starts than there are retries. *)
Lemma carried_starts n b a cs st : carried n b a cs st -> (length (answers cs) <= n)%nat.
Proof.
  assert (Hv : forall l, visible cs = l -> Forall (fun c => forall i im s, c <> CallRun i im s) l -> answers cs = []).
  { intros l <-. unfold visible, answers. induction cs as [|[m c] cs IH]; [done|]. cbn.
    destruct c; cbn; intros Hl; try (inversion Hl; subst; by apply IH); try by apply IH.
    inversion Hl as [|? ? Hx]. by destruct (Hx workloadID image imagePullSecret). }
  destruct 1 as [errs c _ Hn Ha _|errs e _ Hn Ha _|errs m d _ Hn Ha _ _ _|m c _ Hvis _ _ _|m _ Hvis _ _
    |m e _ Hvis _ _|_ _ ->]; try (rewrite (Hv _ Hvis) by (by repeat constructor); cbn; lia).
  - rewrite Ha, length_app, length_fmap. cbn. lia.
  - rewrite Ha, length_fmap, length_app. cbn. lia.
  - rewrite Ha, length_fmap. lia.
  - cbn. lia.
Qed.

(** ** The batch *)

Lemma process_all l n w : 0 < retries w <= i64_max ->
  exists css sts w', fold_m l n process w = (Ok (foldl (fun n _ => n +! 1) n l), w')
  /\ w'.(wk_calls) = w.(wk_calls) ++ concat css
  /\ Forall3 (carried (Z.to_nat (retries w)) (base w)) l css sts
  /\ used w' = foldl account (used w) (zip l sts).
Proof.
  revert n w. induction l as [|a l IH]; intros n w Hret; cbn [fold_m].
  { exists [], [], w. split; [done|]. split; [by rewrite app_nil_r|]. by split; [constructor|]. }
  destruct (handle_process n a w Hret) as (cs & st & w1 & Hp & Hcs & Hu & Hr & Hb & Hc).
  rewrite (bind_Ok _ _ _ _ _ Hp).
  destruct (IH (n +! 1) w1) as (css & sts & w' & Hrun & Hcss & Hall & Hu'); [by rewrite Hr|].
  exists (cs :: css), (st :: sts), w'. split; [exact Hrun|]. split; [cbn; by rewrite Hcss, Hcs, app_assoc|].
  split; [constructor; [done|by rewrite Hr, Hb in Hall]|]. cbn [zip zip_with foldl]. by rewrite Hu', Hu.
Qed.


(** ** The containers of the node *)

Lemma omap_fmap_Some {A B D} (f : A -> B) (g : B -> option D) (h : A -> D) (l : list A) :
  (forall x, g (f x) = Some (h x)) -> omap g (f <$> l) = h <$> l.
Proof. intros Hg. induction l as [|x l IH]; cbn; [done|]. by rewrite Hg, IH. Qed.

Lemma omap_fmap_None {A B D} (f : A -> B) (g : B -> option D) (l : list A) :
  (forall x, g (f x) = None) -> omap g (f <$> l) = [].
Proof. intros Hg. induction l as [|x l IH]; cbn; [done|]. by rewrite Hg. Qed.

(** A loop of calls whose answers are ignored. *)
Lemma for_each_calls {A} (l : list A) (P : A -> Prop) `{!forall x, Decision (P x)} (call : A -> Call)
    (m : A -> M Worker unit) w :
  (forall x w, m x w = (Ok tt, if decide (P x)
     then w <| wk_calls ::= fun cs => cs ++ [(w.(wk_tick), call x)] |> <| wk_tick ::= S |> else w)) ->
  exists w', for_each l m w = (Ok tt, w') /\ w'.(wk_calls).*2 = w.(wk_calls).*2 ++ (call <$> filter P l)
    /\ w'.(wk_runner) = w.(wk_runner).
Proof.
  intros Hm. revert w. induction l as [|x l IH]; intros w; cbn [for_each].
  { exists w. by rewrite app_nil_r. }
  rewrite (bind_Ok _ _ _ _ _ (Hm x w)), filter_cons.
  case_decide; (match goal with |- exists _, for_each l m ?v = _ /\ _ => destruct (IH v) as (w' & Hrun & Hc & Hr) end);
    exists w'; (split; [exact Hrun|]); rewrite Hc, Hr; [|done].
  unfold set. cbn. by rewrite fmap_app, <- app_assoc.
Qed.

(** The pass over the node's containers reports exactly the desired workloads
    that have none as failed, stops exactly the containers of workloads that
    are not desired, and leaves the count of resources in use alone. *)
Lemma ReconcileRuntime_exact desired actual w :
  client_ListNodeWorkloads w.(wk_tick) w.(wk_runner).(rn_nodeID) = Ok desired ->
  runtime_ListManagedWorkloads (S w.(wk_tick)) = Ok actual ->
  let wanted := desired_map desired in
  exists w', ReconcileRuntime w = (Ok tt, w') /\ used w' = used w
    /\ reports w' = reports w ++ ((fun kv => (kv.1, WorkloadFailed, ""))
         <$> filter (fun kv => actual !! kv.1 = None) (map_to_list wanted))
    /\ stops w' = stops w ++ filter (fun kv => wanted !! kv.1 = None) (map_to_list actual).
Proof.
  intros Hd Ha wanted. unfold ReconcileRuntime, mbind at 1 2 3, M_bind at 1 2 3, runner, interact. cbv beta iota.
  rewrite Hd. cbv zeta. cbn [wk_tick set eta_Worker]. rewrite Ha. fold wanted.
  match goal with |- context [(_ ≫= _) ?v] => set (w0 := v) end.
  match goal with |- context [for_each (map_to_list wanted) ?m] =>
    destruct (for_each_calls (map_to_list wanted) (fun kv => actual !! kv.1 = None)
      (fun kv => CallReport kv.1 WorkloadFailed "") m w0) as (w1 & H1 & Hc1 & Hr1) end.
  { intros kv v. case_bool_decide; case_decide; [by rewrite run_report|done..]. }
  rewrite (bind_Ok _ _ _ _ _ H1).
  match goal with |- context [for_each (map_to_list actual) ?m] =>
    destruct (for_each_calls (map_to_list actual) (fun kv => wanted !! kv.1 = None)
      (fun kv => CallStop kv.1 kv.2) m w1) as (w2 & H2 & Hc2 & Hr2) end.
  { intros kv v. case_bool_decide; case_decide; [|done..].
    unfold ignore, mbind, M_bind, attempt, StopWorkload, interact.
    by destruct (runtime_StopWorkload _ _ _). }
  exists w2. split; [exact H2|]. unfold used, reports, stops. rewrite Hr2, Hr1, Hc2, Hc1, !omap_app.
  unfold w0, set. cbn [wk_calls]. rewrite !fmap_app, !omap_app. cbn [omap list_omap]. rewrite !app_nil_r.
  split; [done|]. split.
  - rewrite (omap_fmap_Some _ _ (fun kv => (kv.1, WorkloadFailed, ""))),
      (omap_fmap_None (fun kv => CallStop kv.1 kv.2)) by done. by rewrite app_nil_r.
  - rewrite (omap_fmap_None (fun kv : string * Workload => CallReport kv.1 WorkloadFailed "")) by done.
    rewrite (omap_fmap_Some _ _ (fun kv => kv)), app_nil_r, list_fmap_id by (by intros []). done.
Qed.

End WorkerTheorems.
