(* ===== verification/EndToEnd.v ===== *)
(** * Server and agent together

    An assignment queued by the control plane is polled by the agent of its
    node, carried out, and reported back.  This file runs the two sides
    against each other: the agent of Worker.v polls what [PollAssignments]
    hands out, and its status reports are replayed, in the order in which it
    sent them, through [ReportWorkloadStatus].

    [Fleet] is what the reports are meant to maintain: the workloads by name
    and the resources in use by node, with one step per report.  The store
    refines it ([tracks]). *)

From Stdlib Require Import Ascii String.
From Corelib Require Import SpecFloat.
From S2P Require Import Prelude GoLang GoText GoFloat GoSort GoTime Effects Model Scheduler Badger.
From S2P Require Import World.
From S2P Require Import Store StoreFacts StoreTheorems Events Secrets Rollout Placement Reconcile.
From S2P Require Import ReconcileFacts ReconcileTheorems Convergence RolloutTheorems Deployments.
From S2P Require Import Worker.
From S2P Require Import WorkerTheorems.

(** ** An agent whose node works *)

(** The file system and the container runtime do what they are asked. *)
Record working {R : Runtime} {H : Host} : Prop := {
  working_files : forall n, host_error n = None;
  working_run : forall n id image secret, exists c, runtime_RunWorkload n id image secret = Ok c;
  working_stop : forall n id c, runtime_StopWorkload n id c = Ok tt
}.

Arguments working : clear implicits.

Section Agent.
Context {C : AssignmentClient} {R : Runtime} {H : Host}.
Hypothesis works : working R H.

(** The reports that an assignment calls for: a container that the runtime
    has started for this workload, or the end of one. *)
Definition carried_out (a : Assignment) (rs : list (string * string * string)) : Prop :=
  let id := a.(Assignment_WorkloadID) in
  if String.eqb (action_of a) "delete" then rs = [(id, WorkloadTerminated, "")]
  else if String.eqb (action_of a) "create" then
    exists n c, runtime_RunWorkload n id a.(Assignment_Image) a.(Assignment_ImagePullSecret) = Ok c
      /\ rs = [(id, WorkloadRunning, c)]
  else rs = [].

(** The agent's count of the resources in use after an assignment. *)
Definition settle (u : Resource) (a : Assignment) : Resource :=
  if String.eqb (action_of a) "delete" then discharge u a.(Assignment_Resources)
  else if String.eqb (action_of a) "create" then charge u a.(Assignment_Resources)
  else u.

Lemma file_op_ok c f w : exists w', file_op c f w = (Ok tt, w').
Proof. unfold file_op. rewrite (working_files works). by eexists. Qed.

Lemma write_secret_ok dir created f w : exists created' w', write_secret dir created f w = (Ok created', w').
Proof.
  unfold write_secret. cbv zeta. destruct (_ || _); [by eexists _, _|]. unfold os_WriteFile.
  match goal with |- context [file_op ?c ?g ≫= _] => destruct (file_op_ok c g w) as [w1 H1] end.
  rewrite (bind_Ok _ _ _ _ _ H1). by eexists _, _.
Qed.

Lemma write_secrets_ok dir files created w :
  exists created' w', fold_m files created (write_secret dir) w = (Ok created', w').
Proof.
  revert created w. induction files as [|f files IH]; intros created w; cbn [fold_m]; [by eexists _, _|].
  destruct (write_secret_ok dir created f w) as (created1 & w1 & H1). rewrite (bind_Ok _ _ _ _ _ H1). apply IH.
Qed.

Lemma materialize_ok id files w : exists w', materializeSecretFiles id files w = (Ok tt, w').
Proof.
  unfold materializeSecretFiles. destruct (_ =? 0); [by eexists|]. cbv zeta.
  destruct (file_op_ok (CallMkdirAll (secret_dir id)) (fun fs => fs) w) as [w1 H1]. unfold os_MkdirAll. rewrite (bind_Ok _ _ _ _ _ H1).
  destruct (write_secrets_ok (secret_dir id) files [] w1) as (created & w2 & H2).
  rewrite (bind_Ok _ _ _ _ _ H2). by eexists.
Qed.

Lemma runWithBackoff_ok a w :
  1 <= retries w ->
  exists c w', runWithBackoff a w = (Ok c, w')
    /\ runtime_RunWorkload w.(wk_tick) a.(Assignment_WorkloadID) a.(Assignment_Image)
         a.(Assignment_ImagePullSecret) = Ok c
    /\ w'.(wk_calls) = w.(wk_calls) ++ [(w.(wk_tick), run_call a)] /\ w'.(wk_runner) = w.(wk_runner).
Proof.
  intros Hr. unfold runWithBackoff. unfold mbind at 1, M_bind at 1, runner. cbv beta iota.
  unfold retries in Hr. destruct (Z.to_nat _) as [|n] eqn:En; [lia|]. cbn [run_loop].
  destruct (working_run works w.(wk_tick) a.(Assignment_WorkloadID) a.(Assignment_Image)
    a.(Assignment_ImagePullSecret)) as [c Hc].
  unfold mbind, M_bind, attempt, RunWorkload, interact. rewrite Hc. by eexists _, _.
Qed.

(** File operations report nothing. *)
Lemma files_report cs : Forall (fun x : nat * Call => is_file x.2 = true) cs ->
  omap (fun c => match c with CallReport i s c => Some (i, s, c) | _ => None end) cs.*2 = [].
Proof. induction 1 as [|[n c] cs Hc _ IH]; [done|]. cbn in *. by destruct c. Qed.

(** One assignment, carried out. *)
Lemma process_works n a w :
  1 <= retries w ->
  exists rs w', process n a w = (Ok (n +! 1), w') /\ carried_out a rs
    /\ reports w' = reports w ++ rs /\ used w' = settle (used w) a /\ retries w' = retries w.
Proof.
  intros Hr. unfold process, carried_out, settle. cbv zeta. destruct (String.eqb (action_of a) "delete").
  - unfold process_delete. destruct (cleanup_run (Assignment_WorkloadID a) w) as (fs & w1 & Hc & Hcs & Hfs & Hu & Ht & _).
    unfold mbind at 1, M_bind at 1. rewrite (bind_Ok _ _ _ _ _ Hc).
    unfold mbind, M_bind, attempt, StopWorkload, interact. rewrite (working_stop works).
    unfold set_runner, modify. rewrite run_report.
    eexists _, _. split; [reflexivity|]. split; [reflexivity|].
    unfold reports, used, retries, set in *. cbn in *. rewrite Hcs, !fmap_app, !omap_app, (files_report fs) by done.
    cbn. rewrite !app_nil_r. by rewrite Hu, Ht.
  - destruct (String.eqb (action_of a) "create").
    2: { exists [], w. by rewrite app_nil_r. }
    unfold process_create. destruct (materialize_ok (Assignment_WorkloadID a) (Assignment_SecretFiles a) w) as [w1 Hm].
    destruct (filing_materialize (Assignment_WorkloadID a) (Assignment_SecretFiles a) w) as (fs & Hcs & Hfs & Hu & Ht & _).
    rewrite Hm in Hcs, Hu, Ht. cbn [snd] in Hcs, Hu, Ht.
    destruct (runWithBackoff_ok a w1) as (c & w2 & Hrun & Hc & Hcs2 & Hr2); [lia|].
    unfold mbind, M_bind, attempt. rewrite Hm, Hrun. unfold set_runner, modify. rewrite run_report. eexists _, _. split; [reflexivity|].
    split; [by eexists _, _|]. unfold reports, used, retries, set in *. cbn in *.
    rewrite Hcs2, Hcs, !fmap_app, !omap_app, (files_report fs) by done. cbn. by rewrite !app_nil_r, Hr2, Hu, Ht.
Qed.

Lemma process_all_work l n w :
  1 <= retries w ->
  exists rss n' w', fold_m l n process w = (Ok n', w') /\ Forall2 carried_out l rss
    /\ reports w' = reports w ++ concat rss /\ used w' = foldl settle (used w) l.
Proof.
  revert n w. induction l as [|a l IH]; intros n w Hr; cbn [fold_m].
  { exists [], n, w. rewrite app_nil_r. repeat split; constructor. }
  destruct (process_works n a w Hr) as (rs & w1 & Hp & Hc & Hrep & Hu & Ht).
  destruct (IH (n +! 1) w1 ltac:(lia)) as (rss & n' & w' & Hrun & Hall & Hrep' & Hu').
  exists (rs :: rss), n', w'. rewrite (bind_Ok _ _ _ _ _ Hp). split; [exact Hrun|].
  split; [by constructor|]. cbn [concat foldl]. by rewrite Hrep', Hrep, app_assoc, Hu', Hu.
Qed.

Lemma ProcessAssignments_works max l w :
  client_PollAssignments w.(wk_tick) w.(wk_runner).(rn_nodeID) max = Ok l -> 1 <= retries w ->
  exists rss n w', ProcessAssignments max w = (Ok n, w') /\ Forall2 carried_out l rss
    /\ reports w' = reports w ++ concat rss /\ used w' = foldl settle (used w) l.
Proof.
  intros Hp Hr. unfold ProcessAssignments, mbind, M_bind, runner, interact. cbv beta iota. rewrite Hp.
  match goal with |- context [fold_m _ _ _ ?x] => set (w1 := x) end.
  destruct (process_all_work l 0 w1 Hr) as (rss & n & w' & Hrun & Hall & Hrep & Hu).
  exists rss, n, w'. split; [exact Hrun|]. split; [done|]. split; [|done]. rewrite Hrep. f_equal.
  unfold w1, reports, set. cbn. rewrite fmap_app, omap_app. cbn. by rewrite app_nil_r.
Qed.

End Agent.

(** ** What the reports maintain *)

Record Fleet : Type := MkFleet {
  fl_workloads : gmap string Workload;
  fl_used : gmap string Resource
}.

(** A workload without the time of its last write. *)
Definition untimed (x : Workload) : Workload := x <| Workload_UpdatedAt := 0 |>.

(** One report: a workload that has ended disappears and its node gets the
    resources back; any other status is recorded with the container, and a
    failure is counted.  A report on an unknown workload changes nothing. *)
Definition advance (f : Fleet) (r : string * string * string) : Fleet :=
  let '(id, status, containerID) := r in
  match f.(fl_workloads) !! id with
  | None => f
  | Some x =>
      if String.eqb status WorkloadTerminated then
        MkFleet (delete id f.(fl_workloads))
          (alter (fun u => give_back u x.(Workload_Resources)) x.(Workload_NodeID) f.(fl_used))
      else
        MkFleet (<[id := x <| Workload_Status := status |> <| Workload_ContainerID := containerID |>
          <| Workload_RestartCount ::= fun n =>
               if String.eqb status WorkloadFailed then n +! 1 else n |>]> f.(fl_workloads)) f.(fl_used)
  end.

Section Server.
Context {DB : Type} `{!Badger Blob DB, !BadgerLaws Blob DB} {E : Env}.
Implicit Types (db : DB) (w : World DB).

Definition fleet_of db : Fleet :=
  MkFleet (list_to_map ((fun x => (x.(Workload_ID), untimed x)) <$> list_of "workload:" db))
    (list_to_map ((fun n => (n.(Node_ID), n.(Node_Used))) <$> list_of "node:" db)).

(** The reports of an agent reach the server in the order of sending. *)
Definition replay (rs : list (string * string * string)) : M (World DB) unit :=
  for_each rs (fun r => Deployments.ReportWorkloadStatus r.1.1 r.1.2 r.2).

(** ** The fleet of a database *)

(** A listing of a family as a map from names. *)
Lemma lookup_listing {T V} `{!Entity T} p (name : T -> string) (view : T -> V) db i :
  (forall x : T, key_of (inject x) = p +:+ name x) -> db_wf db ->
  (list_to_map ((fun x => (name x, view x)) <$> list_of p db) : gmap string V) !! i
  = view <$> (db_get db (p +:+ i) ≫= project).
Proof.
  intros Hk Hwf. apply option_eq. intros v. rewrite <- elem_of_list_to_map.
  2: { rewrite <- list_fmap_compose. change (fst ∘ _) with name.
       pose proof (list_of_NoDup (X := T) p db Hwf) as Hnd. apply (NoDup_fmap_1 (fun n => p +:+ n)).
       rewrite <- list_fmap_compose. erewrite list_fmap_ext; [exact Hnd|].
       intros j x _. symmetry. apply Hk. }
  rewrite list_elem_of_fmap, fmap_Some. split.
  - intros (x & [= -> ->] & Hin). apply elem_of_list_of in Hin as [_ Hg]; [|done]. rewrite Hk in Hg.
    exists x. rewrite Hg. simpl. by rewrite project_inject.
  - intros (x & Hx & ->). apply bind_Some in Hx as (b & Hg & Hb). apply inject_project in Hb. subst b.
    pose proof (Hwf _ _ Hg) as Hkey. rewrite Hk in Hkey. apply string_app_inj_l in Hkey. subst i.
    exists x. split; [done|]. apply elem_of_list_of; [done|]. rewrite Hk. split; [apply HasPrefix_app|done].
Qed.

Lemma lookup_workload db id : db_wf db ->
  fl_workloads (fleet_of db) !! id = untimed <$> (db_get db (keyWorkload id) ≫= project).
Proof. by apply (lookup_listing (T := Workload) "workload:"). Qed.

Lemma lookup_used db id : db_wf db ->
  fl_used (fleet_of db) !! id = Node_Used <$> (db_get db (keyNode id) ≫= project).
Proof. by apply (lookup_listing (T := Node) "node:"). Qed.

Lemma fleet_eq f g :
  (forall i, fl_workloads f !! i = fl_workloads g !! i) -> (forall i, fl_used f !! i = fl_used g !! i) -> f = g.
Proof. destruct f, g. simpl. intros H1 H2. f_equal; by apply map_eq. Qed.

Lemma fleet_same db db' :
  same_under "workload:" db db' -> same_under "node:" db db' -> fleet_of db' = fleet_of db.
Proof. intros H1 H2. unfold fleet_of. by rewrite (same_under_list _ _ _ H1), (same_under_list _ _ _ H2). Qed.

Lemma fleet_set_workload db (y : Workload) :
  db_wf db ->
  fleet_of (db_set db (keyWorkload y.(Workload_ID)) (BWorkload y))
  = MkFleet (<[y.(Workload_ID) := untimed y]> (fl_workloads (fleet_of db))) (fl_used (fleet_of db)).
Proof.
  intros Hwf. assert (Hwf' : db_wf (db_set db (keyWorkload (Workload_ID y)) (BWorkload y))) by by apply db_wf_set.
  apply fleet_eq; intros i.
  - rewrite lookup_workload, db_get_set by done. cbn [fl_workloads].
    destruct (decide (Workload_ID y = i)) as [<-|Hne]; [by rewrite decide_True, lookup_insert_eq|].
    rewrite decide_False, lookup_insert_ne, lookup_workload; [done..|]. by intros ?%string_app_inj_l.
  - cbn [fl_used]. by rewrite !lookup_used, db_get_set, decide_False by done.
Qed.

Lemma fleet_delete_workload db id :
  db_wf db ->
  fleet_of (db_delete db (keyWorkload id))
  = MkFleet (delete id (fl_workloads (fleet_of db))) (fl_used (fleet_of db)).
Proof.
  intros Hwf. pose proof (db_wf_delete db (keyWorkload id) Hwf) as Hwf'. apply fleet_eq; intros i.
  - rewrite lookup_workload, db_get_delete by done. cbn [fl_workloads].
    destruct (decide (id = i)) as [<-|Hne]; [by rewrite decide_True, lookup_delete_eq|].
    rewrite decide_False, lookup_delete_ne, lookup_workload; [done..|]. by intros ?%string_app_inj_l.
  - cbn [fl_used]. by rewrite !lookup_used, db_get_delete, decide_False by done.
Qed.

Lemma fleet_set_node db (n : Node) :
  db_wf db ->
  fleet_of (db_set db (keyNode n.(Node_ID)) (BNode n))
  = MkFleet (fl_workloads (fleet_of db)) (<[n.(Node_ID) := n.(Node_Used)]> (fl_used (fleet_of db))).
Proof.
  intros Hwf. assert (Hwf' : db_wf (db_set db (keyNode (Node_ID n)) (BNode n))) by by apply db_wf_set.
  apply fleet_eq; intros i.
  - cbn [fl_workloads]. by rewrite !lookup_workload, db_get_set, decide_False by done.
  - rewrite lookup_used, db_get_set by done. cbn [fl_used].
    destruct (decide (Node_ID n = i)) as [<-|Hne]; [by rewrite decide_True, lookup_insert_eq|].
    rewrite decide_False, lookup_insert_ne, lookup_used; [done..|]. by intros ?%string_app_inj_l.
Qed.

(** ** One report *)

Hypothesis no_faults : forall t, env_dberr t = None.

Lemma get_run {T} `{!Entity T} k w : get (T := T) k w = (get_in k w.(w_db), w <| w_tick ::= S |>).
Proof. unfold get. by rewrite run_View. Qed.

(** What every step below keeps: a readable database with storable nodes. *)
Definition healthy w : Prop := wf w /\ nodes_storable w.

Lemma healthy_frame w w' :
  healthy w -> wf w' -> same_under "node:" w.(w_db) w'.(w_db) -> healthy w'.
Proof.
  intros [_ Hn] Hw Hs. split; [done|]. unfold nodes_storable. by rewrite (same_under_list _ _ _ Hs).
Qed.

(** A step that leaves workloads and nodes alone. *)
Lemma fleet_frame {A} (m : M (World DB) A) w :
  steps (keeps_db db_wf) m -> steps (dbrel (same_under "workload:")) m -> steps (dbrel (same_under "node:")) m ->
  healthy w -> healthy (m w).2 /\ fleet_of (m w).2.(w_db) = fleet_of w.(w_db).
Proof.
  intros H1 H2 H3 Hh. split; [|by apply fleet_same; [apply H2|apply H3]].
  apply (healthy_frame w); [done|by apply H1; apply Hh|apply H3].
Qed.

Lemma ignore_Ok {S A} (m : M S A) (s : S) a s' : m s = (Ok a, s') -> ignore m s = (Ok tt, s').
Proof. intros Hm. unfold ignore. by rewrite Hm. Qed.

(** Writing a node that is stored already, with other resources in use. *)
Lemma UpsertNode_used (n : Node) g w :
  healthy w -> db_get w.(w_db) (keyNode n.(Node_ID)) = Some (BNode n) ->
  exists w', UpsertNode (n <| Node_Used ::= g |>) w = (Ok tt, w') /\ healthy w'
    /\ same_under "workload:" w.(w_db) w'.(w_db)
    /\ fleet_of w'.(w_db) = MkFleet (fl_workloads (fleet_of w.(w_db)))
         (<[n.(Node_ID) := g n.(Node_Used)]> (fl_used (fleet_of w.(w_db)))).
Proof.
  intros [Hw Hn] Hg.
  assert (Hj : is_Some (json n)).
  { apply Hn, elem_of_list_of; [done|]. split; [apply (HasPrefix_app "node:")|done]. }
  destruct (UpsertNode_run no_faults (n <| Node_Used ::= g |>) w) as (seen & w' & Hrun & _ & Hdb).
  { exact (storable_used n g n.(Node_LastSeen) Hj). }
  exists w'. split; [exact Hrun|]. assert (Hwf' : wf w') by (unfold wf; rewrite Hdb; by apply db_wf_set).
  split; [|split].
  - split; [done|]. intros m Hm. apply elem_of_list_of in Hm as [Hp Hm]; [|done]. rewrite Hdb, db_get_set in Hm.
    case_decide; [injection Hm as <-; by apply storable_used|]. by apply Hn, elem_of_list_of.
  - rewrite Hdb. by apply same_prefix_set.
  - rewrite Hdb. exact (fleet_set_node _ (n <| Node_Used ::= g |> <| Node_LastSeen := seen |>) Hw).
Qed.

(** The document under the key of a family's member. *)
Lemma stored_member {T} `{!Entity T} p `{!Family T p} i db b :
  db_wf db -> db_get db (p +:+ i) = Some b -> exists x : T, b = inject x /\ key_of (inject x) = p +:+ i.
Proof.
  intros Hwf Hg. pose proof (Hwf _ _ Hg) as Hkey.
  assert (Hb : is_Some (project (T := T) b)) by (apply (family_spec (p := p)); rewrite Hkey; apply HasPrefix_app).
  destruct Hb as [x Hb%inject_project]. subst b. by exists x.
Qed.

(** The resources of a workload go back to its node, if the node exists. *)
Lemma release_node_run (x : Workload) w :
  healthy w ->
  exists w', release_node x w = (Ok tt, w') /\ healthy w'
    /\ same_under "workload:" w.(w_db) w'.(w_db)
    /\ fleet_of w'.(w_db) = MkFleet (fl_workloads (fleet_of w.(w_db)))
         (alter (fun u => give_back u x.(Workload_Resources)) x.(Workload_NodeID) (fl_used (fleet_of w.(w_db)))).
Proof.
  intros Hh. pose proof (lookup_used (w_db w) (Workload_NodeID x) (proj1 Hh)) as Hu.
  unfold release_node, GetNode, mbind, M_bind, attempt. rewrite get_run. unfold get_in.
  destruct (db_get (w_db w) (keyNode (Workload_NodeID x))) as [b|] eqn:Hg.
  - destruct (stored_member (T := Node) "node:" _ _ b (proj1 Hh) Hg) as (n & -> & Hkey).
    cbn in Hkey. apply string_app_inj_l in Hkey. rewrite <- Hkey in Hg. rewrite project_inject.
    set (w1 := w <| w_tick ::= S |>).
    destruct (UpsertNode_used n (fun u => give_back u x.(Workload_Resources)) w1 Hh Hg)
      as (w' & Hrun & Hh' & Hs & Hf).
    exists w'. split; [exact (ignore_Ok _ _ _ _ Hrun)|]. split; [done|]. split; [exact Hs|].
    rewrite Hf. f_equal. apply map_eq. intros i. rewrite lookup_insert, lookup_alter, Hkey.
    change (w_db w1) with (w_db w). case_decide; [|done]. subst i. by rewrite Hu.
  - eexists. split; [reflexivity|]. split; [exact Hh|]. split; [done|].
    change (w_db (w <| w_tick ::= S |>)) with (w_db w). apply fleet_eq; [done|]. intros i.
    cbn [fl_used]. rewrite lookup_alter. case_decide; [|done]. subst i. by rewrite Hu.
Qed.

Lemma settle_deployment_ok id w : exists w', settle_deployment id w = (Ok tt, w').
Proof.
  unfold settle_deployment, mbind, M_bind, attempt. destruct (GetDeployment id w) as [[dep|e] w1]; [|by eexists].
  destruct (ListWorkloadsByDeployment _ w1) as [[l|e] w2]; [|by eexists]. cbv zeta.
  destruct (_ <=? _); [|by eexists]. by eexists.
Qed.

(** A report is one step of the fleet. *)
Lemma report_advances id status containerID w :
  healthy w ->
  exists w', Deployments.ReportWorkloadStatus id status containerID w = (Ok tt, w') /\ healthy w'
    /\ fleet_of w'.(w_db) = advance (fleet_of w.(w_db)) (id, status, containerID).
Proof.
  intros Hh. pose proof (lookup_workload (w_db w) id (proj1 Hh)) as Hx. unfold advance. rewrite Hx. clear Hx.
  unfold Deployments.ReportWorkloadStatus, GetWorkload. unfold mbind at 1, M_bind at 1, attempt at 1. rewrite get_run.
  unfold get_in. set (w1 := w <| w_tick ::= S |>). assert (Hh1 : healthy w1) by exact Hh.
  destruct (db_get (w_db w) (keyWorkload id)) as [b|] eqn:Hg; [|by exists w1].
  destruct (stored_member (T := Workload) "workload:" _ _ b (proj1 Hh) Hg) as (x & -> & Hkey).
  cbn in Hkey. apply string_app_inj_l in Hkey. cbn [mbind option_bind]. rewrite project_inject. cbn [fmap option_fmap option_map].
  destruct (String.eqb status WorkloadTerminated).
  - destruct (release_node_run x w1 Hh1) as (w2 & H2 & Hh2 & Hs2 & Hf2). rewrite (bind_Ok _ _ _ _ _ H2).
    assert (H3 : exists w3, DeleteWorkload x.(Workload_ID) w2 = (Ok tt, w3) /\ healthy w3
      /\ fleet_of w3.(w_db) = MkFleet (delete x.(Workload_ID) (fl_workloads (fleet_of w2.(w_db)))) (fl_used (fleet_of w2.(w_db)))).
    { eexists. split; [unfold DeleteWorkload, del; by apply run_Update|]. split; [|by apply fleet_delete_workload, Hh2].
      apply (healthy_frame w2); [done|by apply db_wf_delete, Hh2|].
      intros k Hk. cbn. rewrite db_get_delete, decide_False; [done|]. by intros <-. }
    destruct H3 as (w3 & H3 & Hh3 & Hf3). rewrite (bind_Ok _ _ _ _ _ H3).
    destruct (settle_deployment_ok (Workload_DeploymentID x) w3) as [w4 H4]. rewrite (bind_Ok _ _ _ _ _ H4).
    destruct (fleet_frame (settle_deployment (Workload_DeploymentID x)) w3) as [Hh4 Hf4]; [store_steps..|done|].
    rewrite H4 in Hh4, Hf4. cbn [snd] in Hh4, Hf4. eexists. split; [reflexivity|].
    match goal with |- context [emitEvent ?e] => destruct (fleet_frame (emitEvent e) w4) as [Hh5 Hf5] end; [store_steps..|done|].
    split; [exact Hh5|]. unfold ignore. cbn [snd]. rewrite Hf5, Hf4, Hf3, Hf2, Hkey. reflexivity.
  - match goal with |- context [UpsertWorkload ?y] =>
      destruct (UpsertWorkload_run no_faults y w1) as (t & w2 & H2 & _ & Hdb) end.
    exists w2. split; [exact H2|]. split.
    + apply (healthy_frame w); [done|unfold wf; rewrite Hdb; by apply db_wf_set; [apply Hh|]|].
      rewrite Hdb. by apply same_prefix_set.
    + rewrite Hdb. match goal with |- fleet_of (db_set _ _ (BWorkload ?y)) = _ => 
        etrans; [exact (fleet_set_workload _ y (proj1 Hh))|] end.
      cbn [fl_workloads fl_used]. by rewrite <- Hkey.
Qed.

(** ** All reports of an agent *)

Lemma same_assignments_replay rs : steps (dbrel (same_under "assignment:")) (replay rs).
Proof. unfold replay. store_steps. Qed.

Lemma replay_advances rs w :
  healthy w ->
  exists w', replay rs w = (Ok tt, w') /\ healthy w' /\ fleet_of w'.(w_db) = foldl advance (fleet_of w.(w_db)) rs.
Proof.
  revert w. induction rs as [|[[id status] c] rs IH]; intros w Hh; [by exists w|].
  destruct (report_advances id status c w Hh) as (w1 & H1 & Hh1 & Hf1).
  destruct (IH w1 Hh1) as (w' & H' & Hh' & Hf'). exists w'. unfold replay. cbn [for_each fst snd].
  rewrite (bind_Ok _ _ _ _ _ H1). split; [exact H'|]. split; [done|]. cbn [foldl]. by rewrite Hf', Hf1.
Qed.

(** Polling takes the head of the node's queue and leaves the fleet alone. *)
Lemma poll_frame nodeID max w :
  1 <= max -> make_ok assignment_size max = true -> healthy w ->
  let w' := (PollAssignments nodeID max w).2 in
  let queue db : list Assignment := list_of (keyAssignmentPrefix nodeID) db in
  (PollAssignments nodeID max w).1 = Ok (take (Z.to_nat max) (queue w.(w_db)))
  /\ queue w'.(w_db) = drop (Z.to_nat max) (queue w.(w_db))
  /\ healthy w' /\ fleet_of w'.(w_db) = fleet_of w.(w_db).
Proof.
  intros Hmax Hm Hh. cbv zeta. unfold PollAssignments. destruct (Z.leb_spec max 0); [lia|].
  rewrite (pop_run nodeID max w (proj1 Hh) Hm (no_faults _)). cbn [fst snd].
  set (db' := delete_keys _ _). change (w_db (_ <| w_db := db' |>)) with db'. split; [done|].
  split; [exact (popped_queue nodeID (Z.to_nat max) w.(w_db) (proj1 Hh))|].
  assert (Hw : same_under "workload:" (w_db w) db')
    by (intros k [s ->]%HasPrefix_spec; by apply popped_others).
  assert (Hn : same_under "node:" (w_db w) db')
    by (intros k [s ->]%HasPrefix_spec; by apply popped_others).
  split; [|by apply fleet_same]. apply (healthy_frame w); [done|by apply db_wf_delete_keys, Hh|done].
Qed.

End Server.

(** ** A batch of assignments *)

Section Batch.
Context {R : Runtime}.

(** What becomes of the workload [x] of an assignment that was carried out. *)
Definition outcome (a : Assignment) (x : Workload) (o : option Workload) : Prop :=
  if String.eqb (action_of a) "delete" then o = None
  else if String.eqb (action_of a) "create" then
    exists n c, runtime_RunWorkload n a.(Assignment_WorkloadID) a.(Assignment_Image)
                  a.(Assignment_ImagePullSecret) = Ok c
      /\ o = Some (x <| Workload_Status := WorkloadRunning |> <| Workload_ContainerID := c |>)
  else o = Some x.

Abbreviation name := Assignment_WorkloadID.

Lemma advance_other f r id : r.1.1 <> id -> fl_workloads (advance f r) !! id = fl_workloads f !! id.
Proof.
  destruct r as [[i status] c]. cbn [fst snd]. intros Hne. unfold advance.
  destruct (_ !! i); [|done]. destruct (String.eqb _ _); cbn [fl_workloads].
  - by rewrite lookup_delete_ne.
  - by rewrite lookup_insert_ne.
Qed.

Lemma advance_others rs f id :
  Forall (fun r => r.1.1 <> id) rs -> fl_workloads (foldl advance f rs) !! id = fl_workloads f !! id.
Proof.
  revert f. induction rs as [|r rs IH]; intros f Hrs; [done|]. apply Forall_cons in Hrs as [Hr Hrs].
  cbn [foldl]. rewrite IH by done. by apply advance_other.
Qed.

Lemma carried_out_names a rs : carried_out a rs -> Forall (fun r => r.1.1 = name a) rs.
Proof.
  unfold carried_out. cbv zeta. destruct (String.eqb _ "delete"); [intros ->; by repeat constructor|].
  destruct (String.eqb _ "create"); [|by intros ->]. intros (n & c & _ & ->). by repeat constructor.
Qed.

Lemma batch_names l rss : Forall2 carried_out l rss -> Forall (fun r => r.1.1 ∈ name <$> l) (concat rss).
Proof.
  induction 1 as [|a rs l rss Ha _ IH]; [constructor|]. cbn [concat]. apply Forall_app. split.
  - eapply Forall_impl; [by apply carried_out_names|]. intros r ->. left.
  - eapply Forall_impl; [exact IH|]. intros r Hr. by right.
Qed.

(** Workloads that no assignment names keep their place. *)
Lemma batch_others l rss f id :
  Forall2 carried_out l rss -> id ∉ name <$> l ->
  fl_workloads (foldl advance f (concat rss)) !! id = fl_workloads f !! id.
Proof.
  intros Hl Hid. apply advance_others. eapply Forall_impl; [by apply batch_names|]. intros r Hr <-. by apply Hid.
Qed.

Lemma carried_out_outcome a rs f x :
  carried_out a rs -> fl_workloads f !! name a = Some x -> outcome a x (fl_workloads (foldl advance f rs) !! name a).
Proof.
  unfold carried_out, outcome. cbv zeta. intros Hc Hx. destruct (String.eqb (action_of a) "delete").
  { subst rs. cbn [foldl]. unfold advance. rewrite Hx. cbn. by rewrite lookup_delete_eq. }
  destruct (String.eqb (action_of a) "create"); [|by subst rs].
  destruct Hc as (n & c & Hrun & ->). exists n, c. split; [done|]. cbn [foldl]. unfold advance. rewrite Hx.
  cbn. rewrite lookup_insert_eq. by destruct x.
Qed.

Lemma batch_outcome l rss f :
  Forall2 carried_out l rss -> NoDup (name <$> l) ->
  forall a x, a ∈ l -> fl_workloads f !! name a = Some x ->
    outcome a x (fl_workloads (foldl advance f (concat rss)) !! name a).
Proof.
  intros Hl. revert f. induction Hl as [|b rs l rss Hb Hl IH]; intros f Hnd a x Ha Hx; [by apply not_elem_of_nil in Ha|].
  cbn in Hnd. apply NoDup_cons in Hnd as [Hnb Hnd]. cbn [concat]. rewrite foldl_app.
  apply elem_of_cons in Ha as [->|Ha].
  - rewrite (batch_others l) by done. by apply carried_out_outcome.
  - apply IH; [done..|]. rewrite advance_others; [done|].
    eapply Forall_impl; [by apply carried_out_names|]. intros r -> Heq. apply Hnb. rewrite Heq.
    by apply list_elem_of_fmap_2.
Qed.

End Batch.

(** ** The round trip of an assignment *)

Section EndToEnd.
Context {DB : Type} `{!Badger Blob DB, !BadgerLaws Blob DB} {E : Env}.
Context {C : AssignmentClient} {R : Runtime} {H : Host}.
Implicit Types (w : World DB).

Lemma same_under_longer p s : forall db db' : DB, same_under p db db' -> same_under (p +:+ s) db db'.
Proof.
  intros db db' Hs k [t ->]%HasPrefix_spec. apply Hs. rewrite string_app_assoc. apply HasPrefix_app.
Qed.

(** C5: assignments are carried out end to end.  The agent of a node whose
    file system and runtime work polls the server and works through what it is
    given; its reports, in the order of sending, are taken by the server.
    Then both sides end without an error; the agent has taken exactly the
    first [max] assignments of the node's queue and the others wait; the
    agent's count of resources follows the assignments; the workloads and the
    resources per node that the server stores have moved by one step of
    [advance] per report; workloads that no assignment names are as before;
    and when the assignments name different workloads, each stored workload
    named by a create assignment is Running with a container identifier that
    the runtime returned for it, and each one named by a delete assignment is
    gone. *)
Theorem assignments_carried_out max k w :
  (forall t, env_dberr t = None) -> healthy w -> 1 <= max -> make_ok assignment_size max = true ->
  working R H -> 1 <= retries k ->
  let nodeID := k.(wk_runner).(rn_nodeID) in
  let queue w : list Assignment := list_of (keyAssignmentPrefix nodeID) w.(w_db) in
  let batch := take (Z.to_nat max) (queue w) in
  let names := Assignment_WorkloadID <$> batch in
  let workload id w := fl_workloads (fleet_of w.(w_db)) !! id in
  client_PollAssignments k.(wk_tick) nodeID max = (PollAssignments nodeID max w).1 ->
  exists n k' rs w',
    ProcessAssignments max k = (Ok n, k') /\ reports k' = reports k ++ rs
    /\ (PollAssignments nodeID max ;; replay rs) w = (Ok tt, w')
    /\ queue w' = drop (Z.to_nat max) (queue w)
    /\ used k' = foldl settle (used k) batch
    /\ fleet_of w'.(w_db) = foldl advance (fleet_of w.(w_db)) rs
    /\ (forall id, id ∉ names -> workload id w' = workload id w)
    /\ (NoDup names -> forall a x, a ∈ batch -> workload a.(Assignment_WorkloadID) w = Some x ->
          outcome a x (workload a.(Assignment_WorkloadID) w')).
Proof.
  intros Hf Hh Hmax Hm Hwork Hr nodeID queue batch names workload Hp.
  destruct (poll_frame Hf nodeID max w Hmax Hm Hh) as (Hpoll & Hq & Hh1 & Hf1). rewrite Hpoll in Hp.
  destruct (ProcessAssignments_works Hwork max batch k Hp Hr) as (rss & n & k' & Hrun & Hall & Hrep & Hu).
  set (w1 := (PollAssignments nodeID max w).2) in *.
  destruct (replay_advances Hf (concat rss) w1 Hh1) as (w' & Hreplay & _ & Hf'). rewrite Hf1 in Hf'.
  exists n, k', (concat rss), w'. split; [done|]. split; [done|]. split.
  { assert (Hpair : PollAssignments nodeID max w = (Ok batch, w1))
      by (rewrite (surjective_pairing (PollAssignments nodeID max w)); by f_equal).
    by rewrite (bind_Ok _ _ _ _ _ Hpair). }
  split.
  { unfold queue. rewrite <- Hq. apply same_under_list.
    pose proof (same_assignments_replay (concat rss) w1) as Hs. rewrite Hreplay in Hs.
    by apply (same_under_longer "assignment:"). }
  split; [done|]. split; [done|]. unfold workload. rewrite Hf'. split.
  - intros id Hid. by apply batch_others with batch.
  - intros Hnd a x Ha Hx. by apply batch_outcome with batch.
Qed.

End EndToEnd.
