(* ===== verification/Availability.v ===== *)
(** * From reports to a stable deployment

    When a rollout has placed its replicas the agents report them as running.  This file shows that the reports leave
    the number of active workloads alone, and that the next pass of the
    reconciler records the deployment as running, stable and available. *)

From Stdlib Require Import Ascii String.
From Corelib Require Import SpecFloat.
From S2P Require Import Prelude GoLang GoText GoFloat GoSort GoTime Effects Model Scheduler Badger.
From S2P Require Import World.
From S2P Require Import Store StoreFacts StoreTheorems Events Secrets Rollout Placement Reconcile.
From S2P Require Import ReconcileFacts ReconcileTheorems Convergence RolloutTheorems Deployments.
From S2P Require Import EndToEnd.

(** ** A complete set of replicas *)

(** As many active workloads as wanted, of the current revision, running. *)
Record complete (d : Deployment) (l : list Workload) : Prop := {
  complete_count : lenZ (activeWorkloads l) = d.(Deployment_Spec).(DeploymentSpec_Replicas);
  complete_new : forall x, x ∈ activeWorkloads l -> x.(Workload_Version) = d.(Deployment_CurrentRevision);
  complete_running : forall x, x ∈ activeWorkloads l -> is_running x = true
}.

(** What the reconciler records of it. *)
Definition available (d d' : Deployment) : Prop :=
  let replicas := d.(Deployment_Spec).(DeploymentSpec_Replicas) in
  let s := d'.(Deployment_RolloutStatus) in
  d'.(Deployment_ID) = d.(Deployment_ID) /\ d'.(Deployment_Status) = DeploymentRunning
  /\ s.(DeploymentRolloutStatus_Phase) = "Stable"
  /\ s.(DeploymentRolloutStatus_ReadyReplicas) = replicas
  /\ s.(DeploymentRolloutStatus_UpdatedReplicas) = replicas
  /\ s.(DeploymentRolloutStatus_UnavailableReplicas) = 0
  /\ d'.(Deployment_ObservedGeneration) = d.(Deployment_Generation)
  /\ (exists c, c ∈ d'.(Deployment_Conditions)
        /\ c.(DeploymentCondition_Type) = ConditionAvailable /\ c.(DeploymentCondition_Status) = true).

Lemma setCondition_in l c : c ∈ setCondition l c.
Proof.
  unfold setCondition. cbv zeta. destruct (existsb _ l) eqn:Hex; [|set_solver].
  apply existsb_exists in Hex as (c' & Hin & Heq). apply list_elem_of_In, in_map_iff. exists c'. by rewrite Heq.
Qed.

Lemma setCondition_other l c c' :
  c ∈ l -> c.(DeploymentCondition_Type) <> c'.(DeploymentCondition_Type) -> c ∈ setCondition l c'.
Proof.
  intros Hin Hne. unfold setCondition. cbv zeta.
  assert (Hmap : c ∈ List.map (fun c0 => if String.eqb c0.(DeploymentCondition_Type) c'.(DeploymentCondition_Type)
    then c' else c0) l).
  { apply list_elem_of_In, in_map_iff. exists c. apply String.eqb_neq in Hne. rewrite Hne. by rewrite <- list_elem_of_In. }
  destruct (existsb _ l); [done|]. by apply elem_of_app; left.
Qed.

Lemma no_victims c : pickScaleDownVictims [] c = [].
Proof.
  pose proof (pickScaleDownVictims_length [] c) as Hl. apply length_zero_iff_nil.
  change (activeWorkloads []) with (@nil Workload) in Hl. change (lenZ (@nil Workload)) with 0 in Hl.
  unfold lenZ in Hl. lia.
Qed.

Lemma json_available d d' y : json d' = Some y -> available d d' -> available d y.
Proof. unfold json, JSON_Deployment. destruct (_ && _); [|done]. by intros [= <-]. Qed.

Section Complete.
Variable d : Deployment.
Variable l : list Workload.
Hypothesis all : complete d l.
Abbreviation R := (d.(Deployment_Spec).(DeploymentSpec_Replicas)).
Abbreviation rev := (d.(Deployment_CurrentRevision)).

Lemma complete_current : activeForRevision (activeWorkloads l) rev = activeWorkloads l.
Proof. apply filter_all. intros x Hx. by apply Z.eqb_eq, (complete_new _ _ all). Qed.

Lemma complete_old : oldRevisionWorkloads (activeWorkloads l) rev = [].
Proof.
  pose proof (filter_split_perm (fun x => x.(Workload_Version) =? rev) (activeWorkloads l)) as Hp.
  change (activeForRevision (activeWorkloads l) rev ++ oldRevisionWorkloads (activeWorkloads l) rev
    ≡ₚ activeWorkloads l) in Hp. rewrite complete_current in Hp.
  apply Permutation_length in Hp. rewrite length_app in Hp. apply length_zero_iff_nil. lia.
Qed.

Lemma complete_ready : runningCountFromSlice (activeWorkloads l) = R.
Proof.
  unfold runningCountFromSlice. rewrite filter_all; [apply (complete_count _ _ all)|apply (complete_running _ _ all)].
Qed.

Lemma complete_target : rollout_target d l = (R, "Progressing").
Proof. unfold rollout_target. cbv zeta. by rewrite complete_current, Z.sub_diag, andb_false_r. Qed.

Lemma complete_create : Z.to_nat (to_create d l) = 0%nat.
Proof.
  unfold to_create. cbv zeta. rewrite complete_target, complete_current, (complete_count _ _ all). cbn [fst].
  rewrite Z.sub_diag, minInt_spec. change (clamp0 (wrap64 0)) with 0. lia.
Qed.

Context {DB : Type} `{!Badger Blob DB, !BadgerLaws Blob DB} {E : Env}.
Implicit Types (w : World DB).
Hypothesis no_faults : forall t, env_dberr t = None.

(** The workloads listed for the deployment are [l]. *)
Definition lists w : Prop := wf w /\ of_deployment d.(Deployment_ID) (list_of "workload:" w.(w_db)) = l.

Lemma replicas_listed w :
  lists w -> ListWorkloadsByDeployment d.(Deployment_ID) w = (Ok l, w <| w_tick ::= S |>).
Proof. intros [Hw Hl]. by rewrite ListByDeployment_run, Hl. Qed.

Lemma refresh_run w :
  lists w -> activeWorkloadsAfterRefresh d.(Deployment_ID) w = (Ok (activeWorkloads l), w <| w_tick ::= S |>).
Proof.
  intros Hl. unfold activeWorkloadsAfterRefresh, mbind, M_bind, attempt. by rewrite (replicas_listed w Hl).
Qed.

Lemma complete_scale_down w :
  lists w ->
  exists w', scale_down d.(Deployment_ID) d (activeWorkloads l) w = (Ok tt, w') /\ w'.(w_db) = w.(w_db).
Proof.
  intros Hl. unfold scale_down. cbv zeta. rewrite complete_old. cbn [lenZ].
  rewrite no_victims. unfold mbind at 1, M_bind at 1.
  destruct (0 <? _); cbn [for_each]; cbn [mret M_ret];
    rewrite (bind_Ok _ _ _ _ _ (replicas_listed w Hl)), (complete_count _ _ all), Z.sub_diag;
    change (0 <? wrap64 0) with false; by eexists.
Qed.

Lemma on_time_run w :
  on_time d -> exists w', deadline_passed d w = (Ok false, w') /\ w'.(w_db) = w.(w_db).
Proof.
  intros Ht. unfold deadline_passed, on_time in *. cbv zeta in *. destruct (isRolloutInProgress _); [|by eexists].
  destruct (Z.ltb_spec 0 (RolloutSpec_ProgressDeadlineSeconds (DeploymentSpec_Rollout (Deployment_Spec d))));
    [|by eexists].
  destruct (IsZero _) eqn:Hz; [by eexists|].
  unfold mbind, M_bind, now, ask, mret, M_ret. cbn. rewrite Ht by done. by eexists.
Qed.

(** The status part stores a deployment that is available. *)
Lemma complete_finish phase w :
  lists w -> writable d ->
  exists d' w', finish_reconcile d phase w = (Ok tt, w') /\ available d d'
    /\ db_get w'.(w_db) (keyDeployment d.(Deployment_ID)) = Some (BDeployment d').
Proof.
  intros Hl Hd. unfold finish_reconcile. rewrite (bind_Ok _ _ _ _ _ (refresh_run w Hl)). cbv zeta.
  rewrite complete_current, complete_old, complete_ready, (complete_count _ _ all), Z.sub_diag, Z.leb_refl.
  change (clamp0 (wrap64 0)) with 0. change ((lenZ [] =? 0) && true && (0 =? 0)) with true. cbv iota.
  unfold touch_rollout, with_condition, touch, now, ask, mbind, M_bind, mret, M_ret. cbn beta iota zeta.
  match goal with |- context [Store.UpdateDeployment ?D] => set (d' := D) end.
  destruct (same_spec_kin d d' eq_refl eq_refl eq_refl eq_refl eq_refl) as [_ Hw].
  destruct (Hw Hd) as [y Hy]. exists y. unfold ignore. cbv beta iota.
  unfold Store.UpdateDeployment. rewrite (put_run _ d' y _ no_faults Hy). eexists. split; [reflexivity|]. split.
  - apply (json_available d d' y Hy). unfold available. cbv zeta.
    do 7 (split; [reflexivity|]). eexists (MkDeploymentCondition ConditionAvailable true _ _ _). split; [|by split].
    do 2 (apply setCondition_other; [|done]). apply setCondition_in.
  - change (w_db (?a <| w_db := ?x |>)) with x. by rewrite db_get_set, decide_True.
Qed.

(** A pass over a complete deployment. *)
Lemma complete_pass w :
  lists w -> writable d -> on_time d ->
  exists d' w', reconcile_prepared d.(Deployment_ID) d w = (Ok tt, w') /\ available d d'
    /\ db_get w'.(w_db) (keyDeployment d.(Deployment_ID)) = Some (BDeployment d')
    /\ same_under "workload:" w.(w_db) w'.(w_db).
Proof.
  intros Hl Hd Ht. unfold reconcile_prepared. destruct (on_time_run w Ht) as (w1 & H1 & Hdb1).
  rewrite (bind_Ok _ _ _ _ _ H1). assert (Hl1 : lists w1) by (unfold lists, wf; by rewrite Hdb1).
  rewrite (bind_Ok _ _ _ _ _ (replicas_listed w1 Hl1)), complete_target, complete_create. cbn [create_workloads].
  set (w2 := w1 <| w_tick ::= S |>). assert (Hl2 : lists w2) by exact Hl1.
  unfold mbind at 1, M_bind at 1. cbn [mret M_ret]. rewrite (bind_Ok _ _ _ _ _ (replicas_listed w2 Hl2)).
  set (w3 := w2 <| w_tick ::= S |>). assert (Hl3 : lists w3) by exact Hl1.
  change (negb (String.eqb "Progressing" "Canary")) with true. cbv iota.
  destruct (complete_scale_down w3 Hl3) as (w4 & H4 & Hdb4). rewrite (bind_Ok _ _ _ _ _ H4).
  destruct (complete_finish "Progressing" w4) as (d' & w' & Hrun & Hav & Hst);
    [unfold lists, wf; by rewrite Hdb4|done|].
  exists d', w'. split; [exact Hrun|]. split; [done|]. split; [done|].
  assert (Hs : steps (dbrel (same_under "workload:")) (finish_reconcile (DB := DB) d "Progressing")) by store_steps.
  specialize (Hs w4). rewrite Hrun in Hs. unfold dbrel in Hs. rewrite Hdb4 in Hs. cbn [snd] in Hs.
  by rewrite <- Hdb1.
Qed.

End Complete.

(** ** Reports that workloads run *)

Section Reports.
Context {DB : Type} `{!Badger Blob DB, !BadgerLaws Blob DB} {E : Env}.
Implicit Types (w : World DB).
Hypothesis no_faults : forall t, env_dberr t = None.
Variable id : string.
Variable rev n : Z.

(** [n] workloads of the deployment are active and of revision [rev]; each of
    them is running or about to be reported so by [rs], which reports no
    workload of the deployment that is not active. *)
Record expecting (rs : list (string * string * string)) w : Prop := {
  expecting_wf : wf w;
  expecting_count : nactive id w.(w_db) = n;
  expecting_old : nold id rev w.(w_db) = 0;
  expecting_status : Forall (fun r => r.1.2 = WorkloadRunning) rs;
  expecting_reported : forall x, x ∈ list_of "workload:" w.(w_db) -> counts id x = true ->
    is_running x = true \/ x.(Workload_ID) ∈ rs.*1.*1;
  expecting_active : forall x, x ∈ list_of "workload:" w.(w_db) -> x.(Workload_DeploymentID) = id ->
    x.(Workload_ID) ∈ rs.*1.*1 -> is_active x = true
}.

Lemma stored_workload (x : Workload) w :
  wf w -> x ∈ list_of "workload:" w.(w_db) <-> db_get w.(w_db) (keyWorkload x.(Workload_ID)) = Some (BWorkload x).
Proof.
  intros Hw. rewrite (elem_of_list_of "workload:" _ x Hw). split; [by intros [_ ?]|].
  intros Hg. split; [apply (HasPrefix_app "workload:")|done].
Qed.

(** Nothing is stored under the name that is reported. *)
Lemma expecting_absent r rs w w' :
  expecting (r :: rs) w -> w'.(w_db) = w.(w_db) -> db_get w.(w_db) (keyWorkload r.1.1) = None -> expecting rs w'.
Proof.
  intros [Hw Hc Ho Hs Hr Ha] Hdb Hnone. apply Forall_cons in Hs as [_ Hs].
  split; unfold wf; rewrite ?Hdb; try done.
  - intros x Hx Hcx. destruct (Hr x Hx Hcx) as [?|Hin]; [by left|]. right. cbn in Hin.
    apply elem_of_cons in Hin as [Heq|?]; [|done]. apply stored_workload in Hx; [|done]. congruence.
  - intros x Hx Hd Hin. apply Ha; [done..|]. cbn. by right.
Qed.

(** The workload [x] is stored as [y], running. *)
Lemma expecting_write r rs (x y : Workload) w w' :
  expecting (r :: rs) w -> r.1.1 = x.(Workload_ID) -> x ∈ list_of "workload:" w.(w_db) ->
  y.(Workload_ID) = x.(Workload_ID) -> y.(Workload_DeploymentID) = x.(Workload_DeploymentID) ->
  y.(Workload_Version) = x.(Workload_Version) -> y.(Workload_Status) = WorkloadRunning ->
  w'.(w_db) = db_set w.(w_db) (keyWorkload y.(Workload_ID)) (BWorkload y) -> expecting rs w'.
Proof.
  intros [Hw Hc Ho Hs Hr Ha] Hname Hx Hid Hdep Hver Hst Hdb. apply Forall_cons in Hs as [_ Hs].
  assert (Hy : is_running y = true /\ is_active y = true) by (unfold is_running, is_active; by rewrite Hst).
  assert (Hcxy : counts id y = counts id x).
  { unfold counts. rewrite Hdep, (proj2 Hy). destruct (String.eqb_spec (Workload_DeploymentID x) id) as [He|]; [|done].
    rewrite (Ha x Hx He); [done|]. cbn. rewrite <- Hname. left. }
  assert (Hg : db_get (w_db w) (keyWorkload (Workload_ID y)) = Some (BWorkload x)).
  { rewrite Hid. by apply stored_workload. }
  assert (Hw' : wf w') by (unfold wf; rewrite Hdb; by apply db_wf_set).
  assert (Hin : forall z, z ∈ list_of "workload:" w'.(w_db) -> z = y \/ z ∈ list_of "workload:" w.(w_db)
    /\ z.(Workload_ID) <> r.1.1).
  { intros z Hz. apply stored_workload in Hz; [|done]. rewrite Hdb, db_get_set in Hz. case_decide as Heq.
    - left. congruence.
    - right. split; [by apply stored_workload|]. rewrite Hname, <- Hid. congruence. }
  split; try done.
  - rewrite Hdb, (nactive_set _ _ _ y), Hc, Hg by apply (HasPrefix_app "workload:").
    unfold contributes, holds. cbn. rewrite Hcxy. lia.
  - unfold nold in *. rewrite Hdb, (tally_set _ _ _ y), Ho, Hg by apply (HasPrefix_app "workload:").
    unfold holds, stale. cbn. rewrite Hcxy, Hver. lia.
  - intros z Hz Hcz. destruct (Hin z Hz) as [->|[Hz' Hne]]; [by left; apply Hy|].
    destruct (Hr z Hz' Hcz) as [?|Hn]; [by left|]. right. cbn in Hn. by apply elem_of_cons in Hn as [?|?].
  - intros z Hz Hd Hn. destruct (Hin z Hz) as [->|[Hz' _]]; [apply Hy|]. apply Ha; [done..|]. cbn. by right.
Qed.

Lemma running_report r rs w :
  expecting (r :: rs) w ->
  exists w', ReportWorkloadStatus r.1.1 r.1.2 r.2 w = (Ok tt, w') /\ expecting rs w'
    /\ same_under "deployment:" w.(w_db) w'.(w_db).
Proof.
  intros Hex. pose proof (expecting_wf _ _ Hex) as Hw.
  pose proof (Forall_inv (expecting_status _ _ Hex)) as Hst. cbn beta in Hst.
  unfold ReportWorkloadStatus, GetWorkload. unfold mbind at 1, M_bind at 1, attempt at 1. rewrite get_run by done.
  unfold get_in. set (w1 := w <| w_tick ::= S |>).
  destruct (db_get (w_db w) (keyWorkload r.1.1)) as [b|] eqn:Hg.
  2: { exists w1. split; [done|]. split; [|done]. by apply (expecting_absent r rs w). }
  destruct (stored_member (T := Workload) "workload:" _ _ b Hw Hg) as (x & -> & Hkey).
  cbn in Hkey. apply string_app_inj_l in Hkey. rewrite project_inject, Hst.
  change (String.eqb WorkloadRunning WorkloadTerminated) with false. cbv iota.
  match goal with |- context [UpsertWorkload ?y] =>
    destruct (UpsertWorkload_run no_faults y w1) as (t & w2 & H2 & _ & Hdb) end.
  exists w2. split; [exact H2|]. split.
  - match type of Hdb with w_db w2 = db_set _ _ (BWorkload ?y) => apply (expecting_write r rs x y w w2) end; try done.
    apply stored_workload; [done|]. by rewrite Hkey.
  - rewrite Hdb. by apply same_prefix_set.
Qed.

Lemma running_reports rs w :
  expecting rs w ->
  exists w', replay rs w = (Ok tt, w') /\ expecting [] w' /\ same_under "deployment:" w.(w_db) w'.(w_db).
Proof.
  revert w. induction rs as [|r rs IH]; intros w Hex; [by exists w|].
  destruct (running_report r rs w Hex) as (w1 & H1 & Hex1 & Hs1). destruct (IH w1 Hex1) as (w' & H' & Hex' & Hs').
  exists w'. unfold replay. cbn [for_each]. rewrite (bind_Ok _ _ _ _ _ H1). split; [exact H'|]. split; [done|]. by etrans.
Qed.

End Reports.

Section Availability.
Context {DB : Type} `{!Badger Blob DB, !BadgerLaws Blob DB} {E : Env}.
Implicit Types (w : World DB).

Lemma expecting_complete d w :
  expecting d.(Deployment_ID) d.(Deployment_CurrentRevision) d.(Deployment_Spec).(DeploymentSpec_Replicas) [] w ->
  complete d (of_deployment d.(Deployment_ID) (list_of "workload:" w.(w_db))).
Proof.
  intros [Hw Hc Ho _ Hr _].
  assert (Hin : forall x, x ∈ activeWorkloads (of_deployment d.(Deployment_ID) (list_of "workload:" w.(w_db))) ->
    x ∈ list_of "workload:" w.(w_db) /\ counts d.(Deployment_ID) x = true) by (intros x; apply elem_of_listed).
  split; [exact Hc| |].
  - intros x [Hx Hcx]%Hin. unfold nold, tally in Ho.
    destruct (Z.eqb_spec (Workload_Version x) (Deployment_CurrentRevision d)) as [|Hne]; [done|]. exfalso.
    assert (Hst : x ∈ List.filter (stale d.(Deployment_ID) d.(Deployment_CurrentRevision)) (list_of "workload:" w.(w_db))).
    { apply list_elem_of_In, List.filter_In. rewrite <- list_elem_of_In. split; [done|]. unfold stale.
      rewrite Hcx. apply Z.eqb_neq in Hne. by rewrite Hne. }
    destruct (List.filter _ _); [by apply not_elem_of_nil in Hst|]. rewrite lenZ_cons in Ho.
    pose proof (lenZ_nonneg l). lia.
  - intros x [Hx Hcx]%Hin. destruct (Hr x Hx Hcx) as [?|Hn]; [done|]. by apply not_elem_of_nil in Hn.
Qed.

Lemma prepare_available dep d' : available (prepare dep) d' -> available dep d'.
Proof. unfold available. rewrite prepare_spec, prepare_ID. unfold prepare. by case_match. Qed.

(** C4: a rollout ends in a stable deployment.  A deployment has exactly
    [Replicas] active workloads, all of the current revision (the state in
    which a completed rolling update leaves it), and the agents report those
    that are still pending as running.  When nothing fails and the deadline has not
    passed, the server takes the reports and the next pass of the reconciler
    ends without an error and stores the deployment as Running, in phase
    Stable and with the condition Available, all replicas ready and none
    unavailable, at the generation it observed; the active workloads are as
    many as before. *)
Theorem deployment_becomes_available id dep rs w :
  (forall t, env_dberr t = None) -> db_get w.(w_db) (keyDeployment id) = Some (BDeployment dep) ->
  is_Some (json dep) -> on_time dep ->
  let replicas := dep.(Deployment_Spec).(DeploymentSpec_Replicas) in
  expecting id (Z.max 1 dep.(Deployment_CurrentRevision)) replicas rs w ->
  exists d' w', (replay rs ;; reconcileDeployment id) w = (Ok tt, w') /\ available dep d'
    /\ db_get w'.(w_db) (keyDeployment id) = Some (BDeployment d')
    /\ nactive id w'.(w_db) = replicas.
Proof.
  intros Hf Hg Hj Ht replicas Hex. destruct (running_reports Hf id _ _ rs w Hex) as (w1 & H1 & Hex1 & Hs1).
  pose proof (expecting_wf _ _ _ _ _ Hex _ _ Hg) as Hid. cbn in Hid. apply string_app_inj_l in Hid.
  rewrite (bind_Ok _ _ _ _ _ H1), reconcileDeployment_prepared.
  assert (Hg1 : db_get w1.(w_db) (keyDeployment id) = Some (BDeployment dep))
    by (rewrite (Hs1 (keyDeployment id)); [done|apply (HasPrefix_app "deployment:")]).
  rewrite (bind_Ok _ _ _ _ _ (GetDeployment_run id dep w1 Hf Hg1)).
  set (w2 := w1 <| w_tick ::= S |>). set (d := prepare dep).
  assert (Hd : d.(Deployment_ID) = id) by (unfold d; by rewrite prepare_ID).
  assert (Hall : complete d (of_deployment d.(Deployment_ID) (list_of "workload:" w1.(w_db)))).
  { apply expecting_complete. unfold d. rewrite prepare_revision, prepare_spec. fold d. by rewrite Hd. }
  destruct (complete_pass d _ Hall Hf w2) as (d' & w' & Hrun & Hav & Hst & Hsame).
  - split; [exact (expecting_wf _ _ _ _ _ Hex1)|done].
  - by apply prepare_writable.
  - by apply prepare_on_time.
  - rewrite Hd in Hrun, Hst. exists d', w'. split; [exact Hrun|]. split; [by apply prepare_available|].
    split; [done|]. rewrite (nactive_same _ _ _ Hsame). exact (expecting_count _ _ _ _ _ Hex1).
Qed.

End Availability.
