(* ===== verification/Samples.v ===== *)
(** * Sample inputs

    A concrete environment, with a finite map as the database, and a small
    cluster: the inputs at which the theorems are exercised. *)

From Stdlib Require Import Ascii String.
From Corelib Require Import SpecFloat.
From S2P Require Import Prelude GoLang GoFloat GoSort Effects Model Scheduler Badger Balancer World.
From S2P Require Import Store StoreFacts Secrets Rollout Deployments.

(** A clock that advances by a nanosecond per reading, a database that never
    fails, a sealing that adds nothing. *)
#[export] Instance sample_env : Env := {|
  env_now t := unix_epoch + 1700000000 * Second + Z.of_nat t;
  env_rand _ := 42;
  env_dberr _ := None;
  env_score _ _ _ _ := Err (Errorf "no plugin");
  env_admissionCmd := "";
  env_admission _ _ := AdmissionResponse true "";
  env_kmsKey := "0123456789abcdef0123456789abcdef";
  env_nonce _ := Ok "sample-nonce";
  env_seal _ _ text := text;
  env_open _ _ sealed := Some sealed;
  env_planner := NewPlanner "least-loaded";
  env_nodeTTL := 30 * Second
|}.

#[export] Instance sample_AEAD : AEAD sample_env.
Proof. split; [done|]. by intros t nonce [= <-]. Qed.

Abbreviation DBS := (gmap string Blob).

Definition world (db : DBS) : World DBS := NewOrchestrator db.

Definition empty_world : World DBS := world ∅.

Definition store_all (bs : list Blob) : DBS := foldr (fun b db => db_set db (key_of b) b) ∅ bs.

Lemma store_all_wf bs : db_wf (store_all bs).
Proof. induction bs as [|b bs IH]; [by intros k b|]. by apply db_wf_set. Qed.

Definition sample_health : NodeHealth :=
  MkNodeHealth f_zero f_zero 0 0 NodeFailureHealthy "" false false 0.

Definition sample_node (id : string) (used : Z) : Node :=
  MkNode id "10.0.0.1" (Some ∅) [] (MkResource 2000 4096) (MkResource 2000 4096)
    (MkResource used 256) NodeReady sample_health (unix_epoch + 1700000000 * Second).

Definition sample_rollout (surge unavailable : Z) : RolloutSpec :=
  MkRolloutSpec RolloutStrategyRollingUpdate (MkRollingUpdateSpec unavailable surge)
    (MkCanarySpec false 0) 0 false 0 f_zero 0.

Definition sample_spec (replicas surge unavailable : Z) : DeploymentSpec :=
  MkDeploymentSpec "default" "web" "nginx" "" None None replicas 0 (MkResource 250 256)
    (Some {["app" := "web"]}) None (MkProbeSpec false 0 0) (MkProbeSpec false 0 0)
    (sample_rollout surge unavailable).

Definition sample_deployment (replicas surge unavailable : Z) : Deployment :=
  new_deployment "dep-1" (sample_spec replicas surge unavailable) (unix_epoch + 1600000000 * Second).

Definition sample_workload (id status : string) (version : Z) : Workload :=
  MkWorkload id "dep-1" 0 "n1" "nginx" (MkResource 250 256) status "c" 0 version
    (unix_epoch + 1650000000 * Second) (unix_epoch + 1650000000 * Second).

Definition sample_assignment (id : string) : Assignment :=
  MkAssignment "create" id "n1" "wk-1" "nginx" "" "" [] [] (MkResource 250 256).

Definition sample_endpoint (id : string) (ready : bool) : ServiceEndpoint :=
  MkServiceEndpoint id "svc-1" "wk-1" "n1" "10.0.0.1" 8080 ServiceProtocolTCP ready
    (unix_epoch + 1650000000 * Second).

Definition sample_service : Service :=
  MkService "svc-1" (MkServiceSpec "default" "web" {["app" := "web"]}
    [MkServicePort "http" 80 8080 0 ServiceProtocolTCP] ServiceTypeClusterIP) "10.96.1.1" 30
    (unix_epoch + 1600000000 * Second) (unix_epoch + 1600000000 * Second).

Definition sample_policy : AutoscalerPolicy :=
  MkAutoscalerPolicy "as-1" "dep-1" 1 5 (f_lit 1 2) f_zero "" f_zero false 0 f_zero 30 20 40 0 "" 0 0.

Definition sample_binding (name : string) (parents : list string) : RoleBinding :=
  MkRoleBinding "" name "alice" ["Viewer"; "Editor"] parents
    (unix_epoch + 1600000000 * Second) (unix_epoch + 1600000000 * Second).

(** Two running replicas of revision 1 on one node, one queued assignment. *)
Definition sample_blobs (replicas surge unavailable : Z) : list Blob :=
  [BNode (sample_node "n1" 500); BDeployment (sample_deployment replicas surge unavailable);
   BWorkload (sample_workload "wk-1" WorkloadRunning 1);
   BWorkload (sample_workload "wk-2" WorkloadRunning 1);
   BAssignment (sample_assignment "a-1"); BAssignment (sample_assignment "a-2");
   BService sample_service; BServiceEndpoint (sample_endpoint "ep-1" true)].

Definition sample_world (replicas surge unavailable : Z) : World DBS :=
  world (store_all (sample_blobs replicas surge unavailable)).
