(* ===== verification/Witnesses.v ===== *)
(** * Witnesses

    Each theorem with hypotheses applied at a concrete input where they hold:
    the sample cluster of Samples.v, or small lists of nodes and endpoints. *)

From Stdlib Require Import Ascii String.
From Corelib Require Import SpecFloat.
From S2P Require Import Prelude GoLang GoFloat GoSort Effects Model Scheduler Badger Balancer World.
From S2P Require Import Store StoreFacts StoreTheorems Events Secrets Rollout Placement Reconcile.
From S2P Require Import ReconcileFacts ReconcileTheorems Convergence RolloutTheorems Deployments.
From S2P Require Import Nodes Services.
From S2P Require Import Autoscaler RBAC.
From S2P Require Import Volumes Lease Jobs Invariant Machine JobTheorems NodeTheorems.
From S2P Require Import PlacementTheorems.
From S2P Require Import DeploymentTheorems EndpointTheorems ServiceTheorems Samples.

Definition no_plugin (_ : string) (_ : Node) (_ : Resource) : Res float64 := Err (Errorf "no plugin").

Definition sample_request : Resource := MkResource 250 256.

(** The less loaded of two nodes is selected. *)
Lemma SelectNode_best_witness :
  let r := SelectNode no_plugin (NewPlanner "least-loaded") [sample_node "n1" 500; sample_node "n2" 250]
             sample_request ∅ [] in
  r = Ok (sample_node "n2" 250)
  /\ match r with
     | Ok n => schedulable sample_request ∅ [] n = true
     | Err e => e = ErrNoSchedulableNode
     end.
Proof.
  cbv zeta. split; [vm_compute; reflexivity|].
  generalize (SelectNode_best no_plugin (NewPlanner "least-loaded")
    [sample_node "n1" 500; sample_node "n2" 250] sample_request ∅ []).
  destruct (SelectNode _ _ _ _ _ _); intros H; apply H;
    intros m [->|[->|[]%elem_of_nil]%elem_of_cons]%elem_of_cons _; vm_compute; reflexivity.
Defined.

Lemma schedulable_spec_witness :
  sane_node (sample_node "n1" 500)
  /\ (schedulable sample_request ∅ [] (sample_node "n1" 500) = true ->
      within_capacity (sample_node "n1" 500) sample_request).
Proof.
  assert (Hn : sane_node (sample_node "n1" 500)) by (vm_compute; repeat split; discriminate).
  split; [exact Hn|]. intros Hs.
  destruct (proj1 (schedulable_spec sample_request ∅ [] _ Hn) Hs) as (_ & Hc & _). exact Hc.
Defined.

Definition two_endpoints : list ServiceEndpoint :=
  [sample_endpoint "ep-2" true; sample_endpoint "ep-3" false; sample_endpoint "ep-1" true].

Lemma NewBalancer_ok : Balancer_ok NewBalancer.
Proof. split; intros k; vm_compute; split; discriminate. Qed.

(** Two selections visit both ready endpoints, the unready one is skipped. *)
Lemma round_robin_fair_witness :
  (selects 2 NewBalancer "svc-1" "" two_endpoints).1
  ≡ₚ [Ok (sample_endpoint "ep-1" true); Ok (sample_endpoint "ep-2" true)].
Proof.
  apply (round_robin_fair NewBalancer "svc-1" "" two_endpoints).
  - apply NewBalancer_ok.
  - by left.
  - vm_compute; discriminate.
  - vm_compute; discriminate.
Defined.

Lemma least_connections_min_witness :
  exists ep b', Select NewBalancer "svc-1" StrategyLeastConnections two_endpoints = (Ok ep, b')
  /\ ep.(ServiceEndpoint_Ready) = true.
Proof.
  destruct (least_connections_min NewBalancer "svc-1" two_endpoints) as (ep & b' & H & _ & Hr & _).
  - vm_compute; discriminate.
  - by exists ep, b'.
Defined.

Lemma Select_safe_witness :
  Balancer_ok (Select NewBalancer "svc-1" StrategyLeastConnections two_endpoints).2.
Proof.
  destruct (Select NewBalancer "svc-1" StrategyLeastConnections two_endpoints) as [r b'] eqn:Hs.
  apply (Select_safe NewBalancer "svc-1" StrategyLeastConnections two_endpoints r b').
  - apply NewBalancer_ok.
  - intros k. vm_compute. reflexivity.
  - vm_compute; discriminate.
  - exact Hs.
Defined.

(** ** The store *)

(** A node and an assignment registered through the store are listed. *)
Lemma reachable_listing_witness :
  exists w l, rtc store_step empty_world w
  /\ (listPrefix (T := Node) "node:" w).1 = Ok l /\ sample_node "n1" 500 ∈ l.
Proof.
  set (w := (run_op (OpEnqueueAssignment (sample_assignment "a-1"))
    (run_op (OpUpsertNode (sample_node "n1" 500)) empty_world).2).2).
  assert (Hr : rtc store_step empty_world w).
  { eapply rtc_l; [by eexists|]. eapply rtc_l; [by eexists|]. apply rtc_refl. }
  exists w. destruct (reachable_listing (T := Node) "node:" "" empty_world w) as [_ Hl].
  - intros k. apply lookup_empty.
  - exact Hr.
  - destruct Hl as (l & Hl & Hin); [reflexivity|]. exists l. split; [exact Hr|]. split; [exact Hl|].
    apply Hin. split; vm_compute; reflexivity.
Defined.

(** Of two queued assignments one is delivered and one stays. *)
Lemma PopAssignments_queue_witness :
  (PopAssignments "n1" 1 (sample_world 2 0 0)).1 = Ok [sample_assignment "a-1"]
  /\ list_of (keyAssignmentPrefix "n1") (PopAssignments "n1" 1 (sample_world 2 0 0)).2.(w_db)
     = [sample_assignment "a-2"].
Proof.
  destruct (PopAssignments_queue "n1" 1 (sample_world 2 0 0)) as (Hr & Hq & _).
  - apply store_all_wf.
  - reflexivity.
  - reflexivity.
  - rewrite Hr, Hq. split; vm_compute; reflexivity.
Defined.

(** ** Events and secrets *)

Definition sample_event : Event := event EventInfo "test" "Reason" "message" "" "" "".

(** One subscriber with room for one event, which is delivered. *)
Lemma emitEvent_delivers_witness :
  let w := MkWorld (DB := DBS) ∅ 0 NewBalancer ∅ {[0%nat := MkSubscriber 1 []]} 1 in
  let e := stamp sample_event (env_now 0) (env_rand 1) in
  (emitEvent sample_event w).2.(w_subscribers) !! 0%nat = Some (MkSubscriber 1 [e]).
Proof.
  intros w e. pose proof (emitEvent_delivers sample_event w) as H.
  assert (Hok : is_ok (emitEvent sample_event w).1 = true) by (vm_compute; reflexivity).
  destruct (emitEvent sample_event w) as [r w']. destruct r as [[]|]; [|discriminate].
  destruct H as (_ & _ & Hs).
  - intros ch s Hs. cbn [w w_subscribers] in Hs. apply lookup_singleton_Some in Hs as [<- <-].
    split; [apply Nat.lt_0_1|vm_compute; discriminate].
  - reflexivity.
  - cbn [snd]. rewrite Hs. reflexivity.
Defined.

Lemma decrypt_encrypt_witness :
  exists out w', encryptSecretData {["password" := "hunter2"]} empty_world = (Ok out, w')
    /\ decryptSecretData (Some out) = Some {["password" := "hunter2"]}.
Proof.
  apply (decrypt_encrypt {["password" := "hunter2"]} empty_world).
  - right. vm_compute. lia.
  - intros t. reflexivity.
Defined.

(** ** The reconciler *)

(** Growing from two to three replicas with one surge replica allowed. *)
Lemma reconcileDeployment_bounds_witness :
  nactive "dep-1" (sample_world 3 1 0).(w_db) = 2
  /\ 2 <= nactive "dep-1" (reconcileDeployment "dep-1" (sample_world 3 1 0)).2.(w_db) <= 4.
Proof.
  assert (Hb : nactive "dep-1" (sample_world 3 1 0).(w_db) = 2) by (vm_compute; reflexivity).
  split; [exact Hb|].
  pose proof (reconcileDeployment_bounds "dep-1" (sample_deployment 3 1 0) (sample_world 3 1 0)) as H.
  cbv zeta in H. rewrite Hb in H.
  apply H; [apply store_all_wf|vm_compute; reflexivity| |]; vm_compute; repeat split; discriminate.
Defined.

(** The identifiers of the sample clock, checked by enumeration. *)
Lemma ids_distinct_check n :
  bool_decide (NoDup (id_at <$> seq 0 n)) = true -> ids_distinct n.
Proof.
  rewrite bool_decide_eq_true. intros Hnd i j [Hij Hj] Heq.
  pose proof (NoDup_lookup (id_at <$> seq 0 n) i j (id_at i) Hnd) as H.
  rewrite !list_lookup_fmap, !lookup_seq_lt in H by lia. specialize (H eq_refl). cbn in H.
  rewrite Heq in H. specialize (H eq_refl). lia.
Qed.

Lemma ids_fresh_check n w :
  forallb (fun i => match db_get w.(w_db) (keyWorkload (id_at i)) with None => true | _ => false end)
    (seq 0 n) = true -> ids_fresh (DB := DBS) n w.
Proof.
  rewrite forallb_forall. intros H i Hi. specialize (H i). rewrite in_seq in H.
  specialize (H ltac:(lia)). by destruct (db_get _ _).
Qed.

Definition rolling_world : World DBS :=
  world (store_all [BNode (sample_node "n1" 500);
    BDeployment (sample_deployment 2 1 0 <| Deployment_CurrentRevision := 2 |>);
    BWorkload (sample_workload "wk-1" WorkloadRunning 1); BWorkload (sample_workload "wk-2" WorkloadRunning 1)]).

(** Two workloads of revision 1 are replaced by two of revision 2. *)
Lemma rollout_completes_witness :
  nold "dep-1" 2 rolling_world.(w_db) = 2
  /\ nactive "dep-1" (passes 3 "dep-1" rolling_world).2.(w_db) = 2
  /\ nold "dep-1" 2 (passes 3 "dep-1" rolling_world).2.(w_db) = 0.
Proof.
  split; [vm_compute; reflexivity|].
  pose proof (rollout_completes "dep-1" (sample_deployment 2 1 0 <| Deployment_CurrentRevision := 2 |>)
    (sample_node "n1" 500) 3 100 rolling_world) as H. cbv zeta in H. apply H; clear H.
  - apply store_all_wf.
  - intros t. reflexivity.
  - vm_compute; reflexivity.
  - right. vm_compute. repeat split; discriminate.
  - vm_compute; reflexivity.
  - vm_compute; repeat split; discriminate.
  - vm_compute; repeat split; discriminate.
  - vm_compute; discriminate.
  - vm_compute; eexists; reflexivity.
  - intros _ H. exfalso. revert H. vm_compute. discriminate.
  - intros sm H. vm_compute in H. inversion H.
  - intros n Hn. revert n Hn. apply (proj1 (Forall_forall _ _)). vm_compute. repeat constructor; eexists; reflexivity.
  - apply ids_fresh_check. vm_compute. reflexivity.
  - apply ids_distinct_check. vm_compute. reflexivity.
  - apply Nat.leb_le. vm_compute. reflexivity.
  - apply list_elem_of_In. vm_compute. left. reflexivity.
  - vm_compute. repeat split; discriminate.
Defined.

(** Two replicas wanted, two running: nothing happens to them. *)
Lemma reconcileDeployment_rest_witness :
  list_of (T := Workload) "workload:" (reconcileDeployment "dep-1" (sample_world 2 0 0)).2.(w_db)
  = [sample_workload "wk-1" WorkloadRunning 1; sample_workload "wk-2" WorkloadRunning 1].
Proof.
  pose proof (reconcileDeployment_rest "dep-1" (sample_deployment 2 0 0) (sample_world 2 0 0)) as H.
  cbv zeta in H. rewrite H; clear H.
  - vm_compute; reflexivity.
  - apply store_all_wf.
  - vm_compute; reflexivity.
  - vm_compute; repeat split; discriminate.
  - vm_compute; discriminate.
  - vm_compute; discriminate.
  - vm_compute; reflexivity.
Defined.

Lemma reconcileDeletion_waits_witness :
  db_get (reconcileDeletion "dep-1" (sample_world 2 0 0)).2.(w_db) (keyDeployment "dep-1")
  = Some (BDeployment (sample_deployment 2 0 0)).
Proof.
  apply (reconcileDeletion_waits "dep-1" _ (sample_workload "wk-1" WorkloadRunning 1)).
  - apply store_all_wf.
  - vm_compute; reflexivity.
  - vm_compute. apply list_elem_of_here.
  - reflexivity.
  - discriminate.
Defined.

(** The deployment and its one terminated workload are removed. *)
Definition terminated_world : World DBS :=
  world (store_all [BNode (sample_node "n1" 500); BDeployment (sample_deployment 1 0 0);
    BWorkload (sample_workload "wk-1" WorkloadTerminated 1)]).

Lemma reconcileDeletion_completes_witness :
  (reconcileDeletion "dep-1" terminated_world).1 = Ok tt
  /\ db_get (reconcileDeletion "dep-1" terminated_world).2.(w_db) (keyWorkload "wk-1") = None
  /\ db_get (reconcileDeletion "dep-1" terminated_world).2.(w_db) (keyNode "n1")
     = Some (BNode (sample_node "n1" 500)).
Proof.
  destruct (reconcileDeletion_completes "dep-1" (sample_deployment 1 0 0) terminated_world)
    as [Hr Hk].
  - apply store_all_wf.
  - intros t. reflexivity.
  - vm_compute; reflexivity.
  - intros f Hf. by apply list_elem_of_singleton in Hf.
  - intros x Hx _.
    assert (Hl : list_of "workload:" terminated_world.(w_db)
      = [sample_workload "wk-1" WorkloadTerminated 1]) by (vm_compute; reflexivity).
    rewrite Hl in Hx. by apply list_elem_of_singleton in Hx as ->.
  - split; [exact Hr|]. split; rewrite Hk by reflexivity; vm_compute; reflexivity.
Defined.

(** ** Deployments *)

Lemma store_all_ok bs : Forall blob_ok bs -> db_ok (store_all bs).
Proof. induction 1 as [|b bs Hb _ IH]; [by intros k b|]. by apply db_ok_set. Qed.

Definition rollback_world : World DBS := world (store_all [BDeployment (sample_deployment 2 1 0)]).

Lemma RollbackDeployment_restores_witness :
  exists rev d' y w', RollbackDeployment "dep-1" 1 rollback_world = (Ok d', w')
    /\ rolled_back (sample_deployment 2 1 0) d' rev
    /\ db_get w'.(w_db) (keyDeployment "dep-1") = Some (BDeployment y).
Proof.
  destruct (RollbackDeployment_restores "dep-1" 1 (sample_deployment 2 1 0) rollback_world)
    as (rev & d' & y & w' & Hr & _ & Hrb & _ & Hg).
  - intros t. reflexivity.
  - apply store_all_ok. repeat constructor; try discriminate.
    intros [|i] r Hi; [by injection Hi as <-|by destruct i].
  - vm_compute; reflexivity.
  - vm_compute; reflexivity.
  - vm_compute; reflexivity.
  - vm_compute; split; discriminate.
  - by exists rev, d', y, w'.
Defined.

Definition sample_quota : NamespaceQuota :=
  MkNamespaceQuota "default" 1 0 0 (unix_epoch + 1) (unix_epoch + 1).

(** A quota of one deployment refuses a second one. *)
Lemma enforceNamespaceQuota_spec_witness :
  let w := world (store_all [BNamespaceQuota sample_quota; BDeployment (sample_deployment 2 0 0)]) in
  (enforceNamespaceQuota (sample_spec 1 0 0) w).1 <> Ok tt.
Proof.
  intros w Hq. apply (enforceNamespaceQuota_spec (sample_spec 1 0 0) sample_quota w) in Hq.
  - destruct Hq as [Hc _]. by vm_compute in Hc; apply Hc.
  - apply store_all_wf.
  - intros t. reflexivity.
  - vm_compute; reflexivity.
  - vm_compute; split; discriminate.
  - vm_compute; split; discriminate.
  - vm_compute; split; discriminate.
Defined.

(** ** Roles *)

(** "team" inherits from "base"; only "base" has no parents. *)
Definition rbac_world : World DBS :=
  world (store_all [BRoleBinding (sample_binding "base" []); BRoleBinding (sample_binding "team" ["base"])]).

Definition rbac_rank (name : string) : nat := if String.eqb name "team" then 1 else 0.

Lemma EffectiveRoles_spec_witness :
  exists roles w1, EffectiveRolesForSubject 2 "Alice" "" rbac_world = (Ok roles, w1)
    /\ NoDup roles /\ "viewer" ∈ roles.
Proof.
  pose (all := [sample_binding "base" []; sample_binding "team" ["base"]]).
  pose (w1 := rbac_world <| w_tick ::= S |>).
  assert (Hall : bindings_for "" rbac_world = (Ok all, w1)) by (vm_compute; reflexivity).
  destruct (EffectiveRoles_spec 2 "Alice" "" rbac_world all w1 rbac_rank) as (roles & Hr & Hnd & _ & Hin).
  - exact Hall.
  - intros name rb parent Hrb.
    unfold by_name in Hrb. cbn [all foldl RoleBinding_Name sample_binding] in Hrb.
    apply lookup_insert_Some in Hrb as [[<- <-]|[_ Hrb]].
    + cbn [RoleBinding_Inherits sample_binding]. intros ->%list_elem_of_singleton. apply Nat.lt_0_1.
    + apply lookup_insert_Some in Hrb as [[<- <-]|[_ Hrb]].
      * cbn [RoleBinding_Inherits sample_binding]. intros []%elem_of_nil.
      * rewrite lookup_empty in Hrb. discriminate.
  - intros name. unfold rbac_rank. destruct (String.eqb name "team"); lia.
  - exists roles, w1. split; [exact Hr|]. split; [exact Hnd|]. apply Hin.
    exists (sample_binding "base" []), "base". split; [apply list_elem_of_here|].
    split; [reflexivity|]. split; [apply inherits_root|].
    exists (sample_binding "base" []), "Viewer". split; [vm_compute; reflexivity|].
    split; [apply list_elem_of_here|]. split; reflexivity.
Defined.

Definition cyclic_world : World DBS :=
  world (store_all [BRoleBinding (sample_binding "loop" ["loop"])]).

Lemma EffectiveRoles_cycle_witness :
  (EffectiveRolesForSubject 1000 "alice" "" cyclic_world).1 = Err (Panic "stack overflow").
Proof.
  rewrite (EffectiveRoles_cycle 1000 "alice" "" cyclic_world [sample_binding "loop" ["loop"]]
    (cyclic_world <| w_tick ::= S |>) (sample_binding "loop" ["loop"]) (sample_binding "loop" ["loop"])).
  - reflexivity.
  - vm_compute; reflexivity.
  - apply list_elem_of_here.
  - reflexivity.
  - vm_compute; reflexivity.
  - apply list_elem_of_here.
Defined.

(** ** Leadership *)

Lemma shards_partition_witness :
  exists i, 0 <= i < 4 /\ belongsToShard "dep-1" i 4 = Ok true.
Proof.
  destruct (shards_partition "dep-1" 4) as (i & Hi & Hj); [lia|].
  exists i. split; [exact Hi|]. rewrite Hj. by rewrite bool_decide_eq_true_2.
Defined.

Definition sample_lease : ControllerLease :=
  MkControllerLease "ctl-a" (env_now 0 + 10 * Second) 3 (env_now 0).

Definition lease_world : World DBS := world (store_all [BControllerLease sample_lease]).

(** While controller a holds the lease, b does not get it. *)
Lemma lease_exclusive_witness :
  (TryAcquireControllerLeadership "ctl-b" Second lease_world).1 = Ok (false, sample_lease).
Proof.
  pose proof (lease_exclusive "ctl-b" Second sample_lease lease_world) as H. cbv zeta in H.
  destruct (TryAcquireControllerLeadership "ctl-b" Second lease_world) as [r w'].
  destruct (_ || _) eqn:Hlead in H; [vm_compute in Hlead; discriminate|].
  destruct H as [Hr _]; [reflexivity|vm_compute; reflexivity|intros t; reflexivity|reflexivity|exact Hr].
Defined.

Lemma lease_race_witness :
  exists va vb w1 w2, acquire_read empty_world = (Ok va, w1) /\ acquire_read w1 = (Ok vb, w2)
    /\ let '(ra, w3) := acquire_write "ctl-a" Second va w2 in
       let '(rb, _) := acquire_write "ctl-b" Second vb w3 in
       (exists la lb, ra = Ok (true, la) /\ rb = Ok (true, lb)
          /\ la.(ControllerLease_Term) = lb.(ControllerLease_Term)).
Proof.
  destruct (lease_race "ctl-a" "ctl-b" Second empty_world) as (va & vb & w1 & w2 & Ha & Hb & Hrace).
  - reflexivity.
  - intros t. reflexivity.
  - intros t. unfold IsZero. apply Z.eqb_neq. cbn [env_now sample_env]. unfold unix_epoch, Second. lia.
  - discriminate.
  - discriminate.
  - exists va, vb, w1, w2. split; [exact Ha|]. split; [exact Hb|].
    destruct (acquire_write "ctl-a" Second va w2) as [ra w3].
    destruct (acquire_write "ctl-b" Second vb w3) as [rb w4].
    destruct Hrace as [-> ->]. by eexists _, _.
Defined.

(** ** Reachable states *)

(** A node registers, a deployment is created, the control loop runs. *)
Definition run_commands (cs : list Command) (w : World DBS) : World DBS :=
  foldl (fun w c => (run_command c w).2) w cs.

Lemma run_commands_rtc cs w : rtc command_step w (run_commands cs w).
Proof.
  revert w. induction cs as [|c cs IH]; intros w; [apply rtc_refl|].
  eapply rtc_l; [by exists c|apply IH].
Qed.

Definition sample_commands : list Command :=
  [CmdRegisterNode (sample_node "n1" 0); CmdCreateDeployment (sample_spec 2 1 0); CmdReconcileAll].

Lemma reachable_deployments_witness :
  let w := run_commands sample_commands empty_world in
  length (list_of (T := Deployment) "deployment:" w.(w_db)) = 1%nat
  /\ length (list_of (T := Workload) "workload:" w.(w_db)) = 2%nat
  /\ forall k d, db_get w.(w_db) k = Some (BDeployment d) -> deployment_ok d.
Proof.
  split; [vm_compute; reflexivity|]. split; [vm_compute; reflexivity|]. intros k d Hk.
  destruct (reachable_deployments empty_world (run_commands sample_commands empty_world))
    as (_ & Hd & _).
  - intros k'. apply lookup_empty.
  - apply run_commands_rtc.
  - by destruct (Hd k d Hk).
Defined.

(** ** Services *)

Lemma SelectServiceEndpoint_healthy_witness :
  exists ep w', SelectServiceEndpoint "svc-1" "" (sample_world 2 0 0) = (Ok ep, w')
    /\ ep.(ServiceEndpoint_ID) = "ep-1" /\ w'.(w_db) = (sample_world 2 0 0).(w_db).
Proof.
  destruct (SelectServiceEndpoint "svc-1" "" (sample_world 2 0 0)) as [[ep|e] w'] eqn:Hs.
  - exists ep, w'. split; [reflexivity|]. split.
    + assert (He : (SelectServiceEndpoint "svc-1" "" (sample_world 2 0 0)).1
        = Ok (sample_endpoint "ep-1" true)) by (vm_compute; reflexivity).
      rewrite Hs in He. injection He as ->. reflexivity.
    + apply (SelectServiceEndpoint_healthy "svc-1" "" (sample_world 2 0 0) ep w').
      * apply store_all_wf.
      * exact Hs.
  - assert (He : is_ok (SelectServiceEndpoint "svc-1" "" (sample_world 2 0 0)).1 = true)
      by (vm_compute; reflexivity).
    rewrite Hs in He. discriminate.
Defined.

(** A deployment at a tenth of its CPU is scaled down within the limits of its policy. *)
Definition autoscale_world : World DBS :=
  world (store_all [BDeployment (sample_deployment 4 0 0); BAutoscalerPolicy sample_policy;
    BDeploymentMetricSample (MkDeploymentMetricSample "m-1" "dep-1" (env_now 0) (f_lit 1 10) f_zero None)]).

Lemma autoscale_contract_witness :
  exists d', db_get (autoscale (env_now 0) sample_policy autoscale_world).2.(w_db) (keyDeployment "dep-1")
      = Some (BDeployment d')
  /\ scaled_by sample_policy (env_now 0) (sample_deployment 4 0 0) d'.
Proof.
  set (w' := (autoscale (env_now 0) sample_policy autoscale_world).2).
  assert (Hr : match db_get w'.(w_db) (keyDeployment "dep-1") with
               | Some (BDeployment d') => d'.(Deployment_Spec).(DeploymentSpec_Replicas) =? 4
               | _ => true end = false) by (vm_compute; reflexivity).
  destruct (db_get w'.(w_db) (keyDeployment "dep-1")) as [b|] eqn:Hd; [|discriminate Hr].
  destruct b as [?|d'| | | | | | | | | | | | | | | | | |]; try discriminate Hr.
  exists d'. split; [reflexivity|].
  assert (H0 : db_get autoscale_world.(w_db) (keyDeployment "dep-1")
    = Some (BDeployment (sample_deployment 4 0 0))) by (vm_compute; reflexivity).
  destruct (autoscale_contract (env_now 0) sample_policy autoscale_world (keyDeployment "dep-1") d')
    as [Hsame|(d0 & H1 & Hs)].
  - apply store_all_wf.
  - split; vm_compute; discriminate.
  - exact Hd.
  - rewrite H0 in Hsame. injection Hsame as <-. discriminate Hr.
  - rewrite H0 in H1. injection H1 as <-. exact Hs.
Defined.

(** ** Nodes *)

(** After one missed interval the node is Unknown, and can be stored. *)
Lemma evaluate_node_verdict_witness :
  (evaluate_node (env_now 0) (40 * Second) 1 (sample_node "n1" 500)).(Node_Status) = NodeUnknown
  /\ exists y, json (evaluate_node (env_now 0) (40 * Second) 1 (sample_node "n1" 500)) = Some y.
Proof.
  destruct (evaluate_node_verdict (env_now 0) (40 * Second) 1 (sample_node "n1" 500))
    as (Hj & _ & _ & Hs & _).
  - unfold amounts_ok, in_i64, i64_min, i64_max. cbn. lia.
  - split; [exact Hs|]. eexists. exact Hj.
Defined.

(** Draining evicts both workloads of the node. *)
Lemma DrainNode_evicts_witness :
  (DrainNode "n1" (sample_world 2 0 0)).1 = Ok tt
  /\ forall x, x ∈ list_of "workload:" (DrainNode "n1" (sample_world 2 0 0)).2.(w_db) ->
       x.(Workload_NodeID) = "n1" -> is_active x = false.
Proof.
  pose proof (DrainNode_evicts "n1" (sample_world 2 0 0) (store_all_wf _)) as H.
  destruct (DrainNode "n1" (sample_world 2 0 0)) as [r w']. destruct H as (_ & Hok & Hr).
  assert (Hrt : r = Ok tt).
  { apply Hr; [intros t; reflexivity|]. exists (sample_node "n1" 500).
    split; vm_compute; reflexivity. }
  split; [exact Hrt|]. apply (Hok Hrt).
Defined.

(** A full node and a deployment of higher priority. *)
Definition urgent : Deployment :=
  sample_deployment 1 0 0 <| Deployment_ID := "dep-2" |>
    <| Deployment_Spec ::= set DeploymentSpec_Priority (fun _ => 10) |>.

Lemma tryPreemptForPriority_spec_witness :
  exists w' x n, tryPreemptForPriority urgent (MkResource 1700 256) (sample_world 2 0 0) = (Ok true, w')
  /\ preempted urgent (MkResource 1700 256) (sample_world 2 0 0) w' x n.
Proof.
  destruct (tryPreemptForPriority urgent (MkResource 1700 256) (sample_world 2 0 0)) as [r w'] eqn:Hrun.
  assert (Hr : r = Ok true).
  { change r with (r, w').1. rewrite <- Hrun. vm_compute; reflexivity. }
  subst r. destruct (tryPreemptForPriority_spec urgent (MkResource 1700 256) (sample_world 2 0 0) w')
    as (x & n & Hp & _).
  - apply store_all_wf.
  - exact Hrun.
  - exists w', x, n. split; [reflexivity|exact Hp].
Defined.

Definition sample_volume (name : string) (capacity : Z) : PersistentVolume :=
  MkPersistentVolume name capacity "" "" "" "" "" PersistentVolumeAvailable 0 0.

Definition sample_claim (name : string) : PersistentVolumeClaim :=
  MkPersistentVolumeClaim "default" name 50 "" "" "" PersistentVolumeClaimPending 0 0.

(** Of two volumes that suit the smaller one is bound. *)
Lemma bind_one_best_fit_witness :
  exists pv, pv ∈ [sample_volume "big" 100; sample_volume "small" 60]
  /\ bound_in (bind_one (by_capacity [sample_volume "big" 100; sample_volume "small" 60])
       (sample_claim "data") empty_world).2.(w_db) (sample_claim "data") pv
  /\ pv.(PersistentVolume_CapacityMB) <= 60.
Proof.
  assert (He : forall t, env_dberr t = None) by (intros t; reflexivity).
  pose proof (bind_one_best_fit [sample_volume "big" 100; sample_volume "small" 60]
    (sample_claim "data") empty_world He) as H.
  destruct (bind_one _ _ _) as [r w']. destruct H as (_ & _ & Hb).
  assert (Hs : suits (sample_claim "data") (sample_volume "small" 60))
    by (vm_compute; repeat split; (discriminate || left; reflexivity)).
  destruct Hb as (pv & Hin & _ & Hbound & Hmin).
  - vm_compute; reflexivity.
  - exists (sample_volume "small" 60). split; [right; left|exact Hs].
  - exists pv. split; [exact Hin|]. split; [exact Hbound|].
    apply (Hmin (sample_volume "small" 60)); [right; left|exact Hs].
Defined.

(** ** Endpoints *)

(** The two running workloads of the sample cluster back its service. *)
Lemma reconcileServiceEndpoints_mirror_witness :
  (reconcileServiceEndpoints "svc-1" (sample_world 2 0 0)).1 = Ok tt
  /\ exists ep, ep ∈ list_of (T := ServiceEndpoint) (keyServiceEndpointPrefix "svc-1")
       (reconcileServiceEndpoints "svc-1" (sample_world 2 0 0)).2.(w_db)
     /\ ep.(ServiceEndpoint_ID) = "svc-1-wk-2-8080".
Proof.
  assert (He : forall t, env_dberr t = None) by (intros t; reflexivity).
  destruct (reconcileServiceEndpoints_mirror He "svc-1" sample_service (sample_world 2 0 0))
    as (Hr & _ & Hc).
  - apply store_all_wf.
  - vm_compute; reflexivity.
  - split; [exact Hr|].
    apply (Hc (sample_workload "wk-2" WorkloadRunning 1) (sample_deployment 2 0 0)
             (MkServicePort "http" 80 8080 0 ServiceProtocolTCP)).
    + split; [vm_compute; right; left|]. split; [vm_compute; left|]. split; [reflexivity|].
      split; [left; reflexivity|]. split; [reflexivity|]. split; [discriminate|].
      intros key value. change (ServiceSpec_Selector _) with ({["app" := "web"]} : gmap string string).
      rewrite lookup_singleton_Some. intros [<- <-]. vm_compute. reflexivity.
    + left.
Defined.

(** ** Jobs *)

Definition sample_job (status deployment : string) (failed limit : Z) : Job :=
  MkJob "job-1" (MkJobSpec "default" "report" (sample_spec 1 0 0) 1 limit 0 0 "") status deployment
    0 failed 0 0 0 (unix_epoch + 1600000000 * Second) (unix_epoch + 1600000000 * Second).

Definition job_world (j : Job) : World DBS :=
  world (store_all [BNode (sample_node "n1" 500); BJob j; BDeployment (sample_deployment 1 0 0);
    BWorkload (sample_workload "wk-1" WorkloadFailed 1)]).

(** A running job whose workload failed is retried, within its budget. *)
Lemma reconcileJobs_lifecycle_witness :
  let j := sample_job JobRunning "dep-1" 1 2 in
  let after := job_at "job-1" (reconcileJobsAndCron (job_world j)).2.(w_db) in
  (Job_Status <$> after) = Some JobPending /\ (Job_Failed <$> after) = Some 2
  /\ forall j', after = Some j' -> within_budget j'.
Proof.
  cbv zeta. split; [vm_compute; reflexivity|]. split; [vm_compute; reflexivity|].
  pose proof (reconcileJobs_lifecycle (job_world (sample_job JobRunning "dep-1" 1 2)) "job-1"
    (store_all_wf _)) as [_ H].
  apply H. intros j Hj. vm_compute in Hj. injection Hj as <-.
  vm_compute. repeat split; intros; try discriminate.
Defined.
