(* ===== verification/ServerWitnesses.v ===== *)
(** * Witnesses of the theorems about the servers and the agent

    A concrete token service, upstream, JSON decoder, control plane and
    container runtime, and the theorems of the outer components applied to
    them. *)

From Stdlib Require Import Ascii String.
From Corelib Require Import SpecFloat.
From S2P Require Import Prelude GoLang GoText GoFloat Effects Model Worker WorkerTheorems.
From S2P Require Import GoSort Scheduler Badger Balancer World Store StoreFacts Events Deployments.
From S2P Require Import Nodes Services Autoscaler RBAC Volumes Jobs Control Invariant Machine.
From S2P Require Import Metrics Validation Auth AuthTheorems Http Handlers HttpFacts HttpTheorems.
From S2P Require Import HttpMeaning Panics HttpAnswers TrafficTheorems Url Agent Samples.

(** ** The outside of the server *)

(** One token, signed with the secret, of a viewer. *)
#[export] Instance sample_JWT : JWT := {|
  jwt_header token := if String.eqb token "viewer-token" then Some (MkJWTHeader "HS256" None) else None;
  jwt_check token key _ :=
    match key with
    | SecretKey s =>
        if String.eqb token "viewer-token" && String.eqb s "secret"
        then Some {["sub" := ClaimString "bob"; "roles" := ClaimString "viewer"]} else None
    | RSAKey _ => None
    end
|}.

#[export] Instance sample_AuthEnv : AuthEnv := {| env_jwks _ _ := Err (Errorf "no provider") |}.

(** An upstream that recovers at its third answer, a decoder that knows one
    deployment. *)
#[export] Instance sample_HttpEnv : HttpEnv := {|
  env_stack := 100;
  env_upstream n _ _ := if Nat.ltb n 2 then Ok (MkUpstream 503 ∅ "busy") else Ok (MkUpstream 200 ∅ "hello");
  env_request_error _ := None;
  decode_Node _ := Err (Errorf "EOF");
  decode_Used _ := Ok (MkResource 100 64);
  decode_DeploymentSpec _ := Ok (sample_spec 1 1 0);
  decode_Revision _ := 0;
  decode_AutoscalerPolicy _ := Err (Errorf "EOF");
  decode_DeploymentMetricSample _ := Err (Errorf "EOF");
  decode_StatusReport _ := Ok (WorkloadRunning, "c-1");
  decode_ServiceSpec _ := Err (Errorf "EOF");
  decode_Namespace _ := Err (Errorf "EOF");
  decode_NamespaceQuota _ := Err (Errorf "EOF");
  decode_Secret _ := Err (Errorf "EOF");
  decode_PersistentVolume _ := Err (Errorf "EOF");
  decode_PersistentVolumeClaim _ := Err (Errorf "EOF");
  decode_NetworkPolicy _ := Err (Errorf "EOF");
  decode_Job _ := Err (Errorf "EOF");
  decode_CronJob _ := Err (Errorf "EOF");
  decode_RoleBinding _ := Err (Errorf "EOF")
|}.

Definition sample_verifier : Verifier := NewVerifier "hybrid" "dev-token" "secret" "" "" "".

Definition sample_server (w : World DBS) : HTTPServer DBS := NewHTTPServer w sample_verifier.

Definition sample_http (method path query token : string) : Request :=
  MkRequest method path query {["Authorization" := ["Bearer " +:+ token]]} "{}" None.

(** ** The server *)

Definition create_request : Request := sample_http "POST" "/v1/deployments" "" "dev-token".

(** Entries of the table at work: names come from the path, the number of
    assignments from the query; a body that cannot be decoded, a blank name, a
    path that is not clean and a wrong method mean nothing. *)
Example meaning_of_requests :
  meaning (sample_http "POST" "/v1/nodes/n1/drain" "" "") = Some (CmdDrainNode "n1")
  /\ meaning (sample_http "POST" "/v1/nodes/n1/remove" "" "") = Some (CmdRemoveNode "n1")
  /\ meaning (sample_http "GET" "/v1/workers/n1/assignments" "max=3" "") = Some (CmdPollAssignments "n1" 3)
  /\ meaning create_request = Some (CmdCreateDeployment (sample_spec 1 1 0))
  /\ meaning (sample_http "POST" "/v1/nodes/register" "" "") = None
  /\ meaning (sample_http "DELETE" "/v1/deployments/ " "" "") = None
  /\ meaning (sample_http "POST" "/v1/nodes/x/../n1/drain" "" "") = None
  /\ meaning (sample_http "GET" "/v1/nodes/n1/drain" "" "") = None.
Proof. vm_compute. done. Qed.

(** A deployment is created on an empty database. *)
Lemma serve_refines_witness :
  (serve create_request (sample_server empty_world)).2.(s_w).(rw_status) = Some 201
  /\ inv (serve create_request (sample_server empty_world)).2.(s_orch).
Proof.
  split; [vm_compute; reflexivity|].
  apply (proj2 (serve_refines (DB := DBS)) (sample_server empty_world)).
  - intros k. reflexivity.
  - apply rtc_once, step_serve.
Defined.

#[export] Instance sample_calm : CalmEnv sample_env.
Proof. split; [discriminate|]. intros n. exact I. Qed.

(** On an empty database there is nothing to trip over. *)
Lemma empty_admissible : admissible (sample_server empty_world).
Proof.
  split; [split|].
  - intros k. unfold map_int. cbn. by rewrite lookup_empty.
  - intros id. discriminate.
  - exists (fun _ => 0%nat). split; [cbn; lia|]. intros namespace w all w1 Hw Hb.
    assert (all = []) as ->; [|by intros name rb parent H].
    revert Hb. unfold bindings_for, ListRoleBindings, listPrefix, db_View, mbind, M_bind, attempt.
    cbn. rewrite Hw. cbn. destruct (blank namespace); [by intros [= <- _]|].
    change (w_db (w <| w_tick ::= S |>)) with (w_db w). rewrite Hw. by intros [= <- _].
Qed.

Lemma sample_upstream_final : upstream_final (HE := sample_HttpEnv).
Proof. intros [|[|n]] url t resp H; injection H as <-; reflexivity. Qed.

Lemma serve_answers_witness :
  exists s', serve create_request (sample_server empty_world) = (Ok tt, s') /\ answered s'.
Proof.
  destruct (serve_answers create_request (sample_server empty_world)) as (s' & Hs & Ha & _).
  - exact sample_upstream_final.
  - exact empty_admissible.
  - intros id. vm_compute. discriminate.
  - exists s'. split; [exact Hs|exact Ha].
Defined.

(** A viewer polls the queue of a node. *)
Definition poll_request : Request :=
  sample_http "GET" "/v1/workers/n1/assignments" "max=1" "viewer-token".

Definition polled : HTTPServer DBS := sample_server (sample_world 2 0 0).

Lemma poll_principal p : identified (versioned poll_request) polled p -> only_viewer p.
Proof.
  intros (p0 & (w & [n ->] & Hp0) & Hp).
  assert (p0 = MkPrincipal "bob" ["viewer"] "jwt") as ->
    by (vm_compute in Hp0; injection Hp0 as <-; reflexivity).
  destruct Hp as [->|(w & bound & [m ->] & Hb & ->)].
  - split; apply (bool_decide_unpack _); vm_compute; reflexivity.
  - vm_compute in Hb. injection Hb as <-. split; apply (bool_decide_unpack _); vm_compute; reflexivity.
Defined.

Lemma viewer_read_only_witness :
  (serve poll_request polled).2.(s_w).(rw_status) = Some 200
  /\ (w_db (serve poll_request polled).2.(s_orch) = w_db polled.(s_orch)
      \/ exists id, polls (api_path poll_request.(r_Path)) id
           /\ forall k, HasPrefix k (keyAssignmentPrefix id) = false ->
                db_get (w_db (serve poll_request polled).2.(s_orch)) k = db_get (w_db polled.(s_orch)) k).
Proof.
  split; [vm_compute; reflexivity|]. apply (viewer_read_only poll_request polled). exact poll_principal.
Defined.

(** ** Traffic *)

(** Two answers with a server error, then a good one: the third is forwarded
    and there is no fourth attempt. *)
Lemma proxy_loop_spec_witness :
  (proxy_loop (attempts_of 5) "http://10.0.0.1:8080" 0 ProxyNone polled).1
    = Ok (ProxyResponse (MkUpstream 200 ∅ "hello") false)
  /\ 1 <= Z.of_nat (contacts (upstream_answers "http://10.0.0.1:8080" 0 0 (attempts_of 5))) <= 5 + 1.
Proof.
  destruct (proxy_loop_spec 5 "http://10.0.0.1:8080" 0 polled) as (Hr & _ & Hc & _).
  - reflexivity.
  - unfold i64_max. lia.
  - split; [rewrite Hr; vm_compute; reflexivity|]. apply Hc. unfold i64_max. lia.
Defined.

(** A success and three failures, the clock read between them: the breaker is
    open until fifteen seconds after the third failure, at interaction 7, and
    the proxy answers 503. *)
Definition later (n : nat) (s : HTTPServer DBS) : HTTPServer DBS := advance n s.

Definition after_outcomes (l : list (nat * option string)) (s : HTTPServer DBS) : HTTPServer DBS :=
  foldl (fun s x => (record "svc-1" 3 15 x.2 (later x.1 s)).2) s l.

Definition failing : HTTPServer DBS :=
  after_outcomes [(1, None); (2, Some "down"); (3, Some "down"); (1, Some "upstream 5xx")]%nat polled.

Lemma breaker_spec_witness :
  breakerState_OpenUntil (breaker "svc-1" failing) = time_Add (env_now 7) (seconds 15)
  /\ handleProxy "svc-1" poll_request failing
     = writeAPIError 503 "circuit_open" "Circuit breaker open" "upstream 5xx" (advance 1 failing).
Proof.
  destruct (breaker_spec (DB := DBS) "svc-1" 3 15 polled
    [(1, None); (3, Some "down"); (6, Some "down"); (7, Some "upstream 5xx")]%nat failing)
    as (Hb & Hopen & _).
  - unfold i64_max. lia.
  - reflexivity.
  - assert (Hlater : forall h s n, history "svc-1" 3 15 polled h s -> history "svc-1" 3 15 polled h (later n s)).
    { intros h s n Hh. eapply history_other; [exact Hh|reflexivity]. }
    assert (H1 := history_record "svc-1" 3 15 polled _ _ None (Hlater _ _ 1%nat (history_start _ _ _ polled))).
    assert (H2 := history_record "svc-1" 3 15 polled _ _ (Some "down") (Hlater _ _ 2%nat H1)).
    assert (H3 := history_record "svc-1" 3 15 polled _ _ (Some "down") (Hlater _ _ 3%nat H2)).
    exact (history_record "svc-1" 3 15 polled _ _ (Some "upstream 5xx") (Hlater _ _ 1%nat H3)).
  - split; [rewrite Hb; vm_compute; reflexivity|]. apply (Hopen ltac:(vm_compute; reflexivity)).
Defined.

(** ** Tokens *)

(** A provider with one key, and a token signed with it. *)
Definition provider_JWT : JWT := {|
  jwt_header token :=
    if String.eqb token "oidc-token" then Some (MkJWTHeader "RS256" (Some (ClaimString "k1"))) else None;
  jwt_check token key _ :=
    match key with
    | RSAKey k =>
        if bool_decide (k = MkPublicKey 65537 65537) && String.eqb token "oidc-token"
        then Some {["sub" := ClaimString "alice"; "roles" := ClaimString "operator"]} else None
    | SecretKey _ => None
    end
|}.

Definition provider_AuthEnv : AuthEnv := {|
  env_jwks n _ :=
    if Nat.eqb n 1 then Ok (MkJWKSResponse 200 (Ok [MkJWK "RSA" "k1" "AQAB" "AQAB"]))
    else Err (Errorf "connection refused")
|}.

Definition oidc_verifier : Verifier := NewVerifier "oidc" "" "" "" "" "http://issuer/jwks".

(** The state after a first token was verified; the key set was fetched at
    interaction 1. *)
Definition verified_once : Verifier * World DBS :=
  (VerifyBearer (J := provider_JWT) (AE := provider_AuthEnv) "Bearer oidc-token"
     (oidc_verifier, empty_world)).2.

(** A second token is checked with the key that is kept; the provider is not
    reachable any more. *)
Lemma VerifyBearer_sound_witness :
  let verify := VerifyBearer (J := provider_JWT) (AE := provider_AuthEnv) "Bearer oidc-token" verified_once in
  verify.1 = Ok (MkPrincipal "alice" ["operator"] "oidc")
  /\ by_provider (J := provider_JWT) (AE := provider_AuthEnv) oidc_verifier verified_once verify.2
       "oidc-token" (MkPrincipal "alice" ["operator"] "oidc").
Proof.
  intros verify. assert (Hv : verify.1 = Ok (MkPrincipal "alice" ["operator"] "oidc"))
    by (vm_compute; reflexivity).
  split; [exact Hv|].
  destruct (VerifyBearer_sound (J := provider_JWT) (AE := provider_AuthEnv) "oidc" "" "" "" ""
    "http://issuer/jwks" "Bearer oidc-token" verified_once
    (MkPrincipal "alice" ["operator"] "oidc") verify.2)
    as (token & _ & _ & Ht & _ & [[Hm _]|[[Hm _]|[_ Hp]]]).
  - apply run_verify, run_start.
  - fold verify. rewrite <- Hv. apply surjective_pairing.
  - exfalso. revert Hm. apply (bool_decide_unpack _). vm_compute. reflexivity.
  - exfalso. revert Hm. apply (bool_decide_unpack _). vm_compute. reflexivity.
  - replace token with "oidc-token" in Hp by (rewrite Ht; vm_compute; reflexivity). exact Hp.
Defined.

(** ** The agent *)

(** A control plane with one assignment to create and one to delete, and a
    runtime whose first start fails. *)
#[local] Instance sample_client : AssignmentClient := {|
  client_RegisterNode _ _ := Ok tt;
  client_Heartbeat _ _ _ := Ok tt;
  client_PollAssignments _ _ _ :=
    Ok [sample_assignment "a-1"; (sample_assignment "a-2") <| Assignment_Action := "delete" |>];
  client_ListNodeWorkloads _ _ := Ok [];
  client_ReportWorkloadStatus _ _ _ _ := Ok tt
|}.

#[local] Instance sample_runtime : Runtime := {|
  runtime_RunWorkload n _ _ _ := if Nat.ltb n 2 then Err (Errorf "image pull: timeout") else Ok "c-1";
  runtime_StopWorkload _ _ _ := Ok tt;
  runtime_ListManagedWorkloads _ := Ok ∅
|}.

#[local] Instance sample_host : Host := {|
  host_TempDir := "/tmp"; host_error _ := None; host_cancelled _ := false
|}.

Definition sample_worker : Worker := MkWorker (NewRunner "n1" 3 0) ∅ [] 0.


(** Authorities are taken as they are. *)
#[export] Instance sample_NetURL : NetURL := {| url_parseAuthority a := Ok a |}.

(** A node name as the configuration has it by default. *)
Lemma agent_server_agree_witness :
  reaches (DB := DBS) (NewClient "http://localhost:8080/" "dev-token") "http" "localhost:8080"
    (PollAssignments_request (NewClient "http://localhost:8080/" "dev-token") "worker-local" 5 "t")
    (on_success (PollAssignments "worker-local" 5) 500 "poll_failed" "Failed to poll assignments"
       (fun items => writeJSON 200 (docs "assignments" items))).
Proof.
  destruct (agent_server_agree (DB := DBS) (NewClient "http://localhost:8080/" "dev-token")
    "http" "localhost:8080" "localhost:8080" "worker-local" 5 "web" "{}" "t") as [Hpoll _].
  - split; [reflexivity|]. split; [left|]. split; [reflexivity|].
    split; [apply (bool_decide_unpack _); vm_compute; reflexivity|].
    split; [apply (bool_decide_unpack _); vm_compute; reflexivity|reflexivity].
  - discriminate.
  - apply (bool_decide_unpack _). vm_compute. reflexivity.
  - unfold i64_max. lia.
  - exact Hpoll.
Defined.
