(* ===== verification/EndToEndWitnesses.v ===== *)
(** * Server and agent at work

    A node whose runtime starts every container under the identifier [c-9],
    polled against the sample cluster: the theorems of EndToEnd and
    Availability applied to it, and a deployment followed from its creation to
    the stable state. *)

From Stdlib Require Import Ascii String.
From Corelib Require Import SpecFloat.
From S2P Require Import Prelude GoLang GoText GoFloat GoSort GoTime Effects Model Scheduler Badger.
From S2P Require Import World.
From S2P Require Import Store StoreFacts StoreTheorems Events Secrets Rollout Placement Reconcile.
From S2P Require Import ReconcileFacts ReconcileTheorems Convergence RolloutTheorems Deployments.
From S2P Require Import Control Worker WorkerTheorems.
From S2P Require Import EndToEnd Availability Samples.

(** ** The node *)

#[local] Instance steady_runtime : Runtime := {|
  runtime_RunWorkload _ _ _ _ := Ok "c-9";
  runtime_StopWorkload _ _ _ := Ok tt;
  runtime_ListManagedWorkloads _ := Ok ∅
|}.

#[local] Instance steady_host : Host := {|
  host_TempDir := "/tmp"; host_error _ := None; host_cancelled _ := false
|}.

(** The polls of the agent are answered by the server in this state. *)
Definition served_by (w : World DBS) : AssignmentClient := {|
  client_RegisterNode _ _ := Ok tt;
  client_Heartbeat _ _ _ := Ok tt;
  client_PollAssignments _ nodeID max := (PollAssignments nodeID max w).1;
  client_ListNodeWorkloads _ _ := Ok [];
  client_ReportWorkloadStatus _ _ _ _ := Ok tt
|}.

Definition agent (nodeID : string) : Worker := MkWorker (NewRunner nodeID 3 0) ∅ [] 0.

(** ** Witnesses *)

(** One assignment is taken; the workload it names gets the container. *)
Lemma assignments_carried_out_witness :
  exists rs w', (PollAssignments "n1" 1 ;; replay rs) (sample_world 2 0 0) = (Ok tt, w')
    /\ Workload_ContainerID <$> fl_workloads (fleet_of w'.(w_db)) !! "wk-1" = Some "c-9".
Proof.
  destruct (assignments_carried_out (C := served_by (sample_world 2 0 0)) 1 (agent "n1") (sample_world 2 0 0))
    as (n & k' & rs & w' & _ & _ & Hrun & _ & _ & _ & _ & Hout).
  - intros t. reflexivity.
  - split; [apply store_all_wf|]. intros n Hn. revert n Hn. apply (proj1 (Forall_forall _ _)).
    vm_compute. repeat constructor; eexists; reflexivity.
  - lia.
  - vm_compute; reflexivity.
  - split; [reflexivity|intros; eexists; reflexivity|reflexivity].
  - vm_compute; discriminate.
  - reflexivity.
  - exists rs, w'. split; [exact Hrun|].
    destruct (Hout ltac:(vm_compute; repeat constructor; intros H; inversion H) (sample_assignment "a-1")
      (untimed (sample_workload "wk-1" WorkloadRunning 1))) as (n0 & c & [= <-] & Ho).
    + vm_compute. apply list_elem_of_here.
    + vm_compute; reflexivity.
    + exact (f_equal (fmap Workload_ContainerID) Ho).
Defined.

(** One of two replicas is still pending. *)
Definition placed_world : World DBS := world (store_all
  [BNode (sample_node "n1" 500); BDeployment (sample_deployment 2 0 0);
   BWorkload (sample_workload "wk-1" WorkloadRunning 1); BWorkload (sample_workload "wk-2" WorkloadPending 1)]).

Lemma placed_workloads : list_of "workload:" placed_world.(w_db)
  = [sample_workload "wk-1" WorkloadRunning 1; sample_workload "wk-2" WorkloadPending 1].
Proof. vm_compute; reflexivity. Qed.

Lemma deployment_becomes_available_witness :
  exists d' w', (replay [("wk-2", WorkloadRunning, "c-9")] ;; reconcileDeployment "dep-1") placed_world = (Ok tt, w')
    /\ d'.(Deployment_Status) = DeploymentRunning
    /\ db_get w'.(w_db) (keyDeployment "dep-1") = Some (BDeployment d').
Proof.
  destruct (deployment_becomes_available "dep-1" (sample_deployment 2 0 0) [("wk-2", WorkloadRunning, "c-9")] placed_world)
    as (d' & w' & Hrun & (_ & Hs & _) & Hg & _).
  - intros t. reflexivity.
  - vm_compute; reflexivity.
  - vm_compute; eexists; reflexivity.
  - intros _ H. exfalso. revert H. vm_compute. discriminate.
  - split.
    + apply store_all_wf.
    + vm_compute; reflexivity.
    + vm_compute; reflexivity.
    + by repeat constructor.
    + intros x Hx _. rewrite placed_workloads, elem_of_cons, list_elem_of_singleton in Hx.
      destruct Hx as [-> | ->]; [left; reflexivity|right; apply list_elem_of_here].
    + intros x Hx _ _. rewrite placed_workloads, elem_of_cons, list_elem_of_singleton in Hx.
      destruct Hx as [-> | ->]; reflexivity.
  - exists d', w'. split; [exact Hrun|]. split; [exact Hs|exact Hg].
Defined.

(** ** From creation to the stable state *)

(** What the operators see of the deployment. *)
Definition seen_of (db : DBS) : list (string * string * Z) :=
  List.map (fun d => (d.(Deployment_Status), d.(Deployment_RolloutStatus).(DeploymentRolloutStatus_Phase),
                      d.(Deployment_RolloutStatus).(DeploymentRolloutStatus_ReadyReplicas)))
    (list_of "deployment:" db).

(** A node with room and a deployment of two replicas that has no workload
    yet: a pass places two workloads, the agent takes both assignments, its
    reports are replayed, and the next pass finds the rollout complete.  The
    agent counts what the server has charged to the node. *)
Example full_circle :
  let w0 := world (store_all [BNode (sample_node "n1" 0); BDeployment (sample_deployment 2 0 0)]) in
  let w1 := (reconcileDeployment "dep-1" w0).2 in
  let k := (ProcessAssignments (C := served_by w1) 5 (agent "n1")).2 in
  let w2 := ((PollAssignments "n1" 5 ;; replay (reports k)) w1).2 in
  let w3 := (reconcileDeployment "dep-1" w2).2 in
  seen_of w1.(w_db) = [(DeploymentPending, "Progressing", 0)]
  /\ List.map (fun r => (r.1.2, r.2)) (reports k) = [(WorkloadRunning, "c-9"); (WorkloadRunning, "c-9")]
  /\ seen_of w3.(w_db) = [(DeploymentRunning, "Stable", 2)]
  /\ used k = MkResource 500 512
  /\ List.map Node_Used (list_of "node:" w3.(w_db)) = [MkResource 500 768].
Proof. vm_compute. repeat split. Qed.
