(* ===== verification/Scenarios.v ===== *)
(** * Defects on concrete inputs

    Short runs of the orchestrator on the sample cluster that end in a state
    the program does not mean to reach, evaluated.  Each one replays, with the
    definitions that the theorems are about, a defect that modelling the code
    brought to light. *)

From Stdlib Require Import Ascii String.
From Corelib Require Import SpecFloat.
From S2P Require Import Prelude GoLang GoFloat GoSort GoTime Effects Model Scheduler Badger.
From S2P Require Import Balancer.
From S2P Require Import World Store StoreFacts Events Secrets Rollout Placement Reconcile.
From S2P Require Import ReconcileFacts Deployments Nodes Services Autoscaler RBAC Volumes Lease.
From S2P Require Import Jobs Control.
From S2P Require Import Grpc Validation Auth Http Handlers Url Agent Samples ServerWitnesses.

Definition long_ago : Time := unix_epoch + 1600000000 * Second.

(** The state after an operation. *)
Definition after {A} (m : M (World DBS) A) (w : World DBS) : DBS := (m w).2.(w_db).

Definition deployments_of (db : DBS) : list Deployment := list_of "deployment:" db.
Definition workloads_of (db : DBS) : list Workload := list_of "workload:" db.
Definition nodes_of (db : DBS) : list Node := list_of "node:" db.
Definition assignments_of (db : DBS) : list Assignment := list_of "assignment:" db.

(** ** Jobs *)

Definition scenario_job (status deployment : string) : Job :=
  MkJob "job-1" (MkJobSpec "default" "report" (sample_spec 1 0 0) 1 1 0 0 "") status deployment
    0 0 0 0 0 long_ago long_ago.

(** The namespace default has a record, so one pass starts a job twice: two
    deployments exist, and the job knows the second one only. *)
Example default_job_starts_twice :
  let db := after reconcileJobsAndCron (world (store_all [BNode (sample_node "n1" 500);
    BNamespace (MkNamespace "default" "default" long_ago long_ago);
    BJob (scenario_job JobPending "")])) in
  length (deployments_of db) = 2%nat /\ length (list_of (T := Job) "job:" db) = 1%nat.
Proof. vm_compute. split; reflexivity. Qed.

(** A failed job that is tried again forgets its deployment, which is not
    marked for deletion. *)
Example retried_job_leaks_deployment :
  let db := after reconcileJobsAndCron (world (store_all [BDeployment (sample_deployment 1 0 0);
    BWorkload (sample_workload "wk-1" WorkloadFailed 1); BJob (scenario_job JobRunning "dep-1")])) in
  List.map Job_Deployment (list_of "job:" db) = [""]
  /\ List.map Deployment_DeletionTimestamp (deployments_of db) = [None].
Proof. vm_compute. split; reflexivity. Qed.

(** ** Deployments *)

(** Without any node, a new deployment is reported as running and available. *)
Example running_without_nodes :
  let db := after (CreateDeployment (sample_spec 2 0 0)) empty_world in
  List.map Deployment_Status (deployments_of db) = [DeploymentRunning] /\ workloads_of db = [].
Proof. vm_compute. split; reflexivity. Qed.

(** One replica, one surge replica, none may be unavailable: the new revision's
    workload is created, and in the same pass the only running one goes. *)
Example rolling_update_drops_running_replica :
  let dep := sample_deployment 1 1 0 <| Deployment_CurrentRevision := 2 |> in
  let db := after (reconcileDeployment "dep-1") (world (store_all [BNode (sample_node "n1" 500);
    BDeployment dep; BWorkload (sample_workload "wk-1" WorkloadRunning 1)])) in
  List.filter is_running (workloads_of db) = [] /\ nactive "dep-1" db = 1.
Proof. vm_compute. split; reflexivity. Qed.

(** A missing secret: the workload is stored and the node charged, but there
    is no assignment. *)
Example missing_secret_strands_workload :
  let dep := sample_deployment 1 0 0
    <| Deployment_Spec ::= set DeploymentSpec_SecretMounts (fun _ => Some [MkSecretMountSpec "tls" ""]) |> in
  let db := after (reconcileDeployment "dep-1")
    (world (store_all [BNode (sample_node "n1" 500); BDeployment dep])) in
  List.map Workload_Status (workloads_of db) = [WorkloadPending] /\ assignments_of db = []
  /\ List.map (fun n => n.(Node_Used).(Resource_MilliCPU)) (nodes_of db) = [750].
Proof. vm_compute. repeat split; reflexivity. Qed.

(** Preemption removes the record of a running workload without telling its
    node. *)
Example preemption_leaves_container :
  let dep := sample_deployment 1 0 0 <| Deployment_ID := "dep-2" |>
    <| Deployment_Spec ::= set DeploymentSpec_Priority (fun _ => 5) |> in
  let db := after (tryPreemptForPriority dep (MkResource 250 256))
    (world (store_all [BNode (sample_node "n1" 2000); BWorkload (sample_workload "wk-1" WorkloadRunning 1)])) in
  workloads_of db = [] /\ assignments_of db = [].
Proof. vm_compute. split; reflexivity. Qed.

(** The last workload terminates: the deployment is reported as stable with
    no replica left of the two it wants. *)
Example stable_without_replicas :
  let db := after (ReportWorkloadStatus "wk-1" WorkloadTerminated "") (world (store_all
    [BDeployment (sample_deployment 2 0 0); BWorkload (sample_workload "wk-1" WorkloadRunning 1)])) in
  List.map (fun d => (d.(Deployment_Status), d.(Deployment_RolloutStatus).(DeploymentRolloutStatus_Phase)))
    (deployments_of db) = [(DeploymentRunning, "Stable")] /\ workloads_of db = [].
Proof. vm_compute. split; reflexivity. Qed.

(** The runtime could not stop a container: the workload, terminating until
    then, is reported as failed; no later pass tries again or gives the
    resources of its node back. *)
Example failed_stop_is_final :
  let w := world (store_all [BNode (sample_node "n1" 500); BDeployment (sample_deployment 1 0 0);
    BWorkload (sample_workload "wk-1" WorkloadRunning 1); BWorkload (sample_workload "wk-2" WorkloadTerminating 1)]) in
  let db := after (ReportWorkloadStatus "wk-2" WorkloadFailed "" ;; ReconcileAll ;; ReconcileAll) w in
  List.map (fun x => (x.(Workload_ID), x.(Workload_Status))) (workloads_of db)
    = [("wk-1", WorkloadRunning); ("wk-2", WorkloadFailed)]
  /\ assignments_of db = [] /\ List.map (fun n => n.(Node_Used).(Resource_MilliCPU)) (nodes_of db) = [500].
Proof. vm_compute. repeat split. Qed.

(** A node with room for two workloads: a heartbeat that the agent sends
    before it has polled them replaces what was charged for them, and two more
    are placed there. *)
Example heartbeat_forgets_reservations :
  let dep name := sample_deployment 2 0 0 <| Deployment_ID := name |> in
  let w := world (store_all [BNode (sample_node "n1" 0 <| Node_Allocatable := MkResource 500 4096 |>);
    BDeployment (dep "dep-1"); BDeployment (dep "dep-2")]) in
  let first := after (reconcileDeployment "dep-1" ;; reconcileDeployment "dep-2") w in
  let db := after (reconcileDeployment "dep-1" ;; HeartbeatNode "n1" (MkResource 0 0) ;;
                   reconcileDeployment "dep-2") w in
  List.map Workload_DeploymentID (workloads_of first) = ["dep-1"; "dep-1"]
  /\ List.map Workload_DeploymentID (workloads_of db) = ["dep-1"; "dep-1"; "dep-2"; "dep-2"]
  /\ List.map (fun n => n.(Node_Used).(Resource_MilliCPU)) (nodes_of db) = [500].
Proof. vm_compute. repeat split. Qed.

(** CPU use at twice its target with memory nearly idle: the recommendation is
    to go from 4 replicas to 3. *)
Example idle_memory_overrules_cpu :
  let p := sample_policy <| AutoscalerPolicy_TargetMemoryUtilization := f_lit 1 2 |> in
  recommend p 4 (MkMetrics (f_of_Z 1) f_zero f_zero) = 5
  /\ recommend p 4 (MkMetrics (f_of_Z 1) (f_lit 1 10) f_zero) = 3.
Proof. vm_compute. split; reflexivity. Qed.

(** ** Nodes, volumes, services *)

(** A node that was drained is ready again after its next heartbeat. *)
Example drained_node_returns :
  let w := world (store_all [BNode (sample_node "n1" 500)]) in
  List.map Node_Status (nodes_of (after (DrainNode "n1") w)) = [NodeUnknown]
  /\ List.map Node_Status (nodes_of
       (after (DrainNode "n1" ;; HeartbeatNode "n1" (MkResource 500 256)) w)) = [NodeReady].
Proof. vm_compute. split; reflexivity. Qed.

(** The sample environment with a database that fails at one interaction. *)
Definition failing_at (t : nat) : Env := {|
  env_now := env_now; env_rand := env_rand;
  env_dberr n := if Nat.eqb n t then Some "database is closed" else None;
  env_score := env_score; env_admissionCmd := env_admissionCmd; env_admission := env_admission;
  env_kmsKey := env_kmsKey; env_nonce := env_nonce; env_seal := env_seal; env_open := env_open;
  env_planner := env_planner; env_nodeTTL := env_nodeTTL
|}.

(** The autoscaler cannot read its policies.  The pass over all deployments
    records that and goes on to find a silent node unhealthy; the pass over a
    shard returns, and the node stays ready. *)
Example shard_error_skips_node_health :
  let w := world (store_all [BNode (sample_node "n1" 0 <| Node_LastSeen := long_ago |>)]) in
  List.map Node_Status (nodes_of (after (ReconcileAll (E := failing_at 1)) w)) = [NodeDown]
  /\ (ReconcileShard (E := failing_at 1) 0 2 w).1 = Err (ErrIO "database is closed")
  /\ List.map Node_Status (nodes_of (after (ReconcileShard (E := failing_at 1) 0 2) w)) = [NodeReady].
Proof. vm_compute. repeat split. Qed.

(** Two claims are bound to the same volume in one pass. *)
Example volume_bound_twice :
  let pvc name := BPersistentVolumeClaim (MkPersistentVolumeClaim "default" name 10 "" "" ""
    PersistentVolumeClaimPending long_ago long_ago) in
  let db := after reconcilePVCBindings (world (store_all
    [BPersistentVolume (MkPersistentVolume "pv-1" 100 "" "" "" "" "" PersistentVolumeAvailable long_ago long_ago);
     pvc "a"; pvc "b"])) in
  List.map (fun c => (c.(PersistentVolumeClaim_Name), c.(PersistentVolumeClaim_VolumeName)))
    (list_of "pvc:" db) = [("a", "pv-1"); ("b", "pv-1")].
Proof. vm_compute. reflexivity. Qed.

(** Two ports with one target port leave one endpoint per workload. *)
Example shared_target_port_loses_endpoint :
  let svc := sample_service <| Service_Spec ::= set ServiceSpec_Ports (fun _ =>
    [MkServicePort "http" 80 8080 0 ServiceProtocolTCP; MkServicePort "admin" 81 8080 0 ServiceProtocolTCP]) |> in
  let db := after (reconcileServiceEndpoints "svc-1") (world (store_all [BNode (sample_node "n1" 500);
    BDeployment (sample_deployment 1 0 0); BWorkload (sample_workload "wk-1" WorkloadRunning 1); BService svc])) in
  length (list_of (T := ServiceEndpoint) "service-endpoint:" db) = 1%nat.
Proof. vm_compute. reflexivity. Qed.

(** A service of another namespace is announced under default. *)
Example dns_name_of_other_namespace :
  let svc := sample_service <| Service_Spec ::= set ServiceSpec_Namespace (fun _ => "prod") |> in
  (ResolveServiceDNS "web" (world (store_all [BService svc]))).1
  = Ok ("web.default.svc.cluster.local", [], 30).
Proof. vm_compute. reflexivity. Qed.

(** A NodePort service without a port: the call fails, but the connection it
    selected stays counted. *)
Example failed_route_counts_connection :
  let svc := sample_service <| Service_Spec ::= set ServiceSpec_Type (fun _ => ServiceTypeNodePort) |> in
  let '(r, w) := RouteServiceTraffic "web" "least-connections" (world (store_all
    [BNode (sample_node "n1" 500); BService svc; BServiceEndpoint (sample_endpoint "ep-1" true)])) in
  is_ok r = false /\ w.(w_balance) <> NewBalancer.
Proof. vm_compute. split; [reflexivity|discriminate]. Qed.

(** ** Keys, leases, numbers *)

(** A binding of a namespace called global is a global binding. *)
Example namespace_global : keyRoleBinding "global" "admin" = keyRoleBinding "" "admin".
Proof. reflexivity. Qed.

(** Keys of events are not in the order of time: the later one, with a fraction
    of a second, comes first. *)
Example event_keys_out_of_order :
  let t := unix_epoch + 1700000000 * Second in
  string_ltb (keyEvent (t + 500000000) "e") (keyEvent t "e") = true.
Proof. vm_compute. reflexivity. Qed.

(** A renewal is recorded as an acquisition. *)
Example renewal_recorded_as_acquisition :
  let acquire := TryAcquireControllerLeadership "c1" (10 * Second) in
  List.map ControlPlaneTransition_Action
    (list_of "transition:" (after (acquire ;; acquire) empty_world)) = ["LeaderAcquired"; "LeaderAcquired"].
Proof. vm_compute. reflexivity. Qed.

(** The prefix of an external planner is recognised in any case, and kept
    unless it is in lower case. *)
Example external_prefix_kept :
  (NewPlanner "external:score").(Planner_externalPluginCmd) = "score"
  /\ (NewPlanner "External:score").(Planner_externalPluginCmd) = "External:score".
Proof. split; reflexivity. Qed.

(** A huge number of assignments asked for makes the store panic. *)
Example huge_poll_panics :
  (PollAssignments "n1" i64_max empty_world).1 = Err (Panic "makeslice: cap out of range").
Proof. vm_compute. reflexivity. Qed.

(** 2^32 replicas are none in a gRPC response. *)
Example grpc_truncates_replicas :
  (pb_Replicas <$> (toPBDeployment (sample_deployment (2 ^ 32) 0 0)).(pb_Spec)) = Some 0.
Proof. vm_compute. reflexivity. Qed.

(** ** Requests *)

(** The status and the path with which the server answers a request of the
    agent. *)
Definition answer_to (req : Res Outgoing) : Res (string * option Z) :=
  match req with
  | Err e => Err e
  | Ok o =>
      match ParseRequestURI (RequestURI o.(out_URL)) with
      | Err e => Err e
      | Ok u => Ok (u.(u_Path), (mux handle (server_request o u ∅) (sample_server empty_world)).2.(s_w).(rw_status))
      end
  end.

(** A node called [a?b] can be registered, but its agent polls another path,
    where nothing is found; one called [50%] cannot even make the request. *)
Example node_name_not_escaped :
  let c := NewClient "http://localhost:8080" "dev-token" in
  validateNode (sample_node "a?b" 0) = Ok tt
  /\ answer_to (PollAssignments_request c "a?b" 5 "t") = Ok ("/v1/workers/a", Some 404)
  /\ answer_to (PollAssignments_request c "a-b" 5 "t") = Ok ("/v1/workers/a-b/assignments", Some 200)
  /\ answer_to (PollAssignments_request c "50%" 5 "t") = Err (Errorf "invalid URL escape").
Proof. vm_compute. repeat split; reflexivity. Qed.

(** An upstream that answers with the status 099, which Go's client accepts,
    makes the handler of the proxy panic. *)
Example proxied_status_panics :
  (proxy_answer "web" 1 3 15 (ProxyResponse (MkUpstream 99 ∅ "hello") false) (sample_server empty_world)).1
  = Err (Panic "invalid WriteHeader code 99").
Proof. vm_compute. reflexivity. Qed.
